(** * THRIVE-Belize deck runtime: a shallow embedding and its properties

    The repository ships two revisions of one browser script:
    [src/assets/js/deck.js] (module [DeckJs] below) and the revision with
    narration buttons, [src/unnamed/part_001] (module [Part001]).  Both keep
    their state in a handful of script variables and in the page's elements.

    Conventions of the embedding.
    - A script function becomes a function on the part of the state it
      reads and writes (navigation, timer, narration, video slots).
    - [document.getElementById(id)] may return [null]; an element is an
      [option] holding the properties the script touches.
    - A JavaScript [TypeError] (property access on [undefined]) is the
      [Throw] case of [result]; everything else is [Ok].
    - [setInterval]/[setTimeout] are a table of live handles with a counter
      for the next fresh handle; a callback can fire only while its handle
      is in the table.
    - Numbers are integers ([Z]) where the script only counts.  Where it
      divides, multiplies or parses a number the value is a double
      ([Js.double]): the result is the exact one rounded to the nearest
      double, ties to the even one, as IEEE 754 prescribes.
    - A string is kept as the bytes of its UTF-8 encoding; the commas,
      colons, signs and digits the script looks for are single bytes.
    - The script never adds or removes an element, so which elements exist
      is fixed; [audio.play()] is taken to start playback. *)

From Stdlib Require Import ZArith QArith Qpower Qround Qabs Qreduction.
From Stdlib Require Import Lia Lqa Ascii String Floats.
From stdpp Require Import numbers option list strings pretty.

Open Scope Z_scope.

(** ** JavaScript and DOM primitives shared by both revisions *)

Module Js.

Inductive result (A : Type) : Type :=
| Ok (a : A)
| Throw (e : string).
Arguments Ok {A} a.
Arguments Throw {A} e.

#[global] Instance result_ret : MRet result := fun A a => Ok a.
#[global] Instance result_bind : MBind result := fun A B f m =>
  match m with
  | Ok a => f a
  | Throw e => Throw e
  end.

(** [arr[i]] for a number [i] that is an integer: [undefined] ([None])
    outside the array. *)
Definition index {A : Type} (l : list A) (i : Z) : option A :=
  if i <? 0 then None else l !! Z.to_nat i.

(** [arr.length]. *)
Definition len {A : Type} (l : list A) : Z := Z.of_nat (length l).

(** String conversion of an integer, as [+] does when it concatenates a
    number with a string. *)
Definition str (n : Z) : string := pretty n.

(** *** Numbers in double precision

    A Number that is not an integer the script counts with: [NaN], an
    infinity, or a finite double, given by its sign and by its magnitude,
    a rational in lowest terms (so that [-0] is [Finite true 0]). *)
Inductive double : Type :=
| NaN
| Infinity (negative : bool)
| Finite (negative : bool) (magnitude : Q).

(** For [q > 0], the exponent [e] with [2^e <= q < 2^(e+1)]. *)
Definition flog2 (q : Q) : Z :=
  let e := Z.log2 (Qnum q) - Z.log2 (Zpos (Qden q)) in
  if Qle_bool (2 ^ e) q then e else e - 1.

(** The integer nearest to [q], the even one of the two when [q] lies
    half way. *)
Definition half_even (q : Q) : Z :=
  let f := Qfloor q in
  match Qcompare (q - inject_Z f) (1 # 2) with
  | Lt => f
  | Gt => f + 1
  | Eq => if Z.even f then f else f + 1
  end.

(** For [q > 0], the multiple of the unit in the last place nearest to
    [q]: a double has 53 significant bits, so the unit at [q] is
    [2^(flog2 q - 52)], and never less than [2^-1074], the smallest
    positive double. *)
Definition nearest (q : Q) : Q :=
  let ulp := (2 ^ Z.max (flog2 q - 52) (-1074))%Q in
  Qred (inject_Z (half_even (q / ulp)) * ulp).

(** The double for the real number of magnitude [q >= 0] and the given
    sign: the nearest one; an infinity from [2^1024] on. *)
Definition rnd (negative : bool) (q : Q) : double :=
  let q := Qred q in
  if Qle_bool q 0 then Finite negative 0
  else let v := nearest q in
       if Qle_bool (2 ^ 1024) v then Infinity negative else Finite negative v.

(** An integer of the script as a Number. *)
Definition num (z : Z) : double := rnd (z <? 0) (inject_Z (Z.abs z)).

Definition is_zero (q : Q) : bool := Qeq_bool q 0.

(** [x / y]. *)
Definition div (x y : double) : double :=
  match x, y with
  | NaN, _ | _, NaN => NaN
  | Infinity _, Infinity _ => NaN
  | Infinity s, Finite t _ => Infinity (xorb s t)
  | Finite s _, Infinity t => Finite (xorb s t) 0
  | Finite s a, Finite t b =>
      if is_zero b then (if is_zero a then NaN else Infinity (xorb s t))
      else rnd (xorb s t) (a / b)
  end.

(** [x * y]. *)
Definition mul (x y : double) : double :=
  match x, y with
  | NaN, _ | _, NaN => NaN
  | Infinity s, Infinity t => Infinity (xorb s t)
  | Infinity s, Finite t b => if is_zero b then NaN else Infinity (xorb s t)
  | Finite s a, Infinity t => if is_zero a then NaN else Infinity (xorb s t)
  | Finite s a, Finite t b => rnd (xorb s t) (a * b)
  end.

End Js.
Import Js.

(** ** The slide navigator's state *)

(** A slide: whether it carries the class [active], and the text of its
    [.speaker-note] child when it has one. *)
Record Slide : Type := {
  slide_active : bool;
  speaker_note : option string
}.

(** The script variables [slides] and [currentIndex] with the elements
    [#progress-fill] (its [style.width], the number in front of the
    percent sign), [#slide-counter],
    [#prev-btn] and [#next-btn] (their [disabled]) and [#notes-content]. *)
Record NavCore : Type := {
  slides : list Slide;
  currentIndex : Z;
  progress_fill : option Js.double;
  slide_counter : option string;
  prev_btn : option bool;
  next_btn : option bool;
  notes_content : option string
}.

Definition with_slides (v : list Slide) (c : NavCore) : NavCore :=
  {| slides := v; currentIndex := currentIndex c;
     progress_fill := progress_fill c; slide_counter := slide_counter c;
     prev_btn := prev_btn c; next_btn := next_btn c;
     notes_content := notes_content c |}.

Definition with_currentIndex (v : Z) (c : NavCore) : NavCore :=
  {| slides := slides c; currentIndex := v;
     progress_fill := progress_fill c; slide_counter := slide_counter c;
     prev_btn := prev_btn c; next_btn := next_btn c;
     notes_content := notes_content c |}.

Definition with_progress_fill (v : option Js.double) (c : NavCore) : NavCore :=
  {| slides := slides c; currentIndex := currentIndex c;
     progress_fill := v; slide_counter := slide_counter c;
     prev_btn := prev_btn c; next_btn := next_btn c;
     notes_content := notes_content c |}.

Definition with_counter (txt : option string) (p n : option bool)
    (c : NavCore) : NavCore :=
  {| slides := slides c; currentIndex := currentIndex c;
     progress_fill := progress_fill c; slide_counter := txt;
     prev_btn := p; next_btn := n;
     notes_content := notes_content c |}.

Definition with_notes_content (v : option string) (c : NavCore) : NavCore :=
  {| slides := slides c; currentIndex := currentIndex c;
     progress_fill := progress_fill c; slide_counter := slide_counter c;
     prev_btn := prev_btn c; next_btn := next_btn c;
     notes_content := v |}.

(** [slides[i].classList.add("active")] ([b = true]) and
    [slides[i].classList.remove("active")] ([b = false]); a [TypeError] when
    [slides[i]] is [undefined]. *)
Definition classList_active (b : bool) (i : Z) (c : NavCore) : result NavCore :=
  match Js.index (slides c) i with
  | Some sl =>
      Ok (with_slides
            (<[Z.to_nat i := {| slide_active := b;
                                speaker_note := speaker_note sl |}]> (slides c))
            c)
  | None => Throw "TypeError: cannot read properties of undefined (classList)"
  end.

(** One write to the reveal widget, in the order the script performed it
    (newest first in a log). *)
Inductive WidgetWrite : Type :=
| ClassAdd                      (* classList.add("visible") *)
| ClassRemove                   (* classList.remove("visible") *)
| SetDisplay (v : string).      (* style.display = v *)

(** What the user can ask of the navigator: the arrow, page and space keys
    and the two buttons call [nextSlide]/[prevSlide]; Home and End call
    [goToSlide]. *)
Inductive NavEvent : Type :=
| GoTo (index : Z)
| Next
| Prev.

(** [currentIndex] names a slide. *)
Definition nav_valid (c : NavCore) : Prop :=
  0 <= currentIndex c < Js.len (slides c).

(** ** The activity timer's state *)

(** An entry of the table [ACTIVITY_STEPS]. *)
Record ActivityStep : Type := {
  label : string;
  duration : Z
}.

(** [#timer-btn]: its [textContent], [className] and [disabled]. *)
Record TimerBtn : Type := {
  btn_text : string;
  btn_class : string;
  btn_disabled : bool
}.

(** [#timer-display]: its [textContent] and [className]. *)
Record TimerDisplay : Type := {
  display_text : string;
  display_class : string
}.

(** The script variables of the timer, the elements [#timer-btn],
    [#timer-reset] (only whether it exists), [#timer-display] and
    [#timer-step-name] (its [textContent]), and the browser's table of live
    [setInterval] handles with the next handle it will hand out. *)
Record Timer : Type := {
  timerInterval : option nat;
  timerSeconds : Z;
  timerRunning : bool;
  timerStepIndex : Z;
  timer_btn : option TimerBtn;
  timer_reset : bool;
  timer_display : option TimerDisplay;
  timer_step_name : option string;
  next_handle : nat;
  intervals : list nat
}.

Definition set_timerInterval (v : option nat) (s : Timer) : Timer :=
  {| timerInterval := v; timerSeconds := timerSeconds s;
     timerRunning := timerRunning s; timerStepIndex := timerStepIndex s;
     timer_btn := timer_btn s; timer_reset := timer_reset s;
     timer_display := timer_display s; timer_step_name := timer_step_name s;
     next_handle := next_handle s; intervals := intervals s |}.

Definition set_timerSeconds (v : Z) (s : Timer) : Timer :=
  {| timerInterval := timerInterval s; timerSeconds := v;
     timerRunning := timerRunning s; timerStepIndex := timerStepIndex s;
     timer_btn := timer_btn s; timer_reset := timer_reset s;
     timer_display := timer_display s; timer_step_name := timer_step_name s;
     next_handle := next_handle s; intervals := intervals s |}.

Definition set_timerRunning (v : bool) (s : Timer) : Timer :=
  {| timerInterval := timerInterval s; timerSeconds := timerSeconds s;
     timerRunning := v; timerStepIndex := timerStepIndex s;
     timer_btn := timer_btn s; timer_reset := timer_reset s;
     timer_display := timer_display s; timer_step_name := timer_step_name s;
     next_handle := next_handle s; intervals := intervals s |}.

Definition set_timerStepIndex (v : Z) (s : Timer) : Timer :=
  {| timerInterval := timerInterval s; timerSeconds := timerSeconds s;
     timerRunning := timerRunning s; timerStepIndex := v;
     timer_btn := timer_btn s; timer_reset := timer_reset s;
     timer_display := timer_display s; timer_step_name := timer_step_name s;
     next_handle := next_handle s; intervals := intervals s |}.

Definition set_timer_btn (v : option TimerBtn) (s : Timer) : Timer :=
  {| timerInterval := timerInterval s; timerSeconds := timerSeconds s;
     timerRunning := timerRunning s; timerStepIndex := timerStepIndex s;
     timer_btn := v; timer_reset := timer_reset s;
     timer_display := timer_display s; timer_step_name := timer_step_name s;
     next_handle := next_handle s; intervals := intervals s |}.

Definition set_timer_display (v : option TimerDisplay) (s : Timer) : Timer :=
  {| timerInterval := timerInterval s; timerSeconds := timerSeconds s;
     timerRunning := timerRunning s; timerStepIndex := timerStepIndex s;
     timer_btn := timer_btn s; timer_reset := timer_reset s;
     timer_display := v; timer_step_name := timer_step_name s;
     next_handle := next_handle s; intervals := intervals s |}.

Definition set_timer_step_name (v : option string) (s : Timer) : Timer :=
  {| timerInterval := timerInterval s; timerSeconds := timerSeconds s;
     timerRunning := timerRunning s; timerStepIndex := timerStepIndex s;
     timer_btn := timer_btn s; timer_reset := timer_reset s;
     timer_display := timer_display s; timer_step_name := v;
     next_handle := next_handle s; intervals := intervals s |}.

(** [setInterval(callback, 1000)]: the browser hands out a fresh handle
    and keeps it live; the result is the handle and the new table. *)
Definition setInterval (s : Timer) : nat * Timer :=
  (next_handle s,
   {| timerInterval := timerInterval s; timerSeconds := timerSeconds s;
      timerRunning := timerRunning s; timerStepIndex := timerStepIndex s;
      timer_btn := timer_btn s; timer_reset := timer_reset s;
      timer_display := timer_display s; timer_step_name := timer_step_name s;
      next_handle := S (next_handle s);
      intervals := next_handle s :: intervals s |}).

(** [clearInterval(h)]: [h] is no longer live; [clearInterval(null)] does
    nothing. *)
Definition clearInterval (h : option nat) (s : Timer) : Timer :=
  match h with
  | None => s
  | Some h =>
      {| timerInterval := timerInterval s; timerSeconds := timerSeconds s;
         timerRunning := timerRunning s; timerStepIndex := timerStepIndex s;
         timer_btn := timer_btn s; timer_reset := timer_reset s;
         timer_display := timer_display s; timer_step_name := timer_step_name s;
         next_handle := next_handle s;
         intervals := filter (fun h' => h' <> h) (intervals s) |}
  end.

(** [if (btn) { btn.textContent = ...; btn.className = ...; btn.disabled = ... }]
    with [None] for a property the statement leaves alone. *)
Definition btn_assign (text cls : option string) (dis : option bool)
    (s : Timer) : Timer :=
  match timer_btn s with
  | None => s
  | Some b =>
      set_timer_btn
        (Some {| btn_text := default (btn_text b) text;
                 btn_class := default (btn_class b) cls;
                 btn_disabled := default (btn_disabled b) dis |})
        s
  end.

(** What can happen to the timer: a click on [#timer-btn], a click on
    [#timer-reset], or the browser firing the interval callback of a
    handle. *)
Inductive TimerEvent : Type :=
| ClickBtn
| ClickReset
| Tick (h : nat).

(** The four states of the sequencer, read off the script variables. *)
Inductive Phase : Type := Idle | Running | Paused | Complete.

(** ** Strings and numbers of the narration cue parser *)

Module JsString.

(** [s.split(sep)] for a one-character separator: the pieces, of which
    there is always a first one. *)
Fixpoint split (sep : ascii) (s : string) : string * list string :=
  match s with
  | EmptyString => (EmptyString, [])
  | String c s' =>
      let '(h, t) := split sep s' in
      if Ascii.eqb c sep then (EmptyString, h :: t) else (String c h, t)
  end.

(** The white space and line terminators that [parseFloat] skips, by
    the bytes of their UTF-8 encoding: TAB, LF, VT, FF, CR and SPACE;
    U+00A0; U+1680; U+2000 to U+200A, U+2028, U+2029 and U+202F; U+205F;
    U+3000; U+FEFF. *)
Definition space1 (a : nat) : bool :=
  bool_decide (a = 9 \/ a = 10 \/ a = 11 \/ a = 12 \/ a = 13 \/ a = 32)%nat.

Definition space2 (a b : nat) : bool :=
  bool_decide (a = 194 /\ b = 160)%nat.

Definition space3 (a b c : nat) : bool :=
  bool_decide
    ((a = 225 /\ b = 154 /\ c = 128)
     \/ (a = 226 /\ b = 128
         /\ (128 <= c <= 138 \/ c = 168 \/ c = 169 \/ c = 175))
     \/ (a = 226 /\ b = 129 /\ c = 159)
     \/ (a = 227 /\ b = 128 /\ c = 128)
     \/ (a = 239 /\ b = 187 /\ c = 191))%nat.

Fixpoint trim_start (s : string) : string :=
  match s with
  | EmptyString => EmptyString
  | String c1 s1 =>
      if space1 (nat_of_ascii c1) then trim_start s1
      else
        match s1 with
        | EmptyString => s
        | String c2 s2 =>
            if space2 (nat_of_ascii c1) (nat_of_ascii c2) then trim_start s2
            else
              match s2 with
              | EmptyString => s
              | String c3 s3 =>
                  if space3 (nat_of_ascii c1) (nat_of_ascii c2)
                       (nat_of_ascii c3)
                  then trim_start s3
                  else s
              end
        end
  end.

Definition is_digit (c : ascii) : bool :=
  let n := nat_of_ascii c in
  bool_decide (48 <= n <= 57)%nat.

(** The longest prefix of decimal digits, and the rest. *)
Fixpoint span_digits (s : string) : string * string :=
  match s with
  | String c s' =>
      if is_digit c
      then let '(d, r) := span_digits s' in (String c d, r)
      else (EmptyString, s)
  | EmptyString => (EmptyString, EmptyString)
  end.

(** The value of a string of decimal digits. *)
Fixpoint digits_value (acc : Z) (s : string) : Z :=
  match s with
  | String c s' => digits_value (10 * acc + (Z.of_nat (nat_of_ascii c) - 48)) s'
  | EmptyString => acc
  end.

Definition take_sign (s : string) : bool * string :=
  match s with
  | String "-" r => (true, r)
  | String "+" r => (false, r)
  | _ => (false, s)
  end.

(** [parseFloat(v)]; [None] is [undefined], whose string conversion has
    no numeric prefix.  After white space and a sign, the longest prefix
    that is a decimal literal is read: [Infinity], or digits with an
    optional fraction and an optional exponent, of which the exponent
    counts only when it has a digit.  The result is the double nearest to
    the number the literal denotes. *)
Definition parseFloat (v : option string) : Js.double :=
  match v with
  | None => Js.NaN
  | Some s =>
      let '(neg, s) := take_sign (trim_start s) in
      if String.prefix "Infinity" s then Js.Infinity neg
      else
        let '(ip, r) := span_digits s in
        let '(fp, r) :=
          match r with
          | String "." r' => span_digits r'
          | _ => (EmptyString, r)
          end in
        if String.eqb ip "" && String.eqb fp "" then Js.NaN
        else
          let e :=
            match r with
            | String c r' =>
                if Ascii.eqb c "e" || Ascii.eqb c "E" then
                  let '(eneg, r'') := take_sign r' in
                  let '(ed, _) := span_digits r'' in
                  if String.eqb ed "" then 0
                  else if eneg then - digits_value 0 ed else digits_value 0 ed
                else 0
            | EmptyString => 0
            end in
          Js.rnd neg
            (inject_Z (digits_value 0 (ip +:+ fp))
             * 10 ^ (e - Z.of_nat (String.length fp)))%Q
  end.

End JsString.

(** ** Parsed JSON and the video slots *)

(** A value produced by [JSON.parse].  A number is kept as the text of its
    string conversion, so zero is ["0"]; an object is the list of its
    properties, the first entry for a key being the property. *)
#[local] Unset Elimination Schemes.
Inductive Json : Type :=
| JNull
| JBool (b : bool)
| JNum (lit : string)
| JStr (s : string)
| JArr (items : list Json)
| JObj (fields : list (string * Json)).
#[local] Set Elimination Schemes.

(** A JavaScript value here is an [option Json], [None] being
    [undefined]. *)
Definition truthy (v : option Json) : bool :=
  match v with
  | None => false
  | Some JNull => false
  | Some (JBool b) => b
  | Some (JNum lit) => negb (String.eqb lit "0")
  | Some (JStr s) => negb (String.eqb s "")
  | Some (JArr _) => true
  | Some (JObj _) => true
  end.

Fixpoint assoc (k : string) (fields : list (string * Json)) : option Json :=
  match fields with
  | [] => None
  | (k', v) :: rest => if String.eqb k k' then Some v else assoc k rest
  end.

(** [v.k] and [v[k]] for a key [k] that names no built-in property (the
    script reads only [videos], [v1], [v2], [v3], [filename], [duration]
    and [remote]): a [TypeError] on [undefined] and [null], the own
    property of an object, [undefined] on everything else. *)
Definition get (v : option Json) (k : string) : result (option Json) :=
  match v with
  | None => Throw "TypeError: cannot read properties of undefined"
  | Some JNull => Throw "TypeError: cannot read properties of null"
  | Some (JObj fields) => Ok (assoc k fields)
  | Some _ => Ok None
  end.

(** String conversion, as the setters of [textContent] and [src] apply
    it.  An object from [JSON.parse] converts through
    [Object.prototype.toString] unless it has a property [toString] of its
    own: no JSON value is callable, so the conversion then finds no method
    that yields a primitive and raises a [TypeError].  An array joins the
    conversions of its elements, [null] counting as the empty string. *)
Fixpoint to_string (v : Json) : result string :=
  match v with
  | JNull => Ok "null"
  | JBool b => Ok (if b then "true" else "false")
  | JNum lit => Ok lit
  | JStr s => Ok s
  | JArr items =>
      parts ← (fix join (l : list Json) : result (list string) :=
                 match l with
                 | [] => Ok []
                 | x :: l' =>
                     t ← match x with
                         | JNull => Ok ""
                         | _ => to_string x
                         end;
                     ts ← join l';
                     Ok (t :: ts)
                 end) items;
      Ok (String.concat "," parts)
  | JObj fields =>
      match assoc "toString" fields with
      | Some _ => Throw "TypeError: cannot convert object to primitive value"
      | None => Ok "[object Object]"
      end
  end.

(** The string conversion of a JavaScript value. *)
Definition text_of (v : option Json) : result string :=
  match v with
  | Some x => to_string x
  | None => Ok "undefined"
  end.

(** [v || d] followed by the string conversion of the setter. *)
Definition or_text (v : option Json) (d : string) : result string :=
  if truthy v then text_of v else Ok d.

(** The [onerror] handler of a video player: none, or the closure that
    [hydrateVideos] installs, which holds the record [rec]. *)
Inductive ErrorHandler : Type :=
| NoHandler
| FallbackOf (rec : option Json).

(** [video[data-video=key]]: its [src] and [onerror]. *)
Record Player : Type := {
  src : string;
  onerror : ErrorHandler
}.

(** The three elements of one video key: [#key-file] and [#key-dur] (their
    [textContent]) and the player. *)
Record VideoSlot : Type := {
  fileEl : option string;
  durEl : option string;
  player : option Player
}.

(** [#deck-data] (its [textContent]) and the slots by key. *)
Record VideoDoc : Type := {
  deck_data : option string;
  video : string -> VideoSlot
}.

Definition set_video (key : string) (v : VideoSlot) (d : VideoDoc) : VideoDoc :=
  {| deck_data := deck_data d;
     video := fun k => if String.eqb k key then v else video d k |}.

(** [arr.forEach(f)] for a callback that updates the state and may
    throw. *)
Fixpoint forEach {A S : Type} (f : A -> S -> result S) (l : list A) (s : S)
    : result S :=
  match l with
  | [] => Ok s
  | x :: l' => s' ← f x s; forEach f l' s'
  end.

(** ** The keyboard, the notes panel and full screen *)

(** A [keydown] event as the handler reads it: [e.key] and
    [e.target.tagName], which is [None] for a target that has none (the
    document, the window). *)
Record KeyEvent : Type := {
  key : string;
  tagName : option string
}.

(** [String.prototype.toLowerCase] on the letters [A] to [Z].  A string
    is its sequence of bytes here, and the bytes outside ASCII are kept.
    The script compares the result with "input", "textarea", "video" and
    "button" only; the characters outside ASCII whose lower case is an
    ASCII letter yield [k], which none of the four words contains, so
    the comparisons come out as in the browser. *)
Definition lower (c : ascii) : ascii :=
  let n := N_of_ascii c in
  if ((65 <=? n) && (n <=? 90))%N then ascii_of_N (n + 32) else c.

Fixpoint toLowerCase (s : string) : string :=
  match s with
  | EmptyString => EmptyString
  | String c s' => String (lower c) (toLowerCase s')
  end.

(** A call of the Fullscreen API by the script; the promise it returns
    is given a handler that ignores a rejection. *)
Inductive FullscreenCall : Type :=
| RequestFullscreen             (* document.documentElement.requestFullscreen() *)
| ExitFullscreen.               (* document.exitFullscreen() *)

(** The script variable [notesVisible], the element [#notes-panel]
    (whether its class list has [visible]), whether
    [document.fullscreenElement] is set, which the browser alone changes,
    and the calls of the Fullscreen API so far, newest first. *)
Record Chrome : Type := {
  notesVisible : bool;
  notes_panel : option bool;
  fullscreenElement : bool;
  fullscreen_calls : list FullscreenCall
}.

(** What can happen to a page once [init] has run: a click on
    [#prev-btn] or [#next-btn], a key, the browser entering or leaving
    full screen, an event of the timer, and a video player failing to
    load its source. *)
Inductive AppEvent : Type :=
| ClickPrev
| ClickNext
| KeyDown (e : KeyEvent)
| FullscreenChange (on : bool)
| TimerEvt (e : TimerEvent)
| VideoError (k : string).

(** ** [src/assets/js/deck.js] *)

Module DeckJs.

(** Navigation state: the core plus [musicActive], the element
    [#music-player] (whether its class list has [visible]) and the log of
    writes to that element. *)
Record State : Type := {
  core : NavCore;
  musicActive : bool;
  music_player : option bool;
  music_log : list WidgetWrite
}.

Definition with_core (c : NavCore) (s : State) : State :=
  {| core := c; musicActive := musicActive s;
     music_player := music_player s; music_log := music_log s |}.

Definition updateProgress (c : NavCore) : NavCore :=
  match progress_fill c with
  | None => c
  | Some _ =>
      with_progress_fill
        (Some (if Js.len (slides c) >? 1
               then Js.mul (Js.div (Js.num (currentIndex c))
                                   (Js.num (Js.len (slides c) - 1)))
                           (Js.num 100)
               else Js.num 100))
        c
  end.

Definition updateCounter (c : NavCore) : NavCore :=
  with_counter
    (match slide_counter c with
     | Some _ => Some (Js.str (currentIndex c + 1) +:+ " / "
                       +:+ Js.str (Js.len (slides c)))
     | None => None
     end)
    (match prev_btn c with
     | Some _ => Some (currentIndex c =? 0)
     | None => None
     end)
    (match next_btn c with
     | Some _ => Some (currentIndex c =? Js.len (slides c) - 1)
     | None => None
     end)
    c.

Definition updateNotes (c : NavCore) : NavCore :=
  match notes_content c with
  | None => c
  | Some _ =>
      let note :=
        match Js.index (slides c) (currentIndex c) with
        | Some slide => speaker_note slide
        | None => None
        end in
      with_notes_content
        (Some (match note with Some txt => txt | None => "" end)) c
  end.

Definition updateMusic (s : State) : State :=
  match music_player s with
  | None => s
  | Some _ =>
      let musicStart := Js.len (slides (core s)) - 3 in
      let shouldShow := currentIndex (core s) >=? musicStart in
      if shouldShow && negb (musicActive s) then
        {| core := core s; musicActive := true;
           music_player := Some true;
           music_log := ClassAdd :: music_log s |}
      else if negb shouldShow && musicActive s then
        {| core := core s; musicActive := false;
           music_player := Some false;
           music_log := ClassRemove :: music_log s |}
      else s
  end.

Definition goToSlide (index : Z) (s : State) : result State :=
  if (index <? 0) || (index >=? Js.len (slides (core s))) then Ok s
  else
    c1 ← classList_active false (currentIndex (core s)) (core s);
    let c2 := with_currentIndex index c1 in
    c3 ← classList_active true (currentIndex c2) c2;
    Ok (updateMusic (with_core (updateNotes (updateCounter (updateProgress c3))) s)).

Definition nextSlide (s : State) : result State :=
  goToSlide (Z.min (Js.len (slides (core s)) - 1) (currentIndex (core s) + 1)) s.

Definition prevSlide (s : State) : result State :=
  goToSlide (Z.max 0 (currentIndex (core s) - 1)) s.

Definition nav_step (e : NavEvent) (s : State) : result State :=
  match e with
  | GoTo i => goToSlide i s
  | Next => nextSlide s
  | Prev => prevSlide s
  end.

Fixpoint nav_run (es : list NavEvent) (s : State) : result State :=
  match es with
  | [] => Ok s
  | e :: es' => s' ← nav_step e s; nav_run es' s'
  end.


Definition ACTIVITY_STEPS : list ActivityStep :=
  [ {| label := "Pick one THRIVE module + one evidence principle. Write a one-sentence workshop goal."; duration := 180 |};
    {| label := "Plan your hardest moment. A participant says something harmful. Write what you'd say and do."; duration := 180 |};
    {| label := "Pair up. Pitch your workshop in 60 seconds. Your partner gives you one challenge."; duration := 120 |};
    {| label := "Whole class: share the toughest challenge you received."; duration := 120 |} ].

(** *** Timer.  [steps] stands for the table [ACTIVITY_STEPS]. *)

Definition renderTimer (steps : list ActivityStep) (s : Timer) : result Timer :=
  match timer_display s with
  | None => Ok s
  | Some _ =>
      let m := timerSeconds s / 60 in
      let sec := Z.rem (timerSeconds s) 60 in
      let text := (if m <? 10 then "0" else "") +:+ Js.str m +:+ ":"
                  +:+ (if sec <? 10 then "0" else "") +:+ Js.str sec in
      let cls := "timer-display" in
      let cls :=
        if (timerSeconds s <=? 10) && (timerSeconds s >? 0)
        then cls +:+ " danger"
        else if timerSeconds s <=? 30 then cls +:+ " warning"
        else cls in
      let s := set_timer_display
                 (Some {| display_text := text; display_class := cls |}) s in
      match timer_step_name s with
      | None => Ok s
      | Some _ =>
          if timerStepIndex s <? Js.len steps then
            match Js.index steps (timerStepIndex s) with
            | Some st =>
                Ok (set_timer_step_name
                      (Some ("Step " +:+ Js.str (timerStepIndex s + 1)
                             +:+ ": " +:+ label st)) s)
            | None => Throw "TypeError: cannot read properties of undefined (label)"
            end
          else Ok (set_timer_step_name (Some "Activity complete.") s)
      end
  end.

(** The callback that [startTimer] hands to [setInterval]. *)
Definition tick (steps : list ActivityStep) (s : Timer) : result Timer :=
  let s := set_timerSeconds (timerSeconds s - 1) s in
  s ← (if timerSeconds s <=? 0 then
         let s := set_timerStepIndex (timerStepIndex s + 1) s in
         if timerStepIndex s <? Js.len steps then
           match Js.index steps (timerStepIndex s) with
           | Some st => Ok (set_timerSeconds (duration st) s)
           | None => Throw "TypeError: cannot read properties of undefined (duration)"
           end
         else
           let s := clearInterval (timerInterval s) s in
           let s := set_timerRunning false s in
           let s := set_timerSeconds 0 s in
           Ok (btn_assign (Some "Done") None (Some true) s)
       else Ok s);
  renderTimer steps s.

Definition startTimer (s : Timer) : Timer :=
  let s := set_timerRunning true s in
  let s := btn_assign (Some "Pause") (Some "timer-btn timer-btn--pause") None s in
  let '(h, s) := setInterval s in
  set_timerInterval (Some h) s.

Definition pauseTimer (s : Timer) : Timer :=
  let s := set_timerRunning false s in
  let s := clearInterval (timerInterval s) s in
  btn_assign (Some "Resume") (Some "timer-btn timer-btn--start") None s.

Definition resetTimer (steps : list ActivityStep) (s : Timer) : result Timer :=
  let s := clearInterval (timerInterval s) s in
  let s := set_timerRunning false s in
  let s := set_timerStepIndex 0 s in
  match Js.index steps 0 with
  | None => Throw "TypeError: cannot read properties of undefined (duration)"
  | Some st =>
      let s := set_timerSeconds (duration st) s in
      let s := btn_assign (Some "Start") (Some "timer-btn timer-btn--start")
                 (Some false) s in
      renderTimer steps s
  end.

(** [setupTimer] installs the two click listeners unless [#timer-btn] is
    missing; the listeners are [timer_step ClickBtn] and
    [timer_step ClickReset] below. *)
Definition setupTimer (steps : list ActivityStep) (s : Timer) : result Timer :=
  match timer_btn s with
  | None => Ok s
  | Some _ =>
      let s := set_timerStepIndex 0 s in
      match Js.index steps 0 with
      | None => Throw "TypeError: cannot read properties of undefined (duration)"
      | Some st => renderTimer steps (set_timerSeconds (duration st) s)
      end
  end.

(** One event of the page.  A click reaches its listener only when
    [setupTimer] installed it (so [#timer-btn] exists) and, for
    [#timer-btn], when the button is not disabled; an interval callback
    runs only while its handle is live. *)
Definition timer_step (steps : list ActivityStep) (e : TimerEvent)
    (s : Timer) : result Timer :=
  match e with
  | ClickBtn =>
      match timer_btn s with
      | Some b =>
          if btn_disabled b then Ok s
          else if timerRunning s then Ok (pauseTimer s) else Ok (startTimer s)
      | None => Ok s
      end
  | ClickReset =>
      match timer_btn s with
      | Some _ => if timer_reset s then resetTimer steps s else Ok s
      | None => Ok s
      end
  | Tick h =>
      if bool_decide (h ∈ intervals s) then tick steps s else Ok s
  end.

Fixpoint timer_run (steps : list ActivityStep) (es : list TimerEvent)
    (s : Timer) : result Timer :=
  match es with
  | [] => Ok s
  | e :: es' => s' ← timer_step steps e s; timer_run steps es' s'
  end.


(** *** Video metadata.  [JSON_parse] is the browser's parser, [None]
    when it throws a [SyntaxError]. *)

Definition hydrate_key (videos : option Json) (key : string) (d : VideoDoc)
    : result VideoDoc :=
  r ← get videos key;
  let rec := if truthy r then r else Some (JObj []) in
  let slot := video d key in
  file1 ← match fileEl slot with
          | Some _ =>
              f ← get rec "filename"; t ← or_text f "Not detected"; Ok (Some t)
          | None => Ok None
          end;
  dur1 ← match durEl slot with
         | Some _ =>
             f ← get rec "duration"; t ← or_text f "Play to see"; Ok (Some t)
         | None => Ok None
         end;
  match player slot with
  | None =>
      Ok (set_video key {| fileEl := file1; durEl := dur1; player := None |} d)
  | Some p =>
      f ← get rec "filename";
      if truthy f then
        src1 ← text_of f;
        Ok (set_video key
              {| fileEl := file1; durEl := dur1;
                 player := Some {| src := src1; onerror := FallbackOf rec |} |}
              d)
      else
        rm ← get rec "remote";
        if truthy rm then
          src1 ← text_of rm;
          Ok (set_video key
                {| fileEl := match file1 with
                             | Some _ => Some "Streaming from GitHub"
                             | None => None
                             end;
                   durEl := dur1;
                   player := Some {| src := src1; onerror := onerror p |} |}
                d)
        else
          Ok (set_video key {| fileEl := file1; durEl := dur1; player := Some p |} d)
  end.

Definition hydrateVideos (JSON_parse : string -> option Json) (d : VideoDoc)
    : result VideoDoc :=
  match deck_data d with
  | None => Ok d
  | Some text =>
      match JSON_parse text with
      | None => Ok d
      | Some data =>
          if negb (truthy (Some data)) then Ok d
          else
            videos ← get (Some data) "videos";
            if negb (truthy videos) then Ok d
            else forEach (hydrate_key videos) ["v1"; "v2"; "v3"] d
      end
  end.

(** The [onerror] handler of the player of [key] runs. *)
Definition player_error (key : string) (d : VideoDoc) : result VideoDoc :=
  let slot := video d key in
  match player slot with
  | Some p =>
      match onerror p with
      | FallbackOf rec =>
          rm ← get rec "remote";
          if truthy rm then
            src1 ← text_of rm;
            Ok (set_video key
                  {| fileEl := match fileEl slot with
                               | Some _ => Some "Streaming from GitHub"
                               | None => None
                               end;
                     durEl := durEl slot;
                     player := Some {| src := src1; onerror := onerror p |} |}
                  d)
          else Ok d
      | NoHandler => Ok d
      end
  | None => Ok d
  end.

(** *** Notes panel, full screen, keyboard and start-up *)

(** The navigator with the notes panel and the full-screen state. *)
Record Page : Type := {
  nav : State;
  chrome : Chrome
}.

Definition toggleNotes (c : Chrome) : Chrome :=
  match notes_panel c with
  | None => c
  | Some _ =>
      let v := negb (notesVisible c) in
      {| notesVisible := v; notes_panel := Some v;
         fullscreenElement := fullscreenElement c;
         fullscreen_calls := fullscreen_calls c |}
  end.

Definition toggleFullscreen (c : Chrome) : Chrome :=
  {| notesVisible := notesVisible c; notes_panel := notes_panel c;
     fullscreenElement := fullscreenElement c;
     fullscreen_calls :=
       (if negb (fullscreenElement c) then RequestFullscreen else ExitFullscreen)
       :: fullscreen_calls c |}.

(** The [keydown] listener that [setupKeyboard] installs on the
    document.  The result holds whether the handler called
    [e.preventDefault()]. *)
Definition keydown (e : KeyEvent) (p : Page) : result (bool * Page) :=
  let tag := toLowerCase (default "" (tagName e)) in
  if String.eqb tag "input" || String.eqb tag "textarea" then Ok (false, p)
  else
    let moved (r : result State) : result (bool * Page) :=
      n ← r; Ok (true, {| nav := n; chrome := chrome p |}) in
    if String.eqb (key e) "ArrowRight" || String.eqb (key e) "PageDown" then
      moved (nextSlide (nav p))
    else if String.eqb (key e) " " then
      if negb (String.eqb tag "video") && negb (String.eqb tag "button")
      then moved (nextSlide (nav p))
      else Ok (false, p)
    else if String.eqb (key e) "ArrowLeft" || String.eqb (key e) "PageUp" then
      moved (prevSlide (nav p))
    else if String.eqb (key e) "Home" then
      moved (goToSlide 0 (nav p))
    else if String.eqb (key e) "End" then
      moved (goToSlide (Js.len (slides (core (nav p))) - 1) (nav p))
    else if String.eqb (key e) "s" || String.eqb (key e) "S" then
      Ok (false, {| nav := nav p; chrome := toggleNotes (chrome p) |})
    else if String.eqb (key e) "f" || String.eqb (key e) "F" then
      Ok (false, {| nav := nav p; chrome := toggleFullscreen (chrome p) |})
    else Ok (false, p).

(** [setupNavigation] makes [prevSlide] and [nextSlide] the click
    listeners of [#prev-btn] and [#next-btn] where these exist; a
    disabled button dispatches no click. *)
Definition click_prev (s : State) : result State :=
  match prev_btn (core s) with
  | Some false => prevSlide s
  | _ => Ok s
  end.

Definition click_next (s : State) : result State :=
  match next_btn (core s) with
  | Some false => nextSlide s
  | _ => Ok s
  end.


(** The whole page of [deck.js]. *)
Record App : Type := {
  page : Page;
  timer : Timer;
  videos : VideoDoc
}.

(** [init].  The slides of the model are the [.slide] elements, so the
    script variable [slides] holds them from here on; [setupNavigation]
    and [setupKeyboard] only install the listeners that [app_step] runs.
    An exception leaves [init] at once. *)
Definition init (JSON_parse : string -> option Json) (steps : list ActivityStep)
    (a : App) : result App :=
  if Js.len (slides (core (nav (page a)))) =? 0 then Ok a
  else
    v ← hydrateVideos JSON_parse (videos a);
    t ← setupTimer steps (timer a);
    n ← goToSlide 0 (nav (page a));
    Ok {| page := {| nav := n; chrome := chrome (page a) |};
          timer := t; videos := v |}.

Definition app_step (steps : list ActivityStep) (e : AppEvent) (a : App)
    : result App :=
  match e with
  | ClickPrev =>
      n ← click_prev (nav (page a));
      Ok {| page := {| nav := n; chrome := chrome (page a) |};
            timer := timer a; videos := videos a |}
  | ClickNext =>
      n ← click_next (nav (page a));
      Ok {| page := {| nav := n; chrome := chrome (page a) |};
            timer := timer a; videos := videos a |}
  | KeyDown k =>
      r ← keydown k (page a);
      Ok {| page := r.2; timer := timer a; videos := videos a |}
  | FullscreenChange on =>
      Ok {| page :=
              {| nav := nav (page a);
                 chrome :=
                   {| notesVisible := notesVisible (chrome (page a));
                      notes_panel := notes_panel (chrome (page a));
                      fullscreenElement := on;
                      fullscreen_calls := fullscreen_calls (chrome (page a)) |} |};
            timer := timer a; videos := videos a |}
  | TimerEvt te =>
      t ← timer_step steps te (timer a);
      Ok {| page := page a; timer := t; videos := videos a |}
  | VideoError k =>
      v ← player_error k (videos a);
      Ok {| page := page a; timer := timer a; videos := v |}
  end.

Fixpoint app_run (steps : list ActivityStep) (es : list AppEvent) (a : App)
    : result App :=
  match es with
  | [] => Ok a
  | e :: es' => a' ← app_step steps e a; app_run steps es' a'
  end.

End DeckJs.



(** ** [src/unnamed/part_001] *)

Module Part001.

(** Navigation state: the core plus the element [#spotify-box] (its
    [style.display]) and the log of writes to it. *)
Record State : Type := {
  core : NavCore;
  spotify_box : option string;
  spotify_log : list WidgetWrite
}.

Definition with_core (c : NavCore) (s : State) : State :=
  {| core := c; spotify_box := spotify_box s; spotify_log := spotify_log s |}.

Definition updateProgress (c : NavCore) : NavCore :=
  match progress_fill c with
  | None => c
  | Some _ =>
      with_progress_fill
        (Some (if Js.len (slides c) >? 1
               then Js.mul (Js.div (Js.num (currentIndex c))
                                   (Js.num (Js.len (slides c) - 1)))
                           (Js.num 100)
               else Js.num 100))
        c
  end.

Definition updateCounter (c : NavCore) : NavCore :=
  with_counter
    (match slide_counter c with
     | Some _ => Some (Js.str (currentIndex c + 1) +:+ " / "
                       +:+ Js.str (Js.len (slides c)))
     | None => None
     end)
    (match prev_btn c with
     | Some _ => Some (currentIndex c =? 0)
     | None => None
     end)
    (match next_btn c with
     | Some _ => Some (currentIndex c =? Js.len (slides c) - 1)
     | None => None
     end)
    c.

Definition updateNotes (c : NavCore) : NavCore :=
  match notes_content c with
  | None => c
  | Some _ =>
      let note :=
        match Js.index (slides c) (currentIndex c) with
        | Some slide => speaker_note slide
        | None => None
        end in
      with_notes_content
        (Some (match note with Some txt => txt | None => "" end)) c
  end.

Definition updateMusic (s : State) : State :=
  match spotify_box s with
  | None => s
  | Some _ =>
      let show := currentIndex (core s) >=? Js.len (slides (core s)) - 3 in
      let v := if show then "block" else "none" in
      {| core := core s; spotify_box := Some v;
         spotify_log := SetDisplay v :: spotify_log s |}
  end.

Definition goToSlide (index : Z) (s : State) : result State :=
  if (index <? 0) || (index >=? Js.len (slides (core s))) then Ok s
  else
    c1 ← classList_active false (currentIndex (core s)) (core s);
    let c2 := with_currentIndex index c1 in
    c3 ← classList_active true (currentIndex c2) c2;
    Ok (updateMusic (with_core (updateNotes (updateCounter (updateProgress c3))) s)).

Definition nextSlide (s : State) : result State :=
  goToSlide (Z.min (Js.len (slides (core s)) - 1) (currentIndex (core s) + 1)) s.

Definition prevSlide (s : State) : result State :=
  goToSlide (Z.max 0 (currentIndex (core s) - 1)) s.

Definition nav_step (e : NavEvent) (s : State) : result State :=
  match e with
  | GoTo i => goToSlide i s
  | Next => nextSlide s
  | Prev => prevSlide s
  end.

Fixpoint nav_run (es : list NavEvent) (s : State) : result State :=
  match es with
  | [] => Ok s
  | e :: es' => s' ← nav_step e s; nav_run es' s'
  end.


Definition ACTIVITY_STEPS : list ActivityStep :=
  [ {| label := "From Video 1: Name one principle you would demand before funding any prevention program."; duration := 60 |};
    {| label := "From Video 2: Which THRIVE module would you facilitate? Write one sentence why."; duration := 60 |};
    {| label := "From Video 3: A participant pushes back. Write what you would say using one facilitation move."; duration := 60 |};
    {| label := "Pair up: Share your three answers. Your partner picks the strongest one."; duration := 60 |} ].

(** *** Timer.  [steps] stands for the table [ACTIVITY_STEPS]. *)

Definition renderTimer (steps : list ActivityStep) (s : Timer) : result Timer :=
  match timer_display s with
  | None => Ok s
  | Some _ =>
      let m := timerSeconds s / 60 in
      let sec := Z.rem (timerSeconds s) 60 in
      let text := (if m <? 10 then "0" else "") +:+ Js.str m +:+ ":"
                  +:+ (if sec <? 10 then "0" else "") +:+ Js.str sec in
      let cls := "timer-display" in
      let cls :=
        if (timerSeconds s <=? 10) && (timerSeconds s >? 0)
        then cls +:+ " danger"
        else if timerSeconds s <=? 30 then cls +:+ " warning"
        else cls in
      let s := set_timer_display
                 (Some {| display_text := text; display_class := cls |}) s in
      match timer_step_name s with
      | None => Ok s
      | Some _ =>
          if timerStepIndex s <? Js.len steps then
            match Js.index steps (timerStepIndex s) with
            | Some st =>
                Ok (set_timer_step_name
                      (Some ("Step " +:+ Js.str (timerStepIndex s + 1)
                             +:+ ": " +:+ label st)) s)
            | None => Throw "TypeError: cannot read properties of undefined (label)"
            end
          else Ok (set_timer_step_name (Some "Activity complete.") s)
      end
  end.

(** The callback that [startTimer] hands to [setInterval]. *)
Definition tick (steps : list ActivityStep) (s : Timer) : result Timer :=
  let s := set_timerSeconds (timerSeconds s - 1) s in
  s ← (if timerSeconds s <=? 0 then
         let s := set_timerStepIndex (timerStepIndex s + 1) s in
         if timerStepIndex s <? Js.len steps then
           match Js.index steps (timerStepIndex s) with
           | Some st => Ok (set_timerSeconds (duration st) s)
           | None => Throw "TypeError: cannot read properties of undefined (duration)"
           end
         else
           let s := clearInterval (timerInterval s) s in
           let s := set_timerRunning false s in
           let s := set_timerSeconds 0 s in
           Ok (btn_assign (Some "Done") None (Some true) s)
       else Ok s);
  renderTimer steps s.

Definition startTimer (s : Timer) : Timer :=
  let s := set_timerRunning true s in
  let s := btn_assign (Some "Pause") (Some "timer-btn timer-btn--pause") None s in
  let '(h, s) := setInterval s in
  set_timerInterval (Some h) s.

Definition pauseTimer (s : Timer) : Timer :=
  let s := set_timerRunning false s in
  let s := clearInterval (timerInterval s) s in
  btn_assign (Some "Resume") (Some "timer-btn timer-btn--start") None s.

Definition resetTimer (steps : list ActivityStep) (s : Timer) : result Timer :=
  let s := clearInterval (timerInterval s) s in
  let s := set_timerRunning false s in
  let s := set_timerStepIndex 0 s in
  match Js.index steps 0 with
  | None => Throw "TypeError: cannot read properties of undefined (duration)"
  | Some st =>
      let s := set_timerSeconds (duration st) s in
      let s := btn_assign (Some "Start") (Some "timer-btn timer-btn--start")
                 (Some false) s in
      renderTimer steps s
  end.

(** [setupTimer] installs the two click listeners unless [#timer-btn] is
    missing; the listeners are [timer_step ClickBtn] and
    [timer_step ClickReset] below. *)
Definition setupTimer (steps : list ActivityStep) (s : Timer) : result Timer :=
  match timer_btn s with
  | None => Ok s
  | Some _ =>
      let s := set_timerStepIndex 0 s in
      match Js.index steps 0 with
      | None => Throw "TypeError: cannot read properties of undefined (duration)"
      | Some st => renderTimer steps (set_timerSeconds (duration st) s)
      end
  end.

(** One event of the page.  A click reaches its listener only when
    [setupTimer] installed it (so [#timer-btn] exists) and, for
    [#timer-btn], when the button is not disabled; an interval callback
    runs only while its handle is live. *)
Definition timer_step (steps : list ActivityStep) (e : TimerEvent)
    (s : Timer) : result Timer :=
  match e with
  | ClickBtn =>
      match timer_btn s with
      | Some b =>
          if btn_disabled b then Ok s
          else if timerRunning s then Ok (pauseTimer s) else Ok (startTimer s)
      | None => Ok s
      end
  | ClickReset =>
      match timer_btn s with
      | Some _ => if timer_reset s then resetTimer steps s else Ok s
      | None => Ok s
      end
  | Tick h =>
      if bool_decide (h ∈ intervals s) then tick steps s else Ok s
  end.

Fixpoint timer_run (steps : list ActivityStep) (es : list TimerEvent)
    (s : Timer) : result Timer :=
  match es with
  | [] => Ok s
  | e :: es' => s' ← timer_step steps e s; timer_run steps es' s'
  end.


(** *** Video metadata.  [JSON_parse] is the browser's parser, [None]
    when it throws a [SyntaxError]. *)

Definition hydrate_key (videos : option Json) (key : string) (d : VideoDoc)
    : result VideoDoc :=
  r ← get videos key;
  let rec := if truthy r then r else Some (JObj []) in
  let slot := video d key in
  file1 ← match fileEl slot with
          | Some _ =>
              f ← get rec "filename"; t ← or_text f "Not detected"; Ok (Some t)
          | None => Ok None
          end;
  dur1 ← match durEl slot with
         | Some _ =>
             f ← get rec "duration"; t ← or_text f "Play to see"; Ok (Some t)
         | None => Ok None
         end;
  match player slot with
  | None =>
      Ok (set_video key {| fileEl := file1; durEl := dur1; player := None |} d)
  | Some p =>
      f ← get rec "filename";
      if truthy f then
        src1 ← text_of f;
        Ok (set_video key
              {| fileEl := file1; durEl := dur1;
                 player := Some {| src := src1; onerror := FallbackOf rec |} |}
              d)
      else
        rm ← get rec "remote";
        if truthy rm then
          src1 ← text_of rm;
          Ok (set_video key
                {| fileEl := match file1 with
                             | Some _ => Some "Streaming from GitHub"
                             | None => None
                             end;
                   durEl := dur1;
                   player := Some {| src := src1; onerror := onerror p |} |}
                d)
        else
          Ok (set_video key {| fileEl := file1; durEl := dur1; player := Some p |} d)
  end.

Definition hydrateVideos (JSON_parse : string -> option Json) (d : VideoDoc)
    : result VideoDoc :=
  match deck_data d with
  | None => Ok d
  | Some text =>
      match JSON_parse text with
      | None => Ok d
      | Some data =>
          if negb (truthy (Some data)) then Ok d
          else
            videos ← get (Some data) "videos";
            if negb (truthy videos) then Ok d
            else forEach (hydrate_key videos) ["v1"; "v2"; "v3"] d
      end
  end.

(** The [onerror] handler of the player of [key] runs. *)
Definition player_error (key : string) (d : VideoDoc) : result VideoDoc :=
  let slot := video d key in
  match player slot with
  | Some p =>
      match onerror p with
      | FallbackOf rec =>
          rm ← get rec "remote";
          if truthy rm then
            src1 ← text_of rm;
            Ok (set_video key
                  {| fileEl := match fileEl slot with
                               | Some _ => Some "Streaming from GitHub"
                               | None => None
                               end;
                     durEl := durEl slot;
                     player := Some {| src := src1; onerror := onerror p |} |}
                  d)
          else Ok d
      | NoHandler => Ok d
      end
  | None => Ok d
  end.

(** *** Narration *)

(** An entry of a button's cue list. *)
Record Cue : Type := {
  cue_id : string;
  cue_start : Js.double
}.

Definition parseCues (attr : option string) : list Cue :=
  match attr with
  | None => []
  | Some EmptyString => []
  | Some a =>
      let '(p, ps) := JsString.split "," a in
      List.map
        (fun pair =>
           let '(p0, rest) := JsString.split ":" pair in
           {| cue_id := p0; cue_start := JsString.parseFloat (head rest) |})
        (p :: ps)
  end.

(** The [innerHTML] of a narration button: one of the two icon constants
    of the script, or the markup the page came with. *)
Inductive Icon : Type := LISTEN_ICON | STOP_ICON | Markup (html : string).

(** A button [.narrate-btn[data-audio]] with the [Audio] object and the
    cue list that [setupNarration] creates for it: the attribute
    [data-cues], the class [playing], [innerHTML], [audio.paused] and
    [audio.currentTime]. *)
Record Control : Type := {
  data_cues : option string;
  playing : bool;
  innerHTML : Icon;
  paused : bool;
  currentTime : Q;
  cues : list Cue
}.

(** An element a cue can name: its [id], whether it matches
    [.sowhat-card], and whether it carries the class [speaking]. *)
Record Card : Type := {
  card_id : string;
  sowhat_card : bool;
  speaking : bool
}.

(** The object held by [activeNarrate]; buttons and their audio objects
    are named by the position of the button in the page. *)
Record Narrate : Type := {
  audio : nat;
  btn : nat;
  timers : list nat
}.

(** The variable [activeNarrate], the buttons, the elements with an id,
    and the browser's table of pending [setTimeout] callbacks (each the
    closure of one cue) with the next handle. *)
Record Narr : Type := {
  activeNarrate : option Narrate;
  controls : list Control;
  cards : list Card;
  next_timeout : nat;
  timeouts : list (nat * Cue)
}.

Definition set_activeNarrate (v : option Narrate) (s : Narr) : Narr :=
  {| activeNarrate := v; controls := controls s; cards := cards s;
     next_timeout := next_timeout s; timeouts := timeouts s |}.

Definition set_controls (v : list Control) (s : Narr) : Narr :=
  {| activeNarrate := activeNarrate s; controls := v; cards := cards s;
     next_timeout := next_timeout s; timeouts := timeouts s |}.

Definition set_cards (v : list Card) (s : Narr) : Narr :=
  {| activeNarrate := activeNarrate s; controls := controls s; cards := v;
     next_timeout := next_timeout s; timeouts := timeouts s |}.

(** [btn.classList.add/remove("playing"); btn.innerHTML = icon]. *)
Definition set_button (on : bool) (icon : Icon) (c : Control) : Control :=
  {| data_cues := data_cues c; playing := on; innerHTML := icon;
     paused := paused c; currentTime := currentTime c; cues := cues c |}.

(** [audio.pause(); audio.currentTime = 0]. *)
Definition pause_rewind (c : Control) : Control :=
  {| data_cues := data_cues c; playing := playing c; innerHTML := innerHTML c;
     paused := true; currentTime := 0%Q; cues := cues c |}.

(** [audio.currentTime = 0; audio.play()], the audio being allowed and
    able to play. *)
Definition rewind_play (c : Control) : Control :=
  {| data_cues := data_cues c; playing := playing c; innerHTML := innerHTML c;
     paused := false; currentTime := 0%Q; cues := cues c |}.

(** [setTimeout(callback, delay)] for the callback of [cue]. *)
Definition setTimeout (cue : Cue) (s : Narr) : nat * Narr :=
  (next_timeout s,
   {| activeNarrate := activeNarrate s; controls := controls s;
      cards := cards s; next_timeout := S (next_timeout s);
      timeouts := (next_timeout s, cue) :: timeouts s |}).

Definition clearTimeout (h : nat) (s : Narr) : Narr :=
  {| activeNarrate := activeNarrate s; controls := controls s;
     cards := cards s; next_timeout := next_timeout s;
     timeouts := filter (fun p => p.1 <> h) (timeouts s) |}.

Definition clearHighlights (s : Narr) : Narr :=
  set_cards
    ((fun c =>
        if sowhat_card c
        then {| card_id := card_id c; sowhat_card := true; speaking := false |}
        else c)
       <$> cards s)
    s.

(** [card = document.getElementById(id); if (card) card.classList.add("speaking")]:
    the first element with that id. *)
Fixpoint highlight (id : string) (l : list Card) : list Card :=
  match l with
  | [] => []
  | c :: l' =>
      if String.eqb (card_id c) id
      then {| card_id := card_id c; sowhat_card := sowhat_card c;
              speaking := true |} :: l'
      else c :: highlight id l'
  end.

Definition stopNarrate (s : Narr) : Narr :=
  match activeNarrate s with
  | None => s
  | Some a =>
      let s := set_controls (alter pause_rewind (audio a) (controls s)) s in
      let s := set_controls
                 (alter (set_button false LISTEN_ICON) (btn a) (controls s)) s in
      let s := foldl (fun s h => clearTimeout h s) s (timers a) in
      let s := clearHighlights s in
      set_activeNarrate None s
  end.

(** The loop of [playNarrate] over the cues: one [setTimeout] per cue,
    the handles pushed onto [timers] in order. *)
Fixpoint schedule (cs : list Cue) (ts : list nat) (s : Narr) : list nat * Narr :=
  match cs with
  | [] => (ts, s)
  | cue :: cs' =>
      let '(t, s) := setTimeout cue s in
      schedule cs' (ts ++ [t]) s
  end.

Definition playNarrate (b a : nat) (cs : list Cue) (s : Narr) : Narr :=
  let s := set_controls (alter (set_button true STOP_ICON) b (controls s)) s in
  let '(ts, s) := schedule cs [] s in
  let s := set_activeNarrate (Some {| audio := a; btn := b; timers := ts |}) s in
  set_controls (alter rewind_play a (controls s)) s.

(** [setupNarration]: every button gets a fresh, paused [Audio] and the
    cues parsed from its attribute; its listeners are [click] and
    [ended] below. *)
Definition setupNarration (s : Narr) : Narr :=
  set_controls
    ((fun c =>
        {| data_cues := data_cues c; playing := playing c;
           innerHTML := innerHTML c; paused := true;
           currentTime := 0%Q; cues := parseCues (data_cues c) |})
       <$> controls s)
    s.

Definition audio_paused (a : nat) (s : Narr) : bool :=
  match controls s !! a with
  | Some c => paused c
  | None => true
  end.

(** The click listener of button [i]. *)
Definition click (i : nat) (s : Narr) : Narr :=
  match controls s !! i with
  | None => s
  | Some c =>
      if match activeNarrate s with
         | Some a => bool_decide (btn a = i) && negb (audio_paused (audio a) s)
         | None => false
         end
      then stopNarrate s
      else
        let s := match activeNarrate s with
                 | Some _ => stopNarrate s
                 | None => s
                 end in
        playNarrate i i (cues c) s
  end.

(** The [ended] listener of the audio of button [i]. *)
Definition ended (i : nat) (s : Narr) : Narr :=
  let s := set_controls
             (alter (set_button false LISTEN_ICON) i (controls s)) s in
  clearHighlights s.

(** The callback of a cue; [getElementById] finds nothing for the empty
    id. *)
Definition cue_callback (cue : Cue) (s : Narr) : Narr :=
  let s := clearHighlights s in
  if String.eqb (cue_id cue) "" then s
  else set_cards (highlight (cue_id cue) (cards s)) s.

(** What can happen to the narration: a click on button [i]; the audio
    of button [i] playing on by [dt] seconds; that audio reaching its end
    (the browser pauses it and fires [ended]); the browser running the
    pending callback of handle [h]. *)
Inductive NarrEvent : Type :=
| Click (i : nat)
| Advance (i : nat) (dt : Q)
| Ended (i : nat)
| Fire (h : nat).

Definition advance (dt : Q) (c : Control) : Control :=
  {| data_cues := data_cues c; playing := playing c; innerHTML := innerHTML c;
     paused := paused c; currentTime := (currentTime c + dt)%Q; cues := cues c |}.

Definition browser_pause (c : Control) : Control :=
  {| data_cues := data_cues c; playing := playing c; innerHTML := innerHTML c;
     paused := true; currentTime := currentTime c; cues := cues c |}.

Fixpoint pending (h : nat) (l : list (nat * Cue)) : option Cue :=
  match l with
  | [] => None
  | (h', cue) :: l' => if Nat.eqb h' h then Some cue else pending h l'
  end.

Definition narr_step (e : NarrEvent) (s : Narr) : Narr :=
  match e with
  | Click i => click i s
  | Advance i dt =>
      if audio_paused i s then s
      else set_controls (alter (advance dt) i (controls s)) s
  | Ended i =>
      if audio_paused i s then s
      else ended i (set_controls (alter browser_pause i (controls s)) s)
  | Fire h =>
      match pending h (timeouts s) with
      | Some cue => cue_callback cue (clearTimeout h s)
      | None => s
      end
  end.

Definition narr_run (es : list NarrEvent) (s : Narr) : Narr :=
  foldl (fun s e => narr_step e s) s es.

(** The state in which the page starts: nothing active, nothing
    pending, after [setupNarration]. *)
Definition narr_init (btns : list Control) (cs : list Card) : Narr :=
  setupNarration
    {| activeNarrate := None; controls := btns; cards := cs;
       next_timeout := 0; timeouts := [] |}.

(** *** Notes panel, full screen, keyboard and start-up *)

(** The navigator with the notes panel and the full-screen state. *)
Record Page : Type := {
  nav : State;
  chrome : Chrome
}.

Definition toggleNotes (c : Chrome) : Chrome :=
  match notes_panel c with
  | None => c
  | Some _ =>
      let v := negb (notesVisible c) in
      {| notesVisible := v; notes_panel := Some v;
         fullscreenElement := fullscreenElement c;
         fullscreen_calls := fullscreen_calls c |}
  end.

Definition toggleFullscreen (c : Chrome) : Chrome :=
  {| notesVisible := notesVisible c; notes_panel := notes_panel c;
     fullscreenElement := fullscreenElement c;
     fullscreen_calls :=
       (if negb (fullscreenElement c) then RequestFullscreen else ExitFullscreen)
       :: fullscreen_calls c |}.

(** The [keydown] listener that [setupKeyboard] installs on the
    document.  The result holds whether the handler called
    [e.preventDefault()]. *)
Definition keydown (e : KeyEvent) (p : Page) : result (bool * Page) :=
  let tag := toLowerCase (default "" (tagName e)) in
  if String.eqb tag "input" || String.eqb tag "textarea" then Ok (false, p)
  else
    let moved (r : result State) : result (bool * Page) :=
      n ← r; Ok (true, {| nav := n; chrome := chrome p |}) in
    if String.eqb (key e) "ArrowRight" || String.eqb (key e) "PageDown" then
      moved (nextSlide (nav p))
    else if String.eqb (key e) " " then
      if negb (String.eqb tag "video") && negb (String.eqb tag "button")
      then moved (nextSlide (nav p))
      else Ok (false, p)
    else if String.eqb (key e) "ArrowLeft" || String.eqb (key e) "PageUp" then
      moved (prevSlide (nav p))
    else if String.eqb (key e) "Home" then
      moved (goToSlide 0 (nav p))
    else if String.eqb (key e) "End" then
      moved (goToSlide (Js.len (slides (core (nav p))) - 1) (nav p))
    else if String.eqb (key e) "s" || String.eqb (key e) "S" then
      Ok (false, {| nav := nav p; chrome := toggleNotes (chrome p) |})
    else if String.eqb (key e) "f" || String.eqb (key e) "F" then
      Ok (false, {| nav := nav p; chrome := toggleFullscreen (chrome p) |})
    else Ok (false, p).

(** [setupNavigation] makes [prevSlide] and [nextSlide] the click
    listeners of [#prev-btn] and [#next-btn] where these exist; a
    disabled button dispatches no click. *)
Definition click_prev (s : State) : result State :=
  match prev_btn (core s) with
  | Some false => prevSlide s
  | _ => Ok s
  end.

Definition click_next (s : State) : result State :=
  match next_btn (core s) with
  | Some false => nextSlide s
  | _ => Ok s
  end.


(** *** Photo protection *)

(** An [img] element: its attribute [draggable]. *)
Record Img : Type := {
  draggable : option string
}.

(** The target of a [contextmenu] event: its [tagName], and whether
    [closest(".photo-shield")] finds an element; [None] for a target
    without the method [closest]. *)
Record ContextTarget : Type := {
  target_tagName : option string;
  closest_photo_shield : option bool
}.

(** The [contextmenu] listener of [protectPhotos]: whether it called
    [e.preventDefault()]. *)
Definition contextmenu (t : ContextTarget) : result bool :=
  if match target_tagName t with
     | Some tag => String.eqb tag "IMG"
     | None => false
     end
  then Ok true
  else match closest_photo_shield t with
       | Some found => Ok found
       | None => Throw "TypeError: e.target.closest is not a function"
       end.

(** The loop of [protectPhotos] over the images of the page. *)
Definition protectPhotos (imgs : list Img) : list Img :=
  (fun _ => {| draggable := Some "false" |}) <$> imgs.

(** The whole page of the narration revision. *)
Record App : Type := {
  page : Page;
  timer : Timer;
  videos : VideoDoc;
  narration : Narr;
  imgs : list Img
}.

(** [init].  The slides of the model are the [.slide] elements, so the
    script variable [slides] holds them from here on; [setupNavigation]
    and [setupKeyboard] only install the listeners that [app_step] runs.
    An exception leaves [init] at once. *)
Definition init (JSON_parse : string -> option Json) (steps : list ActivityStep)
    (a : App) : result App :=
  if Js.len (slides (core (nav (page a)))) =? 0 then Ok a
  else
    v ← hydrateVideos JSON_parse (videos a);
    t ← setupTimer steps (timer a);
    let nr := setupNarration (narration a) in
    let im := protectPhotos (imgs a) in
    n ← goToSlide 0 (nav (page a));
    Ok {| page := {| nav := n; chrome := chrome (page a) |};
          timer := t; videos := v; narration := nr; imgs := im |}.

(** The events of the narration revision: those of every page, and
    those of the narration. *)
Inductive Event : Type :=
| Common (e : AppEvent)
| Narration (e : NarrEvent).

Definition app_step (steps : list ActivityStep) (e : Event) (a : App)
    : result App :=
  match e with
  | Common ClickPrev =>
      n ← click_prev (nav (page a));
      Ok {| page := {| nav := n; chrome := chrome (page a) |};
            timer := timer a; videos := videos a;
            narration := narration a; imgs := imgs a |}
  | Common ClickNext =>
      n ← click_next (nav (page a));
      Ok {| page := {| nav := n; chrome := chrome (page a) |};
            timer := timer a; videos := videos a;
            narration := narration a; imgs := imgs a |}
  | Common (KeyDown k) =>
      r ← keydown k (page a);
      Ok {| page := r.2; timer := timer a; videos := videos a;
            narration := narration a; imgs := imgs a |}
  | Common (FullscreenChange on) =>
      Ok {| page :=
              {| nav := nav (page a);
                 chrome :=
                   {| notesVisible := notesVisible (chrome (page a));
                      notes_panel := notes_panel (chrome (page a));
                      fullscreenElement := on;
                      fullscreen_calls := fullscreen_calls (chrome (page a)) |} |};
            timer := timer a; videos := videos a;
            narration := narration a; imgs := imgs a |}
  | Common (TimerEvt te) =>
      t ← timer_step steps te (timer a);
      Ok {| page := page a; timer := t; videos := videos a;
            narration := narration a; imgs := imgs a |}
  | Common (VideoError k) =>
      v ← player_error k (videos a);
      Ok {| page := page a; timer := timer a; videos := v;
            narration := narration a; imgs := imgs a |}
  | Narration ne =>
      Ok {| page := page a; timer := timer a; videos := videos a;
            narration := narr_step ne (narration a); imgs := imgs a |}
  end.

Fixpoint app_run (steps : list ActivityStep) (es : list Event) (a : App)
    : result App :=
  match es with
  | [] => Ok a
  | e :: es' => a' ← app_step steps e a; app_run steps es' a'
  end.

End Part001.

(** ** Vocabulary of the statements *)

(** The progress fraction in the words of the specification:
    [currentIndex / (slideCount - 1)] when [slideCount > 1], else [1]. *)
Definition progress_fraction (currentIndex slideCount : Z) : Q :=
  if slideCount >? 1
  then (inject_Z currentIndex / inject_Z (slideCount - 1))%Q
  else 1%Q.

(** The double [w] is the real number [p] up to the rounding of a
    division and a multiplication: finite, not negative, and off by at
    most [p * 2^-51]. *)
Definition near (w : Js.double) (p : Q) : Prop :=
  exists v, w = Js.Finite false v /\ (Qabs (v - p) <= p * 2 ^ (-51))%Q.

(** The width [w] shows slide [i] of [n]: exactly 0 on the first of
    several slides, exactly 100 on the last slide, and in between the
    percentage of [progress_fraction] up to rounding. *)
Definition width_ok (w : Js.double) (i n : Z) : Prop :=
  (i = 0 -> 1 < n -> w = Js.num 0)
  /\ (i = n - 1 -> w = Js.num 100)
  /\ near w (progress_fraction i n * 100).

(** A double of the processor, as a [Js.double]. *)
Definition of_float (f : PrimFloat.float) : Js.double :=
  match Prim2SF f with
  | S754_nan => Js.NaN
  | S754_infinity s => Js.Infinity s
  | S754_zero s => Js.Finite s 0
  | S754_finite s m e => Js.Finite s (Qred (inject_Z (Zpos m) * 2 ^ e))
  end.

Definition double_eqb (x y : Js.double) : bool :=
  match x, y with
  | Js.NaN, Js.NaN => true
  | Js.Infinity s, Js.Infinity t => Bool.eqb s t
  | Js.Finite s a, Js.Finite t b =>
      Bool.eqb s t && Z.eqb (Qnum a) (Qnum b) && Pos.eqb (Qden a) (Qden b)
  | _, _ => false
  end.

(** [(i / (n - 1)) * 100] in the processor's double arithmetic. *)
Definition hardware_percent (i n : Z) : PrimFloat.float :=
  (PrimFloat.of_uint63 (Uint63.of_Z i)
   / PrimFloat.of_uint63 (Uint63.of_Z (n - 1))
   * PrimFloat.of_uint63 (Uint63.of_Z 100))%float.

(** The pairs [(i, n)] with [0 <= i < n] and [2 <= n <= N + 1]. *)
Definition decks_upto (N : nat) : list (Z * Z) :=
  n ← (fun k => Z.of_nat k + 2) <$> seq 0 N;
  (fun i => (Z.of_nat i, n)) <$> seq 0 (Z.to_nat n).

(** The derived elements of the navigator show the state [c]: every
    element that exists holds what the specification prescribes for
    [currentIndex c] and the number of slides; the width of the bar does
    so as far as a double can, for an index within a deck of at most
    [2^53] slides (an array holds fewer than [2^32]). *)
Definition rendered (c : NavCore) : Prop :=
  let i := currentIndex c in
  let n := Js.len (slides c) in
  (forall w, progress_fill c = Some w ->
     0 <= i < n -> n <= 2 ^ 53 -> width_ok w i n)
  /\ (forall t, slide_counter c = Some t ->
        t = Js.str (i + 1) +:+ " / " +:+ Js.str n)
  /\ (forall b, prev_btn c = Some b -> (b = true <-> i = 0))
  /\ (forall b, next_btn c = Some b -> (b = true <-> i = n - 1)).

(** The width the script writes, in percent:
    [slides.length > 1 ? (currentIndex / (slides.length - 1)) * 100 : 100]. *)
Definition percent (i n : Z) : Js.double :=
  if n >? 1
  then Js.mul (Js.div (Js.num i) (Js.num (n - 1))) (Js.num 100)
  else Js.num 100.

(** [clamp] of the specification: the nearest index in
    [[0, slideCount - 1]]. *)
Definition clamp (slideCount x : Z) : Z := Z.max 0 (Z.min (slideCount - 1) x).

(** Where the specification sends [currentIndex] on an event: [goTo]
    moves to an index in range and ignores any other, [next] and
    [previous] move by one and clamp. *)
Definition nav_target (e : NavEvent) (c : NavCore) : Z :=
  let n := Js.len (slides c) in
  match e with
  | GoTo i => if (0 <=? i) && (i <? n) then i else currentIndex c
  | Next => clamp n (currentIndex c + 1)
  | Prev => clamp n (currentIndex c - 1)
  end.

(** The event is a request outside [[0, slideCount - 1]]. *)
Definition out_of_range (e : NavEvent) (c : NavCore) : Prop :=
  match e with
  | GoTo i => ~ 0 <= i < Js.len (slides c)
  | Next => False
  | Prev => False
  end.

(** The elements of the navigator that exist in [c] exist in [c']. *)
Definition same_elements (c c' : NavCore) : Prop :=
  (is_Some (progress_fill c') <-> is_Some (progress_fill c))
  /\ (is_Some (slide_counter c') <-> is_Some (slide_counter c))
  /\ (is_Some (prev_btn c') <-> is_Some (prev_btn c))
  /\ (is_Some (next_btn c') <-> is_Some (next_btn c)).

(** The reveal rule of the specification: visible on the last three
    slides. *)
Definition should_be_visible (currentIndex slideCount : Z) : bool :=
  currentIndex >=? slideCount - 3.

(** The reveal widget of [deck.js] shows what the script believes: the
    class [visible] is on [#music-player] exactly when [musicActive] is
    set, and that is the reveal rule at the current slide. *)
Definition reveal_ok (s : DeckJs.State) : Prop :=
  DeckJs.music_player s = Some (DeckJs.musicActive s)
  /\ DeckJs.musicActive s
     = should_be_visible (currentIndex (DeckJs.core s))
         (Js.len (slides (DeckJs.core s))).

(** The writes that take the widget of [deck.js] from visibility [before]
    to visibility [after]: none when they agree, else the one class
    change. *)
Definition reveal_writes (before after : bool) : list WidgetWrite :=
  if Bool.eqb before after then []
  else if after then [ClassAdd] else [ClassRemove].

(** The [style.display] that the narration revision gives its widget. *)
Definition display_of (visible : bool) : string :=
  if visible then "block" else "none".

(** The result of a navigation, seen through the navigator core only. *)
Definition core_of {S : Type} (proj : S -> NavCore) (r : result S)
    : result NavCore :=
  match r with
  | Ok s => Ok (proj s)
  | Throw e => Throw e
  end.

(** ** Sample pages *)

(** A page of [n] slides with every element of the navigator present, as
    the markup delivers it: no slide active, nothing rendered yet. *)
Definition page_core (n : nat) : NavCore :=
  {| slides := replicate n {| slide_active := false; speaker_note := None |};
     currentIndex := 0;
     progress_fill := Some (Js.Finite false 0);
     slide_counter := Some "";
     prev_btn := Some false;
     next_btn := Some false;
     notes_content := Some "" |}.

Definition deck_page (n : nat) : DeckJs.State :=
  {| DeckJs.core := page_core n;
     DeckJs.musicActive := false;
     DeckJs.music_player := Some false;
     DeckJs.music_log := [] |}.

(** The same page of [deck.js], delivered with the class [visible]
    already on [#music-player]. *)
Definition deck_page_visible (n : nat) : DeckJs.State :=
  {| DeckJs.core := page_core n;
     DeckJs.musicActive := false;
     DeckJs.music_player := Some true;
     DeckJs.music_log := [] |}.

Definition part_page (n : nat) : Part001.State :=
  {| Part001.core := page_core n;
     Part001.spotify_box := Some "";
     Part001.spotify_log := [] |}.

(** The page of [n] slides of [deck.js] while it shows slide [i], the
    widget following the reveal rule and nothing logged. *)
Definition deck_at (n : nat) (i : Z) : DeckJs.State :=
  {| DeckJs.core := with_currentIndex i (page_core n);
     DeckJs.musicActive := should_be_visible i (Z.of_nat n);
     DeckJs.music_player := Some (should_be_visible i (Z.of_nat n));
     DeckJs.music_log := [] |}.

(** The same for the narration revision. *)
Definition part_at (n : nat) (i : Z) : Part001.State :=
  {| Part001.core := with_currentIndex i (page_core n);
     Part001.spotify_box := Some (display_of (should_be_visible i (Z.of_nat n)));
     Part001.spotify_log := [] |}.

(** The width that a revision's [updateProgress] writes on a page of [n]
    slides showing slide [i]. *)
Definition progress_at (updateProgress : NavCore -> NavCore) (i : Z) (n : nat)
    : option Js.double :=
  progress_fill (updateProgress (with_currentIndex i (page_core n))).

(** An optional width is exactly the given whole percentage. *)
Definition is_percent (w : option Js.double) (q : Z) : Prop :=
  w = Some (Js.num q).

(** The successful result of a step, if any. *)
Definition outcome {S : Type} (r : result S) : option S :=
  match r with
  | Ok s => Some s
  | Throw _ => None
  end.

(** ** Vocabulary of the timer statements *)

(** [s'] differs from [s] at most in what [#timer-display] and
    [#timer-step-name] show; both elements exist in [s'] exactly when they
    do in [s]. *)
Definition timer_frame (s s' : Timer) : Prop :=
  timerInterval s' = timerInterval s
  /\ timerSeconds s' = timerSeconds s
  /\ timerRunning s' = timerRunning s
  /\ timerStepIndex s' = timerStepIndex s
  /\ timer_btn s' = timer_btn s
  /\ timer_reset s' = timer_reset s
  /\ next_handle s' = next_handle s
  /\ intervals s' = intervals s
  /\ (is_Some (timer_display s') <-> is_Some (timer_display s))
  /\ (is_Some (timer_step_name s') <-> is_Some (timer_step_name s)).

(** The states the timer can be in once [setupTimer] has run on a page
    with a [#timer-btn]: the step index is not negative, every live handle
    was handed out earlier, and an interval is live exactly while
    [timerRunning] holds, in which case it is the one whose handle
    [timerInterval] holds. *)
Definition timer_inv (s : Timer) : Prop :=
  is_Some (timer_btn s)
  /\ 0 <= timerStepIndex s
  /\ (forall h, h ∈ intervals s -> (h < next_handle s)%nat)
  /\ (if timerRunning s
      then exists h, timerInterval s = Some h /\ intervals s = [h]
      else intervals s = []).

(** The state of the sequencer in the terms of the specification:
    [Running] while [timerRunning]; otherwise [Complete] once the step
    index has left the table, [Paused] while the button offers "Resume",
    and [Idle] else. *)
Definition phase (steps : list ActivityStep) (s : Timer) : Phase :=
  if timerRunning s then Running
  else if timerStepIndex s >=? Js.len steps then Complete
  else match timer_btn s with
       | Some b => if String.eqb (btn_text b) "Resume" then Paused else Idle
       | None => Idle
       end.

(** The start control is disabled. *)
Definition start_disabled (s : Timer) : Prop :=
  exists b, timer_btn s = Some b /\ btn_disabled b = true.

(** The start control is enabled. *)
Definition start_enabled (s : Timer) : Prop :=
  exists b, timer_btn s = Some b /\ btn_disabled b = false.

(** A page with every element of the timer, before any script has run. *)
Definition timer_page : Timer :=
  {| timerInterval := None; timerSeconds := 0; timerRunning := false;
     timerStepIndex := 0;
     timer_btn := Some {| btn_text := "Start";
                          btn_class := "timer-btn timer-btn--start";
                          btn_disabled := false |};
     timer_reset := true;
     timer_display := Some {| display_text := "00:00";
                              display_class := "timer-display" |};
     timer_step_name := Some "";
     next_handle := 0; intervals := [] |}.

(** The step list [{10s},{5s}] of the specification's example. *)
Definition two_steps : list ActivityStep :=
  [ {| label := "first"; duration := 10 |};
    {| label := "second"; duration := 5 |} ].

(** The timer of [timer_page] with [two_steps], started and not yet
    ticked: ten seconds left in the first step, interval 0 live. *)
Definition running_page : Timer :=
  {| timerInterval := Some 0%nat; timerSeconds := 10; timerRunning := true;
     timerStepIndex := 0;
     timer_btn := Some {| btn_text := "Pause";
                          btn_class := "timer-btn timer-btn--pause";
                          btn_disabled := false |};
     timer_reset := true;
     timer_display := Some {| display_text := "00:10";
                              display_class := "timer-display danger" |};
     timer_step_name := Some "Step 1: first";
     next_handle := 1; intervals := [0%nat] |}.

(** The timer of [deck.js] on [timer_page] with [two_steps], set up and
    then taken through the events [es]. *)
Definition two_steps_after (es : list TimerEvent) : result Timer :=
  s0 ← DeckJs.setupTimer two_steps timer_page;
  DeckJs.timer_run two_steps es s0.

(** The urgency styling of the timer display. *)
Inductive Urgency : Type := Danger | Warning | Neutral.

(** The bands in the words of the specification: danger for
    [0 < remaining <= 10], warning for [10 < remaining <= 30], neutral in
    every other case. *)
Definition urgency_spec (remaining : Z) : Urgency :=
  if (0 <? remaining) && (remaining <=? 10) then Danger
  else if (10 <? remaining) && (remaining <=? 30) then Warning
  else Neutral.

(** The styling that a [className] of [#timer-display] selects. *)
Definition class_urgency (cls : string) : option Urgency :=
  if String.eqb cls "timer-display danger" then Some Danger
  else if String.eqb cls "timer-display warning" then Some Warning
  else if String.eqb cls "timer-display" then Some Neutral
  else None.

(** A field of the displayed time: [(n < 10 ? "0" : "") + n]. *)
Definition pad2 (n : Z) : string :=
  (if n <? 10 then "0" else "") +:+ Js.str n.

(** How often the character [c] occurs in [s]. *)
Fixpoint count_char (c : ascii) (s : string) : nat :=
  match s with
  | EmptyString => 0%nat
  | String x s' => ((if Ascii.eqb x c then 1 else 0) + count_char c s')%nat
  end.

(** The text has a numeric prefix: after white space and an optional
    sign it starts with [Infinity], with a digit, or with a dot and a
    digit. *)
Definition numeric_prefix (s : string) : bool :=
  let r := (JsString.take_sign (JsString.trim_start s)).2 in
  String.prefix "Infinity" r
  || match r with
     | String c r' =>
         JsString.is_digit c
         || (Ascii.eqb c "."
             && match r' with
                | String d _ => JsString.is_digit d
                | EmptyString => false
                end)
     | EmptyString => false
     end.

(** The cue that [parseCues] makes of one comma-separated segment: the
    text before the first colon, and the number read from the text
    between the first and the second colon, if there is a first colon. *)
Definition cue_of_segment (pair : string) : Part001.Cue :=
  {| Part001.cue_id := (JsString.split ":" pair).1;
     Part001.cue_start := JsString.parseFloat (head (JsString.split ":" pair).2) |}.

(** ** Vocabulary of the metadata statements *)

(** The page carries no usable metadata: [#deck-data] is missing, or its
    text does not parse, or the parsed value is falsy or has no truthy
    [videos] field. *)
Definition no_metadata (JSON_parse : string -> option Json) (d : VideoDoc) : Prop :=
  match deck_data d with
  | None => True
  | Some text =>
      match JSON_parse text with
      | None => True
      | Some data =>
          truthy (Some data) = false
          \/ exists vs, get (Some data) "videos" = Ok vs /\ truthy vs = false
      end
  end.

(** The payload of the page parses, and [vs] is its [videos] field. *)
Definition payload_videos (JSON_parse : string -> option Json) (d : VideoDoc)
    (vs : option Json) : Prop :=
  exists text data,
    deck_data d = Some text
    /\ JSON_parse text = Some data
    /\ truthy (Some data) = true
    /\ get (Some data) "videos" = Ok vs
    /\ truthy vs = true.

(** The placeholder [txt] in a text slot, if the slot exists. *)
Definition placeholder (slot : option string) (txt : string) : option string :=
  match slot with
  | Some _ => Some txt
  | None => None
  end.

(** Two sample records and a parser that knows two payloads: the full
    one, and the one without the record of [v2]. *)
Definition sample_record (file dur : string) : Json :=
  JObj [("filename", JStr file); ("duration", JStr dur)].

Definition sample_parse (text : string) : option Json :=
  if String.eqb text "full" then
    Some (JObj [("videos",
                 JObj [("v1", sample_record "../a.mp4" "1m 2s");
                       ("v2", sample_record "../b.mp4" "3m 4s");
                       ("v3", sample_record "../c.mp4" "5m 6s")])])
  else if String.eqb text "without-v2" then
    Some (JObj [("videos",
                 JObj [("v1", sample_record "../a.mp4" "1m 2s");
                       ("v3", sample_record "../c.mp4" "5m 6s")])])
  else None.

(** The value has a string conversion. *)
Definition printable (v : option Json) : Prop :=
  exists t, text_of v = Ok t.

(** The fields that [hydrateVideos] shows of the record [r] of a key
    ([filename], [duration], [remote]) have string conversions. *)
Definition record_printable (r : option Json) : Prop :=
  forall k f,
    k ∈ ["filename"; "duration"; "remote"] ->
    get (if truthy r then r else Some (JObj [])) k = Ok f -> printable f.

(** The same for the records of the three keys [v1], [v2] and [v3] in
    the [videos] field; nothing is asked of any other key or field. *)
Definition videos_printable (vs : option Json) : Prop :=
  forall key r,
    key ∈ ["v1"; "v2"; "v3"] -> get vs key = Ok r -> record_printable r.

(** What [JSON.parse] returns for a payload whose [videos.v1.filename] is
    the object with the single property [toString] set to 1. *)
Definition unprintable_payload : Json :=
  JObj [("videos",
         JObj [("v1", JObj [("filename", JObj [("toString", JNum "1")])])])].

(** A page with all nine video elements and the given payload text. *)
Definition video_page (text : string) : VideoDoc :=
  {| deck_data := Some text;
     video := fun _ =>
       {| fileEl := Some ""; durEl := Some "";
          player := Some {| src := ""; onerror := NoHandler |} |} |}.

(** ** Vocabulary of the narration statements *)

(** The audio of button [i] is playing. *)
Definition audio_playing (i : nat) (s : Part001.Narr) : Prop :=
  Part001.audio_paused i s = false.

(** The button [i] and its audio are as [stopNarrate] leaves them: audio
    paused and rewound, button without the class [playing] and showing the
    "Listen" icon. *)
Definition stopped (i : nat) (s : Part001.Narr) : Prop :=
  exists c, Part001.controls s !! i = Some c
    /\ Part001.paused c = true
    /\ Part001.currentTime c = 0%Q
    /\ Part001.playing c = false
    /\ Part001.innerHTML c = Part001.LISTEN_ICON.

(** The button [i] and its audio are as [playNarrate] leaves them: audio
    playing from the start, button with the class [playing] and showing
    the "Stop" icon. *)
Definition started (i : nat) (s : Part001.Narr) : Prop :=
  exists c, Part001.controls s !! i = Some c
    /\ Part001.paused c = false
    /\ Part001.currentTime c = 0%Q
    /\ Part001.playing c = true
    /\ Part001.innerHTML c = Part001.STOP_ICON.

(** No [.sowhat-card] is highlighted. *)
Definition no_highlight (s : Part001.Narr) : Prop :=
  forall c, c ∈ Part001.cards s -> Part001.sowhat_card c = true ->
    Part001.speaking c = false.

(** From [s] to [s'] the class [speaking] was removed from every
    [.sowhat-card], and no element changed otherwise: an element that is
    not a [.sowhat-card] keeps the class if it has it. *)
Definition highlights_cleared (s s' : Part001.Narr) : Prop :=
  length (Part001.cards s') = length (Part001.cards s)
  /\ forall i c, Part001.cards s !! i = Some c ->
       exists c', Part001.cards s' !! i = Some c'
         /\ Part001.card_id c' = Part001.card_id c
         /\ Part001.sowhat_card c' = Part001.sowhat_card c
         /\ Part001.speaking c'
            = (if Part001.sowhat_card c then false else Part001.speaking c).

(** The states the narration can be in: only the audio that
    [activeNarrate] names may be playing; the active record names a button
    and that button's own audio; every pending cue callback belongs to the
    active record; and the handles of the active record have all been
    handed out. *)
Definition narr_inv (s : Part001.Narr) : Prop :=
  (forall i, audio_playing i s ->
     exists a, Part001.activeNarrate s = Some a /\ Part001.audio a = i)
  /\ (forall a, Part001.activeNarrate s = Some a ->
        Part001.audio a = Part001.btn a)
  /\ (forall p, p ∈ Part001.timeouts s ->
        exists a, Part001.activeNarrate s = Some a /\ p.1 ∈ Part001.timers a)
  /\ (forall a, Part001.activeNarrate s = Some a ->
        forall h, h ∈ Part001.timers a -> (h < Part001.next_timeout s)%nat).

(** Nothing is active, no audio plays, and no callback is pending. *)
Definition quiet (s : Part001.Narr) : Prop :=
  Part001.activeNarrate s = None
  /\ (forall i, Part001.audio_paused i s = true)
  /\ Part001.timeouts s = [].

(** A page with two narration buttons, A at position 0 with two cues and
    B at position 1 with one, and three cards. *)
Definition narr_page : Part001.Narr :=
  Part001.narr_init
    [ {| Part001.data_cues := Some "card1:0,card2:2.5";
         Part001.playing := false; Part001.innerHTML := Part001.LISTEN_ICON;
         Part001.paused := true; Part001.currentTime := 0%Q;
         Part001.cues := [] |};
      {| Part001.data_cues := Some "card3:1";
         Part001.playing := false; Part001.innerHTML := Part001.LISTEN_ICON;
         Part001.paused := true; Part001.currentTime := 0%Q;
         Part001.cues := [] |} ]
    [ {| Part001.card_id := "card1"; Part001.sowhat_card := true;
         Part001.speaking := false |};
      {| Part001.card_id := "card2"; Part001.sowhat_card := true;
         Part001.speaking := false |};
      {| Part001.card_id := "card3"; Part001.sowhat_card := true;
         Part001.speaking := false |} ].

(** A page with two narration buttons, A at position 0 and B at position
    1, where the cue of A names an element that is not a [.sowhat-card]. *)
Definition narr_mixed_page : Part001.Narr :=
  Part001.narr_init
    [ {| Part001.data_cues := Some "intro:0";
         Part001.playing := false; Part001.innerHTML := Part001.LISTEN_ICON;
         Part001.paused := true; Part001.currentTime := 0%Q;
         Part001.cues := [] |};
      {| Part001.data_cues := Some "card1:1";
         Part001.playing := false; Part001.innerHTML := Part001.LISTEN_ICON;
         Part001.paused := true; Part001.currentTime := 0%Q;
         Part001.cues := [] |} ]
    [ {| Part001.card_id := "intro"; Part001.sowhat_card := false;
         Part001.speaking := false |};
      {| Part001.card_id := "card1"; Part001.sowhat_card := true;
         Part001.speaking := false |} ].

(** [narr_page] with A in mid-playback: A clicked, its first cue fired
    (so [card1] is highlighted, the second cue still pending), one and a
    half seconds played. *)
Definition narr_A_playing : Part001.Narr :=
  Part001.narr_run
    [Part001.Click 0; Part001.Fire 0; Part001.Advance 0 (3 # 2)] narr_page.

(** In [narr_A_playing]: the active record of A, and button B as
    [setupNarration] left it. *)
Definition narr_A_record : Part001.Narrate :=
  {| Part001.audio := 0; Part001.btn := 0; Part001.timers := [0; 1]%nat |}.

Definition narr_B_control : Part001.Control :=
  {| Part001.data_cues := Some "card3:1";
     Part001.playing := false; Part001.innerHTML := Part001.LISTEN_ICON;
     Part001.paused := true; Part001.currentTime := 0%Q;
     Part001.cues := Part001.parseCues (Some "card3:1") |}.

(** ** Vocabulary of the further timer statements *)

(** Every step of the table lasts at least a second. *)
Definition durations_positive (steps : list ActivityStep) : Prop :=
  forall st, st ∈ steps -> 0 < duration st.

(** The durations of a list of steps, added up. *)
Definition sum_durations (l : list ActivityStep) : Z :=
  foldr (fun st acc => duration st + acc) 0 l.

(** The seconds the sequence still has to run: what is left of the
    current step and the full durations of the steps after it. *)
Definition remaining_total (steps : list ActivityStep) (s : Timer) : Z :=
  timerSeconds s
  + sum_durations (drop (Z.to_nat (timerStepIndex s + 1)) steps).

(** What [renderTimer] puts into [#timer-display] for a number of
    seconds. *)
Definition shown_time (secs : Z) : TimerDisplay :=
  {| display_text := pad2 (secs / 60) +:+ ":" +:+ pad2 (Z.rem secs 60);
     display_class :=
       if (secs <=? 10) && (secs >? 0) then "timer-display danger"
       else if secs <=? 30 then "timer-display warning"
       else "timer-display" |}.

(** What [renderTimer] puts into [#timer-step-name] for a step index. *)
Definition shown_step (steps : list ActivityStep) (i : Z) : string :=
  if i <? Js.len steps then
    match Js.index steps i with
    | Some st => "Step " +:+ Js.str (i + 1) +:+ ": " +:+ label st
    | None => ""
    end
  else "Activity complete.".

(** The display elements show the script variables: if [#timer-display]
    exists it shows [timerSeconds], and then [#timer-step-name], if it
    exists, shows [timerStepIndex]. *)
Definition display_synced (steps : list ActivityStep) (s : Timer) : Prop :=
  forall d, timer_display s = Some d ->
    d = shown_time (timerSeconds s)
    /\ forall nm, timer_step_name s = Some nm ->
         nm = shown_step steps (timerStepIndex s).

(** The script variables fit the table: either the step index names a
    step and the seconds are between 1 and that step's duration, or the
    sequence is over: the index is the length of the table, no second is
    left, the timer does not run and the start control is disabled. *)
Definition timer_wf (steps : list ActivityStep) (s : Timer) : Prop :=
  (exists st, Js.index steps (timerStepIndex s) = Some st
              /\ 1 <= timerSeconds s <= duration st)
  \/ (timerStepIndex s = Js.len steps /\ timerSeconds s = 0
      /\ timerRunning s = false /\ start_disabled s).

(** A page on which [setupTimer] finds its button: the script has not
    run yet, so nothing runs and no interval is live. *)
Definition timer_fresh (s : Timer) : Prop :=
  is_Some (timer_btn s) /\ timerRunning s = false /\ intervals s = [].

(** The timer functions of one of the two revisions. *)
Definition timer_revision
    (setupTimer : list ActivityStep -> Timer -> result Timer)
    (timer_step : list ActivityStep -> TimerEvent -> Timer -> result Timer)
    (timer_run : list ActivityStep -> list TimerEvent -> Timer -> result Timer)
    : Prop :=
  (setupTimer = DeckJs.setupTimer /\ timer_step = DeckJs.timer_step
   /\ timer_run = DeckJs.timer_run)
  \/ (setupTimer = Part001.setupTimer /\ timer_step = Part001.timer_step
      /\ timer_run = Part001.timer_run).

(** ** Vocabulary of the further navigation statements *)

(** No slide but the current one carries the class [active]. *)
Definition others_inactive (c : NavCore) : Prop :=
  forall j sl, slides c !! j = Some sl -> slide_active sl = true ->
    Z.of_nat j = currentIndex c.

(** The slides that carry the class [active] are exactly the current
    one. *)
Definition only_current_active (c : NavCore) : Prop :=
  forall j sl, slides c !! j = Some sl ->
    (slide_active sl = true <-> Z.of_nat j = currentIndex c).

(** The speaker notes of the slides, in order. *)
Definition slide_notes (c : NavCore) : list (option string) :=
  speaker_note <$> slides c.

(** The text of the speaker note of slide [i], empty when the slide has
    none. *)
Definition note_of (c : NavCore) (i : Z) : string :=
  match Js.index (slides c) i with
  | Some sl => default "" (speaker_note sl)
  | None => ""
  end.

(** [#notes-content], if it exists, shows the note of the current
    slide. *)
Definition notes_synced (c : NavCore) : Prop :=
  forall t, notes_content c = Some t -> t = note_of c (currentIndex c).

(** What a move to slide [i] does to the slides and the notes panel of
    [c]: the index is [i], no speaker note changes, slide [i] is active,
    the slide that was current is not (unless it is slide [i]), every
    other slide keeps its class, and [#notes-content], if it exists,
    shows the note of slide [i]. *)
Definition slide_moved (i : Z) (c c' : NavCore) : Prop :=
  currentIndex c' = i
  /\ slide_notes c' = slide_notes c
  /\ (forall j sl sl', slides c !! j = Some sl -> slides c' !! j = Some sl' ->
        slide_active sl'
        = if bool_decide (Z.of_nat j = i) then true
          else if bool_decide (Z.of_nat j = currentIndex c) then false
          else slide_active sl)
  /\ notes_content c' = placeholder (notes_content c) (note_of c i).

(** A page of three slides as the markup delivers it, the second and the
    third with a speaker note, and the third marked active by mistake. *)
Definition noted_core : NavCore :=
  {| slides := [ {| slide_active := true; speaker_note := None |};
                 {| slide_active := false; speaker_note := Some "say hello" |};
                 {| slide_active := true; speaker_note := Some "wrap up" |} ];
     currentIndex := 0;
     progress_fill := Some (Js.Finite false 0);
     slide_counter := Some "";
     prev_btn := Some false;
     next_btn := Some false;
     notes_content := Some "" |}.

Definition noted_deck : DeckJs.State :=
  {| DeckJs.core := noted_core; DeckJs.musicActive := false;
     DeckJs.music_player := Some false; DeckJs.music_log := [] |}.

Definition noted_part : Part001.State :=
  {| Part001.core := noted_core; Part001.spotify_box := Some "";
     Part001.spotify_log := [] |}.

(** ** Vocabulary of the statements about the keyboard *)

(** The tag name that the [keydown] handler compares. *)
Definition target_tag (e : KeyEvent) : string :=
  toLowerCase (default "" (tagName e)).

(** The key was typed into a form field. *)
Definition in_form_field (e : KeyEvent) : Prop :=
  target_tag e = "input" \/ target_tag e = "textarea".

(** The key was pressed on a video or a button. *)
Definition on_media_or_button (e : KeyEvent) : Prop :=
  target_tag e = "video" \/ target_tag e = "button".

(** The key [k] pressed while the body of the page has the focus. *)
Definition press (k : string) : KeyEvent :=
  {| key := k; tagName := Some "BODY" |}.

(** The key [k] typed into a text area. *)
Definition typed (k : string) : KeyEvent :=
  {| key := k; tagName := Some "TEXTAREA" |}.

(** A page of [n] slides of either revision with a notes panel, not in
    full screen, before any script has run. *)
Definition plain_chrome : Chrome :=
  {| notesVisible := false; notes_panel := Some false;
     fullscreenElement := false; fullscreen_calls := [] |}.

Definition deck_chrome (n : nat) : DeckJs.Page :=
  {| DeckJs.nav := deck_page n; DeckJs.chrome := plain_chrome |}.

Definition part_chrome (n : nat) : Part001.Page :=
  {| Part001.nav := part_page n; Part001.chrome := plain_chrome |}.

(** ** Sample pages with everything on them *)

(** A page of [n] slides of [deck.js] with the notes panel, the timer
    and the video slots with the payload named by [text], before any
    script has run. *)
Definition deck_app (n : nat) (text : string) : DeckJs.App :=
  {| DeckJs.page := deck_chrome n;
     DeckJs.timer := timer_page;
     DeckJs.videos := video_page text |}.

(** The same for the narration revision, with two narration buttons,
    three cards and two images. *)
Definition part_app (n : nat) (text : string) : Part001.App :=
  {| Part001.page := part_chrome n;
     Part001.timer := timer_page;
     Part001.videos := video_page text;
     Part001.narration :=
       {| Part001.activeNarrate := None;
          Part001.controls :=
            [ {| Part001.data_cues := Some "card1:0,card2:2.5";
                 Part001.playing := false;
                 Part001.innerHTML := Part001.LISTEN_ICON;
                 Part001.paused := true; Part001.currentTime := 0%Q;
                 Part001.cues := [] |};
              {| Part001.data_cues := Some "card3:1";
                 Part001.playing := false;
                 Part001.innerHTML := Part001.LISTEN_ICON;
                 Part001.paused := true; Part001.currentTime := 0%Q;
                 Part001.cues := [] |} ];
          Part001.cards :=
            [ {| Part001.card_id := "card1"; Part001.sowhat_card := true;
                 Part001.speaking := false |};
              {| Part001.card_id := "card2"; Part001.sowhat_card := true;
                 Part001.speaking := false |};
              {| Part001.card_id := "card3"; Part001.sowhat_card := true;
                 Part001.speaking := false |} ];
          Part001.next_timeout := 0; Part001.timeouts := [] |};
     Part001.imgs := [ {| Part001.draggable := None |};
                       {| Part001.draggable := Some "true" |} ] |}.

(** ** Vocabulary of the further metadata statements *)

(** The record that [hydrateVideos] uses for a key whose entry in the
    payload is [r]: [r || {}]. *)
Definition record_of (r : option Json) : option Json :=
  if truthy r then r else Some (JObj []).

(** What one round of [hydrateVideos] makes of the slot [old] of a key
    with the record [rec]: no element appears or disappears; a player
    gets the local file as its source, with the fallback handler, when
    the record names one, else the remote address, with the label
    "Streaming from GitHub", when the record has one, and else stays as
    it is. *)
Definition hydrated (rec : option Json) (old new : VideoSlot) : Prop :=
  (is_Some (fileEl new) <-> is_Some (fileEl old))
  /\ (is_Some (durEl new) <-> is_Some (durEl old))
  /\ (player old = None -> player new = None)
  /\ (forall p, player old = Some p ->
        exists f, get rec "filename" = Ok f
          /\ if truthy f then
               exists t, text_of f = Ok t
                 /\ player new = Some {| src := t; onerror := FallbackOf rec |}
                 /\ fileEl new = placeholder (fileEl old) t
             else
               exists rm, get rec "remote" = Ok rm
                 /\ if truthy rm then
                      exists t, text_of rm = Ok t
                        /\ player new = Some {| src := t; onerror := onerror p |}
                        /\ fileEl new
                           = placeholder (fileEl old) "Streaming from GitHub"
                    else
                      player new = Some p
                      /\ fileEl new = placeholder (fileEl old) "Not detected").

(** The fallback handler of a player can run: the [remote] field of its
    record can be read and has a string conversion. *)
Definition handler_ok (h : ErrorHandler) : Prop :=
  match h with
  | NoHandler => True
  | FallbackOf rec => exists rm, get rec "remote" = Ok rm /\ printable rm
  end.

Definition handlers_ok (d : VideoDoc) : Prop :=
  forall k p, player (video d k) = Some p -> handler_ok (onerror p).

(** The payload of the page is missing or unusable, or every
    [filename], [duration] and [remote] of its records of [v1], [v2] and
    [v3] has a string conversion. *)
Definition metadata_ok (JSON_parse : string -> option Json) (d : VideoDoc) : Prop :=
  no_metadata JSON_parse d
  \/ exists vs, payload_videos JSON_parse d vs /\ videos_printable vs.

(** A parser that knows one payload: the record of [v1] names a local
    file and a remote address, the record of [v2] a remote address
    only. *)
Definition remote_parse (text : string) : option Json :=
  if String.eqb text "remote" then
    Some (JObj [("videos",
                 JObj [("v1", JObj [("filename", JStr "../a.mp4");
                                    ("remote", JStr "https://example.org/a.mp4")]);
                       ("v2", JObj [("remote", JStr "https://example.org/b.mp4")])])])
  else None.

(** The loader and the error handler of one of the two revisions. *)
Definition loader_revision
    (hydrateVideos : (string -> option Json) -> VideoDoc -> result VideoDoc)
    (player_error : string -> VideoDoc -> result VideoDoc) : Prop :=
  (hydrateVideos = DeckJs.hydrateVideos /\ player_error = DeckJs.player_error)
  \/ (hydrateVideos = Part001.hydrateVideos
      /\ player_error = Part001.player_error).

(** ** Vocabulary of the statements about the whole page *)

(** The navigator is in order: the index names a slide, the progress
    bar, the counter and the two buttons are rendered for it, and the
    notes panel shows its note. *)
Definition core_ok (c : NavCore) : Prop :=
  nav_valid c /\ rendered c /\ notes_synced c.

(** The timer is in order: without [#timer-btn] nothing was set up and
    no interval is live; with it, the invariant of the timer holds and
    the display shows the script variables. *)
Definition timer_ok (steps : list ActivityStep) (t : Timer) : Prop :=
  (timer_btn t = None /\ intervals t = [])
  \/ (timer_inv t /\ display_synced steps t).

(** The reveal widget of [deck.js] is missing or in step. *)
Definition music_ok (s : DeckJs.State) : Prop :=
  DeckJs.music_player s = None \/ reveal_ok s.

(** The reveal widget of the narration revision, if it exists, follows
    the reveal rule. *)
Definition spotify_ok (s : Part001.State) : Prop :=
  forall v, Part001.spotify_box s = Some v ->
    v = display_of (should_be_visible (currentIndex (Part001.core s))
                      (Js.len (slides (Part001.core s)))).

(** The page of [deck.js] is in order. *)
Definition deck_ok (steps : list ActivityStep) (a : DeckJs.App) : Prop :=
  core_ok (DeckJs.core (DeckJs.nav (DeckJs.page a)))
  /\ music_ok (DeckJs.nav (DeckJs.page a))
  /\ timer_ok steps (DeckJs.timer a)
  /\ handlers_ok (DeckJs.videos a).

(** The page of the narration revision is in order. *)
Definition part_ok (steps : list ActivityStep) (a : Part001.App) : Prop :=
  core_ok (Part001.core (Part001.nav (Part001.page a)))
  /\ spotify_ok (Part001.nav (Part001.page a))
  /\ timer_ok steps (Part001.timer a)
  /\ handlers_ok (Part001.videos a)
  /\ narr_inv (Part001.narration a)
  /\ (forall im, im ∈ Part001.imgs a -> Part001.draggable im = Some "false").

(** The timer and the video players at page load: the timer does not
    run, no interval is live, and no player has an error handler. *)
Definition widgets_fresh (t : Timer) (v : VideoDoc) : Prop :=
  timerRunning t = false /\ intervals t = []
  /\ (forall k p, player (video v k) = Some p -> onerror p = NoHandler).

(** A page of [deck.js] at page load: it has at least one slide,
    [currentIndex] is 0, [#music-player] is missing or carries the class
    [visible] exactly when [musicActive] is set (the script starts with
    [musicActive] false, so: the page delivers the widget without the
    class), and the timer and the players are as above. *)
Definition deck_fresh (a : DeckJs.App) : Prop :=
  0 < Js.len (slides (DeckJs.core (DeckJs.nav (DeckJs.page a))))
  /\ currentIndex (DeckJs.core (DeckJs.nav (DeckJs.page a))) = 0
  /\ (DeckJs.music_player (DeckJs.nav (DeckJs.page a)) = None
      \/ DeckJs.music_player (DeckJs.nav (DeckJs.page a))
         = Some (DeckJs.musicActive (DeckJs.nav (DeckJs.page a))))
  /\ widgets_fresh (DeckJs.timer a) (DeckJs.videos a).

(** A page of the narration revision at page load: at least one slide,
    [currentIndex] 0, the timer and the players as above, no narration
    active and no cue callback pending. *)
Definition part_fresh (a : Part001.App) : Prop :=
  0 < Js.len (slides (Part001.core (Part001.nav (Part001.page a))))
  /\ currentIndex (Part001.core (Part001.nav (Part001.page a))) = 0
  /\ widgets_fresh (Part001.timer a) (Part001.videos a)
  /\ Part001.activeNarrate (Part001.narration a) = None
  /\ Part001.timeouts (Part001.narration a) = [].

(** The navigator of a revision with its reveal widget is in order. *)
Definition deck_nav_ok (s : DeckJs.State) : Prop :=
  core_ok (DeckJs.core s) /\ music_ok s.

Definition part_nav_ok (s : Part001.State) : Prop :=
  core_ok (Part001.core s) /\ spotify_ok s.

(** ** Vocabulary of the further narration statements *)

(** The ids of the elements a cue can name, and which of them match
    [.sowhat-card], in document order. *)
Definition card_shape (s : Part001.Narr) : list (string * bool) :=
  (fun c => (Part001.card_id c, Part001.sowhat_card c)) <$> Part001.cards s.

(** At most one [.sowhat-card] carries the class [speaking]. *)
Definition one_speaker (s : Part001.Narr) : Prop :=
  forall i j ci cj,
    Part001.cards s !! i = Some ci -> Part001.cards s !! j = Some cj ->
    Part001.sowhat_card ci = true -> Part001.speaking ci = true ->
    Part001.sowhat_card cj = true -> Part001.speaking cj = true ->
    i = j.

(** Some element with the id [id] carries the class [speaking]. *)
Definition highlighted (id : string) (s : Part001.Narr) : Prop :=
  exists i c, Part001.cards s !! i = Some c
    /\ Part001.card_id c = id /\ Part001.speaking c = true.

(** [narr_page] after button A was clicked and its audio has played to
    the end: the second cue of A, at 2.5 seconds, has not fired. *)
Definition narr_A_ended : Part001.Narr :=
  Part001.narr_run [Part001.Click 0; Part001.Fire 0; Part001.Ended 0] narr_page.

(** A page with one narration button whose only cue names an element
    that is not a [.sowhat-card]. *)
Definition narr_plain_page : Part001.Narr :=
  Part001.narr_init
    [ {| Part001.data_cues := Some "intro:0";
         Part001.playing := false; Part001.innerHTML := Part001.LISTEN_ICON;
         Part001.paused := true; Part001.currentTime := 0%Q;
         Part001.cues := [] |} ]
    [ {| Part001.card_id := "intro"; Part001.sowhat_card := false;
         Part001.speaking := false |};
      {| Part001.card_id := "card1"; Part001.sowhat_card := true;
         Part001.speaking := false |} ].

(** The attribute [data-cues] that names the given ids with the given
    offsets: the pairs [id:offset], joined by commas. *)
Definition format_cues (l : list (string * string)) : string :=
  String.concat "," ((fun p => p.1 +:+ ":" +:+ p.2) <$> l).

(** The text contains neither a comma nor a colon. *)
Definition plain_text (s : string) : Prop :=
  count_char "," s = 0%nat /\ count_char ":" s = 0%nat.

(** * Properties *)

(** ** Facts about the primitives *)

(** Membership in a list that is written out. *)
Ltac in_list := rewrite !elem_of_cons; auto 10.

Lemma index_Some {A : Type} (l : list A) (i : Z) :
  0 <= i < Js.len l -> exists x, Js.index l i = Some x.
Proof.
  intros [H0 H1]. unfold Js.index, Js.len in *.
  destruct (Z.ltb_spec i 0) as [?|_]; [lia|].
  apply lookup_lt_is_Some. lia.
Qed.

Lemma index_None {A : Type} (l : list A) (i : Z) :
  ~ 0 <= i < Js.len l -> Js.index l i = None.
Proof.
  intros H. unfold Js.index, Js.len in *.
  destruct (Z.ltb_spec i 0) as [?|?]; [reflexivity|].
  apply lookup_ge_None. lia.
Qed.

Lemma classList_active_Ok (b : bool) (i : Z) (c : NavCore) :
  0 <= i < Js.len (slides c) ->
  exists c', classList_active b i c = Ok c'
    /\ Js.len (slides c') = Js.len (slides c)
    /\ currentIndex c' = currentIndex c
    /\ progress_fill c' = progress_fill c
    /\ slide_counter c' = slide_counter c
    /\ prev_btn c' = prev_btn c
    /\ next_btn c' = next_btn c
    /\ notes_content c' = notes_content c.
Proof.
  intros Hi. unfold classList_active.
  destruct (index_Some (slides c) i Hi) as [sl ->].
  eexists; split; [reflexivity|]. cbn.
  unfold Js.len. rewrite length_insert. auto 10.
Qed.

(** ** IEEE 754 rounding

    Facts about [Js.rnd] and the two operations built on it: the error of
    one rounding, the integers that are doubles, and the accuracy of the
    percentage [i / k * 100]. *)

Section DoubleFacts.
Local Open Scope Q_scope.

(** [lra] reads [inject_Z] of a variable as a cast; the terms are named
    first. *)
Ltac hide_Z :=
  repeat match goal with
  | |- context [inject_Z ?z] =>
      let q := fresh "q" in set (q := inject_Z z) in *; clearbody q
  | H : context [inject_Z ?z] |- _ =>
      let q := fresh "q" in set (q := inject_Z z) in *; clearbody q
  end.

Lemma half_even_near (x : Q) : Qabs (inject_Z (Js.half_even x) - x) <= 1 # 2.
Proof.
  pose proof (Qfloor_le x) as H1. pose proof (Qlt_floor x) as H2.
  rewrite inject_Z_plus in H2. change (inject_Z 1) with 1 in H2.
  apply Qabs_Qle_condition. unfold Js.half_even.
  destruct (Qcompare_spec (x - inject_Z (Qfloor x)) (1 # 2)) as [E|E|E].
  - destruct (Z.even (Qfloor x)); rewrite ?inject_Z_plus;
      change (inject_Z 1) with 1; hide_Z; split; lra.
  - hide_Z; split; lra.
  - rewrite inject_Z_plus. change (inject_Z 1) with 1. hide_Z; split; lra.
Qed.

Lemma half_even_comp (x y : Q) : x == y -> Js.half_even x = Js.half_even y.
Proof.
  intros E. unfold Js.half_even. rewrite (Qfloor_comp x y E).
  assert (H : (x - inject_Z (Qfloor y) ?= 1 # 2) = (y - inject_Z (Qfloor y) ?= 1 # 2)).
  { apply Qcompare_comp; [rewrite E|]; reflexivity. }
  rewrite H. reflexivity.
Qed.

Lemma half_even_Z (n : Z) : Js.half_even (inject_Z n) = n.
Proof.
  unfold Js.half_even. rewrite Qfloor_Z.
  assert (H : (inject_Z n - inject_Z n ?= 1 # 2) = Lt) by (apply (proj1 (Qlt_alt _ _)); hide_Z; lra).
  rewrite H. reflexivity.
Qed.

Lemma pow2_pos (e : Z) : 0 < 2 ^ e.
Proof. apply Qpower_0_lt. reflexivity. Qed.

Lemma pow2_succ (e : Z) : 2 ^ (e + 1) == 2 * 2 ^ e.
Proof. rewrite Qpower_plus by discriminate. change (2 ^ 1) with 2. ring. Qed.

Lemma pow2_pred (e : Z) : 2 ^ (e - 1) == 2 ^ e / 2.
Proof. rewrite Qpower_minus by discriminate. change (2 ^ 1) with 2. reflexivity. Qed.

Lemma pow2_Z (n : Z) : (0 <= n)%Z -> inject_Z (2 ^ n) == 2 ^ n.
Proof. intros H. rewrite Zpower_Qpower by assumption. reflexivity. Qed.

Lemma log2_Q (a : Z) :
  (0 < a)%Z -> 2 ^ Z.log2 a <= inject_Z a /\ inject_Z a < 2 * 2 ^ Z.log2 a.
Proof.
  intros Ha. pose proof (Z.log2_spec a Ha) as [H1 H2].
  pose proof (Z.log2_nonneg a) as H0.
  rewrite <- pow2_Z by assumption. split.
  - rewrite <- Zle_Qle. exact H1.
  - change 2 with (inject_Z 2) at 1. rewrite <- inject_Z_mult, <- Zlt_Qlt.
    rewrite Z.pow_succ_r in H2 by assumption. exact H2.
Qed.

Lemma flog2_spec (q : Q) :
  0 < q -> 2 ^ Js.flog2 q <= q /\ q < 2 ^ (Js.flog2 q + 1).
Proof.
  intros Hq. destruct q as [a b].
  assert (Ha : (0 < a)%Z).
  { unfold Qlt in Hq. cbn in Hq. lia. }
  pose proof (log2_Q a Ha) as [A1 A2].
  pose proof (log2_Q (Zpos b) eq_refl) as [B1 B2].
  unfold Js.flog2. cbn [Qnum Qden].
  set (la := Z.log2 a) in *. set (lb := Z.log2 (Zpos b)) in *.
  pose proof (pow2_pos la) as Pa. pose proof (pow2_pos lb) as Pb.
  assert (Hab : a # b == inject_Z a / inject_Z (Zpos b)) by apply Qmake_Qdiv.
  set (A := inject_Z a) in *. set (B := inject_Z (Zpos b)) in *.
  clearbody A B.
  assert (Hb : 0 < B) by lra.
  assert (He : 2 ^ (la - lb) == 2 ^ la / 2 ^ lb) by (apply Qpower_minus; discriminate).
  assert (Hi : 2 ^ lb * / 2 ^ lb == 1) by (apply Qmult_inv_r; lra).
  assert (Ii : 0 < / 2 ^ lb) by (apply Qinv_lt_0_compat; exact Pb).
  unfold Qdiv in He.
  set (P := 2 ^ la) in *. set (R := 2 ^ lb) in *. set (I := / R) in *.
  clearbody P R I.
  destruct (Qle_bool (2 ^ (la - lb)) (a # b)) eqn:E.
  - split; [apply Qle_bool_iff; exact E|].
    rewrite pow2_succ, He, Hab.
    apply Qlt_shift_div_r; [exact Hb|].
    assert (1 <= B * I) by nra.
    nra.
  - assert (Hlt : a # b < 2 ^ (la - lb)).
    { apply Qnot_le_lt. intros H. apply Qle_bool_iff in H. congruence. }
    split.
    + rewrite pow2_pred, He, Hab.
      apply Qle_shift_div_l; [exact Hb|].
      unfold Qdiv. change (/ 2) with (1 # 2).
      assert (B * I <= 2) by nra.
      nra.
    + replace (la - lb - 1 + 1)%Z with (la - lb)%Z by lia. exact Hlt.
Qed.

Lemma nearest_accurate (q : Q) :
  0 < q -> (-1022 <= Js.flog2 q)%Z ->
  Qabs (Js.nearest q - q) <= q * 2 ^ (-53).
Proof.
  intros Hq He. pose proof (flog2_spec q Hq) as [L _].
  unfold Js.nearest. rewrite Qred_correct.
  rewrite Z.max_l by lia.
  set (e := Js.flog2 q) in *.
  pose proof (pow2_pos (e - 52)) as Pu.
  pose proof (half_even_near (q / 2 ^ (e - 52))) as Hm.
  assert (Hu : 2 ^ (e - 52) * 2 ^ (-1) == 2 ^ e * 2 ^ (-53)).
  { rewrite <- !Qpower_plus by discriminate. f_equiv. lia. }
  change (2 ^ (-1)) with (1 # 2) in Hu.
  pose proof (pow2_pos (-53)) as P53.
  assert (Hx : q / 2 ^ (e - 52) * 2 ^ (e - 52) == q) by (field; lra).
  set (u := 2 ^ (e - 52)) in *. set (x := q / u) in *.
  set (m := inject_Z (Js.half_even x)) in *.
  set (c := 2 ^ (-53)) in *. set (p := 2 ^ e) in *.
  clearbody u x m c p.
  apply Qabs_Qle_condition in Hm. destruct Hm as [M1 M2].
  apply Qabs_Qle_condition. split; nra.
Qed.

Lemma rnd_comp (s : bool) (p q : Q) : p == q -> Js.rnd s p = Js.rnd s q.
Proof. intros E. unfold Js.rnd. rewrite (Qred_complete p q E). reflexivity. Qed.

Lemma rnd_zero (s : bool) (q : Q) : q == 0 -> Js.rnd s q = Js.Finite s 0.
Proof. intros E. rewrite (rnd_comp s q 0 E). reflexivity. Qed.

(** Rounding a number in the range of the normal doubles: the result is
    finite and off by at most half a unit in the last place. *)
Lemma rnd_accurate (s : bool) (q : Q) :
  2 ^ (-1022) <= q -> q < 2 ^ 1023 ->
  exists v, Js.rnd s q = Js.Finite s v /\ Qabs (v - q) <= q * 2 ^ (-53).
Proof.
  intros Hlo Hhi. unfold Js.rnd.
  pose proof (Qred_correct q) as Hr.
  set (q' := Qred q) in *. clearbody q'.
  pose proof (pow2_pos (-1022)) as Plo.
  assert (Hq : 0 < q') by (rewrite Hr; lra).
  destruct (Qle_bool q' 0) eqn:E0.
  { apply Qle_bool_iff in E0. lra. }
  pose proof (flog2_spec q' Hq) as [L U].
  assert (He : (-1022 <= Js.flog2 q')%Z).
  { assert (H : 2 ^ (-1022) < 2 ^ (Js.flog2 q' + 1)) by (rewrite <- Hr in Hlo; lra).
    apply Qpower_lt_compat_l_inv in H; [lia|reflexivity]. }
  pose proof (nearest_accurate q' Hq He) as Hn.
  assert (H24 : 2 ^ 1024 == 2 * 2 ^ 1023) by (apply (pow2_succ 1023)).
  assert (H53 : 2 ^ (-53) <= 1 # 2).
  { change (1 # 2) with (2 ^ (-1)). apply Qpower_le_compat_l; [lia|discriminate]. }
  pose proof (pow2_pos (-53)) as P53.
  set (c := 2 ^ (-53)) in *. set (T := 2 ^ 1023) in *. set (T' := 2 ^ 1024) in *.
  set (v := Js.nearest q') in *.
  clearbody c T T' v.
  apply Qabs_Qle_condition in Hn. destruct Hn as [N1 N2].
  destruct (Qle_bool T' v) eqn:E1.
  { apply Qle_bool_iff in E1. nra. }
  exists v. split; [reflexivity|].
  apply Qabs_Qle_condition. rewrite <- Hr. split; lra.
Qed.

Lemma Qred_Z (z : Z) : Qred (inject_Z z) = inject_Z z.
Proof.
  unfold Qred, inject_Z.
  pose proof (Z.ggcd_gcd z 1) as Hg.
  pose proof (Z.ggcd_correct_divisors z 1) as Hd.
  destruct (Z.ggcd z 1) as [g [aa bb]]. cbn [fst snd] in *.
  rewrite Z.gcd_1_r in Hg. subst g. destruct Hd as [Ha Hb].
  rewrite Z.mul_1_l in Ha, Hb. subst. reflexivity.
Qed.

Lemma flog2_Z (z : Z) : (0 < z)%Z -> Js.flog2 (inject_Z z) = Z.log2 z.
Proof.
  intros Hz. unfold Js.flog2.
  change (Qnum (inject_Z z)) with z. change (Z.log2 (Z.pos (Qden (inject_Z z)))) with 0%Z.
  rewrite Z.sub_0_r.
  destruct (log2_Q z Hz) as [H _].
  apply Qle_bool_iff in H. rewrite H. reflexivity.
Qed.

(** An integer below [2^53] is a double. *)
Lemma num_exact (z : Z) :
  (0 <= z < 2 ^ 53)%Z -> Js.num z = Js.Finite false (inject_Z z).
Proof.
  intros [H0 H1]. unfold Js.num.
  replace (z <? 0)%Z with false by (symmetry; apply Z.ltb_ge; lia).
  rewrite Z.abs_eq by lia.
  destruct (Z.eq_dec z 0%Z) as [->|Hz]; [reflexivity|].
  assert (Hp : (0 < z)%Z) by lia.
  unfold Js.rnd. rewrite Qred_Z.
  destruct (Qle_bool (inject_Z z) 0) eqn:E0.
  { apply Qle_bool_iff in E0. change 0 with (inject_Z 0) in E0.
    rewrite <- Zle_Qle in E0. lia. }
  assert (Hn : Js.nearest (inject_Z z) = inject_Z z).
  { unfold Js.nearest. rewrite (flog2_Z z Hp).
    pose proof (Z.log2_nonneg z) as Hl0.
    assert (Hl : (Z.log2 z < 53)%Z) by (apply Z.log2_lt_pow2; lia).
    rewrite Z.max_l by lia.
    set (e := Z.log2 z) in *.
    assert (Hx : inject_Z z / 2 ^ (e - 52) == inject_Z (z * 2 ^ (52 - e))).
    { rewrite inject_Z_mult, pow2_Z by lia.
      replace (e - 52)%Z with (- (52 - e))%Z by lia.
      rewrite Qpower_opp. pose proof (pow2_pos (52 - e)). field. lra. }
    rewrite (half_even_comp _ _ Hx), half_even_Z.
    transitivity (Qred (inject_Z z)); [apply Qred_complete|apply Qred_Z].
    rewrite inject_Z_mult, pow2_Z by lia.
    replace (e - 52)%Z with (- (52 - e))%Z by lia.
    rewrite Qpower_opp. pose proof (pow2_pos (52 - e)). field. lra. }
  rewrite Hn.
  destruct (Qle_bool (2 ^ 1024) (inject_Z z)) eqn:E1; [|reflexivity].
  apply Qle_bool_iff in E1. rewrite <- (pow2_Z 1024) in E1 by lia.
  rewrite <- Zle_Qle in E1.
  assert (2 ^ 53 < 2 ^ 1024)%Z by (apply Z.pow_lt_mono_r; lia). lia.
Qed.

Lemma is_zero_Z (k : Z) : (0 < k)%Z -> Js.is_zero (inject_Z k) = false.
Proof.
  intros Hk. unfold Js.is_zero. apply not_true_is_false. intros H.
  apply Qeq_bool_iff in H. change 0 with (inject_Z 0) in H.
  apply (proj1 (inject_Z_injective k 0)) in H. lia.
Qed.

Lemma pct_first (k : Z) :
  (0 < k < 2 ^ 53)%Z -> Js.mul (Js.div (Js.num 0) (Js.num k)) (Js.num 100) = Js.Finite false 0.
Proof.
  intros Hk. rewrite (num_exact k) by lia.
  change (Js.num 0) with (Js.Finite false 0).
  cbn [Js.div]. rewrite (is_zero_Z k) by lia. cbn [xorb].
  rewrite (rnd_zero false (0 / inject_Z k)); [reflexivity|].
  unfold Qdiv. ring.
Qed.

Lemma pct_last (k : Z) :
  (0 < k < 2 ^ 53)%Z -> Js.mul (Js.div (Js.num k) (Js.num k)) (Js.num 100) = Js.Finite false 100.
Proof.
  intros Hk. rewrite (num_exact k) by lia.
  cbn [Js.div]. rewrite (is_zero_Z k) by lia. cbn [xorb].
  rewrite (rnd_comp false (inject_Z k / inject_Z k) 1).
  - vm_compute. reflexivity.
  - assert (H : ~ inject_Z k == 0).
    { change 0 with (inject_Z 0). intros E. apply (proj1 (inject_Z_injective k 0)) in E. lia. }
    field. exact H.
Qed.

Lemma pct_near (i k : Z) :
  (0 < i <= k)%Z -> (k < 2 ^ 53)%Z ->
  near (Js.mul (Js.div (Js.num i) (Js.num k)) (Js.num 100)) (inject_Z i / inject_Z k * 100).
Proof.
  intros Hi Hk. unfold near.
  rewrite (num_exact i), (num_exact k) by lia.
  change (Js.num 100) with (Js.Finite false 100).
  cbn [Js.div]. rewrite (is_zero_Z k) by lia. cbn [xorb].
  assert (HI : 1 <= inject_Z i).
  { change 1 with (inject_Z 1). rewrite <- Zle_Qle. lia. }
  assert (HK : inject_Z i <= inject_Z k) by (rewrite <- Zle_Qle; lia).
  assert (HK' : inject_Z k <= 2 ^ 53).
  { rewrite <- (pow2_Z 53) by lia. rewrite <- Zle_Qle. lia. }
  assert (Hq : inject_Z i / inject_Z k * inject_Z k == inject_Z i) by (field; lra).
  assert (H53 : 2 ^ (-53) * 2 ^ 53 == 1) by reflexivity.
  assert (Hlo : 2 ^ (-1022) <= 2 ^ (-54)) by (apply Qpower_le_compat_l; [lia|discriminate]).
  assert (H54 : 2 ^ (-54) * 2 == 2 ^ (-53)) by reflexivity.
  assert (H51 : 2 ^ (-51) == 4 * 2 ^ (-53)) by reflexivity.
  assert (Hhi : 256 <= 2 ^ 1023).
  { change 256 with (2 ^ 8). apply Qpower_le_compat_l; [lia|discriminate]. }
  pose proof (pow2_pos (-53)) as Pc. pose proof (pow2_pos 53) as PC.
  pose proof (pow2_pos (-54)) as Pc'.
  assert (Hc : 2 ^ (-53) <= 1 # 2).
  { change (1 # 2) with (2 ^ (-1)). apply Qpower_le_compat_l; [lia|discriminate]. }
  pose proof (rnd_accurate false) as RA.
  set (I := inject_Z i) in *. set (K := inject_Z k) in *.
  set (q := I / K) in *. set (c := 2 ^ (-53)) in *. set (C := 2 ^ 53) in *.
  set (c' := 2 ^ (-54)) in *. set (lo := 2 ^ (-1022)) in *.
  set (hi := 2 ^ 1023) in *. set (c51 := 2 ^ (-51)) in *.
  clearbody I K q c C c' lo hi c51.
  assert (Q1 : q <= 1) by nra.
  assert (Q0 : c <= q) by nra.
  destruct (RA q) as (r & Hr & Ar); [lra|lra|].
  rewrite Hr. cbn [Js.mul xorb].
  apply Qabs_Qle_condition in Ar. destruct Ar as [A1 A2].
  assert (Hqc : q * c <= q * (1 # 2)) by nra.
  assert (Hd : 0 <= q * c) by nra.
  assert (R0 : q * (1 # 2) <= r) by lra.
  assert (R1 : r <= q + q * c) by lra.
  destruct (RA (r * 100)) as (v & Hv & Av); [lra|lra|].
  exists v. split; [exact Hv|].
  apply Qabs_Qle_condition in Av. destruct Av as [B1 B2].
  assert (Hrc : r * c <= q * c * (3 # 2)) by nra.
  apply Qabs_Qle_condition. rewrite H51.
  split; nra.
Qed.
End DoubleFacts.

(** On every slide of every deck of 2 to 129 slides, [Js.div] and
    [Js.mul] give the double that the processor computes for
    [(i / (n - 1)) * 100]. *)
Lemma percent_as_in_hardware :
  forallb (fun p => double_eqb (percent p.1 p.2) (of_float (hardware_percent p.1 p.2)))
    (decks_upto 128)
  = true.
Proof. vm_compute. reflexivity. Qed.

(** The width the script computes for slide [i] of [n]. *)
Lemma percent_width (i n : Z) :
  0 <= i < n -> n <= 2 ^ 53 -> width_ok (percent i n) i n.
Proof.
  intros Hi Hn. unfold width_ok, percent, progress_fraction.
  destruct (Z.gtb_spec n 1) as [H1|H1].
  - assert (Hk : 0 < n - 1 < 2 ^ 53) by lia.
    split; [|split].
    + intros -> _. rewrite (pct_first (n - 1) Hk). reflexivity.
    + intros ->. rewrite (pct_last (n - 1) Hk). reflexivity.
    + destruct (Z.eq_dec i 0) as [->|Hi0].
      * rewrite (pct_first (n - 1) Hk). exists 0%Q. split; [reflexivity|].
        apply Qabs_Qle_condition.
        assert (E : (inject_Z 0 / inject_Z (n - 1) * 100 == 0)%Q)
          by (unfold Qdiv; change (inject_Z 0) with 0%Q; ring).
        rewrite E. split; discriminate.
      * apply pct_near; lia.
  - assert (n = 1) by lia. subst n. assert (i = 0) by lia. subst i.
    split; [lia|]. split; [reflexivity|].
    exists 100%Q. split; [reflexivity|].
    apply Qabs_Qle_condition. split; discriminate.
Qed.

(** ** The slide navigator *)

(** What the three refreshes of [deck.js] leave in the core. *)
Lemma DeckJs_refresh (c : NavCore) :
  let c' := DeckJs.updateNotes (DeckJs.updateCounter (DeckJs.updateProgress c)) in
  slides c' = slides c
  /\ currentIndex c' = currentIndex c
  /\ progress_fill c'
     = (match progress_fill c with
        | Some _ => Some (percent (currentIndex c) (Js.len (slides c)))
        | None => None
        end)
  /\ slide_counter c'
     = (match slide_counter c with
        | Some _ => Some (Js.str (currentIndex c + 1) +:+ " / "
                          +:+ Js.str (Js.len (slides c)))
        | None => None
        end)
  /\ prev_btn c'
     = (match prev_btn c with
        | Some _ => Some (currentIndex c =? 0)
        | None => None
        end)
  /\ next_btn c'
     = (match next_btn c with
        | Some _ => Some (currentIndex c =? Js.len (slides c) - 1)
        | None => None
        end).
Proof.
  destruct c as [sl i pf sc pb nb nc].
  unfold DeckJs.updateNotes, DeckJs.updateCounter, DeckJs.updateProgress, percent.
  destruct pf, nc; cbn; auto 10.
Qed.

Lemma Part001_refresh_eq (c : NavCore) :
  Part001.updateNotes (Part001.updateCounter (Part001.updateProgress c))
  = DeckJs.updateNotes (DeckJs.updateCounter (DeckJs.updateProgress c)).
Proof. reflexivity. Qed.

Lemma refresh_rendered (c : NavCore) :
  rendered (DeckJs.updateNotes (DeckJs.updateCounter (DeckJs.updateProgress c))).
Proof.
  destruct (DeckJs_refresh c) as (Hs & Hi & Hp & Hc & Hpb & Hnb).
  unfold rendered. rewrite Hs, Hi, Hp, Hc, Hpb, Hnb.
  split; [|split; [|split]].
  - intros w Hw Hr Hn. destruct (progress_fill c); inversion Hw; subst.
    apply percent_width; assumption.
  - intros t Ht. destruct (slide_counter c); inversion Ht; reflexivity.
  - intros b Hb. destruct (prev_btn c); inversion Hb; subst. apply Z.eqb_eq.
  - intros b Hb. destruct (next_btn c); inversion Hb; subst. apply Z.eqb_eq.
Qed.


(** The active-class swap at the start of [goToSlide]: it succeeds on a
    valid state and a target in range, and touches nothing but the class
    lists. *)
Lemma swap_active (i : Z) (c : NavCore) :
  nav_valid c -> 0 <= i < Js.len (slides c) ->
  exists c3,
    (c1 ← classList_active false (currentIndex c) c;
     classList_active true (currentIndex (with_currentIndex i c1))
       (with_currentIndex i c1)) = Ok c3
    /\ currentIndex c3 = i
    /\ Js.len (slides c3) = Js.len (slides c)
    /\ progress_fill c3 = progress_fill c
    /\ slide_counter c3 = slide_counter c
    /\ prev_btn c3 = prev_btn c
    /\ next_btn c3 = next_btn c
    /\ notes_content c3 = notes_content c.
Proof.
  intros Hv Hi.
  destruct (classList_active_Ok false (currentIndex c) c Hv)
    as (c1 & -> & Hl1 & _ & Hp1 & Hc1 & Hpb1 & Hnb1 & Hn1).
  cbn [mbind result_bind].
  destruct (classList_active_Ok true i (with_currentIndex i c1))
    as (c3 & Hc3 & Hl3 & Hi3 & Hp3 & Hcc3 & Hpb3 & Hnb3 & Hn3).
  { cbn. lia. }
  exists c3. cbn [currentIndex with_currentIndex]. rewrite Hc3.
  cbn in *. repeat split; congruence.
Qed.

Lemma range_test (i n : Z) :
  (i <? 0) || (i >=? n) = false <-> 0 <= i < n.
Proof.
  rewrite orb_false_iff, Z.ltb_ge, Z.geb_leb, Z.leb_gt. lia.
Qed.

Lemma range_test_out (i n : Z) :
  ~ 0 <= i < n -> (i <? 0) || (i >=? n) = true.
Proof.
  intros H. destruct ((i <? 0) || (i >=? n)) eqn:E; [reflexivity|].
  apply range_test in E. contradiction.
Qed.

Lemma DeckJs_goToSlide_out (i : Z) (s : DeckJs.State) :
  ~ 0 <= i < Js.len (slides (DeckJs.core s)) -> DeckJs.goToSlide i s = Ok s.
Proof.
  intros H. unfold DeckJs.goToSlide. rewrite range_test_out; auto.
Qed.

Lemma Part001_goToSlide_out (i : Z) (s : Part001.State) :
  ~ 0 <= i < Js.len (slides (Part001.core s)) -> Part001.goToSlide i s = Ok s.
Proof.
  intros H. unfold Part001.goToSlide. rewrite range_test_out; auto.
Qed.

Lemma DeckJs_goToSlide_in (i : Z) (s : DeckJs.State) :
  nav_valid (DeckJs.core s) -> 0 <= i < Js.len (slides (DeckJs.core s)) ->
  exists c3,
    DeckJs.goToSlide i s
    = Ok (DeckJs.updateMusic
            (DeckJs.with_core
               (DeckJs.updateNotes (DeckJs.updateCounter (DeckJs.updateProgress c3)))
               s))
    /\ currentIndex c3 = i
    /\ Js.len (slides c3) = Js.len (slides (DeckJs.core s))
    /\ progress_fill c3 = progress_fill (DeckJs.core s)
    /\ slide_counter c3 = slide_counter (DeckJs.core s)
    /\ prev_btn c3 = prev_btn (DeckJs.core s)
    /\ next_btn c3 = next_btn (DeckJs.core s).
Proof.
  intros Hv Hi. unfold DeckJs.goToSlide.
  rewrite (proj2 (range_test i _) Hi).
  destruct (swap_active i (DeckJs.core s) Hv Hi)
    as (c3 & E & H1 & H2 & H3 & H4 & H5 & H6 & _).
  exists c3. split; [|auto 10].
  cbn [mbind result_bind] in *.
  destruct (classList_active false _ _) as [c1|]; [|discriminate].
  cbn in E |- *. rewrite E. reflexivity.
Qed.

Lemma Part001_goToSlide_in (i : Z) (s : Part001.State) :
  nav_valid (Part001.core s) -> 0 <= i < Js.len (slides (Part001.core s)) ->
  exists c3,
    Part001.goToSlide i s
    = Ok (Part001.updateMusic
            (Part001.with_core
               (DeckJs.updateNotes (DeckJs.updateCounter (DeckJs.updateProgress c3)))
               s))
    /\ currentIndex c3 = i
    /\ Js.len (slides c3) = Js.len (slides (Part001.core s))
    /\ progress_fill c3 = progress_fill (Part001.core s)
    /\ slide_counter c3 = slide_counter (Part001.core s)
    /\ prev_btn c3 = prev_btn (Part001.core s)
    /\ next_btn c3 = next_btn (Part001.core s).
Proof.
  intros Hv Hi. unfold Part001.goToSlide.
  rewrite (proj2 (range_test i _) Hi).
  destruct (swap_active i (Part001.core s) Hv Hi)
    as (c3 & E & H1 & H2 & H3 & H4 & H5 & H6 & _).
  exists c3. split; [|auto 10].
  cbn [mbind result_bind] in *.
  destruct (classList_active false _ _) as [c1|]; [|discriminate].
  cbn in E |- *. rewrite E. reflexivity.
Qed.

Lemma DeckJs_updateMusic_core (s : DeckJs.State) :
  DeckJs.core (DeckJs.updateMusic s) = DeckJs.core s.
Proof.
  unfold DeckJs.updateMusic.
  destruct (DeckJs.music_player s); [|reflexivity].
  repeat match goal with |- context [if ?b then _ else _] => destruct b end;
    reflexivity.
Qed.

Lemma Part001_updateMusic_core (s : Part001.State) :
  Part001.core (Part001.updateMusic s) = Part001.core s.
Proof.
  unfold Part001.updateMusic. destruct (Part001.spotify_box s); reflexivity.
Qed.

Lemma refresh_same_elements (c3 c : NavCore) :
  progress_fill c3 = progress_fill c ->
  slide_counter c3 = slide_counter c ->
  prev_btn c3 = prev_btn c ->
  next_btn c3 = next_btn c ->
  same_elements c
    (DeckJs.updateNotes (DeckJs.updateCounter (DeckJs.updateProgress c3))).
Proof.
  intros H1 H2 H3 H4.
  destruct (DeckJs_refresh c3) as (_ & _ & Hp & Hc & Hpb & Hnb).
  unfold same_elements. rewrite Hp, Hc, Hpb, Hnb, H1, H2, H3, H4.
  destruct (progress_fill c), (slide_counter c), (prev_btn c), (next_btn c);
    repeat split; intros [x Hx]; try discriminate; eauto.
Qed.

Lemma same_elements_refl (c : NavCore) : same_elements c c.
Proof. unfold same_elements. tauto. Qed.

(** [goToSlide] with a target in range, seen through the core: it
    succeeds, lands on the target, keeps the slides, and leaves the derived
    elements rendered. *)
Lemma DeckJs_goToSlide_spec (i : Z) (s : DeckJs.State) :
  nav_valid (DeckJs.core s) -> 0 <= i < Js.len (slides (DeckJs.core s)) ->
  exists s', DeckJs.goToSlide i s = Ok s'
    /\ currentIndex (DeckJs.core s') = i
    /\ Js.len (slides (DeckJs.core s')) = Js.len (slides (DeckJs.core s))
    /\ rendered (DeckJs.core s')
    /\ same_elements (DeckJs.core s) (DeckJs.core s').
Proof.
  intros Hv Hi.
  destruct (DeckJs_goToSlide_in i s Hv Hi)
    as (c3 & E & H1 & H2 & H3 & H4 & H5 & H6).
  eexists; split; [exact E|].
  rewrite DeckJs_updateMusic_core. cbn [DeckJs.core DeckJs.with_core].
  destruct (DeckJs_refresh c3) as (Hs & Hc & _).
  rewrite Hc. unfold Js.len at 1. rewrite Hs. fold (Js.len (slides c3)).
  split; [assumption|]. split; [assumption|].
  split; [apply refresh_rendered | apply refresh_same_elements; assumption].
Qed.

Lemma Part001_goToSlide_spec (i : Z) (s : Part001.State) :
  nav_valid (Part001.core s) -> 0 <= i < Js.len (slides (Part001.core s)) ->
  exists s', Part001.goToSlide i s = Ok s'
    /\ currentIndex (Part001.core s') = i
    /\ Js.len (slides (Part001.core s')) = Js.len (slides (Part001.core s))
    /\ rendered (Part001.core s')
    /\ same_elements (Part001.core s) (Part001.core s').
Proof.
  intros Hv Hi.
  destruct (Part001_goToSlide_in i s Hv Hi)
    as (c3 & E & H1 & H2 & H3 & H4 & H5 & H6).
  eexists; split; [exact E|].
  rewrite Part001_updateMusic_core. cbn [Part001.core Part001.with_core].
  destruct (DeckJs_refresh c3) as (Hs & Hc & _).
  rewrite Hc. unfold Js.len at 1. rewrite Hs. fold (Js.len (slides c3)).
  split; [assumption|]. split; [assumption|].
  split; [apply refresh_rendered | apply refresh_same_elements; assumption].
Qed.

Lemma nav_target_GoTo_in (i : Z) (c : NavCore) :
  0 <= i < Js.len (slides c) -> nav_target (GoTo i) c = i.
Proof.
  intros H. unfold nav_target.
  destruct (Z.leb_spec 0 i), (Z.ltb_spec i (Js.len (slides c))); cbn; lia.
Qed.

Lemma nav_target_GoTo_out (i : Z) (c : NavCore) :
  ~ 0 <= i < Js.len (slides c) -> nav_target (GoTo i) c = currentIndex c.
Proof.
  intros H. unfold nav_target.
  destruct (Z.leb_spec 0 i), (Z.ltb_spec i (Js.len (slides c))); cbn; lia.
Qed.

(** One event on a valid state, for [deck.js]. *)
Lemma DeckJs_nav_step_spec (e : NavEvent) (s : DeckJs.State) :
  nav_valid (DeckJs.core s) ->
  exists s', DeckJs.nav_step e s = Ok s'
    /\ nav_valid (DeckJs.core s')
    /\ currentIndex (DeckJs.core s') = nav_target e (DeckJs.core s)
    /\ Js.len (slides (DeckJs.core s')) = Js.len (slides (DeckJs.core s))
    /\ (out_of_range e (DeckJs.core s) -> s' = s)
    /\ (~ out_of_range e (DeckJs.core s) -> rendered (DeckJs.core s'))
    /\ same_elements (DeckJs.core s) (DeckJs.core s').
Proof.
  intros Hv. pose proof Hv as Hv'. unfold nav_valid in Hv'.
  assert (Hgo : forall i, 0 <= i < Js.len (slides (DeckJs.core s)) ->
            nav_target e (DeckJs.core s) = i ->
            ~ out_of_range e (DeckJs.core s) ->
            DeckJs.nav_step e s = DeckJs.goToSlide i s ->
            exists s', DeckJs.nav_step e s = Ok s'
              /\ nav_valid (DeckJs.core s')
              /\ currentIndex (DeckJs.core s') = nav_target e (DeckJs.core s)
              /\ Js.len (slides (DeckJs.core s')) = Js.len (slides (DeckJs.core s))
              /\ (out_of_range e (DeckJs.core s) -> s' = s)
              /\ (~ out_of_range e (DeckJs.core s) -> rendered (DeckJs.core s'))
              /\ same_elements (DeckJs.core s) (DeckJs.core s')).
  { intros i Hi Ht Hin ->.
    destruct (DeckJs_goToSlide_spec i s Hv Hi) as (s' & E & Hc & Hl & Hr & Hse).
    exists s'. unfold nav_valid. rewrite Hc, Hl, Ht.
    split; [assumption|]. split; [lia|]. split; [reflexivity|].
    split; [reflexivity|]. split; [intros; contradiction|].
    split; [intros; assumption | assumption]. }
  destruct e as [i| |].
  - destruct (decide (0 <= i < Js.len (slides (DeckJs.core s)))) as [Hi|Hi].
    + apply (Hgo i Hi); [apply nav_target_GoTo_in; assumption | cbn; tauto | reflexivity].
    + exists s. cbn [DeckJs.nav_step]. rewrite DeckJs_goToSlide_out by assumption.
      rewrite nav_target_GoTo_out by assumption.
      split; [reflexivity|]. split; [assumption|]. split; [reflexivity|].
      split; [reflexivity|]. split; [reflexivity|].
      split; [intros H; cbn in H; contradiction | apply same_elements_refl].
  - apply (Hgo (Z.min (Js.len (slides (DeckJs.core s)) - 1)
                  (currentIndex (DeckJs.core s) + 1)));
      [lia | unfold nav_target, clamp; lia | cbn; tauto | reflexivity].
  - apply (Hgo (Z.max 0 (currentIndex (DeckJs.core s) - 1)));
      [lia | unfold nav_target, clamp; lia | cbn; tauto | reflexivity].
Qed.

(** One event on a valid state, for the narration revision. *)
Lemma Part001_nav_step_spec (e : NavEvent) (s : Part001.State) :
  nav_valid (Part001.core s) ->
  exists s', Part001.nav_step e s = Ok s'
    /\ nav_valid (Part001.core s')
    /\ currentIndex (Part001.core s') = nav_target e (Part001.core s)
    /\ Js.len (slides (Part001.core s')) = Js.len (slides (Part001.core s))
    /\ (out_of_range e (Part001.core s) -> s' = s)
    /\ (~ out_of_range e (Part001.core s) -> rendered (Part001.core s'))
    /\ same_elements (Part001.core s) (Part001.core s').
Proof.
  intros Hv. pose proof Hv as Hv'. unfold nav_valid in Hv'.
  assert (Hgo : forall i, 0 <= i < Js.len (slides (Part001.core s)) ->
            nav_target e (Part001.core s) = i ->
            ~ out_of_range e (Part001.core s) ->
            Part001.nav_step e s = Part001.goToSlide i s ->
            exists s', Part001.nav_step e s = Ok s'
              /\ nav_valid (Part001.core s')
              /\ currentIndex (Part001.core s') = nav_target e (Part001.core s)
              /\ Js.len (slides (Part001.core s')) = Js.len (slides (Part001.core s))
              /\ (out_of_range e (Part001.core s) -> s' = s)
              /\ (~ out_of_range e (Part001.core s) -> rendered (Part001.core s'))
              /\ same_elements (Part001.core s) (Part001.core s')).
  { intros i Hi Ht Hin ->.
    destruct (Part001_goToSlide_spec i s Hv Hi) as (s' & E & Hc & Hl & Hr & Hse).
    exists s'. unfold nav_valid. rewrite Hc, Hl, Ht.
    split; [assumption|]. split; [lia|]. split; [reflexivity|].
    split; [reflexivity|]. split; [intros; contradiction|].
    split; [intros; assumption | assumption]. }
  destruct e as [i| |].
  - destruct (decide (0 <= i < Js.len (slides (Part001.core s)))) as [Hi|Hi].
    + apply (Hgo i Hi); [apply nav_target_GoTo_in; assumption | cbn; tauto | reflexivity].
    + exists s. cbn [Part001.nav_step]. rewrite Part001_goToSlide_out by assumption.
      rewrite nav_target_GoTo_out by assumption.
      split; [reflexivity|]. split; [assumption|]. split; [reflexivity|].
      split; [reflexivity|]. split; [reflexivity|].
      split; [intros H; cbn in H; contradiction | apply same_elements_refl].
  - apply (Hgo (Z.min (Js.len (slides (Part001.core s)) - 1)
                  (currentIndex (Part001.core s) + 1)));
      [lia | unfold nav_target, clamp; lia | cbn; tauto | reflexivity].
  - apply (Hgo (Z.max 0 (currentIndex (Part001.core s) - 1)));
      [lia | unfold nav_target, clamp; lia | cbn; tauto | reflexivity].
Qed.

Lemma DeckJs_nav_run_valid (es : list NavEvent) (s : DeckJs.State) :
  nav_valid (DeckJs.core s) ->
  exists s', DeckJs.nav_run es s = Ok s'
    /\ nav_valid (DeckJs.core s')
    /\ Js.len (slides (DeckJs.core s')) = Js.len (slides (DeckJs.core s))
    /\ (rendered (DeckJs.core s) -> rendered (DeckJs.core s')).
Proof.
  revert s. induction es as [|e es IH]; intros s Hv.
  - exists s. cbn. auto.
  - destruct (DeckJs_nav_step_spec e s Hv) as (s1 & E & Hv1 & _ & Hl & Hout & Hin & _).
    destruct (IH s1 Hv1) as (s' & E' & Hv' & Hl' & Hr').
    exists s'. cbn [DeckJs.nav_run]. rewrite E. cbn [mbind result_bind].
    split; [assumption|]. split; [assumption|]. split; [congruence|].
    intros Hr. apply Hr'.
    destruct e as [i| |]; try (apply Hin; cbn; tauto).
    destruct (decide (0 <= i < Js.len (slides (DeckJs.core s)))) as [Hi|Hi].
    + apply Hin. cbn. tauto.
    + rewrite (Hout Hi). assumption.
Qed.

Lemma Part001_nav_run_valid (es : list NavEvent) (s : Part001.State) :
  nav_valid (Part001.core s) ->
  exists s', Part001.nav_run es s = Ok s'
    /\ nav_valid (Part001.core s')
    /\ Js.len (slides (Part001.core s')) = Js.len (slides (Part001.core s))
    /\ (rendered (Part001.core s) -> rendered (Part001.core s')).
Proof.
  revert s. induction es as [|e es IH]; intros s Hv.
  - exists s. cbn. auto.
  - destruct (Part001_nav_step_spec e s Hv) as (s1 & E & Hv1 & _ & Hl & Hout & Hin & _).
    destruct (IH s1 Hv1) as (s' & E' & Hv' & Hl' & Hr').
    exists s'. cbn [Part001.nav_run]. rewrite E. cbn [mbind result_bind].
    split; [assumption|]. split; [assumption|]. split; [congruence|].
    intros Hr. apply Hr'.
    destruct e as [i| |]; try (apply Hin; cbn; tauto).
    destruct (decide (0 <= i < Js.len (slides (Part001.core s)))) as [Hi|Hi].
    + apply Hin. cbn. tauto.
    + rewrite (Hout Hi). assumption.
Qed.

(** C5.  In both revisions [goToSlide] with an index outside
    [[0, slideCount - 1]] returns normally and leaves the whole state as it
    was; on a state whose [currentIndex] names a slide every navigation
    event returns normally, moves [currentIndex] to the clamped target
    (so [nextSlide] on the last slide and [prevSlide] on the first stay
    where they are, without wrapping), and every sequence of events keeps
    [currentIndex] within [[0, slideCount - 1]]. *)
Theorem C5_navigation_clamps_and_ignores_out_of_range :
  (forall i s, ~ 0 <= i < Js.len (slides (DeckJs.core s)) ->
     DeckJs.goToSlide i s = Ok s)
  /\ (forall i s, ~ 0 <= i < Js.len (slides (Part001.core s)) ->
       Part001.goToSlide i s = Ok s)
  /\ (forall e s, nav_valid (DeckJs.core s) ->
       exists s', DeckJs.nav_step e s = Ok s'
         /\ currentIndex (DeckJs.core s') = nav_target e (DeckJs.core s))
  /\ (forall e s, nav_valid (Part001.core s) ->
       exists s', Part001.nav_step e s = Ok s'
         /\ currentIndex (Part001.core s') = nav_target e (Part001.core s))
  /\ (forall c, nav_valid c ->
       (currentIndex c = Js.len (slides c) - 1 -> nav_target Next c = currentIndex c)
       /\ (currentIndex c = 0 -> nav_target Prev c = currentIndex c)
       /\ 0 <= nav_target Next c < Js.len (slides c)
       /\ 0 <= nav_target Prev c < Js.len (slides c))
  /\ (forall es s, nav_valid (DeckJs.core s) ->
       exists s', DeckJs.nav_run es s = Ok s'
         /\ 0 <= currentIndex (DeckJs.core s') < Js.len (slides (DeckJs.core s)))
  /\ (forall es s, nav_valid (Part001.core s) ->
       exists s', Part001.nav_run es s = Ok s'
         /\ 0 <= currentIndex (Part001.core s') < Js.len (slides (Part001.core s))).
Proof.
  split; [exact DeckJs_goToSlide_out|].
  split; [exact Part001_goToSlide_out|].
  split.
  { intros e s Hv.
    destruct (DeckJs_nav_step_spec e s Hv) as (s' & E & _ & Ht & _). eauto. }
  split.
  { intros e s Hv.
    destruct (Part001_nav_step_spec e s Hv) as (s' & E & _ & Ht & _). eauto. }
  split.
  { intros c Hv. unfold nav_valid in Hv. unfold nav_target, clamp. lia. }
  split.
  - intros es s Hv.
    destruct (DeckJs_nav_run_valid es s Hv) as (s' & E & Hv' & Hl & _).
    exists s'. split; [assumption|]. unfold nav_valid in Hv'. lia.
  - intros es s Hv.
    destruct (Part001_nav_run_valid es s Hv) as (s' & E & Hv' & Hl & _).
    exists s'. split; [assumption|]. unfold nav_valid in Hv'. lia.
Qed.

(** Witness for C5 on a page of three slides: [goToSlide(7)] and
    [goToSlide(-1)] change nothing, and pressing "next" five times ends on
    the last slide, index 2. *)
Lemma C5_witness :
  DeckJs.goToSlide 7 (deck_page 3) = Ok (deck_page 3)
  /\ Part001.goToSlide (-1) (part_page 3) = Ok (part_page 3)
  /\ exists s', DeckJs.nav_run [Next; Next; Next; Next; Next] (deck_page 3) = Ok s'
       /\ 0 <= currentIndex (DeckJs.core s') < 3.
Proof.
  destruct C5_navigation_clamps_and_ignores_out_of_range
    as (H1 & H2 & _ & _ & _ & H6 & _).
  split; [apply H1; unfold Js.len; simpl; lia|].
  split; [apply H2; unfold Js.len; simpl; lia|].
  apply (H6 [Next; Next; Next; Next; Next] (deck_page 3)).
  unfold nav_valid, Js.len; simpl; lia.
Defined.

(** C9 (as amended).  In both revisions, every navigation event that is
    not an out-of-range request leaves the derived elements rendered, and
    so does the initial [goToSlide(0)] followed by any sequence of
    events: the counter reads ["{currentIndex+1} / {slideCount}"], the
    previous button is disabled exactly at index 0 and the next button
    exactly at index [slideCount - 1], and the width of the progress bar,
    a double, is exactly 0 on the first of several slides, exactly 100 on
    the last slide, and otherwise within [p * 2^-51] of the percentage
    [p = currentIndex / (slideCount - 1) * 100] (for a deck of at most
    [2^53] slides).  The script's [updateProgress] gives exactly 0 at
    (0,5), 100 at (4,5) and 100 at (0,1). *)
Theorem C9_progress_counter_and_boundary_controls :
  (forall e s, nav_valid (DeckJs.core s) -> ~ out_of_range e (DeckJs.core s) ->
     exists s', DeckJs.nav_step e s = Ok s'
       /\ nav_valid (DeckJs.core s')
       /\ rendered (DeckJs.core s')
       /\ same_elements (DeckJs.core s) (DeckJs.core s'))
  /\ (forall e s, nav_valid (Part001.core s) -> ~ out_of_range e (Part001.core s) ->
       exists s', Part001.nav_step e s = Ok s'
         /\ nav_valid (Part001.core s')
         /\ rendered (Part001.core s')
         /\ same_elements (Part001.core s) (Part001.core s'))
  /\ (forall es s0, nav_valid (DeckJs.core s0) ->
       exists s, DeckJs.nav_run (GoTo 0 :: es) s0 = Ok s
         /\ nav_valid (DeckJs.core s) /\ rendered (DeckJs.core s))
  /\ (forall es s0, nav_valid (Part001.core s0) ->
       exists s, Part001.nav_run (GoTo 0 :: es) s0 = Ok s
         /\ nav_valid (Part001.core s) /\ rendered (Part001.core s))
  /\ is_percent (progress_at DeckJs.updateProgress 0 5) 0
  /\ is_percent (progress_at DeckJs.updateProgress 4 5) 100
  /\ is_percent (progress_at DeckJs.updateProgress 0 1) 100
  /\ is_percent (progress_at Part001.updateProgress 0 5) 0
  /\ is_percent (progress_at Part001.updateProgress 4 5) 100
  /\ is_percent (progress_at Part001.updateProgress 0 1) 100.
Proof.
  split.
  { intros e s Hv Hin.
    destruct (DeckJs_nav_step_spec e s Hv) as (s' & E & Hv' & _ & _ & _ & Hr & Hse).
    eauto 10. }
  split.
  { intros e s Hv Hin.
    destruct (Part001_nav_step_spec e s Hv) as (s' & E & Hv' & _ & _ & _ & Hr & Hse).
    eauto 10. }
  split.
  { intros es s0 Hv.
    destruct (DeckJs_nav_step_spec (GoTo 0) s0 Hv) as (s1 & E & Hv1 & _ & _ & _ & Hr & _).
    destruct (DeckJs_nav_run_valid es s1 Hv1) as (s & E' & Hv' & _ & Hr').
    exists s. cbn [DeckJs.nav_run]. rewrite E. cbn [mbind result_bind].
    split; [assumption|]. split; [assumption|].
    apply Hr', Hr. unfold nav_valid in Hv. cbn. lia. }
  split.
  { intros es s0 Hv.
    destruct (Part001_nav_step_spec (GoTo 0) s0 Hv) as (s1 & E & Hv1 & _ & _ & _ & Hr & _).
    destruct (Part001_nav_run_valid es s1 Hv1) as (s & E' & Hv' & _ & Hr').
    exists s. cbn [Part001.nav_run]. rewrite E. cbn [mbind result_bind].
    split; [assumption|]. split; [assumption|].
    apply Hr', Hr. unfold nav_valid in Hv. cbn. lia. }
  unfold is_percent, progress_at. repeat split; vm_compute; reflexivity.
Qed.

(** Witness for C9: on a five-slide page, "next" from the first slide
    renders the second; and the width at (4,5) is 100%. *)
Lemma C9_witness :
  exists s', DeckJs.nav_step Next (deck_page 5) = Ok s'
    /\ nav_valid (DeckJs.core s')
    /\ rendered (DeckJs.core s')
    /\ same_elements (DeckJs.core (deck_page 5)) (DeckJs.core s').
Proof.
  destruct C9_progress_counter_and_boundary_controls as (H1 & _).
  apply H1; [unfold nav_valid, Js.len; simpl; lia | simpl; tauto].
Defined.

(** Counterexample to C9 as stated: on the eighth of 26 slides the
    fraction is 7/25 and the percentage 28, but the double that
    [updateProgress] writes is [28 + 2^-48] (28.000000000000004): the
    quotient 7/25 is no double, and the product of its rounding by 100 is
    not 28. *)
Lemma C9_counterexample :
  exists s w,
    DeckJs.nav_run [GoTo 7] (deck_page 26) = Ok s
    /\ nav_valid (DeckJs.core s)
    /\ currentIndex (DeckJs.core s) = 7
    /\ Js.len (slides (DeckJs.core s)) = 26
    /\ (progress_fraction 7 26 * 100 == 28)%Q
    /\ progress_fill (DeckJs.core s) = Some w
    /\ w = Js.Finite false (28 + (1 # 2 ^ 48))%Q
    /\ w <> Js.num 28.
Proof.
  eexists. eexists.
  split; [vm_compute; reflexivity|].
  split; [unfold nav_valid, Js.len; cbn; lia|].
  split; [reflexivity|]. split; [reflexivity|]. split; [reflexivity|].
  split; [vm_compute; reflexivity|].
  split; [vm_compute; reflexivity|].
  vm_compute. discriminate.
Qed.

(** Five slides in [deck.js]: to the end with "next" (once more than
    needed), then one back: slide 4 of 5, 75%, neither button disabled,
    and only that slide active. *)
Example deck_five_slides :
  (fun s => (currentIndex (DeckJs.core s), progress_fill (DeckJs.core s),
             slide_counter (DeckJs.core s), prev_btn (DeckJs.core s),
             next_btn (DeckJs.core s), map slide_active (slides (DeckJs.core s))))
    <$> outcome (DeckJs.nav_run [GoTo 0; Next; Next; Next; Next; Next; Prev]
                   (deck_page 5))
  = Some (3, Some (Js.Finite false 75), Some "4 / 5", Some false, Some false,
          [false; false; false; true; false]).
Proof. vm_compute. reflexivity. Qed.

(** ** The reveal widget *)

Lemma DeckJs_updateMusic_spec (s : DeckJs.State) :
  DeckJs.music_player s = Some (DeckJs.musicActive s) ->
  let show := should_be_visible (currentIndex (DeckJs.core s))
                (Js.len (slides (DeckJs.core s))) in
  DeckJs.music_player (DeckJs.updateMusic s) = Some show
  /\ DeckJs.musicActive (DeckJs.updateMusic s) = show
  /\ DeckJs.music_log (DeckJs.updateMusic s)
     = reveal_writes (DeckJs.musicActive s) show ++ DeckJs.music_log s.
Proof.
  intros Hs show. unfold DeckJs.updateMusic. rewrite Hs.
  fold (should_be_visible (currentIndex (DeckJs.core s))
          (Js.len (slides (DeckJs.core s)))).
  fold show. unfold reveal_writes.
  destruct show, (DeckJs.musicActive s) eqn:Ha; cbn; rewrite ?Hs, ?Ha; auto.
Qed.

(** [goToSlide] of [deck.js] with a target in range, on a state whose
    class list agrees with [musicActive]: afterwards the widget follows the
    reveal rule, and the log has grown by the writes of the change. *)
Lemma DeckJs_reveal_goTo (i : Z) (s : DeckJs.State) :
  nav_valid (DeckJs.core s) ->
  DeckJs.music_player s = Some (DeckJs.musicActive s) ->
  0 <= i < Js.len (slides (DeckJs.core s)) ->
  exists s', DeckJs.goToSlide i s = Ok s'
    /\ nav_valid (DeckJs.core s')
    /\ reveal_ok s'
    /\ DeckJs.music_log s'
       = reveal_writes (DeckJs.musicActive s) (DeckJs.musicActive s')
         ++ DeckJs.music_log s.
Proof.
  intros Hv Hp Hi.
  destruct (DeckJs_goToSlide_in i s Hv Hi) as (c3 & E & H1 & H2 & _).
  eexists; split; [exact E|].
  set (s1 := DeckJs.with_core _ s).
  assert (Hs1 : DeckJs.music_player s1 = Some (DeckJs.musicActive s1))
    by exact Hp.
  destruct (DeckJs_updateMusic_spec s1 Hs1) as (Hm & Hact & Hlog).
  destruct (DeckJs_refresh c3) as (Hsl & Hci & _).
  assert (Hlen : Js.len (slides (DeckJs.core s1)) = Js.len (slides (DeckJs.core s))).
  { unfold s1. cbn [DeckJs.core DeckJs.with_core]. unfold Js.len in *.
    rewrite Hsl. assumption. }
  split.
  { unfold nav_valid. rewrite DeckJs_updateMusic_core, Hlen.
    unfold s1. cbn [DeckJs.core DeckJs.with_core]. rewrite Hci, H1. lia. }
  split.
  { unfold reveal_ok. rewrite Hm, Hact, DeckJs_updateMusic_core. auto. }
  rewrite Hlog, Hact. reflexivity.
Qed.

(** One event of [deck.js] on a state whose widget is in step: the widget
    stays in step, and the log grows by exactly the writes of a visibility
    change. *)
Lemma DeckJs_reveal_step (e : NavEvent) (s : DeckJs.State) :
  nav_valid (DeckJs.core s) -> reveal_ok s ->
  exists s', DeckJs.nav_step e s = Ok s'
    /\ nav_valid (DeckJs.core s')
    /\ reveal_ok s'
    /\ DeckJs.music_log s'
       = reveal_writes (DeckJs.musicActive s) (DeckJs.musicActive s')
         ++ DeckJs.music_log s.
Proof.
  intros Hv [Hp Ha].
  pose proof (fun i => DeckJs_reveal_goTo i s Hv Hp) as Hgo.
  unfold nav_valid in Hv.
  destruct e as [i| |]; cbn [DeckJs.nav_step].
  - destruct (decide (0 <= i < Js.len (slides (DeckJs.core s)))) as [Hi|Hi].
    + apply Hgo; assumption.
    + rewrite DeckJs_goToSlide_out by assumption.
      exists s. unfold reveal_ok, reveal_writes.
      rewrite Bool.eqb_reflx. auto.
  - apply Hgo. lia.
  - apply Hgo. lia.
Qed.

Lemma DeckJs_reveal_run (es : list NavEvent) (s : DeckJs.State) :
  nav_valid (DeckJs.core s) -> reveal_ok s ->
  exists s', DeckJs.nav_run es s = Ok s' /\ nav_valid (DeckJs.core s') /\ reveal_ok s'.
Proof.
  revert s. induction es as [|e es IH]; intros s Hv Hr.
  - exists s. cbn. auto.
  - destruct (DeckJs_reveal_step e s Hv Hr) as (s1 & E & Hv1 & Hr1 & _).
    destruct (IH s1 Hv1 Hr1) as (s' & E' & H').
    exists s'. cbn [DeckJs.nav_run]. rewrite E. cbn [mbind result_bind]. auto.
Qed.

(** [updateMusic] of [deck.js] whatever the class list holds: the record
    [musicActive] follows the reveal rule, a write happens exactly when
    the rule differs from the record, and without a write the class list
    is as it was. *)
Lemma DeckJs_updateMusic_any (s : DeckJs.State) (p : bool) :
  DeckJs.music_player s = Some p ->
  let show := should_be_visible (currentIndex (DeckJs.core s))
                (Js.len (slides (DeckJs.core s))) in
  DeckJs.musicActive (DeckJs.updateMusic s) = show
  /\ DeckJs.music_log (DeckJs.updateMusic s)
     = reveal_writes (DeckJs.musicActive s) show ++ DeckJs.music_log s
  /\ DeckJs.music_player (DeckJs.updateMusic s)
     = Some (if Bool.eqb (DeckJs.musicActive s) show then p else show).
Proof.
  intros Hs show. unfold DeckJs.updateMusic. rewrite Hs.
  fold (should_be_visible (currentIndex (DeckJs.core s))
          (Js.len (slides (DeckJs.core s)))).
  fold show. unfold reveal_writes.
  destruct show, (DeckJs.musicActive s) eqn:Ha; cbn; rewrite ?Hs, ?Ha; auto.
Qed.

Lemma DeckJs_record_goTo (i : Z) (s : DeckJs.State) (p : bool) :
  nav_valid (DeckJs.core s) ->
  DeckJs.music_player s = Some p ->
  0 <= i < Js.len (slides (DeckJs.core s)) ->
  exists s', DeckJs.goToSlide i s = Ok s'
    /\ DeckJs.musicActive s'
       = should_be_visible (currentIndex (DeckJs.core s'))
           (Js.len (slides (DeckJs.core s')))
    /\ DeckJs.music_log s'
       = reveal_writes (DeckJs.musicActive s) (DeckJs.musicActive s')
         ++ DeckJs.music_log s
    /\ DeckJs.music_player s'
       = Some (if Bool.eqb (DeckJs.musicActive s) (DeckJs.musicActive s')
               then p else DeckJs.musicActive s').
Proof.
  intros Hv Hp Hi.
  destruct (DeckJs_goToSlide_in i s Hv Hi) as (c3 & E & H1 & H2 & _).
  eexists; split; [exact E|].
  set (s1 := DeckJs.with_core _ s).
  assert (Hs1 : DeckJs.music_player s1 = Some p) by exact Hp.
  destruct (DeckJs_updateMusic_any s1 p Hs1) as (Hact & Hlog & Hm).
  rewrite DeckJs_updateMusic_core.
  split; [exact Hact|]. rewrite Hlog, Hm, Hact. auto.
Qed.

(** [goToSlide] of the narration revision with a target in range: the
    widget's [display] follows the reveal rule, and it is written once,
    whatever it was. *)
Lemma Part001_reveal_goTo (i : Z) (s : Part001.State) (v : string) :
  nav_valid (Part001.core s) ->
  Part001.spotify_box s = Some v ->
  0 <= i < Js.len (slides (Part001.core s)) ->
  exists s', Part001.goToSlide i s = Ok s'
    /\ currentIndex (Part001.core s') = i
    /\ Part001.spotify_box s'
       = Some (display_of (should_be_visible i (Js.len (slides (Part001.core s)))))
    /\ Part001.spotify_log s'
       = SetDisplay (display_of (should_be_visible i (Js.len (slides (Part001.core s)))))
         :: Part001.spotify_log s.
Proof.
  intros Hv Hb Hi.
  destruct (Part001_goToSlide_in i s Hv Hi) as (c3 & E & H1 & H2 & _).
  eexists; split; [exact E|].
  destruct (DeckJs_refresh c3) as (Hsl & Hci & _).
  rewrite Part001_updateMusic_core. cbn [Part001.core Part001.with_core].
  split; [congruence|].
  unfold Part001.updateMusic.
  cbn [Part001.core Part001.with_core Part001.spotify_box Part001.spotify_log].
  rewrite Hb. cbn [Part001.spotify_box Part001.spotify_log].
  unfold Js.len in *. rewrite Hsl, Hci, H1, H2.
  unfold display_of, should_be_visible. auto.
Qed.

(** C3 (as amended).  The reveal rule is [currentIndex >= slideCount - 3].
    In [deck.js], on a state in which the widget exists, its class
    [visible] agrees with the record [musicActive] and both follow the
    rule, every navigation event leaves the widget's visibility at the
    rule for the new index, and writes to its class list not at all when
    the visibility before and after agree and exactly once when it
    changes.  Such a state is reached by the first [goToSlide(0)] and
    kept by every event after it, provided the class agrees with
    [musicActive] at the start, as it does when the page delivers the
    widget without the class (the record starts [false]).  Without that
    proviso, a navigation to an index in range still leaves the record at
    the rule, and writes exactly once when the rule at the new index
    differs from the record and not at all otherwise, the class then
    staying as it was: a widget delivered with the class stays visible on
    the first slides of ten.  In the narration revision the display
    follows the same rule after a navigation to an index in range, but
    every such navigation assigns [style.display] once, whether or not
    the value changes. *)
Theorem C3_reveal_visibility_and_writes :
  (forall e s, nav_valid (DeckJs.core s) -> reveal_ok s ->
     exists s', DeckJs.nav_step e s = Ok s'
       /\ DeckJs.music_player s'
          = Some (should_be_visible (currentIndex (DeckJs.core s'))
                    (Js.len (slides (DeckJs.core s'))))
       /\ DeckJs.music_log s'
          = reveal_writes
              (should_be_visible (currentIndex (DeckJs.core s))
                 (Js.len (slides (DeckJs.core s))))
              (should_be_visible (currentIndex (DeckJs.core s'))
                 (Js.len (slides (DeckJs.core s'))))
            ++ DeckJs.music_log s)
  /\ (forall b, reveal_writes b b = []
                /\ length (reveal_writes b (negb b)) = 1%nat)
  /\ (forall es s0, nav_valid (DeckJs.core s0) ->
       DeckJs.music_player s0 = Some (DeckJs.musicActive s0) ->
       exists s, DeckJs.nav_run (GoTo 0 :: es) s0 = Ok s /\ reveal_ok s)
  /\ (forall i s p, nav_valid (DeckJs.core s) ->
       DeckJs.music_player s = Some p ->
       0 <= i < Js.len (slides (DeckJs.core s)) ->
       exists s', DeckJs.goToSlide i s = Ok s'
         /\ DeckJs.musicActive s'
            = should_be_visible (currentIndex (DeckJs.core s'))
                (Js.len (slides (DeckJs.core s')))
         /\ DeckJs.music_log s'
            = reveal_writes (DeckJs.musicActive s) (DeckJs.musicActive s')
              ++ DeckJs.music_log s
         /\ DeckJs.music_player s'
            = Some (if Bool.eqb (DeckJs.musicActive s) (DeckJs.musicActive s')
                    then p else DeckJs.musicActive s'))
  /\ (exists s, DeckJs.nav_run [GoTo 0; Next; Next] (deck_page_visible 10) = Ok s
         /\ currentIndex (DeckJs.core s) = 2
         /\ should_be_visible 2 10 = false
         /\ DeckJs.music_player s = Some true
         /\ DeckJs.music_log s = [])
  /\ (forall i s v, nav_valid (Part001.core s) ->
       Part001.spotify_box s = Some v ->
       0 <= i < Js.len (slides (Part001.core s)) ->
       exists s', Part001.goToSlide i s = Ok s'
         /\ Part001.spotify_box s'
            = Some (display_of
                      (should_be_visible (currentIndex (Part001.core s'))
                         (Js.len (slides (Part001.core s)))))
         /\ Part001.spotify_log s'
            = SetDisplay
                (display_of
                   (should_be_visible (currentIndex (Part001.core s'))
                      (Js.len (slides (Part001.core s)))))
              :: Part001.spotify_log s).
Proof.
  split.
  { intros e s Hv Hr.
    destruct (DeckJs_reveal_step e s Hv Hr) as (s' & E & _ & [Hp' Ha'] & Hlog).
    exists s'. split; [assumption|].
    destruct Hr as [Hp Ha].
    rewrite Hp', Hlog, <- Ha, <- Ha'. auto. }
  split.
  { intros []; split; reflexivity. }
  split.
  { intros es s0 Hv Hp.
    destruct (DeckJs_reveal_goTo 0 s0 Hv Hp) as (s1 & E & Hv1 & Hr1 & _).
    { unfold nav_valid in Hv. lia. }
    destruct (DeckJs_reveal_run es s1 Hv1 Hr1) as (s & E' & _ & Hr).
    exists s. cbn [DeckJs.nav_run DeckJs.nav_step]. rewrite E.
    cbn [mbind result_bind]. auto. }
  split; [exact DeckJs_record_goTo|].
  split.
  { eexists. split; [vm_compute; reflexivity|]. repeat split. }
  intros i s v Hv Hb Hi.
  destruct (Part001_reveal_goTo i s v Hv Hb Hi) as (s' & E & Hc & Hbox & Hlog).
  exists s'. rewrite Hc. auto.
Qed.

(** Witness for C3 on ten slides: from slide 6, "next" crosses into the
    last three. *)
Lemma C3_witness :
  exists s', DeckJs.nav_step Next (deck_at 10 6) = Ok s'
    /\ DeckJs.music_player s'
       = Some (should_be_visible (currentIndex (DeckJs.core s'))
                 (Js.len (slides (DeckJs.core s'))))
    /\ DeckJs.music_log s'
       = reveal_writes
           (should_be_visible (currentIndex (DeckJs.core (deck_at 10 6)))
              (Js.len (slides (DeckJs.core (deck_at 10 6)))))
           (should_be_visible (currentIndex (DeckJs.core s'))
              (Js.len (slides (DeckJs.core s'))))
         ++ DeckJs.music_log (deck_at 10 6).
Proof.
  destruct C3_reveal_visibility_and_writes as (H1 & _).
  apply H1.
  - unfold nav_valid, Js.len; simpl; lia.
  - split; reflexivity.
Defined.

(** The reveal widget of [deck.js] on ten slides: visible exactly on
    slides 7, 8 and 9; 6 to 7 is one [classList.add]; 7 to 8 writes
    nothing. *)
Example deck_reveal_ten_slides :
  map (fun i => should_be_visible i 10) [0; 5; 6; 7; 8; 9]
  = [false; false; false; true; true; true]
  /\ (DeckJs.music_log <$> outcome (DeckJs.nav_step Next (deck_at 10 6)))
     = Some [ClassAdd]
  /\ (DeckJs.music_log <$> outcome (DeckJs.nav_step Next (deck_at 10 7)))
     = Some [].
Proof. repeat split; vm_compute; reflexivity. Qed.

(** Counterexample to C3 as stated: in the narration revision, going from
    slide 7 to slide 8 of ten stays within the visible range and still
    writes [style.display = "block"]. *)
Lemma C3_counterexample :
  ~ (forall e s s',
       nav_valid (Part001.core s) ->
       Part001.nav_step e s = Ok s' ->
       should_be_visible (currentIndex (Part001.core s)) (Js.len (slides (Part001.core s)))
       = should_be_visible (currentIndex (Part001.core s')) (Js.len (slides (Part001.core s'))) ->
       Part001.spotify_log s' = Part001.spotify_log s).
Proof.
  intros H.
  assert (E : exists s', Part001.nav_step Next (part_at 10 7) = Ok s'
            /\ Part001.spotify_log s' = [SetDisplay "block"]
            /\ should_be_visible (currentIndex (Part001.core (part_at 10 7)))
                 (Js.len (slides (Part001.core (part_at 10 7))))
               = should_be_visible (currentIndex (Part001.core s'))
                   (Js.len (slides (Part001.core s')))).
  { vm_compute. eexists. split; [reflexivity|]. split; reflexivity. }
  destruct E as (s' & E & Hlog & Hvis).
  specialize (H Next (part_at 10 7) s').
  rewrite H in Hlog; [discriminate | | assumption | assumption].
  unfold nav_valid, Js.len; simpl; lia.
Qed.

(** ** The activity timer *)

(** The timer functions of the two revisions are the same functions. *)
Lemma renderTimer_agree : Part001.renderTimer = DeckJs.renderTimer.
Proof. reflexivity. Qed.

Lemma tick_agree : Part001.tick = DeckJs.tick.
Proof. reflexivity. Qed.

Lemma startTimer_agree : Part001.startTimer = DeckJs.startTimer.
Proof. reflexivity. Qed.

Lemma pauseTimer_agree : Part001.pauseTimer = DeckJs.pauseTimer.
Proof. reflexivity. Qed.

Lemma resetTimer_agree : Part001.resetTimer = DeckJs.resetTimer.
Proof. reflexivity. Qed.

Lemma setupTimer_agree : Part001.setupTimer = DeckJs.setupTimer.
Proof. reflexivity. Qed.

Lemma timer_step_agree : Part001.timer_step = DeckJs.timer_step.
Proof. reflexivity. Qed.

Lemma timer_run_agree : Part001.timer_run = DeckJs.timer_run.
Proof. reflexivity. Qed.

Lemma timer_frame_refl (s : Timer) : timer_frame s s.
Proof. unfold timer_frame. tauto. Qed.

(** Projections of the timer record through its setters. *)
Ltac timer_simpl :=
  cbn [timerInterval timerSeconds timerRunning timerStepIndex timer_btn
       timer_reset timer_display timer_step_name next_handle intervals
       set_timerInterval set_timerSeconds set_timerRunning set_timerStepIndex
       set_timer_btn set_timer_display set_timer_step_name] in *.

Lemma btn_assign_timerInterval (t c : option string) (d : option bool) (s : Timer) :
  timerInterval (btn_assign t c d s) = timerInterval s.
Proof. unfold btn_assign. destruct (timer_btn s); reflexivity. Qed.

Lemma clearInterval_timerInterval (h : option nat) (s : Timer) :
  timerInterval (clearInterval h s) = timerInterval s.
Proof. destruct h; reflexivity. Qed.

Lemma btn_assign_timerSeconds (t c : option string) (d : option bool) (s : Timer) :
  timerSeconds (btn_assign t c d s) = timerSeconds s.
Proof. unfold btn_assign. destruct (timer_btn s); reflexivity. Qed.

Lemma clearInterval_timerSeconds (h : option nat) (s : Timer) :
  timerSeconds (clearInterval h s) = timerSeconds s.
Proof. destruct h; reflexivity. Qed.

Lemma btn_assign_timerRunning (t c : option string) (d : option bool) (s : Timer) :
  timerRunning (btn_assign t c d s) = timerRunning s.
Proof. unfold btn_assign. destruct (timer_btn s); reflexivity. Qed.

Lemma clearInterval_timerRunning (h : option nat) (s : Timer) :
  timerRunning (clearInterval h s) = timerRunning s.
Proof. destruct h; reflexivity. Qed.

Lemma btn_assign_timerStepIndex (t c : option string) (d : option bool) (s : Timer) :
  timerStepIndex (btn_assign t c d s) = timerStepIndex s.
Proof. unfold btn_assign. destruct (timer_btn s); reflexivity. Qed.

Lemma clearInterval_timerStepIndex (h : option nat) (s : Timer) :
  timerStepIndex (clearInterval h s) = timerStepIndex s.
Proof. destruct h; reflexivity. Qed.

Lemma clearInterval_timer_btn (h : option nat) (s : Timer) :
  timer_btn (clearInterval h s) = timer_btn s.
Proof. destruct h; reflexivity. Qed.

Lemma btn_assign_timer_reset (t c : option string) (d : option bool) (s : Timer) :
  timer_reset (btn_assign t c d s) = timer_reset s.
Proof. unfold btn_assign. destruct (timer_btn s); reflexivity. Qed.

Lemma clearInterval_timer_reset (h : option nat) (s : Timer) :
  timer_reset (clearInterval h s) = timer_reset s.
Proof. destruct h; reflexivity. Qed.

Lemma btn_assign_timer_display (t c : option string) (d : option bool) (s : Timer) :
  timer_display (btn_assign t c d s) = timer_display s.
Proof. unfold btn_assign. destruct (timer_btn s); reflexivity. Qed.

Lemma clearInterval_timer_display (h : option nat) (s : Timer) :
  timer_display (clearInterval h s) = timer_display s.
Proof. destruct h; reflexivity. Qed.

Lemma btn_assign_timer_step_name (t c : option string) (d : option bool) (s : Timer) :
  timer_step_name (btn_assign t c d s) = timer_step_name s.
Proof. unfold btn_assign. destruct (timer_btn s); reflexivity. Qed.

Lemma clearInterval_timer_step_name (h : option nat) (s : Timer) :
  timer_step_name (clearInterval h s) = timer_step_name s.
Proof. destruct h; reflexivity. Qed.

Lemma btn_assign_next_handle (t c : option string) (d : option bool) (s : Timer) :
  next_handle (btn_assign t c d s) = next_handle s.
Proof. unfold btn_assign. destruct (timer_btn s); reflexivity. Qed.

Lemma clearInterval_next_handle (h : option nat) (s : Timer) :
  next_handle (clearInterval h s) = next_handle s.
Proof. destruct h; reflexivity. Qed.

Lemma btn_assign_intervals (t c : option string) (d : option bool) (s : Timer) :
  intervals (btn_assign t c d s) = intervals s.
Proof. unfold btn_assign. destruct (timer_btn s); reflexivity. Qed.

Lemma btn_assign_timer_btn (t c : option string) (d : option bool) (s : Timer) :
  timer_btn (btn_assign t c d s)
  = (fun b => {| btn_text := default (btn_text b) t;
                 btn_class := default (btn_class b) c;
                 btn_disabled := default (btn_disabled b) d |}) <$> timer_btn s.
Proof.
  unfold btn_assign. destruct (timer_btn s) eqn:E; timer_simpl; rewrite ?E; reflexivity.
Qed.

Lemma clearInterval_intervals (h : option nat) (s : Timer) :
  intervals (clearInterval h s)
  = match h with
    | Some h => filter (fun h' => h' <> h) (intervals s)
    | None => intervals s
    end.
Proof. destruct h; reflexivity. Qed.

Create Rewrite HintDb timer.
#[local] Hint Rewrite btn_assign_timerInterval clearInterval_timerInterval btn_assign_timerSeconds clearInterval_timerSeconds btn_assign_timerRunning clearInterval_timerRunning btn_assign_timerStepIndex clearInterval_timerStepIndex clearInterval_timer_btn btn_assign_timer_reset clearInterval_timer_reset btn_assign_timer_display clearInterval_timer_display btn_assign_timer_step_name clearInterval_timer_step_name btn_assign_next_handle clearInterval_next_handle btn_assign_intervals btn_assign_timer_btn clearInterval_intervals : timer.

(** Normal form of the projections of a timer state. *)
Ltac timer_norm := repeat (progress (timer_simpl; autorewrite with timer in *)).

(** [renderTimer] returns normally when the step index is not negative,
    and changes nothing but the two display elements. *)
Lemma renderTimer_ok (steps : list ActivityStep) (s : Timer) :
  0 <= timerStepIndex s ->
  exists s', DeckJs.renderTimer steps s = Ok s' /\ timer_frame s s'.
Proof.
  intros H0. unfold DeckJs.renderTimer.
  destruct (timer_display s) as [d|] eqn:Hd.
  2:{ exists s. split; [reflexivity | apply timer_frame_refl]. }
  timer_simpl.
  destruct (timer_step_name s) as [nm|] eqn:Hn.
  2:{ eexists. split; [reflexivity|]. unfold timer_frame. timer_simpl.
      rewrite Hd, Hn. repeat split; auto; intros [? ?]; eauto; discriminate. }
  destruct (Z.ltb_spec (timerStepIndex s) (Js.len steps)) as [Hlt|Hge].
  - destruct (index_Some steps (timerStepIndex s)) as [st Hst]; [lia|].
    rewrite Hst. eexists. split; [reflexivity|]. unfold timer_frame. timer_simpl.
    rewrite Hd, Hn. repeat split; auto; intros [? ?]; eauto.
  - eexists. split; [reflexivity|]. unfold timer_frame. timer_simpl.
    rewrite Hd, Hn. repeat split; auto; intros [? ?]; eauto.
Qed.

(** The three cases of the interval callback. *)
Lemma tick_count_down (steps : list ActivityStep) (s : Timer) :
  0 <= timerStepIndex s -> 0 < timerSeconds s - 1 ->
  exists s', DeckJs.tick steps s = Ok s'
    /\ timer_frame (set_timerSeconds (timerSeconds s - 1) s) s'.
Proof.
  intros H0 Hs. unfold DeckJs.tick. timer_simpl.
  destruct (Z.leb_spec (timerSeconds s - 1) 0) as [?|_]; [lia|].
  cbn [mbind result_bind].
  apply renderTimer_ok. timer_simpl. assumption.
Qed.

Lemma tick_next_step (steps : list ActivityStep) (s : Timer) :
  0 <= timerStepIndex s -> timerSeconds s - 1 <= 0 ->
  timerStepIndex s + 1 < Js.len steps ->
  exists st s', Js.index steps (timerStepIndex s + 1) = Some st
    /\ DeckJs.tick steps s = Ok s'
    /\ timer_frame
         (set_timerSeconds (duration st)
            (set_timerStepIndex (timerStepIndex s + 1) s)) s'.
Proof.
  intros H0 Hs Hlt. unfold DeckJs.tick. timer_simpl.
  destruct (Z.leb_spec (timerSeconds s - 1) 0) as [_|?]; [|lia].
  destruct (Z.ltb_spec (timerStepIndex s + 1) (Js.len steps)) as [_|?]; [|lia].
  destruct (index_Some steps (timerStepIndex s + 1)) as [st Hst]; [lia|].
  rewrite Hst. cbn [mbind result_bind].
  destruct (renderTimer_ok steps
              (set_timerSeconds (duration st)
                 (set_timerStepIndex (timerStepIndex s + 1)
                    (set_timerSeconds (timerSeconds s - 1) s))))
    as (s' & E & F).
  { timer_simpl. lia. }
  exists st, s'. split; [reflexivity|]. split; [exact E|].
  unfold timer_frame in *. timer_simpl. exact F.
Qed.

Lemma tick_finish (steps : list ActivityStep) (s : Timer) :
  0 <= timerStepIndex s -> timerSeconds s - 1 <= 0 ->
  Js.len steps <= timerStepIndex s + 1 ->
  exists s', DeckJs.tick steps s = Ok s'
    /\ timer_frame
         (btn_assign (Some "Done") None (Some true)
            (set_timerSeconds 0
               (set_timerRunning false
                  (clearInterval (timerInterval s)
                     (set_timerStepIndex (timerStepIndex s + 1) s))))) s'.
Proof.
  intros H0 Hs Hge. unfold DeckJs.tick. timer_simpl.
  destruct (Z.leb_spec (timerSeconds s - 1) 0) as [_|?]; [|lia].
  destruct (Z.ltb_spec (timerStepIndex s + 1) (Js.len steps)) as [?|_]; [lia|].
  cbn [mbind result_bind].
  match goal with
  | |- exists s', DeckJs.renderTimer steps ?x = _ /\ _ =>
      destruct (renderTimer_ok steps x) as (s' & E & F)
  end.
  { unfold btn_assign, clearInterval.
    destruct (timerInterval s); timer_simpl;
      destruct (timer_btn s); timer_simpl; lia. }
  exists s'. split; [exact E|].
  revert F. unfold timer_frame, btn_assign, clearInterval.
  destruct (timerInterval s); timer_simpl;
    destruct (timer_btn s); timer_simpl; exact (fun F => F).
Qed.

Lemma timer_inv_frame (s s' : Timer) :
  timer_frame s s' -> timer_inv s -> timer_inv s'.
Proof.
  unfold timer_frame, timer_inv.
  intros (Hi & _ & Hr & Hx & Hb & _ & Hn & Hl & _) (I1 & I2 & I3 & I4).
  rewrite Hi, Hr, Hx, Hb, Hn, Hl. auto.
Qed.

Lemma filter_ne_singleton (h : nat) : filter (fun h' => h' <> h) [h] = [].
Proof.
  rewrite filter_cons. destruct (decide (h <> h)); [contradiction|reflexivity].
Qed.

(** While the invariant holds, clearing [timerInterval] leaves no
    interval live. *)
Lemma clearInterval_inv (s : Timer) :
  timer_inv s ->
  match timerInterval s with
  | Some h => filter (fun h' => h' <> h) (intervals s)
  | None => intervals s
  end = [].
Proof.
  intros (_ & _ & _ & I4).
  destruct (timerRunning s).
  - destruct I4 as (h & -> & Hl). rewrite Hl. apply filter_ne_singleton.
  - destruct (timerInterval s); rewrite I4; reflexivity.
Qed.

Lemma startTimer_inv (s : Timer) :
  timer_inv s -> timerRunning s = false ->
  timer_inv (DeckJs.startTimer s)
  /\ next_handle (DeckJs.startTimer s) = S (next_handle s)
  /\ intervals (DeckJs.startTimer s) = [next_handle s]
  /\ timerSeconds (DeckJs.startTimer s) = timerSeconds s
  /\ timerStepIndex (DeckJs.startTimer s) = timerStepIndex s
  /\ timerRunning (DeckJs.startTimer s) = true.
Proof.
  intros ([b Hb] & I2 & I3 & I4) Hr. rewrite Hr in I4.
  unfold DeckJs.startTimer, setInterval, timer_inv. timer_norm.
  rewrite Hb, I4. cbn [fmap option_fmap option_map].
  repeat split; eauto.
  intros h Hh. apply list_elem_of_singleton in Hh. lia.
Qed.

Lemma pauseTimer_inv (s : Timer) :
  timer_inv s ->
  timer_inv (DeckJs.pauseTimer s)
  /\ next_handle (DeckJs.pauseTimer s) = next_handle s
  /\ intervals (DeckJs.pauseTimer s) = []
  /\ timerSeconds (DeckJs.pauseTimer s) = timerSeconds s
  /\ timerStepIndex (DeckJs.pauseTimer s) = timerStepIndex s
  /\ timerRunning (DeckJs.pauseTimer s) = false.
Proof.
  intros I. pose proof (clearInterval_inv s I) as Hc.
  destruct I as ([b Hb] & I2 & I3 & I4).
  unfold DeckJs.pauseTimer, timer_inv. timer_norm. rewrite Hb, Hc.
  cbn [fmap option_fmap option_map].
  repeat split; eauto. intros h Hh. inversion Hh.
Qed.

(** [resetTimer] on a table with a first step: it returns normally, and
    the state is the idle one whatever it was. *)
Lemma resetTimer_spec (steps : list ActivityStep) (st : ActivityStep) (s : Timer) :
  Js.index steps 0 = Some st -> timer_inv s ->
  exists s', DeckJs.resetTimer steps s = Ok s'
    /\ timer_inv s'
    /\ timerStepIndex s' = 0
    /\ timerSeconds s' = duration st
    /\ timerRunning s' = false
    /\ intervals s' = []
    /\ next_handle s' = next_handle s
    /\ (exists b, timer_btn s' = Some b /\ btn_disabled b = false
                  /\ btn_text b = "Start").
Proof.
  intros Hst I. pose proof (clearInterval_inv s I) as Hc.
  destruct I as ([b Hb] & I2 & I3 & I4).
  unfold DeckJs.resetTimer. rewrite Hst.
  match goal with
  | |- exists s', DeckJs.renderTimer steps ?x = _ /\ _ =>
      destruct (renderTimer_ok steps x) as (s' & E & F);
      [| exists s'; split; [exact E|] ]
  end.
  { timer_norm. lia. }
  destruct F as (Fi & Fs & Fr & Fx & Fb & _ & Fn & Fl & _).
  unfold timer_inv. rewrite Fi, Fs, Fr, Fx, Fb, Fn, Fl.
  timer_norm. rewrite Hb. cbn [fmap option_fmap option_map].
  rewrite Hc. repeat split; eauto; try lia. intros h Hh. inversion Hh.
Qed.

(** The interval callback keeps the invariant, hands out no handle, and
    makes no interval live. *)
Lemma tick_inv (steps : list ActivityStep) (s : Timer) :
  timer_inv s ->
  exists s', DeckJs.tick steps s = Ok s'
    /\ timer_inv s'
    /\ next_handle s' = next_handle s
    /\ (forall h, h ∈ intervals s' -> h ∈ intervals s).
Proof.
  intros I. pose proof (clearInterval_inv s I) as Hc.
  pose proof I as (Ib & I2 & I3 & I4).
  destruct (Z.ltb_spec 0 (timerSeconds s - 1)) as [Hs|Hs].
  - destruct (tick_count_down steps s I2 Hs) as (s' & E & F).
    exists s'. split; [exact E|].
    split; [apply (timer_inv_frame _ _ F); exact I|].
    destruct F as (_ & _ & _ & _ & _ & _ & Fn & Fl & _). timer_simpl.
    rewrite Fn, Fl. auto.
  - destruct (Z.ltb_spec (timerStepIndex s + 1) (Js.len steps)) as [Hlt|Hge].
    + destruct (tick_next_step steps s I2 Hs Hlt) as (st & s' & _ & E & F).
      exists s'. split; [exact E|].
      split.
      { apply (timer_inv_frame _ _ F). unfold timer_inv. timer_simpl.
        repeat split; auto. lia. }
      destruct F as (_ & _ & _ & _ & _ & _ & Fn & Fl & _). timer_simpl.
      rewrite Fn, Fl. auto.
    + destruct (tick_finish steps s I2 Hs Hge) as (s' & E & F).
      exists s'. split; [exact E|].
      split.
      { apply (timer_inv_frame _ _ F). unfold timer_inv. timer_norm.
        rewrite Hc. destruct Ib as [b ->]. cbn [fmap option_fmap option_map].
        repeat split; eauto; try lia. intros h Hh. inversion Hh. }
      destruct F as (_ & _ & _ & _ & _ & _ & Fn & Fl & _). timer_norm.
      rewrite Fn, Fl, Hc. split; [reflexivity|]. intros h Hh. inversion Hh.
Qed.

(** Every event keeps the invariant and never throws; a handle that is
    live afterwards was live before or is new. *)
Lemma timer_step_inv (steps : list ActivityStep) (st : ActivityStep)
    (e : TimerEvent) (s : Timer) :
  Js.index steps 0 = Some st -> timer_inv s ->
  exists s', DeckJs.timer_step steps e s = Ok s'
    /\ timer_inv s'
    /\ (next_handle s <= next_handle s')%nat
    /\ (forall h, h ∈ intervals s' ->
          h ∈ intervals s \/ (next_handle s <= h)%nat).
Proof.
  intros Hst I. pose proof I as ([b Hb] & I2 & I3 & I4).
  assert (Hstay : exists s', Ok s = Ok s' /\ timer_inv s'
            /\ (next_handle s <= next_handle s')%nat
            /\ (forall h, h ∈ intervals s' ->
                  h ∈ intervals s \/ (next_handle s <= h)%nat)).
  { exists s. split; [reflexivity|]. split; [exact I|]. split; [lia|]. auto. }
  destruct e as [| |h]; cbn [DeckJs.timer_step]; rewrite ?Hb.
  - destruct (btn_disabled b); [exact Hstay|].
    destruct (timerRunning s) eqn:Hr.
    + destruct (pauseTimer_inv s I) as (I' & Hn & Hl & _).
      eexists. split; [reflexivity|]. rewrite Hn, Hl.
      split; [exact I'|]. split; [lia|]. intros h Hh. inversion Hh.
    + destruct (startTimer_inv s I Hr) as (I' & Hn & Hl & _).
      eexists. split; [reflexivity|]. rewrite Hn, Hl.
      split; [exact I'|]. split; [lia|].
      intros h Hh. apply list_elem_of_singleton in Hh. right. lia.
  - destruct (timer_reset s); [|exact Hstay].
    destruct (resetTimer_spec steps st s Hst I)
      as (s' & E & I' & _ & _ & _ & Hl & Hn & _).
    exists s'. rewrite Hl, Hn.
    split; [exact E|]. split; [exact I'|]. split; [lia|].
    intros h Hh. inversion Hh.
  - destruct (bool_decide (h ∈ intervals s)); [|exact Hstay].
    destruct (tick_inv steps s I) as (s' & E & I' & Hn & Hl).
    exists s'. rewrite Hn.
    split; [exact E|]. split; [exact I'|]. split; [lia|]. auto.
Qed.

Lemma timer_run_inv (steps : list ActivityStep) (st : ActivityStep)
    (es : list TimerEvent) (s : Timer) :
  Js.index steps 0 = Some st -> timer_inv s ->
  exists s', DeckJs.timer_run steps es s = Ok s'
    /\ timer_inv s'
    /\ (next_handle s <= next_handle s')%nat
    /\ (forall h, h ∈ intervals s' ->
          h ∈ intervals s \/ (next_handle s <= h)%nat).
Proof.
  intros Hst. revert s. induction es as [|e es IH]; intros s I.
  - exists s. cbn. split; [reflexivity|]. split; [exact I|]. split; [lia|]. auto.
  - destruct (timer_step_inv steps st e s Hst I) as (s1 & E & I1 & Hn1 & Hl1).
    destruct (IH s1 I1) as (s' & E' & I' & Hn' & Hl').
    exists s'. cbn [DeckJs.timer_run]. rewrite E. cbn [mbind result_bind].
    split; [exact E'|]. split; [exact I'|]. split; [lia|].
    intros h Hh. destruct (Hl' h Hh) as [H|H]; [|right; lia].
    destruct (Hl1 h H) as [H1|H1]; [left; assumption | right; lia].
Qed.

(** [setupTimer] on a page with the button and a first step establishes
    the invariant. *)
Lemma setupTimer_inv (steps : list ActivityStep) (st : ActivityStep) (s : Timer) :
  Js.index steps 0 = Some st ->
  is_Some (timer_btn s) -> timerRunning s = false -> intervals s = [] ->
  exists s', DeckJs.setupTimer steps s = Ok s'
    /\ timer_inv s'
    /\ timerStepIndex s' = 0
    /\ timerSeconds s' = duration st
    /\ timerRunning s' = false.
Proof.
  intros Hst [b Hb] Hr Hl. unfold DeckJs.setupTimer. rewrite Hb, Hst.
  match goal with
  | |- exists s', DeckJs.renderTimer steps ?x = _ /\ _ =>
      destruct (renderTimer_ok steps x) as (s' & E & F);
      [| exists s'; split; [exact E|] ]
  end.
  { timer_simpl. lia. }
  destruct F as (Fi & Fs & Fr & Fx & Fb & _ & Fn & Fl & _).
  unfold timer_inv. rewrite Fi, Fs, Fr, Fx, Fb, Fn, Fl. timer_simpl.
  rewrite Hb, Hr, Hl. repeat split; eauto; try lia.
  intros h Hh. inversion Hh.
Qed.

(** C1.  The interval callback of either revision, on a running timer:
    it takes one second off; when that leaves no time and another step
    follows, the step index goes up by one, the time is the new step's
    full duration and the timer keeps running with its interval live; when
    no step follows, the interval is cleared, the time is 0, the timer is
    [Complete] and the start control is disabled and reads "Done".  For
    the steps [{10s},{5s}], set up and started from idle, ten ticks give
    step index 1 with 5 seconds left, and five more give [Complete] with
    0 seconds left. *)
Theorem C1_tick_transition :
  forall tick timer_run setupTimer,
    (tick = DeckJs.tick /\ timer_run = DeckJs.timer_run
     /\ setupTimer = DeckJs.setupTimer)
    \/ (tick = Part001.tick /\ timer_run = Part001.timer_run
        /\ setupTimer = Part001.setupTimer) ->
    (forall steps s, timer_inv s -> timerRunning s = true ->
       (0 < timerSeconds s - 1 ->
          exists s', tick steps s = Ok s'
            /\ timerSeconds s' = timerSeconds s - 1
            /\ timerStepIndex s' = timerStepIndex s
            /\ timerRunning s' = true
            /\ intervals s' = intervals s)
       /\ (timerSeconds s - 1 <= 0 -> timerStepIndex s + 1 < Js.len steps ->
           exists st s', Js.index steps (timerStepIndex s + 1) = Some st
             /\ tick steps s = Ok s'
             /\ timerStepIndex s' = timerStepIndex s + 1
             /\ timerSeconds s' = duration st
             /\ timerRunning s' = true
             /\ intervals s' = intervals s)
       /\ (timerSeconds s - 1 <= 0 -> Js.len steps <= timerStepIndex s + 1 ->
           exists s', tick steps s = Ok s'
             /\ intervals s' = []
             /\ timerSeconds s' = 0
             /\ timerRunning s' = false
             /\ phase steps s' = Complete
             /\ start_disabled s'
             /\ (btn_text <$> timer_btn s') = Some "Done"))
    /\ (exists s0 s10 s15,
          setupTimer two_steps timer_page = Ok s0
          /\ phase two_steps s0 = Idle
          /\ timer_run two_steps (ClickBtn :: replicate 10 (Tick 0)) s0 = Ok s10
          /\ timerStepIndex s10 = 1
          /\ timerSeconds s10 = 5
          /\ phase two_steps s10 = Running
          /\ timer_run two_steps (replicate 5 (Tick 0)) s10 = Ok s15
          /\ phase two_steps s15 = Complete
          /\ timerSeconds s15 = 0
          /\ start_disabled s15
          /\ intervals s15 = []).
Proof.
  intros tick timer_run setupTimer Hv.
  assert (Htick : tick = DeckJs.tick /\ timer_run = DeckJs.timer_run
                  /\ setupTimer = DeckJs.setupTimer).
  { destruct Hv as [H|(-> & -> & ->)]; [exact H|].
    rewrite tick_agree, timer_run_agree, setupTimer_agree. auto. }
  clear Hv. destruct Htick as (-> & -> & ->).
  split.
  - intros steps s I Hr. pose proof (clearInterval_inv s I) as Hc.
    pose proof I as ([b Hb] & I2 & I3 & I4).
    split; [|split].
    + intros Hs.
      destruct (tick_count_down steps s I2 Hs)
        as (s' & E & (_ & Fs & Fr & Fx & _ & _ & _ & Fl & _)).
      exists s'. timer_simpl. rewrite Fs, Fr, Fx, Fl. auto.
    + intros Hs Hlt.
      destruct (tick_next_step steps s I2 Hs Hlt)
        as (st & s' & Hst & E & (_ & Fs & Fr & Fx & _ & _ & _ & Fl & _)).
      exists st, s'. timer_simpl. rewrite Fs, Fr, Fx, Fl. auto 10.
    + intros Hs Hge.
      destruct (tick_finish steps s I2 Hs Hge)
        as (s' & E & (_ & Fs & Fr & Fx & Fb & _ & _ & Fl & _)).
      exists s'. timer_norm. unfold phase, start_disabled.
      rewrite Fs, Fr, Fx, Fb, Fl, Hc, Hb. cbn [fmap option_fmap option_map].
      split; [exact E|]. split; [reflexivity|]. split; [reflexivity|].
      split; [reflexivity|]. split.
      { destruct (Z.geb_spec (timerStepIndex s + 1) (Js.len steps)); [reflexivity|lia]. }
      split; [|reflexivity]. eexists; split; reflexivity.
  - unfold start_disabled. vm_compute.
    do 3 eexists. repeat (split; [reflexivity|]).
    split; [eexists; split; reflexivity | reflexivity].
Qed.

Lemma running_page_inv : timer_inv running_page.
Proof.
  unfold timer_inv, running_page. timer_simpl.
  split; [eauto|]. split; [lia|]. split; [|eauto].
  intros h Hh. apply list_elem_of_singleton in Hh. lia.
Defined.

(** Witness for C1: one tick of [deck.js] on [running_page] leaves nine
    seconds. *)
Lemma C1_witness :
  exists s', DeckJs.tick two_steps running_page = Ok s'
    /\ timerSeconds s' = timerSeconds running_page - 1
    /\ timerStepIndex s' = timerStepIndex running_page
    /\ timerRunning s' = true
    /\ intervals s' = intervals running_page.
Proof.
  destruct (C1_tick_transition DeckJs.tick DeckJs.timer_run DeckJs.setupTimer
              (or_introl (conj eq_refl (conj eq_refl eq_refl)))) as [H _].
  destruct (H two_steps running_page running_page_inv eq_refl) as (H1 & _).
  apply H1. simpl. lia.
Defined.

(** C4.  [resetTimer] of either revision, on any state the timer can be
    in (any state satisfying [timer_inv], which holds after [setupTimer]
    and every sequence of events, whatever the phase): it returns with
    step index 0, the first step's full duration, the timer not running,
    the start control enabled and reading "Start", and no interval live,
    so the phase is [Idle]; no tick can fire on the reset state, and
    however the page goes on, a handle that was live before the reset is
    never live again: its tick changes nothing.  ([clearInterval] is the
    first statement of [resetTimer]; the script is single-threaded, so no
    callback runs between it and the assignments that follow.) *)
Theorem C4_reset_restores_idle_and_cancels_tick :
  forall resetTimer timer_step timer_run setupTimer,
    (resetTimer = DeckJs.resetTimer /\ timer_step = DeckJs.timer_step
     /\ timer_run = DeckJs.timer_run /\ setupTimer = DeckJs.setupTimer)
    \/ (resetTimer = Part001.resetTimer /\ timer_step = Part001.timer_step
        /\ timer_run = Part001.timer_run /\ setupTimer = Part001.setupTimer) ->
    forall steps st, Js.index steps 0 = Some st ->
    (forall s, timer_inv s ->
       exists s', resetTimer steps s = Ok s'
         /\ timerStepIndex s' = 0
         /\ timerSeconds s' = duration st
         /\ timerRunning s' = false
         /\ start_enabled s'
         /\ phase steps s' = Idle
         /\ intervals s' = []
         /\ (forall h, timer_step steps (Tick h) s' = Ok s')
         /\ (forall es, exists s'', timer_run steps es s' = Ok s''
               /\ forall h, h ∈ intervals s ->
                    (h ∉ intervals s'')
                    /\ timer_step steps (Tick h) s'' = Ok s''))
    /\ (forall s0 es, is_Some (timer_btn s0) -> timerRunning s0 = false ->
          intervals s0 = [] ->
          exists s1 s, setupTimer steps s0 = Ok s1
            /\ timer_run steps es s1 = Ok s /\ timer_inv s).
Proof.
  intros resetTimer timer_step timer_run setupTimer Hv.
  assert (Hd : resetTimer = DeckJs.resetTimer /\ timer_step = DeckJs.timer_step
               /\ timer_run = DeckJs.timer_run /\ setupTimer = DeckJs.setupTimer).
  { destruct Hv as [H|(-> & -> & -> & ->)]; [exact H|].
    rewrite resetTimer_agree, timer_step_agree, timer_run_agree, setupTimer_agree.
    auto. }
  clear Hv. destruct Hd as (-> & -> & -> & ->).
  intros steps st Hst. split.
  - intros s I.
    destruct (resetTimer_spec steps st s Hst I)
      as (s' & E & I' & Hx & Hs & Hr & Hl & Hn & (b & Hb & Hdis & Htxt)).
    exists s'. split; [exact E|]. split; [exact Hx|]. split; [exact Hs|].
    split; [exact Hr|]. split; [exists b; auto|]. split.
    { unfold phase. rewrite Hr, Hx, Hb, Htxt.
      destruct (Z.geb_spec 0 (Js.len steps)) as [Hge|_]; [|reflexivity].
      pose proof (index_None steps 0) as Hnone.
      rewrite Hnone in Hst by lia. discriminate. }
    split; [exact Hl|]. split.
    { intros h. cbn [DeckJs.timer_step]. rewrite Hl. reflexivity. }
    intros es.
    destruct (timer_run_inv steps st es s' Hst I') as (s'' & E' & _ & _ & Hfresh).
    exists s''. split; [exact E'|]. intros h Hh.
    assert (Hnot : h ∉ intervals s'').
    { intros Hin. destruct (Hfresh h Hin) as [H|H].
      - rewrite Hl in H. inversion H.
      - destruct I as (_ & _ & I3 & _). specialize (I3 h Hh). lia. }
    split; [exact Hnot|]. cbn [DeckJs.timer_step].
    rewrite bool_decide_eq_false_2 by exact Hnot. reflexivity.
  - intros s0 es Hb Hr Hl.
    destruct (setupTimer_inv steps st s0 Hst Hb Hr Hl) as (s1 & E & I1 & _).
    destruct (timer_run_inv steps st es s1 Hst I1) as (s & E' & I & _).
    exists s1, s. auto.
Qed.

(** Witness for C4: resetting the running timer of [running_page]. *)
Lemma C4_witness :
  exists s', DeckJs.resetTimer two_steps running_page = Ok s'
    /\ timerStepIndex s' = 0
    /\ timerSeconds s' = 10
    /\ timerRunning s' = false
    /\ start_enabled s'
    /\ phase two_steps s' = Idle
    /\ intervals s' = []
    /\ (forall h, DeckJs.timer_step two_steps (Tick h) s' = Ok s')
    /\ (forall es, exists s'', DeckJs.timer_run two_steps es s' = Ok s''
          /\ forall h, h ∈ intervals running_page ->
               (h ∉ intervals s'')
               /\ DeckJs.timer_step two_steps (Tick h) s'' = Ok s'').
Proof.
  destruct (C4_reset_restores_idle_and_cancels_tick
              DeckJs.resetTimer DeckJs.timer_step DeckJs.timer_run
              DeckJs.setupTimer
              (or_introl (conj eq_refl (conj eq_refl (conj eq_refl eq_refl))))
              two_steps {| label := "first"; duration := 10 |} eq_refl)
    as [H _].
  exact (H running_page running_page_inv).
Defined.

(** The four phases are all met on the way through [two_steps], and a
    click on the reset button takes each of them to [Idle] with ten
    seconds on the clock, step index 0 and no interval live. *)
Example reset_from_every_phase :
  (phase two_steps <$> outcome (two_steps_after [])) = Some Idle
  /\ (phase two_steps <$> outcome (two_steps_after [ClickBtn; Tick 0; Tick 0]))
     = Some Running
  /\ (phase two_steps <$> outcome (two_steps_after [ClickBtn; Tick 0; ClickBtn]))
     = Some Paused
  /\ (phase two_steps <$> outcome (two_steps_after (ClickBtn :: replicate 15 (Tick 0))))
     = Some Complete
  /\ forall es, es ∈ [ [];
                       [ClickBtn; Tick 0; Tick 0];
                       [ClickBtn; Tick 0; ClickBtn];
                       ClickBtn :: replicate 15 (Tick 0) ] ->
       ((fun s => (phase two_steps s, timerSeconds s, timerStepIndex s, intervals s))
          <$> outcome (two_steps_after (es ++ [ClickReset])))
       = Some (Idle, 10, 0, []).
Proof.
  repeat (split; [vm_compute; reflexivity|]).
  intros es Hes.
  repeat (apply elem_of_cons in Hes; destruct Hes as [->|Hes]);
    try (vm_compute; reflexivity).
  inversion Hes.
Qed.

(** ** The timer display *)

Lemma string_app_assoc (a b c : string) : (a +:+ b) +:+ c = a +:+ b +:+ c.
Proof.
  induction a as [|x a IH]; [reflexivity|].
  change (String x ((a +:+ b) +:+ c) = String x (a +:+ b +:+ c)).
  rewrite IH. reflexivity.
Qed.

Lemma pretty_N_go_length (x : N) (s : string) :
  (String.length s <= String.length (pretty_N_go x s))%nat
  /\ ((0 < x)%N -> (S (String.length s) <= String.length (pretty_N_go x s))%nat).
Proof.
  revert s. induction (N.lt_wf_0 x) as [x _ IH]. intros s.
  destruct (N.eq_dec x 0%N) as [->|Hx].
  - rewrite pretty_N_go_0. split; [lia|]. intros H. lia.
  - assert (H0 : (0 < x)%N) by lia.
    rewrite pretty_N_go_step by exact H0.
    destruct (IH (x `div` 10)%N (N.div_lt x 10 H0 eq_refl)
                (String (pretty_N_char (x `mod` 10)) s)) as [Hle _].
    cbn [String.length] in Hle. split; [lia|]. intros _. exact Hle.
Qed.

(** A number of two or more digits prints as two or more characters. *)
Lemma str_length_ge_10 (n : Z) : 10 <= n -> (2 <= String.length (Js.str n))%nat.
Proof.
  intros Hn. destruct n as [|p|p]; try lia.
  unfold Js.str, pretty, pretty_Z, pretty, pretty_positive, pretty, pretty_N.
  destruct (decide (N.pos p = 0%N)) as [Hp|_]; [discriminate|].
  rewrite pretty_N_go_step by lia.
  destruct (pretty_N_go_length (N.pos p `div` 10)%N
              (String (pretty_N_char (N.pos p `mod` 10)) "")) as [_ Hlt].
  cbn [String.length] in Hlt. apply Hlt.
  apply N.div_str_pos. lia.
Qed.

(** Below sixty, a padded field is exactly two characters. *)
Lemma pad2_length_below_60 (n : Z) :
  0 <= n < 60 -> String.length (pad2 n) = 2%nat.
Proof.
  intros Hn.
  assert (Hall : forallb (fun k => Nat.eqb (String.length (pad2 (Z.of_nat k))) 2)
                   (seq 0 60) = true) by (vm_compute; reflexivity).
  rewrite forallb_forall in Hall.
  specialize (Hall (Z.to_nat n)).
  rewrite Z2Nat.id in Hall by lia.
  apply Nat.eqb_eq, Hall, in_seq. lia.
Qed.

Lemma pad2_length (n : Z) : 0 <= n -> (2 <= String.length (pad2 n))%nat.
Proof.
  intros Hn. destruct (Z.ltb_spec n 10) as [Hlt|Hge].
  - rewrite pad2_length_below_60 by lia. lia.
  - unfold pad2. destruct (Z.ltb_spec n 10); [lia|].
    cbn. apply str_length_ge_10. assumption.
Qed.

(** What [renderTimer] leaves in [#timer-display], as a function of
    [timerSeconds] alone: the text is the two padded fields around a
    colon, and the class is danger for [0 < timerSeconds <= 10], warning
    for every other [timerSeconds <= 30] and plain above 30. *)
Lemma renderTimer_display (steps : list ActivityStep) (s : Timer) (d : TimerDisplay) :
  0 <= timerStepIndex s -> timer_display s = Some d ->
  exists s', DeckJs.renderTimer steps s = Ok s'
    /\ timer_display s'
       = Some {| display_text := pad2 (timerSeconds s / 60) +:+ ":"
                                 +:+ pad2 (Z.rem (timerSeconds s) 60);
                 display_class :=
                   if (timerSeconds s <=? 10) && (timerSeconds s >? 0)
                   then "timer-display danger"
                   else if timerSeconds s <=? 30 then "timer-display warning"
                   else "timer-display" |}.
Proof.
  intros H0 Hd.
  unfold DeckJs.renderTimer. rewrite Hd. timer_simpl.
  set (txt := (_ +:+ _ +:+ ":" +:+ _ +:+ _)%string).
  set (cls := if (timerSeconds s <=? 10) && (timerSeconds s >? 0) then _ else _).
  assert (Ht : txt = pad2 (timerSeconds s / 60) +:+ ":" +:+ pad2 (Z.rem (timerSeconds s) 60)).
  { unfold txt, pad2. rewrite string_app_assoc. reflexivity. }
  rewrite <- Ht. clear Ht.
  destruct (timer_step_name s) as [nm|].
  2:{ eexists. split; reflexivity. }
  destruct (Z.ltb_spec (timerStepIndex s) (Js.len steps)) as [Hlt|Hge].
  - destruct (index_Some steps (timerStepIndex s)) as [st Hst]; [lia|].
    rewrite Hst. eexists. split; reflexivity.
  - eexists. split; reflexivity.
Qed.

(** C6.  What [renderTimer] of either revision shows: for a positive
    [timerSeconds] the styling is the band of the specification (danger
    for 1..10, warning for 11..30, neutral above 30), and the text is
    [MM:SS] with both fields padded to two digits (the seconds field is
    exactly two characters, the minutes field at least two).  At
    [timerSeconds = 0], which is what the completed timer shows, the
    script applies the warning styling, where the specification asks for
    neutral: the test for the warning band is [timerSeconds <= 30] alone. *)
Theorem C6_display_bands_and_zero :
  (forall renderTimer,
     renderTimer = DeckJs.renderTimer \/ renderTimer = Part001.renderTimer ->
     forall steps s d, 0 <= timerStepIndex s -> timer_display s = Some d ->
     exists s' d', renderTimer steps s = Ok s'
       /\ timer_display s' = Some d'
       /\ (0 < timerSeconds s ->
           class_urgency (display_class d') = Some (urgency_spec (timerSeconds s)))
       /\ (timerSeconds s <= 0 ->
           class_urgency (display_class d') = Some Warning)
       /\ (0 <= timerSeconds s ->
           display_text d'
           = pad2 (timerSeconds s / 60) +:+ ":" +:+ pad2 (timerSeconds s mod 60)
           /\ (2 <= String.length (pad2 (timerSeconds s / 60)))%nat
           /\ String.length (pad2 (timerSeconds s mod 60)) = 2%nat))
  /\ urgency_spec 0 = Neutral
  /\ (exists s d,
        two_steps_after (ClickBtn :: replicate 15 (Tick 0)) = Ok s
        /\ phase two_steps s = Complete
        /\ timerSeconds s = 0
        /\ timer_display s = Some d
        /\ display_text d = "00:00"
        /\ display_class d = "timer-display warning"
        /\ class_urgency (display_class d) = Some Warning).
Proof.
  split; [|split; [reflexivity|]].
  - intros renderTimer Hv steps s d H0 Hd.
    assert (renderTimer = DeckJs.renderTimer) as ->.
    { destruct Hv as [->| ->]; [reflexivity | apply renderTimer_agree]. }
    destruct (renderTimer_display steps s d H0 Hd) as (s' & E & Hd').
    eexists s', _. split; [exact E|]. split; [exact Hd'|].
    cbn [display_class display_text]. unfold urgency_spec.
    split; [|split].
    + intros Hpos.
      destruct (Z.leb_spec (timerSeconds s) 10), (Z.gtb_spec (timerSeconds s) 0),
        (Z.leb_spec (timerSeconds s) 30), (Z.ltb_spec 0 (timerSeconds s)),
        (Z.ltb_spec 10 (timerSeconds s)); cbn; try reflexivity; lia.
    + intros Hneg.
      destruct (Z.leb_spec (timerSeconds s) 10), (Z.gtb_spec (timerSeconds s) 0),
        (Z.leb_spec (timerSeconds s) 30); cbn; try reflexivity; lia.
    + intros Hnn. rewrite Z.rem_mod_nonneg by lia.
      split; [reflexivity|]. split.
      * apply pad2_length. apply Z.div_pos; lia.
      * apply pad2_length_below_60. apply Z.mod_pos_bound. lia.
  - vm_compute. do 2 eexists. repeat (split; [reflexivity|]). reflexivity.
Qed.

(** Witness for C6: rendering [running_page], ten seconds left. *)
Lemma C6_witness :
  exists s' d', DeckJs.renderTimer two_steps running_page = Ok s'
    /\ timer_display s' = Some d'
    /\ (0 < timerSeconds running_page ->
        class_urgency (display_class d')
        = Some (urgency_spec (timerSeconds running_page)))
    /\ (timerSeconds running_page <= 0 ->
        class_urgency (display_class d') = Some Warning)
    /\ (0 <= timerSeconds running_page ->
        display_text d'
        = pad2 (timerSeconds running_page / 60) +:+ ":"
          +:+ pad2 (timerSeconds running_page mod 60)
        /\ (2 <= String.length (pad2 (timerSeconds running_page / 60)))%nat
        /\ String.length (pad2 (timerSeconds running_page mod 60)) = 2%nat).
Proof.
  destruct C6_display_bands_and_zero as (H & _).
  apply (H DeckJs.renderTimer (or_introl eq_refl) two_steps running_page
           {| display_text := "00:10"; display_class := "timer-display danger" |}).
  - simpl. lia.
  - reflexivity.
Defined.

(** ** The cue parser *)

Lemma split_length (sep : ascii) (s : string) :
  length (JsString.split sep s).2 = count_char sep s.
Proof.
  induction s as [|x s IH]; [reflexivity|].
  cbn [JsString.split count_char].
  destruct (JsString.split sep s) as [h t]. cbn [snd] in IH.
  destruct (Ascii.eqb x sep); cbn [snd length]; lia.
Qed.

Lemma parseCues_segments (a : string) :
  a <> EmptyString ->
  Part001.parseCues (Some a)
  = List.map cue_of_segment
      ((JsString.split "," a).1 :: (JsString.split "," a).2).
Proof.
  intros Ha. unfold Part001.parseCues.
  destruct a as [|x a]; [contradiction|].
  destruct (JsString.split "," (String x a)) as [p ps]. cbn [fst snd].
  apply List.map_ext. intros pair. unfold cue_of_segment.
  destruct (JsString.split ":" pair); reflexivity.
Qed.

Lemma split_none (sep : ascii) (a : string) :
  count_char sep a = 0%nat -> JsString.split sep a = (a, []).
Proof.
  induction a as [|x a IH]; [reflexivity|].
  cbn [count_char JsString.split]. destruct (Ascii.eqb x sep); [discriminate|].
  intros H. rewrite (IH H). reflexivity.
Qed.

Lemma split_app (sep : ascii) (a b : string) :
  count_char sep a = 0%nat ->
  JsString.split sep (a +:+ String sep b)
  = (a, (JsString.split sep b).1 :: (JsString.split sep b).2).
Proof.
  induction a as [|x a IH].
  - intros _. change ("" +:+ String sep b) with (String sep b).
    cbn [JsString.split]. destruct (JsString.split sep b).
    rewrite Ascii.eqb_refl. reflexivity.
  - cbn [count_char]. destruct (Ascii.eqb x sep) eqn:E; [discriminate|].
    intros H. change (String x a +:+ String sep b) with (String x (a +:+ String sep b)).
    cbn [JsString.split]. rewrite (IH H), E. reflexivity.
Qed.

Lemma count_char_app (sep : ascii) (a b : string) :
  count_char sep (a +:+ b) = (count_char sep a + count_char sep b)%nat.
Proof.
  induction a as [|x a IH]; [reflexivity|].
  change (String x a +:+ b) with (String x (a +:+ b)).
  cbn [count_char]. rewrite IH. lia.
Qed.

(** Splitting what was joined gives the pieces back. *)
Lemma split_concat (x : string) (xs : list string) :
  Forall (fun s => count_char "," s = 0%nat) (x :: xs) ->
  JsString.split "," (String.concat "," (x :: xs)) = (x, xs).
Proof.
  revert x. induction xs as [|y xs IH]; intros x H.
  - cbn [String.concat]. apply split_none. inversion H; assumption.
  - change (String.concat "," (x :: y :: xs))
      with (x +:+ String "," (String.concat "," (y :: xs))).
    inversion H as [|? ? Hx Hrest]; subst.
    rewrite (split_app "," x _ Hx), (IH y Hrest). reflexivity.
Qed.

Lemma cue_of_pair (id st : string) :
  plain_text id -> plain_text st ->
  cue_of_segment (id +:+ ":" +:+ st)
  = {| Part001.cue_id := id;
       Part001.cue_start := JsString.parseFloat (Some st) |}.
Proof.
  intros [_ Hid] [_ Hst]. unfold cue_of_segment.
  change (id +:+ ":" +:+ st) with (id +:+ String ":" st).
  rewrite (split_app ":" id st Hid), (split_none ":" st Hst). reflexivity.
Qed.

(** Every string is its comma-free segments joined by commas. *)
Lemma split_join (sep : ascii) (a : string) :
  a = String.concat (String sep "")
        ((JsString.split sep a).1 :: (JsString.split sep a).2)
  /\ Forall (fun s => count_char sep s = 0%nat)
       ((JsString.split sep a).1 :: (JsString.split sep a).2).
Proof.
  induction a as [|c a [IH1 IH2]]; [split; [reflexivity|repeat constructor]|].
  cbn [JsString.split].
  destruct (JsString.split sep a) as [h t]. cbn [fst snd] in *.
  destruct (Ascii.eqb_spec c sep) as [->|Hc]; cbn [fst snd].
  - split; [|constructor; [reflexivity|exact IH2]].
    change (String.concat (String sep "") ("" :: h :: t))
      with (String sep (String.concat (String sep "") (h :: t))).
    rewrite <- IH1. reflexivity.
  - split.
    + rewrite IH1 at 1. destruct t; reflexivity.
    + inversion IH2 as [|? ? Hh Ht]; subst. constructor; [|exact Ht].
      cbn [count_char]. destruct (Ascii.eqb_spec c sep); [contradiction|].
      exact Hh.
Qed.

Lemma cue_of_plain (seg : string) :
  count_char ":" seg = 0%nat ->
  cue_of_segment seg
  = {| Part001.cue_id := seg; Part001.cue_start := Js.NaN |}.
Proof.
  intros H. unfold cue_of_segment. rewrite (split_none ":" seg H). reflexivity.
Qed.

Lemma cue_of_triple (id st rest : string) :
  count_char ":" id = 0%nat -> count_char ":" st = 0%nat ->
  cue_of_segment (id +:+ ":" +:+ st +:+ ":" +:+ rest)
  = {| Part001.cue_id := id;
       Part001.cue_start := JsString.parseFloat (Some st) |}.
Proof.
  intros Hid Hst. unfold cue_of_segment.
  change (id +:+ ":" +:+ st +:+ ":" +:+ rest)
    with (id +:+ String ":" (st +:+ String ":" rest)).
  rewrite (split_app ":" id _ Hid), (split_app ":" st rest Hst). reflexivity.
Qed.

Lemma parseCues_joined (x : string) (xs : list string) :
  Forall (fun s => count_char "," s = 0%nat) (x :: xs) ->
  String.concat "," (x :: xs) <> EmptyString ->
  Part001.parseCues (Some (String.concat "," (x :: xs)))
  = cue_of_segment <$> (x :: xs).
Proof.
  intros H Hne. rewrite (parseCues_segments _ Hne), (split_concat x xs H).
  reflexivity.
Qed.

Lemma split_trailing (sep : ascii) (a : string) :
  last ((JsString.split sep (a +:+ String sep "")).1
          :: (JsString.split sep (a +:+ String sep "")).2)
  = Some EmptyString.
Proof.
  induction a as [|x a IH].
  - change ("" +:+ String sep "") with (String sep "").
    cbn [JsString.split]. rewrite Ascii.eqb_refl. reflexivity.
  - change (String x a +:+ String sep "") with (String x (a +:+ String sep "")).
    pose proof (split_length sep (a +:+ String sep "")) as Hl.
    rewrite count_char_app in Hl. cbn [count_char] in Hl.
    rewrite Ascii.eqb_refl in Hl.
    cbn [JsString.split].
    destruct (JsString.split sep (a +:+ String sep "")) as [h t].
    cbn [fst snd] in *.
    destruct (Ascii.eqb x sep); cbn [fst snd].
    + rewrite last_cons, IH. reflexivity.
    + destruct t as [|y t]; [cbn in Hl; lia|].
      rewrite last_cons in IH |- *.
      destruct (last (y :: t)) eqn:E; [exact IH|].
      rewrite last_cons in E. destruct (last t); discriminate.
Qed.

Lemma parseCues_trailing_comma (a : string) :
  last (Part001.parseCues (Some (a +:+ ",")))
  = Some {| Part001.cue_id := ""; Part001.cue_start := Js.NaN |}.
Proof.
  assert (Hne : a +:+ "," <> EmptyString) by (destruct a; discriminate).
  rewrite (parseCues_segments _ Hne).
  change (List.map cue_of_segment ?l) with (cue_of_segment <$> l).
  rewrite fmap_last, (split_trailing "," a). reflexivity.
Qed.

Lemma rnd_not_NaN (s : bool) (q : Q) : Js.rnd s q <> Js.NaN.
Proof.
  unfold Js.rnd. destruct (Qle_bool (Qred q) 0); [discriminate|].
  destruct (Qle_bool _ _); discriminate.
Qed.

Lemma span_digits_head (s : string) :
  (JsString.span_digits s).1 = EmptyString
  <-> match s with
      | String c _ => JsString.is_digit c = false
      | EmptyString => True
      end.
Proof.
  destruct s as [|c s]; [cbn; tauto|].
  cbn [JsString.span_digits]. destruct (JsString.is_digit c).
  - destruct (JsString.span_digits s). cbn. split; discriminate.
  - cbn. tauto.
Qed.

(** [parseFloat] gives [NaN] exactly for a text without a numeric
    prefix. *)
Lemma parseFloat_NaN (s : string) :
  JsString.parseFloat (Some s) = Js.NaN <-> numeric_prefix s = false.
Proof.
  unfold JsString.parseFloat, numeric_prefix.
  destruct (JsString.take_sign (JsString.trim_start s)) as [neg r].
  cbn [snd].
  destruct (String.prefix "Infinity" r); [cbn; split; discriminate|].
  rewrite orb_false_l.
  pose proof (span_digits_head r) as Hip.
  destruct (JsString.span_digits r) as [ip r1] eqn:Er. cbn [fst] in Hip.
  destruct r as [|c r'].
  - cbn in Er. injection Er as <- <-. cbn. tauto.
  - destruct (JsString.is_digit c) eqn:Ec.
    + assert (Hne : ip <> EmptyString) by (intros E; apply Hip in E; discriminate).
      destruct ip as [|d ip]; [contradiction|].
      destruct (match r1 with String "." r'0 => _ | _ => _ end) as [fp r2].
      cbn. split; [intros E; exfalso; exact (rnd_not_NaN _ _ E)|discriminate].
    + cbn [JsString.span_digits] in Er. rewrite Ec in Er.
      injection Er as <- <-. rewrite orb_false_l.
      destruct (Ascii.eqb_spec c ".") as [->|Hc].
      * pose proof (span_digits_head r') as Hfp.
        destruct (JsString.span_digits r') as [fp r2]. cbn [fst] in Hfp.
        rewrite andb_true_l.
        destruct r' as [|d r'].
        { assert (fp = EmptyString) by (apply Hfp; exact I). subst fp.
          cbn. tauto. }
        destruct (JsString.is_digit d) eqn:Ed.
        { assert (Hne : fp <> EmptyString)
            by (intros E; apply Hfp in E; discriminate).
          destruct fp as [|f fp]; [contradiction|].
          cbn. split; [intros E; exfalso; exact (rnd_not_NaN _ _ E)|discriminate]. }
        { assert (fp = EmptyString) by (apply Hfp; reflexivity). subst fp.
          cbn. tauto. }
      * rewrite andb_false_l.
        assert (E : (match String c r' with
                     | String "." r'0 => JsString.span_digits r'0
                     | _ => (EmptyString, String c r')
                     end) = (EmptyString, String c r')).
        { destruct c as [[] [] [] [] [] [] [] []]; try reflexivity.
          contradiction Hc. reflexivity. }
        rewrite E. cbn. tauto.
Qed.

(** C7 (as amended).  [parseCues] cannot raise.  For a missing attribute
    and for the empty string it returns the empty list.  For every other
    string it returns one cue per comma-separated segment, well-formed or
    not, so the list is never empty; every string is the join of its
    comma-free segments.  A segment without a colon gives a
    cue with the segment as its id and the offset [NaN], so a trailing
    comma gives a last cue with the empty id and the offset [NaN].  A
    segment [id:offset], with or without further parts after a second
    colon, gives the cue with that id and the offset
    [parseFloat(offset)]; that is [NaN] exactly when the offset has no
    numeric prefix, and the offset [5x] is read as 5. *)
Theorem C7_parseCues_one_cue_per_segment :
  Part001.parseCues None = []
  /\ Part001.parseCues (Some "") = []
  /\ (forall a, a <> EmptyString ->
       length (Part001.parseCues (Some a)) = S (count_char "," a))
  /\ (forall a,
       last (Part001.parseCues (Some (a +:+ ",")))
       = Some {| Part001.cue_id := ""; Part001.cue_start := Js.NaN |})
  /\ (forall a, exists x xs,
       a = String.concat "," (x :: xs)
       /\ Forall (fun s => count_char "," s = 0%nat) (x :: xs))
  /\ (forall x xs i seg,
       Forall (fun s => count_char "," s = 0%nat) (x :: xs) ->
       String.concat "," (x :: xs) <> EmptyString ->
       (x :: xs) !! i = Some seg ->
       let cs := Part001.parseCues (Some (String.concat "," (x :: xs))) in
       (count_char ":" seg = 0%nat ->
          cs !! i = Some {| Part001.cue_id := seg;
                            Part001.cue_start := Js.NaN |})
       /\ (forall id off,
             count_char ":" id = 0%nat -> count_char ":" off = 0%nat ->
             seg = id +:+ ":" +:+ off ->
             cs !! i = Some {| Part001.cue_id := id;
                               Part001.cue_start :=
                                 JsString.parseFloat (Some off) |})
       /\ (forall id off rest,
             count_char ":" id = 0%nat -> count_char ":" off = 0%nat ->
             seg = id +:+ ":" +:+ off +:+ ":" +:+ rest ->
             cs !! i = Some {| Part001.cue_id := id;
                               Part001.cue_start :=
                                 JsString.parseFloat (Some off) |}))
  /\ (forall off,
       JsString.parseFloat (Some off) = Js.NaN <-> numeric_prefix off = false)
  /\ Part001.parseCues (Some "a:5x")
     = [ {| Part001.cue_id := "a"; Part001.cue_start := Js.num 5 |} ].
Proof.
  split; [reflexivity|]. split; [reflexivity|].
  split.
  { intros a Ha. rewrite (parseCues_segments a Ha), length_map.
    cbn [length]. rewrite split_length. reflexivity. }
  split; [exact parseCues_trailing_comma|].
  split.
  { intros a. eexists _, _. exact (split_join "," a). }
  split.
  { intros x xs i seg H Hne Hi cs. unfold cs.
    rewrite (parseCues_joined x xs H Hne), list_lookup_fmap, Hi.
    cbn [fmap option_fmap option_map].
    split; [intros Hc; rewrite (cue_of_plain seg Hc); reflexivity|].
    split.
    - intros id off Hid Hoff ->.
      rewrite (cue_of_pair id off); [reflexivity| |].
      + split; [|exact Hid].
        eapply Forall_forall in H; [|eapply list_elem_of_lookup_2; exact Hi].
        cbn in H. rewrite count_char_app in H. lia.
      + split; [|exact Hoff].
        eapply Forall_forall in H; [|eapply list_elem_of_lookup_2; exact Hi].
        cbn in H. rewrite !count_char_app in H. lia.
    - intros id off rest Hid Hoff ->.
      rewrite (cue_of_triple id off rest Hid Hoff). reflexivity. }
  split; [exact parseFloat_NaN|].
  vm_compute. reflexivity.
Qed.

(** Witness for C7: the second segment of a well-formed attribute of
    two cues. *)
Lemma C7_witness :
  Part001.parseCues (Some (String.concat "," ["card1:0"; "card2:2.5"])) !! 1%nat
  = Some {| Part001.cue_id := "card2";
            Part001.cue_start := JsString.parseFloat (Some "2.5") |}.
Proof.
  destruct C7_parseCues_one_cue_per_segment as (_ & _ & _ & _ & _ & H & _).
  destruct (H "card1:0" ["card2:2.5"] 1%nat "card2:2.5") as (_ & H2 & _).
  - repeat constructor.
  - discriminate.
  - reflexivity.
  - apply (H2 "card2" "2.5"); reflexivity.
Defined.

(** Counterexample to C7 as stated: an attribute with a trailing comma,
    and one with a non-numeric offset, do not give the empty list. *)
Lemma C7_counterexample :
  Part001.parseCues (Some "a:1,") <> []
  /\ Part001.parseCues (Some "a:x") <> [].
Proof. split; vm_compute; discriminate. Qed.

(** ** The metadata loader *)

(** The loaders of the two revisions are the same functions. *)
Lemma hydrate_key_agree : Part001.hydrate_key = DeckJs.hydrate_key.
Proof. reflexivity. Qed.

Lemma hydrateVideos_agree : Part001.hydrateVideos = DeckJs.hydrateVideos.
Proof. reflexivity. Qed.

(** Reading a property of a truthy value does not throw. *)
Lemma get_truthy (v : option Json) (k : string) :
  truthy v = true -> exists r, get v k = Ok r.
Proof.
  destruct v as [[| | | | |]|]; cbn; intros H; try discriminate; eauto.
Qed.

Lemma or_text_ok (f : option Json) (d : string) :
  printable f -> exists t, or_text f d = Ok t.
Proof.
  intros [t Ht]. unfold or_text. destruct (truthy f); eauto.
Qed.

(** The slot that [hydrate_key] stores depends only on the record of the
    key and on the slot as it was; with a record whose fields have string
    conversions it does not throw. *)
Lemma hydrate_key_rel (videos1 videos2 : option Json) (key : string)
    (d1 d2 : VideoDoc) (r : option Json) :
  get videos1 key = Ok r -> get videos2 key = Ok r ->
  record_printable r ->
  video d1 key = video d2 key ->
  exists slot',
    DeckJs.hydrate_key videos1 key d1 = Ok (set_video key slot' d1)
    /\ DeckJs.hydrate_key videos2 key d2 = Ok (set_video key slot' d2).
Proof.
  intros H1 H2 Hpr Hs. unfold DeckJs.hydrate_key. rewrite H1, H2, <- Hs.
  cbn [mbind result_bind]. unfold record_printable in Hpr.
  set (rec := if truthy r then r else Some (JObj [])) in *.
  assert (Hrec : truthy rec = true).
  { unfold rec. destruct (truthy r) eqn:E; [exact E|reflexivity]. }
  destruct (get_truthy rec "filename" Hrec) as [f Hf].
  destruct (get_truthy rec "duration" Hrec) as [du Hdu].
  destruct (get_truthy rec "remote" Hrec) as [rm Hrm].
  assert (Pf : printable f) by (apply (Hpr "filename"); [in_list|exact Hf]).
  assert (Pdu : printable du) by (apply (Hpr "duration"); [in_list|exact Hdu]).
  assert (Prm : printable rm) by (apply (Hpr "remote"); [in_list|exact Hrm]).
  destruct (or_text_ok f "Not detected" Pf) as [tf Htf].
  destruct (or_text_ok du "Play to see" Pdu) as [tdu Htdu].
  destruct Pf as [sf Hsf].
  destruct Prm as [srm Hsrm].
  rewrite Hf, Hdu, Hrm.
  destruct (video d1 key) as [fe de [p|]]; cbn [fileEl durEl player];
    destruct fe, de; cbn [mbind result_bind];
    rewrite ?Htf, ?Htdu; cbn [mbind result_bind];
    rewrite ?Hsf, ?Hsrm; cbn [mbind result_bind];
    repeat match goal with
           | |- context [if truthy ?x then _ else _] => destruct (truthy x)
           end;
    rewrite ?Hsf, ?Hsrm; cbn [mbind result_bind];
    eexists; split; reflexivity.
Qed.

Lemma hydrate_key_ok (videos : option Json) (key : string) (d : VideoDoc) :
  key ∈ ["v1"; "v2"; "v3"] ->
  truthy videos = true -> videos_printable videos ->
  exists slot', DeckJs.hydrate_key videos key d = Ok (set_video key slot' d).
Proof.
  intros Hk Hv Hpr. destruct (get_truthy videos key Hv) as [r Hr].
  destruct (hydrate_key_rel videos videos key d d r Hr Hr (Hpr key r Hk Hr) eq_refl)
    as (slot' & E & _).
  eauto.
Qed.

(** A key without a (truthy) record: the file and duration slots that
    exist show the placeholders, and the player is left alone. *)
Lemma hydrate_key_absent (videos : option Json) (key : string) (d : VideoDoc)
    (r : option Json) :
  get videos key = Ok r -> truthy r = false ->
  DeckJs.hydrate_key videos key d
  = Ok (set_video key
          {| fileEl := placeholder (fileEl (video d key)) "Not detected";
             durEl := placeholder (durEl (video d key)) "Play to see";
             player := player (video d key) |} d).
Proof.
  intros Hr Ht. unfold DeckJs.hydrate_key. rewrite Hr.
  cbn [mbind result_bind]. rewrite Ht.
  destruct (video d key) as [fe de [p|]]; cbn [fileEl durEl player];
    destruct fe, de; reflexivity.
Qed.

Lemma video_set_video (k k' : string) (v : VideoSlot) (d : VideoDoc) :
  video (set_video k v d) k' = if String.eqb k' k then v else video d k'.
Proof. reflexivity. Qed.

Lemma set_video_inj (k : string) (a c : VideoSlot) (d d' : VideoDoc) :
  Ok (set_video k a d) = Ok (set_video k c d') -> a = c.
Proof.
  intros E.
  apply (f_equal (fun r => match r with Ok x => video x k | Throw _ => a end)) in E.
  rewrite !video_set_video, String.eqb_refl in E. exact E.
Qed.

(** The three keys, one after the other. *)
Lemma hydrate_three (vs : option Json) (d : VideoDoc) :
  truthy vs = true -> videos_printable vs ->
  exists s1 s2 s3,
    forEach (DeckJs.hydrate_key vs) ["v1"; "v2"; "v3"] d
    = Ok (set_video "v3" s3 (set_video "v2" s2 (set_video "v1" s1 d)))
    /\ DeckJs.hydrate_key vs "v1" d = Ok (set_video "v1" s1 d)
    /\ DeckJs.hydrate_key vs "v2" (set_video "v1" s1 d)
       = Ok (set_video "v2" s2 (set_video "v1" s1 d))
    /\ DeckJs.hydrate_key vs "v3" (set_video "v2" s2 (set_video "v1" s1 d))
       = Ok (set_video "v3" s3 (set_video "v2" s2 (set_video "v1" s1 d))).
Proof.
  intros Hv Hpr.
  destruct (hydrate_key_ok vs "v1" d ltac:(in_list) Hv Hpr) as [s1 E1].
  destruct (hydrate_key_ok vs "v2" (set_video "v1" s1 d) ltac:(in_list) Hv Hpr)
    as [s2 E2].
  destruct (hydrate_key_ok vs "v3" (set_video "v2" s2 (set_video "v1" s1 d))
              ltac:(in_list) Hv Hpr)
    as [s3 E3].
  exists s1, s2, s3. cbn [forEach].
  rewrite E1. cbn [mbind result_bind]. rewrite E2. cbn [mbind result_bind].
  rewrite E3. auto.
Qed.

Lemma hydrateVideos_payload (JSON_parse : string -> option Json) (d : VideoDoc)
    (vs : option Json) :
  payload_videos JSON_parse d vs ->
  DeckJs.hydrateVideos JSON_parse d
  = forEach (DeckJs.hydrate_key vs) ["v1"; "v2"; "v3"] d.
Proof.
  intros (text & data & Ht & Hp & Hd & Hg & Hv).
  unfold DeckJs.hydrateVideos. rewrite Ht, Hp, Hd. cbn [negb].
  rewrite Hg. cbn [mbind result_bind]. rewrite Hv. reflexivity.
Qed.

(** Strings, numbers, booleans, [null], [undefined] and objects without a
    [toString] property of their own have string conversions. *)
Lemma printable_plain (v : option Json) :
  match v with
  | Some (JArr _) => False
  | Some (JObj fields) => assoc "toString" fields = None
  | _ => True
  end -> printable v.
Proof.
  unfold printable. destruct v as [[|b|n|t|l|fs]|]; cbn; intros H;
    try contradiction; try rewrite H; eauto.
Qed.

(** C8 (as amended).  [hydrateVideos] of either revision, for every
    parser and page.  When the payload is missing, does not parse, or has
    no [videos] field, it returns normally and the page is exactly as it
    was.  When the payload has a [videos] field and every [filename],
    [duration] and [remote] of its records of [v1], [v2] and [v3] has a
    string conversion (as strings, numbers, booleans and plain objects
    do; nothing is asked of any other field), it returns normally; and if
    moreover the record of [v2] is absent, the slots of [v2] show "Not
    detected" and "Play to see", while the slots of [v1] and [v3] end up
    exactly as they do for any payload with the same [v1] and [v3]
    records on the same page, whatever its [v2]. *)
Theorem C8_metadata_loader_absorbs_and_defaults :
  forall hydrateVideos,
    hydrateVideos = DeckJs.hydrateVideos \/ hydrateVideos = Part001.hydrateVideos ->
    forall JSON_parse,
      (forall d, no_metadata JSON_parse d -> hydrateVideos JSON_parse d = Ok d)
      /\ (forall d vs, payload_videos JSON_parse d vs -> videos_printable vs ->
            exists d', hydrateVideos JSON_parse d = Ok d')
      /\ (forall d1 d2 vs1 vs2 r2,
            payload_videos JSON_parse d1 vs1 -> videos_printable vs1 ->
            payload_videos JSON_parse d2 vs2 -> videos_printable vs2 ->
            (forall k, video d1 k = video d2 k) ->
            get vs1 "v1" = get vs2 "v1" ->
            get vs1 "v3" = get vs2 "v3" ->
            get vs1 "v2" = Ok r2 -> truthy r2 = false ->
            exists d1' d2',
              hydrateVideos JSON_parse d1 = Ok d1'
              /\ hydrateVideos JSON_parse d2 = Ok d2'
              /\ fileEl (video d1' "v2")
                 = placeholder (fileEl (video d1 "v2")) "Not detected"
              /\ durEl (video d1' "v2")
                 = placeholder (durEl (video d1 "v2")) "Play to see"
              /\ video d1' "v1" = video d2' "v1"
              /\ video d1' "v3" = video d2' "v3").
Proof.
  intros hydrateVideos Hv JSON_parse.
  assert (hydrateVideos = DeckJs.hydrateVideos) as ->.
  { destruct Hv as [->| ->]; [reflexivity | apply hydrateVideos_agree]. }
  split; [|split].
  - intros d. unfold no_metadata, DeckJs.hydrateVideos.
    destruct (deck_data d) as [text|]; [|reflexivity].
    destruct (JSON_parse text) as [data|]; [|reflexivity].
    intros [Hd|(vs & Hg & Hvs)].
    + rewrite Hd. reflexivity.
    + destruct (truthy (Some data)); cbn [negb]; [|reflexivity].
      rewrite Hg. cbn [mbind result_bind]. rewrite Hvs. reflexivity.
  - intros d vs P Hpr. rewrite (hydrateVideos_payload _ _ _ P).
    destruct P as (t & dt & _ & _ & _ & _ & Hvs).
    destruct (hydrate_three vs d Hvs Hpr) as (s1 & s2 & s3 & E & _). eauto.
  - intros d1 d2 vs1 vs2 r2 P1 Hp1 P2 Hp2 Hsame H1 H3 H2 Hr2.
    rewrite (hydrateVideos_payload _ _ _ P1), (hydrateVideos_payload _ _ _ P2).
    destruct P1 as (t1 & dt1 & _ & _ & _ & _ & Hv1).
    destruct P2 as (t2 & dt2 & _ & _ & _ & _ & Hv2).
    destruct (get_truthy vs1 "v1" Hv1) as [r1 Hr1].
    destruct (get_truthy vs1 "v3" Hv1) as [r3 Hr3].
    destruct (hydrate_three vs1 d1 Hv1 Hp1) as (a1 & a2 & a3 & Ea & Ea1 & Ea2 & Ea3).
    destruct (hydrate_three vs2 d2 Hv2 Hp2) as (b1 & b2 & b3 & Eb & Eb1 & Eb2 & Eb3).
    rewrite Ea, Eb. do 2 eexists. split; [reflexivity|]. split; [reflexivity|].
    (* the slot of v2 on the first page *)
    pose proof (hydrate_key_absent vs1 "v2" (set_video "v1" a1 d1) r2 H2 Hr2) as Habs.
    rewrite Ea2 in Habs. apply set_video_inj in Habs.
    (* the slots of v1 and v3 on both pages *)
    destruct (hydrate_key_rel vs1 vs2 "v1" d1 d2 r1 Hr1) as (c1 & Ec1 & Ec1');
      [congruence | exact (Hp1 "v1" r1 ltac:(in_list) Hr1) | apply Hsame |].
    rewrite Ea1 in Ec1. rewrite Eb1 in Ec1'.
    apply set_video_inj in Ec1, Ec1'.
    destruct (hydrate_key_rel vs1 vs2 "v3"
                (set_video "v2" a2 (set_video "v1" a1 d1))
                (set_video "v2" b2 (set_video "v1" b1 d2)) r3 Hr3)
      as (c3 & Ec3 & Ec3'); [congruence | exact (Hp1 "v3" r3 ltac:(in_list) Hr3) | cbn; apply Hsame |].
    rewrite Ea3 in Ec3. rewrite Eb3 in Ec3'.
    apply set_video_inj in Ec3, Ec3'.
    cbn. rewrite Habs. cbn. split; [reflexivity|]. split; [reflexivity|].
    split; congruence.
Qed.

Lemma record_printable_absent : record_printable None.
Proof.
  intros k f _. cbn. intros E. injection E as <-. apply (printable_plain None). exact I.
Qed.

Lemma record_printable_sample (file dur : string) :
  record_printable (Some (sample_record file dur)).
Proof.
  intros k f _. cbn.
  destruct (String.eqb k "filename"); [|destruct (String.eqb k "duration")];
    intros E; injection E as <-; eexists; reflexivity.
Qed.

Lemma videos_printable_obj (fields : list (string * Json)) :
  Forall (fun kv => record_printable (Some kv.2)) fields ->
  videos_printable (Some (JObj fields)).
Proof.
  intros Hall key r _. cbn. intros E. injection E as <-.
  induction Hall as [|[k v] fields Hkv _ IH]; cbn.
  - apply record_printable_absent.
  - destruct (String.eqb key k); [exact Hkv | exact IH].
Qed.

(** Witness for C8: the same page with the payload that lacks [v2] and
    with the full payload. *)
Lemma C8_witness :
  exists d1' d2',
    DeckJs.hydrateVideos sample_parse (video_page "without-v2") = Ok d1'
    /\ DeckJs.hydrateVideos sample_parse (video_page "full") = Ok d2'
    /\ fileEl (video d1' "v2")
       = placeholder (fileEl (video (video_page "without-v2") "v2")) "Not detected"
    /\ durEl (video d1' "v2")
       = placeholder (durEl (video (video_page "without-v2") "v2")) "Play to see"
    /\ video d1' "v1" = video d2' "v1"
    /\ video d1' "v3" = video d2' "v3".
Proof.
  destruct (C8_metadata_loader_absorbs_and_defaults
              DeckJs.hydrateVideos (or_introl eq_refl) sample_parse)
    as (_ & _ & H).
  apply (H (video_page "without-v2") (video_page "full")
           (Some (JObj [("v1", sample_record "../a.mp4" "1m 2s");
                        ("v3", sample_record "../c.mp4" "5m 6s")]))
           (Some (JObj [("v1", sample_record "../a.mp4" "1m 2s");
                        ("v2", sample_record "../b.mp4" "3m 4s");
                        ("v3", sample_record "../c.mp4" "5m 6s")]))
           None).
  - do 2 eexists. repeat (split; [reflexivity|]). reflexivity.
  - apply videos_printable_obj.
    repeat (apply Forall_cons; split; [apply record_printable_sample|]).
    apply Forall_nil. exact I.
  - do 2 eexists. repeat (split; [reflexivity|]). reflexivity.
  - apply videos_printable_obj.
    repeat (apply Forall_cons; split; [apply record_printable_sample|]).
    apply Forall_nil. exact I.
  - reflexivity.
  - reflexivity.
  - reflexivity.
  - reflexivity.
  - reflexivity.
Defined.

(** The loader on the page whose payload lacks [v2]: placeholders for
    [v2], the records of [v1] and [v3] in their slots. *)
Example hydrate_without_v2 :
  (fun d => (video d "v1", video d "v2", video d "v3"))
    <$> outcome (DeckJs.hydrateVideos sample_parse (video_page "without-v2"))
  = Some
      ({| fileEl := Some "../a.mp4"; durEl := Some "1m 2s";
          player := Some {| src := "../a.mp4";
                            onerror := FallbackOf (Some (sample_record "../a.mp4" "1m 2s")) |} |},
       {| fileEl := Some "Not detected"; durEl := Some "Play to see";
          player := Some {| src := ""; onerror := NoHandler |} |},
       {| fileEl := Some "../c.mp4"; durEl := Some "5m 6s";
          player := Some {| src := "../c.mp4";
                            onerror := FallbackOf (Some (sample_record "../c.mp4" "5m 6s")) |} |}).
Proof. vm_compute. reflexivity. Qed.

(** Counterexample to C8 as stated: a payload that parses, with the
    object [{toString: 1}] as the [filename] of [v1].  Writing it to
    [#v1-file] needs its string conversion, which raises a [TypeError];
    nothing in [hydrateVideos] catches it. *)
Lemma C8_counterexample :
  ~ (forall JSON_parse d, exists d', DeckJs.hydrateVideos JSON_parse d = Ok d')
  /\ ~ (forall JSON_parse d, exists d', Part001.hydrateVideos JSON_parse d = Ok d').
Proof.
  split; intros H;
    destruct (H (fun _ => Some unprintable_payload) (video_page "payload"))
      as [d' E];
    vm_compute in E; discriminate.
Qed.

(** ** The two revisions side by side *)

Lemma goToSlide_core_agree (i : Z) (s1 : DeckJs.State) (s2 : Part001.State) :
  DeckJs.core s1 = Part001.core s2 ->
  core_of DeckJs.core (DeckJs.goToSlide i s1)
  = core_of Part001.core (Part001.goToSlide i s2).
Proof.
  intros H. unfold DeckJs.goToSlide, Part001.goToSlide. rewrite <- H.
  destruct ((i <? 0) || (i >=? Js.len (slides (DeckJs.core s1)))).
  { cbn. rewrite H. reflexivity. }
  destruct (classList_active false _ _) as [c1|]; cbn [mbind result_bind];
    [|reflexivity].
  destruct (classList_active true _ _) as [c3|]; cbn [mbind result_bind];
    [|reflexivity].
  cbn [core_of]. rewrite DeckJs_updateMusic_core, Part001_updateMusic_core.
  reflexivity.
Qed.

Lemma nav_step_core_agree (e : NavEvent) (s1 : DeckJs.State) (s2 : Part001.State) :
  DeckJs.core s1 = Part001.core s2 ->
  core_of DeckJs.core (DeckJs.nav_step e s1)
  = core_of Part001.core (Part001.nav_step e s2).
Proof.
  intros H. destruct e as [i| |]; cbn [DeckJs.nav_step Part001.nav_step].
  - apply goToSlide_core_agree, H.
  - unfold DeckJs.nextSlide, Part001.nextSlide. rewrite <- H.
    apply goToSlide_core_agree, H.
  - unfold DeckJs.prevSlide, Part001.prevSlide. rewrite <- H.
    apply goToSlide_core_agree, H.
Qed.

Lemma nav_run_core_agree (es : list NavEvent) (s1 : DeckJs.State) (s2 : Part001.State) :
  DeckJs.core s1 = Part001.core s2 ->
  core_of DeckJs.core (DeckJs.nav_run es s1)
  = core_of Part001.core (Part001.nav_run es s2).
Proof.
  revert s1 s2. induction es as [|e es IH]; intros s1 s2 H.
  - cbn. rewrite H. reflexivity.
  - cbn [DeckJs.nav_run Part001.nav_run].
    pose proof (nav_step_core_agree e s1 s2 H) as Hstep.
    destruct (DeckJs.nav_step e s1) as [s1'|m1],
             (Part001.nav_step e s2) as [s2'|m2];
      cbn in Hstep; try discriminate; cbn [mbind result_bind].
    + apply IH. congruence.
    + exact Hstep.
Qed.

(** C10.  The two revisions have one navigation and timer core.  From
    states with the same navigator core (slides, index, progress bar,
    counter, buttons, notes), [goToSlide], [nextSlide], [prevSlide] and
    every sequence of them give the same core again, or both throw; the
    three refresh functions are the same functions; and so are the timer's
    tick, start, pause, reset, setup and render, for every step table.
    The revisions differ in their step tables (both of four steps, with
    different durations) and in the reveal widget and narration built on
    top. *)
Theorem C10_revisions_share_navigation_and_timer_core :
  (forall i s1 s2, DeckJs.core s1 = Part001.core s2 ->
     core_of DeckJs.core (DeckJs.goToSlide i s1)
     = core_of Part001.core (Part001.goToSlide i s2)
     /\ core_of DeckJs.core (DeckJs.nextSlide s1)
        = core_of Part001.core (Part001.nextSlide s2)
     /\ core_of DeckJs.core (DeckJs.prevSlide s1)
        = core_of Part001.core (Part001.prevSlide s2))
  /\ (forall es s1 s2, DeckJs.core s1 = Part001.core s2 ->
       core_of DeckJs.core (DeckJs.nav_run es s1)
       = core_of Part001.core (Part001.nav_run es s2))
  /\ (forall c, DeckJs.updateProgress c = Part001.updateProgress c
               /\ DeckJs.updateCounter c = Part001.updateCounter c
               /\ DeckJs.updateNotes c = Part001.updateNotes c)
  /\ (forall steps s,
       DeckJs.tick steps s = Part001.tick steps s
       /\ DeckJs.startTimer s = Part001.startTimer s
       /\ DeckJs.pauseTimer s = Part001.pauseTimer s
       /\ DeckJs.resetTimer steps s = Part001.resetTimer steps s
       /\ DeckJs.setupTimer steps s = Part001.setupTimer steps s
       /\ DeckJs.renderTimer steps s = Part001.renderTimer steps s
       /\ (forall e, DeckJs.timer_step steps e s = Part001.timer_step steps e s)
       /\ (forall es, DeckJs.timer_run steps es s = Part001.timer_run steps es s))
  /\ map duration DeckJs.ACTIVITY_STEPS = [180; 180; 120; 120]
  /\ map duration Part001.ACTIVITY_STEPS = [60; 60; 60; 60].
Proof.
  split.
  { intros i s1 s2 H. split; [apply goToSlide_core_agree, H|].
    split; [apply (nav_step_core_agree Next), H
           | apply (nav_step_core_agree Prev), H]. }
  split; [exact nav_run_core_agree|].
  split; [intros c; repeat split; reflexivity|].
  split; [|split; reflexivity].
  intros steps s.
  rewrite tick_agree, startTimer_agree, pauseTimer_agree, resetTimer_agree,
    setupTimer_agree, renderTimer_agree, timer_step_agree, timer_run_agree.
  repeat split; reflexivity.
Qed.

(** Witness for C10: the two five-slide pages have the same core. *)
Lemma C10_witness :
  core_of DeckJs.core (DeckJs.goToSlide 3 (deck_page 5))
  = core_of Part001.core (Part001.goToSlide 3 (part_page 5))
  /\ core_of DeckJs.core (DeckJs.nextSlide (deck_page 5))
     = core_of Part001.core (Part001.nextSlide (part_page 5))
  /\ core_of DeckJs.core (DeckJs.prevSlide (deck_page 5))
     = core_of Part001.core (Part001.prevSlide (part_page 5)).
Proof.
  destruct C10_revisions_share_navigation_and_timer_core as (H & _).
  apply H. reflexivity.
Defined.

(** ** The narration player *)

(** Projections of the narration record through its setters. *)
Ltac narr_simpl :=
  cbn [Part001.activeNarrate Part001.controls Part001.cards
       Part001.next_timeout Part001.timeouts
       Part001.set_activeNarrate Part001.set_controls Part001.set_cards
       Part001.setTimeout Part001.clearTimeout Part001.clearHighlights
       fst snd] in *.

Lemma clear_lookup (s : Part001.Narr) (i : nat) :
  Part001.cards (Part001.clearHighlights s) !! i
  = (fun c => if Part001.sowhat_card c
              then {| Part001.card_id := Part001.card_id c;
                      Part001.sowhat_card := true;
                      Part001.speaking := false |}
              else c) <$> (Part001.cards s !! i).
Proof. narr_simpl. apply list_lookup_fmap. Qed.

Lemma clearHighlights_cleared (s s' : Part001.Narr) :
  Part001.cards s' = Part001.cards (Part001.clearHighlights s) ->
  highlights_cleared s s'.
Proof.
  intros E. unfold highlights_cleared. rewrite E. split.
  - narr_simpl. apply length_fmap.
  - intros i c Hi. rewrite clear_lookup, Hi. cbn [fmap option_fmap option_map].
    destruct (Part001.sowhat_card c) eqn:Hs; eexists; (split; [reflexivity|]);
      cbn; auto.
Qed.

(** Clearing a list of handles removes exactly the callbacks they name. *)
Lemma clear_timers_spec (l : list nat) (s : Part001.Narr) :
  let s' := foldl (fun s h => Part001.clearTimeout h s) s l in
  Part001.activeNarrate s' = Part001.activeNarrate s
  /\ Part001.controls s' = Part001.controls s
  /\ Part001.cards s' = Part001.cards s
  /\ Part001.next_timeout s' = Part001.next_timeout s
  /\ (forall p, p ∈ Part001.timeouts s' <-> p ∈ Part001.timeouts s /\ p.1 ∉ l).
Proof.
  revert s. induction l as [|h l IH]; intros s; cbn [foldl].
  - do 4 (split; [reflexivity|]). intros p. split; [|tauto].
    intros Hp. split; [exact Hp|]. intros Hx. inversion Hx.
  - destruct (IH (Part001.clearTimeout h s)) as (H1 & H2 & H3 & H4 & H5).
    narr_simpl. do 4 (split; [assumption|]). intros p. rewrite H5.
    narr_simpl. rewrite list_elem_of_filter, not_elem_of_cons. tauto.
Qed.

(** [stopNarrate] on an active narration, field by field. *)
Lemma stopNarrate_spec (s : Part001.Narr) (a : Part001.Narrate) :
  Part001.activeNarrate s = Some a ->
  Part001.activeNarrate (Part001.stopNarrate s) = None
  /\ Part001.controls (Part001.stopNarrate s)
     = alter (Part001.set_button false Part001.LISTEN_ICON) (Part001.btn a)
         (alter Part001.pause_rewind (Part001.audio a) (Part001.controls s))
  /\ Part001.cards (Part001.stopNarrate s)
     = Part001.cards (Part001.clearHighlights s)
  /\ Part001.next_timeout (Part001.stopNarrate s) = Part001.next_timeout s
  /\ (forall p, p ∈ Part001.timeouts (Part001.stopNarrate s)
        <-> p ∈ Part001.timeouts s /\ p.1 ∉ Part001.timers a).
Proof.
  intros Ha. unfold Part001.stopNarrate. rewrite Ha.
  match goal with
  | |- context [foldl ?f ?s0 ?l] =>
      destruct (clear_timers_spec l s0) as (H1 & H2 & H3 & H4 & H5)
  end.
  narr_simpl. rewrite H2, H3, H4. do 4 (split; [reflexivity|]). exact H5.
Qed.

Lemma stopNarrate_idle (s : Part001.Narr) :
  Part001.activeNarrate s = None -> Part001.stopNarrate s = s.
Proof. intros H. unfold Part001.stopNarrate. rewrite H. reflexivity. Qed.

(** The loop of [playNarrate]: one fresh handle per cue, in order. *)
Lemma schedule_spec (cs : list Part001.Cue) (ts : list nat) (s : Part001.Narr) :
  (Part001.schedule cs ts s).1
  = ts ++ seq (Part001.next_timeout s) (length cs)
  /\ Part001.activeNarrate (Part001.schedule cs ts s).2 = Part001.activeNarrate s
  /\ Part001.controls (Part001.schedule cs ts s).2 = Part001.controls s
  /\ Part001.cards (Part001.schedule cs ts s).2 = Part001.cards s
  /\ Part001.next_timeout (Part001.schedule cs ts s).2
     = (Part001.next_timeout s + length cs)%nat
  /\ Part001.timeouts (Part001.schedule cs ts s).2
     = reverse (zip (seq (Part001.next_timeout s) (length cs)) cs)
       ++ Part001.timeouts s.
Proof.
  revert ts s. induction cs as [|cue cs IH]; intros ts s.
  - cbn. rewrite app_nil_r, Nat.add_0_r. auto 10.
  - cbn [Part001.schedule Part001.setTimeout].
    match goal with
    | |- context [Part001.schedule cs ?ts' ?s'] =>
        destruct (IH ts' s') as (H1 & H2 & H3 & H4 & H5 & H6)
    end.
    narr_simpl. rewrite H1, H2, H3, H4, H5, H6.
    cbn [length seq zip zip_with]. rewrite reverse_cons, <- !app_assoc.
    repeat split; auto; lia.
Qed.

(** [playNarrate], field by field. *)
Lemma playNarrate_spec (b a : nat) (cs : list Part001.Cue) (s : Part001.Narr) :
  let s' := Part001.playNarrate b a cs s in
  Part001.activeNarrate s'
  = Some {| Part001.audio := a; Part001.btn := b;
            Part001.timers := seq (Part001.next_timeout s) (length cs) |}
  /\ Part001.controls s'
     = alter Part001.rewind_play a
         (alter (Part001.set_button true Part001.STOP_ICON) b (Part001.controls s))
  /\ Part001.cards s' = Part001.cards s
  /\ Part001.next_timeout s' = (Part001.next_timeout s + length cs)%nat
  /\ Part001.timeouts s'
     = reverse (zip (seq (Part001.next_timeout s) (length cs)) cs)
       ++ Part001.timeouts s.
Proof.
  unfold Part001.playNarrate.
  match goal with
  | |- context [Part001.schedule cs [] ?s0] =>
      pose proof (schedule_spec cs [] s0) as (H1 & H2 & H3 & H4 & H5 & H6);
      destruct (Part001.schedule cs [] s0) as [ts s1]
  end.
  narr_simpl. cbn [app] in H1. subst ts. rewrite H3, H4, H5, H6. auto.
Qed.

(** Whether the audio at position [i] of a list of controls is paused;
    [audio_paused] is this on the controls of a state. *)
Lemma audio_paused_alter (f : Part001.Control -> Part001.Control) (i j : nat)
    (s : Part001.Narr) :
  Part001.audio_paused j
    (Part001.set_controls (alter f i (Part001.controls s)) s)
  = match Part001.controls s !! j with
    | Some c => if decide (i = j) then Part001.paused (f c) else Part001.paused c
    | None => true
    end.
Proof.
  unfold Part001.audio_paused. narr_simpl. rewrite list_lookup_alter.
  destruct (decide (i = j)) as [->|]; destruct (Part001.controls s !! j);
    reflexivity.
Qed.

Lemma quiet_inv (s : Part001.Narr) : quiet s -> narr_inv s.
Proof.
  intros (Ha & Hp & Ht). unfold narr_inv, audio_playing. rewrite Ha, Ht.
  repeat split.
  - intros i Hi. rewrite Hp in Hi. discriminate.
  - intros a E. discriminate.
  - intros p Hp'. inversion Hp'.
  - intros a E. discriminate.
Qed.

Lemma inv_idle_quiet (s : Part001.Narr) :
  narr_inv s -> Part001.activeNarrate s = None -> quiet s.
Proof.
  intros (I1 & _ & I3 & _) Ha. unfold quiet. split; [exact Ha|]. split.
  - intros i. destruct (Part001.audio_paused i s) eqn:E; [reflexivity|].
    destruct (I1 i E) as (a & Ha' & _). congruence.
  - apply elem_of_nil_inv. intros p Hp.
    destruct (I3 p Hp) as (a & Ha' & _). congruence.
Qed.

(** [stopNarrate] leaves the player quiet, the stopped button in its
    "Listen" state with its audio rewound, no card highlighted, and hands
    out no handle. *)
Lemma stopNarrate_quiet (s : Part001.Narr) (a : Part001.Narrate) :
  narr_inv s -> Part001.activeNarrate s = Some a ->
  quiet (Part001.stopNarrate s)
  /\ Part001.next_timeout (Part001.stopNarrate s) = Part001.next_timeout s
  /\ length (Part001.controls (Part001.stopNarrate s))
     = length (Part001.controls s)
  /\ no_highlight (Part001.stopNarrate s)
  /\ (forall c, Part001.controls s !! Part001.btn a = Some c ->
        stopped (Part001.btn a) (Part001.stopNarrate s))
  /\ (forall j, j <> Part001.btn a ->
        Part001.controls (Part001.stopNarrate s) !! j = Part001.controls s !! j).
Proof.
  intros (I1 & I2 & I3 & I4) Ha.
  destruct (stopNarrate_spec s a Ha) as (S1 & S2 & S3 & S4 & S5).
  pose proof (I2 a Ha) as Hab.
  split; [|split; [exact S4|split; [|split; [|split]]]].
  - unfold quiet. split; [exact S1|]. split.
    + intros i. unfold Part001.audio_paused. rewrite S2, Hab.
      rewrite !list_lookup_alter.
      destruct (Part001.controls s !! i) as [c|] eqn:Hc;
        repeat case_decide; subst; rewrite ?Hc; try reflexivity;
        try contradiction.
      cbn. destruct (Part001.paused c) eqn:Hp; [reflexivity|].
      destruct (I1 i) as (a' & Ha' & Hi).
      { unfold audio_playing, Part001.audio_paused. rewrite Hc. exact Hp. }
      congruence.
    + apply elem_of_nil_inv. intros p Hp. apply S5 in Hp.
      destruct Hp as [Hp Hn]. destruct (I3 p Hp) as (a' & Ha' & Hin).
      apply Hn. congruence.
  - rewrite S2, !length_alter. reflexivity.
  - unfold no_highlight. rewrite S3. narr_simpl. intros c Hc Hs.
    apply list_elem_of_fmap in Hc. destruct Hc as (c0 & -> & _).
    destruct (Part001.sowhat_card c0) eqn:E; [reflexivity|].
    cbn in Hs. congruence.
  - intros c Hc. unfold stopped. rewrite S2, Hab, !list_lookup_alter.
    repeat case_decide; try contradiction.
    rewrite Hc. cbn. eexists. split; [reflexivity|]. cbn. auto.
  - intros j Hj. rewrite S2, Hab, !list_lookup_alter.
    repeat case_decide; congruence.
Qed.

(** [playNarrate] for button [i] of a quiet player: afterwards button [i]
    is the active one and in its "Stop" state, its audio plays from the
    start, one callback per cue is pending, each with a handle that was
    not handed out before, and no other button is touched. *)
Lemma playNarrate_from_quiet (i : nat) (cs : list Part001.Cue)
    (s : Part001.Narr) (c : Part001.Control) :
  quiet s -> Part001.controls s !! i = Some c ->
  narr_inv (Part001.playNarrate i i cs s)
  /\ started i (Part001.playNarrate i i cs s)
  /\ Part001.activeNarrate (Part001.playNarrate i i cs s)
     = Some {| Part001.audio := i; Part001.btn := i;
               Part001.timers := seq (Part001.next_timeout s) (length cs) |}
  /\ (forall j, j <> i ->
        Part001.controls (Part001.playNarrate i i cs s) !! j
        = Part001.controls s !! j)
  /\ Part001.timeouts (Part001.playNarrate i i cs s)
     = reverse (zip (seq (Part001.next_timeout s) (length cs)) cs)
  /\ Part001.cards (Part001.playNarrate i i cs s) = Part001.cards s.
Proof.
  intros (Qa & Qp & Qt) Hc.
  destruct (playNarrate_spec i i cs s) as (P1 & P2 & P3 & P4 & P5).
  rewrite Qt, app_nil_r in P5.
  assert (Hother : forall j, j <> i ->
            Part001.controls (Part001.playNarrate i i cs s) !! j
            = Part001.controls s !! j).
  { intros j Hj. rewrite P2, !list_lookup_alter.
    repeat case_decide; congruence. }
  split; [|split; [|split; [exact P1|split; [exact Hother|split; [exact P5|exact P3]]]]].
  - unfold narr_inv. rewrite P1, P4, P5. split; [|split; [|split]].
    + intros j Hj. eexists. split; [reflexivity|]. cbn.
      destruct (decide (j = i)) as [->|Hne]; [reflexivity|].
      unfold audio_playing, Part001.audio_paused in Hj.
      rewrite (Hother j Hne) in Hj.
      specialize (Qp j). unfold Part001.audio_paused in Qp. congruence.
    + intros a E. injection E as <-. reflexivity.
    + intros [h cue] Hp. eexists. split; [reflexivity|]. cbn.
      rewrite elem_of_reverse in Hp. apply elem_of_zip_l in Hp. exact Hp.
    + intros a E h Hh. injection E as <-. cbn in Hh.
      apply elem_of_seq in Hh. lia.
  - unfold started. rewrite P2, !list_lookup_alter.
    repeat case_decide; try contradiction.
    rewrite Hc. cbn. eexists. split; [reflexivity|]. cbn. auto.
Qed.

(** [setupNarration] starts the player quiet. *)
Lemma narr_init_quiet (btns : list Part001.Control) (cs : list Part001.Card) :
  quiet (Part001.narr_init btns cs).
Proof.
  unfold quiet, Part001.narr_init, Part001.setupNarration. narr_simpl.
  split; [reflexivity|]. split; [|reflexivity].
  intros i. unfold Part001.audio_paused. narr_simpl.
  rewrite list_lookup_fmap. destruct (btns !! i); reflexivity.
Qed.

(** The invariant only looks at [activeNarrate], at which audios play, at
    the pending callbacks and at the handle counter; it survives any
    change that starts no audio and schedules nothing. *)
Lemma narr_inv_mono (s s' : Part001.Narr) :
  Part001.activeNarrate s' = Part001.activeNarrate s ->
  (forall j, audio_playing j s' -> audio_playing j s) ->
  (forall p, p ∈ Part001.timeouts s' -> p ∈ Part001.timeouts s) ->
  Part001.next_timeout s' = Part001.next_timeout s ->
  narr_inv s -> narr_inv s'.
Proof.
  intros Ha Hp Ht Hn (I1 & I2 & I3 & I4). unfold narr_inv.
  rewrite Ha, Hn. repeat split; auto.
Qed.

Lemma click_inv (i : nat) (s : Part001.Narr) :
  narr_inv s -> narr_inv (Part001.click i s).
Proof.
  intros I. unfold Part001.click.
  destruct (Part001.controls s !! i) as [c|] eqn:Hc; [|exact I].
  destruct (Part001.activeNarrate s) as [a|] eqn:Ha.
  - destruct (stopNarrate_quiet s a I Ha) as (Q & _ & Hlen & _ & _ & _).
    destruct (bool_decide (Part001.btn a = i) && _).
    + apply quiet_inv, Q.
    + destruct (lookup_lt_is_Some_2 (Part001.controls (Part001.stopNarrate s)) i)
        as [c' Hc'].
      { rewrite Hlen. apply lookup_lt_Some in Hc. exact Hc. }
      apply (playNarrate_from_quiet i (Part001.cues c) _ c' Q Hc').
  - apply (playNarrate_from_quiet i (Part001.cues c) s c); [|exact Hc].
    apply inv_idle_quiet; assumption.
Qed.

(** Every event keeps the invariant. *)
Lemma narr_step_inv (e : Part001.NarrEvent) (s : Part001.Narr) :
  narr_inv s -> narr_inv (Part001.narr_step e s).
Proof.
  intros I. destruct e as [i|i dt|i|h]; cbn [Part001.narr_step].
  - apply click_inv, I.
  - destruct (Part001.audio_paused i s) eqn:Hp; [exact I|].
    apply (narr_inv_mono s); auto.
    intros j. unfold audio_playing. rewrite audio_paused_alter.
    unfold Part001.audio_paused. destruct (Part001.controls s !! j); [|auto].
    case_decide; auto.
  - destruct (Part001.audio_paused i s) eqn:Hp; [exact I|].
    apply (narr_inv_mono s); auto.
    intros j. unfold audio_playing, Part001.ended, Part001.audio_paused.
    narr_simpl. rewrite !list_lookup_alter.
    destruct (Part001.controls s !! j) eqn:Hj;
      repeat case_decide; subst; rewrite ?Hj; cbn; auto; discriminate.
  - destruct (Part001.pending h (Part001.timeouts s)) as [cue|]; [|exact I].
    apply (narr_inv_mono s); auto.
    + unfold Part001.cue_callback. narr_simpl.
      destruct (String.eqb _ _); reflexivity.
    + intros j. unfold audio_playing, Part001.cue_callback, Part001.audio_paused.
      narr_simpl. destruct (String.eqb _ _); narr_simpl; auto.
    + intros p. unfold Part001.cue_callback. narr_simpl.
      destruct (String.eqb _ _); narr_simpl;
        rewrite list_elem_of_filter; tauto.
    + unfold Part001.cue_callback. narr_simpl.
      destruct (String.eqb _ _); reflexivity.
Qed.

Lemma narr_run_inv (es : list Part001.NarrEvent) (s : Part001.Narr) :
  narr_inv s -> narr_inv (Part001.narr_run es s).
Proof.
  revert s. unfold Part001.narr_run.
  induction es as [|e es IH]; intros s I; cbn [foldl]; [exact I|].
  apply IH, narr_step_inv, I.
Qed.

(** At most one audio plays in a state that satisfies the invariant. *)
Lemma inv_at_most_one (s : Part001.Narr) (i j : nat) :
  narr_inv s -> audio_playing i s -> audio_playing j s -> i = j.
Proof.
  intros (I1 & _) Hi Hj.
  destruct (I1 i Hi) as (a & Ha & <-). destruct (I1 j Hj) as (a' & Ha' & <-).
  congruence.
Qed.

Lemma pending_elem (h : nat) (l : list (nat * Part001.Cue)) (cue : Part001.Cue) :
  Part001.pending h l = Some cue -> (h, cue) ∈ l.
Proof.
  induction l as [|[h' c'] l IH]; cbn [Part001.pending]; [discriminate|].
  destruct (Nat.eqb_spec h' h) as [->|Hne].
  - intros E. injection E as ->. apply elem_of_cons. auto.
  - intros E. apply elem_of_cons. right. apply IH, E.
Qed.

(** C2 (as amended).  At most one narration plays at a time, after every
    sequence of clicks, cue callbacks, playback progress and end-of-audio
    events from the initial page; the playing audio is the one
    [activeNarrate] names.  A click on button B while another button A is
    active and playing is [stopNarrate] followed by [playNarrate] for B:
    after the first, A's audio is paused and rewound, A's button is back
    in its "Listen" state, no cue callback is pending at all,
    [activeNarrate] is empty, and the highlight is removed from every
    [.sowhat-card] and from nothing else, so that an element that is not
    a [.sowhat-card] and was highlighted by a cue stays highlighted;
    after the second, A is still stopped, none of A's callbacks is
    pending, the elements are as the first left them, and B is the
    active narration, playing from the start with its button in the
    "Stop" state.  A click on the active, playing button B is
    [stopNarrate] alone and leaves [activeNarrate] empty. *)
Theorem C2_at_most_one_narration :
  (forall btns cs es, narr_inv (Part001.narr_run es (Part001.narr_init btns cs)))
  /\ (forall btns cs es i j,
     audio_playing i (Part001.narr_run es (Part001.narr_init btns cs)) ->
     audio_playing j (Part001.narr_run es (Part001.narr_init btns cs)) ->
     i = j
     /\ exists a,
          Part001.activeNarrate (Part001.narr_run es (Part001.narr_init btns cs))
          = Some a /\ Part001.btn a = i /\ Part001.audio a = i)
  /\ (forall s a b cb,
        narr_inv s ->
        Part001.activeNarrate s = Some a ->
        audio_playing (Part001.audio a) s ->
        b <> Part001.btn a ->
        Part001.controls s !! b = Some cb ->
        Part001.click b s
        = Part001.playNarrate b b (Part001.cues cb) (Part001.stopNarrate s)
        /\ (stopped (Part001.btn a) (Part001.stopNarrate s)
            /\ Part001.timeouts (Part001.stopNarrate s) = []
            /\ no_highlight (Part001.stopNarrate s)
            /\ Part001.activeNarrate (Part001.stopNarrate s) = None
            /\ highlights_cleared s (Part001.stopNarrate s))
        /\ (stopped (Part001.btn a) (Part001.click b s)
            /\ (forall h, h ∈ Part001.timers a ->
                  Part001.pending h (Part001.timeouts (Part001.click b s)) = None)
            /\ no_highlight (Part001.click b s)
            /\ started b (Part001.click b s)
            /\ (exists ts,
                  Part001.activeNarrate (Part001.click b s)
                  = Some {| Part001.audio := b; Part001.btn := b;
                            Part001.timers := ts |}
                  /\ length ts = length (Part001.cues cb))
            /\ (forall j, audio_playing j (Part001.click b s) -> j = b)
            /\ highlights_cleared s (Part001.click b s)))
  /\ (forall s a b,
        narr_inv s ->
        Part001.activeNarrate s = Some a ->
        audio_playing (Part001.audio a) s ->
        b = Part001.btn a ->
        Part001.click b s = Part001.stopNarrate s
        /\ Part001.activeNarrate (Part001.click b s) = None
        /\ stopped b (Part001.click b s)
        /\ Part001.timeouts (Part001.click b s) = []
        /\ no_highlight (Part001.click b s)
        /\ (forall j, ~ audio_playing j (Part001.click b s))
        /\ highlights_cleared s (Part001.click b s)).
Proof.
  split; [|split; [|split]].
  - intros btns cs es. apply narr_run_inv, quiet_inv, narr_init_quiet.
  - intros btns cs es i j Hi Hj.
    pose proof (narr_run_inv es _ (quiet_inv _ (narr_init_quiet btns cs))) as I.
    split; [exact (inv_at_most_one _ i j I Hi Hj)|].
    destruct I as (I1 & I2 & _). destruct (I1 i Hi) as (a & Ha & Hai).
    exists a. split; [exact Ha|]. split; [|exact Hai].
    rewrite <- (I2 a Ha). exact Hai.
  - intros s a b cb I Ha Hplay Hb Hcb.
    pose proof I as (I1 & I2 & I3 & I4).
    pose proof (I2 a Ha) as Hab.
    assert (Hca : exists ca, Part001.controls s !! Part001.btn a = Some ca).
    { unfold audio_playing, Part001.audio_paused in Hplay. rewrite Hab in Hplay.
      destruct (Part001.controls s !! Part001.btn a); [eauto|discriminate]. }
    destruct Hca as [ca Hca].
    destruct (stopNarrate_quiet s a I Ha) as (Q & Hn & Hlen & Hnh & Hst & Hoth).
    assert (Hcb' : Part001.controls (Part001.stopNarrate s) !! b = Some cb).
    { rewrite Hoth by exact Hb. exact Hcb. }
    destruct (playNarrate_from_quiet b (Part001.cues cb) _ cb Q Hcb')
      as (I' & Hstart & Hact & Hoth' & Hto & Hcards).
    assert (Hclick : Part001.click b s
              = Part001.playNarrate b b (Part001.cues cb) (Part001.stopNarrate s)).
    { unfold Part001.click. rewrite Hcb, Ha.
      rewrite bool_decide_eq_false_2 by congruence. reflexivity. }
    destruct (stopNarrate_spec s a Ha) as (_ & _ & Hcs & _).
    split; [exact Hclick|]. split.
    { destruct Q as (Qa & _ & Qt).
      split; [exact (Hst ca Hca)|]. split; [exact Qt|]. split; [exact Hnh|].
      split; [exact Qa|]. exact (clearHighlights_cleared _ _ Hcs). }
    rewrite Hclick.
    split; [|split; [|split; [|split; [exact Hstart|split; [|split]]]]].
    + destruct (Hst ca Hca) as (c' & Hc' & Hrest).
      exists c'. split; [|exact Hrest].
      rewrite Hoth' by congruence. exact Hc'.
    + intros h Hh.
      destruct (Part001.pending h _) as [cue|] eqn:E; [|reflexivity].
      apply pending_elem in E. rewrite Hto, elem_of_reverse in E.
      apply elem_of_zip_l, elem_of_seq in E.
      specialize (I4 a Ha h Hh). lia.
    + unfold no_highlight. rewrite Hcards. exact Hnh.
    + eexists. split; [exact Hact|]. apply length_seq.
    + intros j Hj. destruct I' as (I1' & _).
      destruct (I1' j Hj) as (a' & Ha' & <-). rewrite Hact in Ha'.
      injection Ha' as <-. reflexivity.
    + apply clearHighlights_cleared. rewrite Hcards. exact Hcs.
  - intros s a b I Ha Hplay ->.
    pose proof I as (I1 & I2 & I3 & I4).
    pose proof (I2 a Ha) as Hab.
    assert (Hca : exists ca, Part001.controls s !! Part001.btn a = Some ca).
    { unfold audio_playing, Part001.audio_paused in Hplay. rewrite Hab in Hplay.
      destruct (Part001.controls s !! Part001.btn a); [eauto|discriminate]. }
    destruct Hca as [ca Hca].
    destruct (stopNarrate_quiet s a I Ha) as (Q & Hn & Hlen & Hnh & Hst & Hoth).
    assert (Hclick : Part001.click (Part001.btn a) s = Part001.stopNarrate s).
    { unfold Part001.click. rewrite Hca, Ha.
      rewrite bool_decide_eq_true_2 by reflexivity.
      unfold audio_playing in Hplay. rewrite Hplay. reflexivity. }
    rewrite Hclick. destruct Q as (Qa & Qp & Qt).
    split; [reflexivity|]. split; [exact Qa|]. split; [exact (Hst ca Hca)|].
    split; [exact Qt|]. split; [exact Hnh|].
    split.
    { intros j Hj. unfold audio_playing in Hj. rewrite Qp in Hj. discriminate. }
    destruct (stopNarrate_spec s a Ha) as (_ & _ & Hcs & _).
    exact (clearHighlights_cleared _ _ Hcs).
Qed.

Lemma narr_A_playing_inv : narr_inv narr_A_playing.
Proof.
  apply narr_run_inv, quiet_inv, narr_init_quiet.
Defined.

(** Witness for C2: B is clicked while A is in mid-playback. *)
Lemma C2_witness :
  Part001.click 1 narr_A_playing
  = Part001.playNarrate 1 1 (Part001.cues narr_B_control)
      (Part001.stopNarrate narr_A_playing)
  /\ (stopped (Part001.btn narr_A_record) (Part001.stopNarrate narr_A_playing)
      /\ Part001.timeouts (Part001.stopNarrate narr_A_playing) = []
      /\ no_highlight (Part001.stopNarrate narr_A_playing)
      /\ Part001.activeNarrate (Part001.stopNarrate narr_A_playing) = None
      /\ highlights_cleared narr_A_playing (Part001.stopNarrate narr_A_playing))
  /\ (stopped (Part001.btn narr_A_record) (Part001.click 1 narr_A_playing)
      /\ (forall h, h ∈ Part001.timers narr_A_record ->
            Part001.pending h (Part001.timeouts (Part001.click 1 narr_A_playing))
            = None)
      /\ no_highlight (Part001.click 1 narr_A_playing)
      /\ started 1 (Part001.click 1 narr_A_playing)
      /\ (exists ts,
            Part001.activeNarrate (Part001.click 1 narr_A_playing)
            = Some {| Part001.audio := 1; Part001.btn := 1;
                      Part001.timers := ts |}
            /\ length ts = length (Part001.cues narr_B_control))
      /\ (forall j, audio_playing j (Part001.click 1 narr_A_playing) -> j = 1%nat)
      /\ highlights_cleared narr_A_playing (Part001.click 1 narr_A_playing)).
Proof.
  destruct C2_at_most_one_narration as (_ & _ & H & _).
  apply (H narr_A_playing narr_A_record 1%nat narr_B_control narr_A_playing_inv).
  - reflexivity.
  - reflexivity.
  - simpl. lia.
  - reflexivity.
Defined.

(** Counterexample to C2 as stated: on [narr_mixed_page] the cue of A
    highlights the element [intro], which is not a [.sowhat-card]; a
    click on B while A plays stops A and starts B, and [intro] is still
    highlighted, after [stopNarrate] and after the click. *)
Lemma C2_counterexample :
  let s := Part001.narr_run [Part001.Click 0; Part001.Fire 0] narr_mixed_page in
  narr_inv s
  /\ Part001.activeNarrate s
     = Some {| Part001.audio := 0; Part001.btn := 0; Part001.timers := [0%nat] |}
  /\ audio_playing 0 s
  /\ highlighted "intro" s
  /\ highlighted "intro" (Part001.stopNarrate s)
  /\ Part001.click 1 s
     = Part001.playNarrate 1 1 (Part001.parseCues (Some "card1:1"))
         (Part001.stopNarrate s)
  /\ stopped 0 (Part001.click 1 s)
  /\ started 1 (Part001.click 1 s)
  /\ highlighted "intro" (Part001.click 1 s).
Proof.
  cbv zeta.
  split; [apply narr_run_inv, quiet_inv, narr_init_quiet|].
  split; [vm_compute; reflexivity|].
  split; [vm_compute; reflexivity|].
  assert (H : forall s, (exists c, Part001.cards s !! 0%nat = Some c
                /\ Part001.card_id c = "intro" /\ Part001.speaking c = true) ->
              highlighted "intro" s).
  { intros s (c & H1 & H2 & H3). exists 0%nat, c. auto. }
  split; [apply H; eexists; split; [vm_compute; reflexivity|split; reflexivity]|].
  split; [apply H; eexists; split; [vm_compute; reflexivity|split; reflexivity]|].
  split; [vm_compute; reflexivity|].
  split; [eexists; split; [vm_compute; reflexivity|repeat split]|].
  split; [eexists; split; [vm_compute; reflexivity|repeat split]|].
  apply H; eexists; split; [vm_compute; reflexivity|split; reflexivity].
Qed.

(** The example of the specification on [narr_page]: with A in
    mid-playback, a click on B leaves A stopped and B active; a second
    click on B stops B and empties [activeNarrate]. *)
Example narration_A_then_B_then_B :
  Part001.activeNarrate narr_A_playing = Some narr_A_record
  /\ map Part001.paused (Part001.controls narr_A_playing) = [false; true]
  /\ map Part001.speaking (Part001.cards narr_A_playing) = [true; false; false]
  /\ Part001.activeNarrate (Part001.click 1 narr_A_playing)
     = Some {| Part001.audio := 1; Part001.btn := 1; Part001.timers := [2%nat] |}
  /\ map Part001.paused (Part001.controls (Part001.click 1 narr_A_playing))
     = [true; false]
  /\ map Part001.innerHTML (Part001.controls (Part001.click 1 narr_A_playing))
     = [Part001.LISTEN_ICON; Part001.STOP_ICON]
  /\ map Part001.speaking (Part001.cards (Part001.click 1 narr_A_playing))
     = [false; false; false]
  /\ map fst (Part001.timeouts (Part001.click 1 narr_A_playing)) = [2%nat]
  /\ Part001.activeNarrate (Part001.click 1 (Part001.click 1 narr_A_playing))
     = None
  /\ map Part001.paused
       (Part001.controls (Part001.click 1 (Part001.click 1 narr_A_playing)))
     = [true; true]
  /\ Part001.timeouts (Part001.click 1 (Part001.click 1 narr_A_playing)) = [].
Proof. repeat split; vm_compute; reflexivity. Qed.

(** * Further properties *)

(** ** The timer beyond its claims *)

(** [renderTimer] in full: the state keeps its variables, the display
    shows the seconds and the step name, if it exists, shows the step. *)
Lemma renderTimer_shown (steps : list ActivityStep) (s : Timer) (d : TimerDisplay) :
  0 <= timerStepIndex s -> timer_display s = Some d ->
  exists s', DeckJs.renderTimer steps s = Ok s'
    /\ timer_frame s s'
    /\ timer_display s' = Some (shown_time (timerSeconds s))
    /\ timer_step_name s'
       = (fun _ => shown_step steps (timerStepIndex s)) <$> timer_step_name s.
Proof.
  intros H0 Hd.
  destruct (renderTimer_ok steps s H0) as (s1 & E1 & F).
  destruct (renderTimer_display steps s d H0 Hd) as (s2 & E2 & D).
  assert (s2 = s1) as -> by congruence.
  exists s1. split; [exact E1|]. split; [exact F|]. split; [exact D|].
  revert E1. unfold DeckJs.renderTimer, shown_step. rewrite Hd. timer_simpl.
  destruct (timer_step_name s) as [nm|] eqn:Hn.
  2:{ intros E. injection E as <-. timer_simpl. rewrite Hn. reflexivity. }
  destruct (Z.ltb_spec (timerStepIndex s) (Js.len steps)) as [Hlt|Hge].
  - destruct (index_Some steps (timerStepIndex s)) as [st Hst]; [lia|].
    rewrite Hst. intros E. injection E as <-. reflexivity.
  - intros E. injection E as <-. reflexivity.
Qed.

(** Whatever [renderTimer] returns has its display in step with its
    variables. *)
Lemma render_synced (steps : list ActivityStep) (x s' : Timer) :
  0 <= timerStepIndex x -> DeckJs.renderTimer steps x = Ok s' ->
  display_synced steps s'.
Proof.
  intros H0 E d' Hd'.
  destruct (timer_display x) as [d|] eqn:Hd.
  - destruct (renderTimer_shown steps x d H0 Hd) as (s1 & E1 & F & D & N).
    assert (s1 = s') as -> by congruence.
    destruct F as (_ & Fs & _ & Fx & _).
    rewrite Fs, Fx. split; [congruence|].
    intros nm Hnm. rewrite N in Hnm.
    destruct (timer_step_name x); cbn in Hnm; congruence.
  - unfold DeckJs.renderTimer in E. rewrite Hd in E.
    injection E as <-. congruence.
Qed.

(** A tick that returns ends in [renderTimer]. *)
Lemma tick_is_render (steps : list ActivityStep) (s s' : Timer) :
  0 <= timerStepIndex s -> DeckJs.tick steps s = Ok s' ->
  exists x, DeckJs.renderTimer steps x = Ok s' /\ 0 <= timerStepIndex x.
Proof.
  intros H0. unfold DeckJs.tick. timer_simpl.
  destruct (timerSeconds s - 1 <=? 0).
  - destruct (timerStepIndex s + 1 <? Js.len steps).
    + destruct (Js.index steps (timerStepIndex s + 1)) as [st|];
        cbn [mbind result_bind]; [|discriminate].
      intros E. eexists. split; [exact E|]. timer_simpl. lia.
    + cbn [mbind result_bind]. intros E. eexists. split; [exact E|].
      timer_norm. lia.
  - cbn [mbind result_bind]. intros E. eexists. split; [exact E|].
    timer_simpl. exact H0.
Qed.

(** The display never lags: every event that returns leaves the display
    elements in step with the variables. *)
Lemma timer_step_synced (steps : list ActivityStep) (e : TimerEvent) (s s' : Timer) :
  0 <= timerStepIndex s -> display_synced steps s ->
  DeckJs.timer_step steps e s = Ok s' -> display_synced steps s'.
Proof.
  intros H0 Hs. destruct e as [| |h]; cbn [DeckJs.timer_step].
  - destruct (timer_btn s) as [b|] eqn:Hb; [|intros E; injection E as <-; exact Hs].
    destruct (btn_disabled b); [intros E; injection E as <-; exact Hs|].
    destruct (timerRunning s); intros E; injection E as <-.
    + unfold display_synced, DeckJs.pauseTimer. timer_norm. exact Hs.
    + unfold display_synced, DeckJs.startTimer, setInterval. timer_norm. exact Hs.
  - destruct (timer_btn s); [|intros E; injection E as <-; exact Hs].
    destruct (timer_reset s); [|intros E; injection E as <-; exact Hs].
    unfold DeckJs.resetTimer.
    destruct (Js.index steps 0) as [st|]; [|discriminate].
    apply render_synced. timer_norm. lia.
  - destruct (bool_decide (h ∈ intervals s)); [|intros E; injection E as <-; exact Hs].
    intros E. destruct (tick_is_render steps s s' H0 E) as (x & Ex & Hx).
    exact (render_synced steps x s' Hx Ex).
Qed.

Lemma sum_durations_drop (steps : list ActivityStep) (i : nat) (st : ActivityStep) :
  steps !! i = Some st ->
  sum_durations (drop i steps) = duration st + sum_durations (drop (S i) steps).
Proof.
  intros H. rewrite (drop_S steps st i H). reflexivity.
Qed.

Lemma index_elem (steps : list ActivityStep) (i : Z) (st : ActivityStep) :
  Js.index steps i = Some st -> st ∈ steps /\ 0 <= i < Js.len steps.
Proof.
  unfold Js.index, Js.len. destruct (Z.ltb_spec i 0) as [?|Hi]; [discriminate|].
  intros Hl. split; [eapply list_elem_of_lookup_2; exact Hl|].
  apply lookup_lt_Some in Hl. lia.
Qed.

Lemma sum_durations_drop_nonneg (steps : list ActivityStep) (n : nat) :
  durations_positive steps -> 0 <= sum_durations (drop n steps).
Proof.
  intros Hpos.
  assert (Hsub : forall x, x ∈ drop n steps -> 0 < duration x).
  { intros x Hx. apply Hpos. exact (subseteq_drop n steps x Hx). }
  induction (drop n steps) as [|x l IH]; cbn; [lia|].
  assert (0 < duration x) by (apply Hsub, elem_of_cons; auto).
  assert (0 <= sum_durations l).
  { apply IH. intros y Hy. apply Hsub, elem_of_cons. auto. }
  unfold sum_durations in *. lia.
Qed.

(** A tick of the live interval, on a state that fits a table of positive
    durations: it takes exactly one second off the total that is left;
    the timer runs on with the same interval while something is left, and
    is [Complete] when nothing is. *)
Lemma tick_total (steps : list ActivityStep) (s : Timer) :
  durations_positive steps -> timer_inv s -> timer_wf steps s ->
  timerRunning s = true ->
  exists s', DeckJs.tick steps s = Ok s'
    /\ timer_inv s' /\ timer_wf steps s'
    /\ remaining_total steps s' = remaining_total steps s - 1
    /\ (0 < remaining_total steps s' ->
        timerRunning s' = true /\ intervals s' = intervals s)
    /\ (remaining_total steps s' <= 0 -> phase steps s' = Complete).
Proof.
  intros Hpos I W Hr. pose proof (clearInterval_inv s I) as Hc.
  pose proof I as ([b Hb] & I2 & I3 & I4).
  destruct (tick_inv steps s I) as (s' & E & I' & _).
  exists s'. split; [exact E|]. split; [exact I'|].
  destruct W as [(st & Hst & Hsec)|(_ & _ & Hnr & _)]; [|congruence].
  destruct (index_elem _ _ _ Hst) as [Hin Hrange].
  unfold remaining_total, timer_wf, phase, start_disabled.
  destruct (Z.ltb_spec 0 (timerSeconds s - 1)) as [Hs|Hs].
  - destruct (tick_count_down steps s I2 Hs) as (s1 & E1 & F).
    assert (s1 = s') as -> by congruence.
    destruct F as (_ & Fs & Fr & Fx & _ & _ & _ & Fl & _). timer_simpl.
    rewrite Fs, Fx, Fr, Fl. split.
    { left. exists st. split; [exact Hst|lia]. }
    split; [lia|]. split; [auto|].
    intros Hle. pose proof (Hpos st Hin).
    pose proof (sum_durations_drop_nonneg steps
                  (Z.to_nat (timerStepIndex s + 1)) Hpos).
    lia.
  - destruct (Z.ltb_spec (timerStepIndex s + 1) (Js.len steps)) as [Hlt|Hge].
    + destruct (tick_next_step steps s I2 Hs Hlt) as (st1 & s1 & Hst1 & E1 & F).
      assert (s1 = s') as -> by congruence.
      destruct F as (_ & Fs & Fr & Fx & _ & _ & _ & Fl & _). timer_simpl.
      rewrite Fs, Fx, Fr, Fl.
      destruct (index_elem _ _ _ Hst1) as [Hin1 _].
      pose proof (Hpos st1 Hin1) as Hp1.
      assert (Hsum : sum_durations (drop (Z.to_nat (timerStepIndex s + 1)) steps)
                = duration st1
                  + sum_durations (drop (Z.to_nat (timerStepIndex s + 1 + 1)) steps)).
      { replace (Z.to_nat (timerStepIndex s + 1 + 1))
          with (S (Z.to_nat (timerStepIndex s + 1))) by lia.
        apply sum_durations_drop. unfold Js.index in Hst1.
        destruct (Z.ltb_spec (timerStepIndex s + 1) 0); [lia|]. exact Hst1. }
      split.
      { left. exists st1. split; [exact Hst1|lia]. }
      split; [lia|]. split; [auto|].
      intros Hle.
      pose proof (sum_durations_drop_nonneg steps
                    (Z.to_nat (timerStepIndex s + 1 + 1)) Hpos).
      lia.
    + destruct (tick_finish steps s I2 Hs Hge) as (s1 & E1 & F).
      assert (s1 = s') as -> by congruence.
      destruct F as (_ & Fs & Fr & Fx & Fb & _ & _ & Fl & _). timer_norm.
      rewrite Fs, Fx, Fr, Fb, Hb.
      cbn [fmap option_fmap option_map].
      rewrite !drop_ge by (unfold Js.len in *; lia). cbn [sum_durations foldr].
      split.
      { right. split; [lia|]. split; [reflexivity|]. split; [reflexivity|].
        eexists. split; reflexivity. }
      split; [lia|]. split; [lia|]. intros _.
      destruct (Z.geb_spec (timerStepIndex s + 1) (Js.len steps)); [reflexivity|lia].
Qed.

(** Every event keeps the variables fitting the table. *)
Lemma timer_step_wf (steps : list ActivityStep) (st : ActivityStep)
    (e : TimerEvent) (s s' : Timer) :
  durations_positive steps -> Js.index steps 0 = Some st ->
  timer_inv s -> timer_wf steps s ->
  DeckJs.timer_step steps e s = Ok s' -> timer_wf steps s'.
Proof.
  intros Hpos Hst I W. pose proof I as ([b Hb] & I2 & I3 & I4).
  destruct e as [| |h]; cbn [DeckJs.timer_step]; rewrite ?Hb.
  - destruct (btn_disabled b) eqn:Hdis; [intros E; injection E as <-; exact W|].
    assert (Wl : exists st0, Js.index steps (timerStepIndex s) = Some st0
                      /\ 1 <= timerSeconds s <= duration st0).
    { destruct W as [Wl|(_ & _ & _ & (b' & Hb' & Hd'))]; [exact Wl|congruence]. }
    destruct (timerRunning s) eqn:Hr; intros E; injection E as <-.
    + destruct (pauseTimer_inv s I) as (_ & _ & _ & Hs & Hx & _).
      left. rewrite Hs, Hx. exact Wl.
    + destruct (startTimer_inv s I Hr) as (_ & _ & _ & Hs & Hx & _).
      left. rewrite Hs, Hx. exact Wl.
  - destruct (timer_reset s); [|intros E; injection E as <-; exact W].
    destruct (resetTimer_spec steps st s Hst I) as (s1 & E1 & _ & Hx & Hs & _).
    intros E. assert (s1 = s') as -> by congruence.
    left. exists st. rewrite Hx, Hs. split; [exact Hst|].
    destruct (index_elem _ _ _ Hst) as [Hin _]. pose proof (Hpos st Hin). lia.
  - destruct (bool_decide (h ∈ intervals s)) eqn:Hh;
      [|intros E; injection E as <-; exact W].
    apply bool_decide_eq_true_1 in Hh.
    assert (Hr : timerRunning s = true).
    { destruct (timerRunning s); [reflexivity|]. rewrite I4 in Hh. inversion Hh. }
    destruct (tick_total steps s Hpos I W Hr) as (s1 & E1 & _ & W1 & _).
    intros E. assert (s1 = s') as -> by congruence. exact W1.
Qed.

(** [setupTimer] on a fresh page with a first step: the timer is idle at
    the first step's full duration, and nothing else has changed. *)
Lemma setupTimer_fresh (steps : list ActivityStep) (st : ActivityStep) (s : Timer) :
  Js.index steps 0 = Some st -> timer_fresh s ->
  exists s', DeckJs.setupTimer steps s = Ok s'
    /\ timer_inv s'
    /\ display_synced steps s'
    /\ timerStepIndex s' = 0
    /\ timerSeconds s' = duration st
    /\ timerRunning s' = false
    /\ timer_btn s' = timer_btn s
    /\ next_handle s' = next_handle s.
Proof.
  intros Hst (Hb & Hr & Hl).
  destruct (setupTimer_inv steps st s Hst Hb Hr Hl) as (s' & E & I & Hx & Hs & Hr').
  exists s'. split; [exact E|]. split; [exact I|].
  destruct Hb as [b Hb]. revert E. unfold DeckJs.setupTimer. rewrite Hb, Hst.
  intros E. split.
  { eapply render_synced; [|exact E]. timer_simpl. lia. }
  split; [exact Hx|]. split; [exact Hs|]. split; [exact Hr'|].
  match type of E with
  | DeckJs.renderTimer steps ?x = _ =>
      destruct (renderTimer_ok steps x) as (s1 & E1 & F)
  end.
  { timer_simpl. lia. }
  assert (s1 = s') as -> by congruence.
  destruct F as (_ & _ & _ & _ & Fb & _ & Fn & _). timer_simpl.
  rewrite Fb, Fn, Hb. auto.
Qed.

(** The states reached from a fresh page by [setupTimer] and any events:
    no event throws, and the three invariants hold. *)
Lemma timer_reachable (steps : list ActivityStep) (st : ActivityStep)
    (s0 : Timer) (es : list TimerEvent) :
  Js.index steps 0 = Some st -> timer_fresh s0 ->
  exists s1 s, DeckJs.setupTimer steps s0 = Ok s1
    /\ DeckJs.timer_run steps es s1 = Ok s
    /\ timer_inv s
    /\ display_synced steps s
    /\ (durations_positive steps -> timer_wf steps s).
Proof.
  intros Hst Hf.
  destruct (setupTimer_fresh steps st s0 Hst Hf)
    as (s1 & E & I1 & D1 & Hx & Hs & _).
  exists s1.
  assert (W1 : durations_positive steps -> timer_wf steps s1).
  { intros Hpos. left. exists st. rewrite Hx, Hs. split; [exact Hst|].
    destruct (index_elem _ _ _ Hst) as [Hin _]. pose proof (Hpos st Hin). lia. }
  enough (Hrun : exists s, DeckJs.timer_run steps es s1 = Ok s
            /\ timer_inv s /\ display_synced steps s
            /\ (durations_positive steps -> timer_wf steps s)).
  { destruct Hrun as (s & Hrun). exists s. split; [exact E|exact Hrun]. }
  clear Hx Hs Hf E s0. revert s1 I1 D1 W1.
  induction es as [|e es IH]; intros s1 I1 D1 W1.
  - exists s1. cbn. auto.
  - destruct (timer_step_inv steps st e s1 Hst I1) as (s2 & E2 & I2 & _).
    destruct (IH s2 I2) as (s & Es & H).
    { destruct I1 as (_ & H0 & _).
      exact (timer_step_synced steps e s1 s2 H0 D1 E2). }
    { intros Hpos. exact (timer_step_wf steps st e s1 s2 Hpos Hst I1 (W1 Hpos) E2). }
    exists s. cbn [DeckJs.timer_run]. rewrite E2. cbn [mbind result_bind].
    split; [exact Es|]. exact H.
Qed.

Lemma timer_revision_deck setupTimer timer_step timer_run :
  timer_revision setupTimer timer_step timer_run ->
  setupTimer = DeckJs.setupTimer /\ timer_step = DeckJs.timer_step
  /\ timer_run = DeckJs.timer_run.
Proof.
  intros [H|(-> & -> & ->)]; [exact H|].
  rewrite setupTimer_agree, timer_step_agree, timer_run_agree. auto.
Qed.

Lemma wf_running_total (steps : list ActivityStep) (s : Timer) :
  durations_positive steps -> timer_wf steps s -> timerRunning s = true ->
  1 <= remaining_total steps s.
Proof.
  intros Hpos [(st & Hst & Hsec)|(_ & _ & Hr & _)] Hrun; [|congruence].
  unfold remaining_total.
  pose proof (sum_durations_drop_nonneg steps
                (Z.to_nat (timerStepIndex s + 1)) Hpos). lia.
Qed.

Lemma wf_over (steps : list ActivityStep) (s : Timer) :
  durations_positive steps -> timer_wf steps s ->
  remaining_total steps s <= 0 ->
  timerSeconds s = 0 /\ start_disabled s /\ timerStepIndex s = Js.len steps.
Proof.
  intros Hpos [(st & Hst & Hsec)|(Hx & Hs & _ & Hd)] Hle; [|auto].
  unfold remaining_total in Hle.
  pose proof (sum_durations_drop_nonneg steps
                (Z.to_nat (timerStepIndex s + 1)) Hpos). lia.
Qed.

(** [k] ticks of the live interval [h]: while [k] is less than the
    seconds left the timer runs on with that many seconds fewer; the tick
    that uses up the last second completes the sequence. *)
Lemma ticks_total (steps : list ActivityStep) (h : nat) (k : nat) (s : Timer) :
  durations_positive steps -> timer_inv s -> timer_wf steps s ->
  timerRunning s = true -> intervals s = [h] ->
  (Z.of_nat k < remaining_total steps s ->
     exists s', DeckJs.timer_run steps (replicate k (Tick h)) s = Ok s'
       /\ timerRunning s' = true
       /\ intervals s' = [h]
       /\ remaining_total steps s' = remaining_total steps s - Z.of_nat k)
  /\ (Z.of_nat k = remaining_total steps s ->
      exists s', DeckJs.timer_run steps (replicate k (Tick h)) s = Ok s'
        /\ phase steps s' = Complete
        /\ timerSeconds s' = 0
        /\ start_disabled s'
        /\ intervals s' = []).
Proof.
  intros Hpos. revert s. induction k as [|k IH]; intros s I W Hr Hl.
  - pose proof (wf_running_total steps s Hpos W Hr). split.
    + intros _. exists s. cbn. rewrite Z.sub_0_r. auto.
    + intros Hk. cbn in Hk. lia.
  - cbn [replicate DeckJs.timer_run DeckJs.timer_step]. rewrite Hl.
    rewrite bool_decide_eq_true_2 by (apply elem_of_cons; auto).
    destruct (tick_total steps s Hpos I W Hr)
      as (s1 & E1 & I1 & W1 & Ht & Hrun & Hdone).
    rewrite E1. cbn [mbind result_bind].
    destruct (Z.ltb_spec 0 (remaining_total steps s1)) as [Hpos1|Hz].
    + destruct (Hrun Hpos1) as [Hr1 Hl1]. rewrite Hl in Hl1.
      destruct (IH s1 I1 W1 Hr1 Hl1) as [IHa IHb]. split.
      * intros Hk. destruct IHa as (s' & E & H1 & H2 & H3); [lia|].
        exists s'. split; [exact E|]. split; [exact H1|]. split; [exact H2|]. lia.
      * intros Hk. apply IHb. lia.
    + pose proof (wf_running_total steps s Hpos W Hr).
      destruct (wf_over steps s1 Hpos W1 Hz) as (Hs1 & Hd1 & _).
      assert (Hl1 : intervals s1 = []).
      { destruct I1 as (_ & _ & _ & I4).
        destruct W1 as [(st & _ & Hsec)|(_ & _ & Hnr & _)]; [lia|].
        rewrite Hnr in I4. exact I4. }
      split; [intros Hk; lia|].
      intros Hk. assert (k = 0%nat) as -> by lia.
      exists s1. cbn. auto using Hdone.
Qed.

(** X1.  In either revision, on a table whose durations are all positive:
    a timer that is set up on a fresh page and started runs for exactly
    the sum of the durations.  After [k] ticks with [k] below that sum it
    is still [Running], with the sum less [k] seconds to go; the tick that
    makes [k] equal to the sum leaves it [Complete], at 0 seconds, with
    the start control disabled and no interval live. *)
Theorem X1_timer_runs_for_the_sum_of_durations :
  forall setupTimer timer_step timer_run,
    timer_revision setupTimer timer_step timer_run ->
    forall steps st s0,
      durations_positive steps -> Js.index steps 0 = Some st ->
      timer_fresh s0 -> start_enabled s0 ->
      exists s1, setupTimer steps s0 = Ok s1
        /\ forall k : nat,
             (Z.of_nat k < sum_durations steps ->
                exists s,
                  timer_run steps (ClickBtn :: replicate k (Tick (next_handle s0))) s1
                  = Ok s
                  /\ phase steps s = Running
                  /\ remaining_total steps s = sum_durations steps - Z.of_nat k)
             /\ (Z.of_nat k = sum_durations steps ->
                 exists s,
                   timer_run steps (ClickBtn :: replicate k (Tick (next_handle s0))) s1
                   = Ok s
                   /\ phase steps s = Complete
                   /\ timerSeconds s = 0
                   /\ start_disabled s
                   /\ intervals s = []).
Proof.
  intros setupTimer timer_step timer_run Hrev.
  destruct (timer_revision_deck _ _ _ Hrev) as (-> & -> & ->).
  intros steps st s0 Hpos Hst Hf (b & Hb & Hen).
  destruct (setupTimer_fresh steps st s0 Hst Hf)
    as (s1 & E & I1 & _ & Hx & Hs & Hr & Hb1 & Hn1).
  exists s1. split; [exact E|]. intros k.
  cbn [DeckJs.timer_run DeckJs.timer_step]. rewrite Hb1, Hb, Hen, Hr.
  cbn [mbind result_bind].
  destruct (startTimer_inv s1 I1 Hr) as (I2 & _ & Hl2 & Hs2 & Hx2 & Hr2).
  rewrite Hn1 in Hl2.
  destruct (index_elem _ _ _ Hst) as [Hin _]. pose proof (Hpos st Hin) as Hd.
  assert (W2 : timer_wf steps (DeckJs.startTimer s1)).
  { left. exists st. rewrite Hx2, Hs2, Hx, Hs. split; [exact Hst|lia]. }
  assert (Ht : remaining_total steps (DeckJs.startTimer s1) = sum_durations steps).
  { unfold remaining_total. rewrite Hx2, Hs2, Hx, Hs.
    change (Z.to_nat (0 + 1)) with 1%nat.
    unfold Js.index in Hst. cbn in Hst.
    rewrite <- (sum_durations_drop steps 0 st Hst). reflexivity. }
  destruct (ticks_total steps (next_handle s0) k _ Hpos I2 W2 Hr2 Hl2) as [Ha Hb'].
  rewrite Ht in Ha, Hb'. split.
  - intros Hk. destruct (Ha Hk) as (s & Es & Hrun & _ & Hrem).
    exists s. split; [exact Es|]. unfold phase. rewrite Hrun. auto.
  - intros Hk. destruct (Hb' Hk) as (s & Es & H). eauto.
Qed.


Lemma two_steps_positive : durations_positive two_steps.
Proof.
  intros st H. unfold two_steps in H.
  repeat (apply elem_of_cons in H as [->|H]; [simpl; lia|]).
  apply elem_of_nil in H. destruct H.
Qed.

Lemma timer_page_fresh : timer_fresh timer_page.
Proof. split; [eexists; reflexivity|]. split; reflexivity. Qed.

Lemma X1_witness :
  exists s1, DeckJs.setupTimer two_steps timer_page = Ok s1
    /\ exists s,
         DeckJs.timer_run two_steps (ClickBtn :: replicate 15 (Tick 0%nat)) s1 = Ok s
         /\ phase two_steps s = Complete
         /\ timerSeconds s = 0
         /\ start_disabled s
         /\ intervals s = [].
Proof.
  destruct (X1_timer_runs_for_the_sum_of_durations
              DeckJs.setupTimer DeckJs.timer_step DeckJs.timer_run
              (or_introl (conj eq_refl (conj eq_refl eq_refl)))
              two_steps {| label := "first"; duration := 10 |} timer_page
              two_steps_positive eq_refl timer_page_fresh
              (ex_intro _ _ (conj eq_refl eq_refl)))
    as (s1 & E & H).
  exists s1. split; [exact E|].
  destruct (H 15%nat) as [_ Hd]. apply Hd. reflexivity.
Defined.

(** X2.  In either revision, on a table whose durations are all positive:
    whatever is clicked and whichever interval callbacks run after
    [setupTimer] on a fresh page, no call throws, and the script variables
    fit the table.  The step index stays between 0 and the length of the
    table; while it names a step, the seconds left are between 1 and that
    step's duration; once it has left the table, no second is left, the
    timer does not run and the start control is disabled. *)
Theorem X2_timer_variables_fit_the_table :
  forall setupTimer timer_step timer_run,
    timer_revision setupTimer timer_step timer_run ->
    forall steps st s0 es,
      durations_positive steps -> Js.index steps 0 = Some st ->
      timer_fresh s0 ->
      exists s1 s, setupTimer steps s0 = Ok s1
        /\ timer_run steps es s1 = Ok s
        /\ 0 <= timerStepIndex s <= Js.len steps
        /\ (timerStepIndex s < Js.len steps ->
            exists cur, Js.index steps (timerStepIndex s) = Some cur
                        /\ 1 <= timerSeconds s <= duration cur)
        /\ (timerStepIndex s = Js.len steps ->
            timerSeconds s = 0 /\ timerRunning s = false /\ start_disabled s).
Proof.
  intros setupTimer timer_step timer_run Hrev.
  destruct (timer_revision_deck _ _ _ Hrev) as (-> & -> & ->).
  intros steps st s0 es Hpos Hst Hf.
  destruct (timer_reachable steps st s0 es Hst Hf)
    as (s1 & s & E1 & E & I & _ & W).
  specialize (W Hpos).
  exists s1, s. split; [exact E1|]. split; [exact E|].
  destruct W as [(cur & Hcur & Hsec)|(Hx & Hs & Hr & Hd)].
  - destruct (index_elem _ _ _ Hcur) as [_ Hb].
    split; [lia|]. split; [intros _; eauto|]. intros Hx. lia.
  - pose proof (index_elem _ _ _ Hst) as [_ Hb].
    split; [lia|]. split; [intros Hx'; lia|]. auto.
Qed.

Lemma X2_witness :
  exists s1 s, DeckJs.setupTimer two_steps timer_page = Ok s1
    /\ DeckJs.timer_run two_steps
         [ClickBtn; Tick 0%nat; ClickBtn; ClickBtn; Tick 0%nat; Tick 1%nat] s1 = Ok s
    /\ 0 <= timerStepIndex s <= Js.len two_steps
    /\ (timerStepIndex s < Js.len two_steps ->
        exists cur, Js.index two_steps (timerStepIndex s) = Some cur
                    /\ 1 <= timerSeconds s <= duration cur)
    /\ (timerStepIndex s = Js.len two_steps ->
        timerSeconds s = 0 /\ timerRunning s = false /\ start_disabled s).
Proof.
  exact (X2_timer_variables_fit_the_table
           DeckJs.setupTimer DeckJs.timer_step DeckJs.timer_run
           (or_introl (conj eq_refl (conj eq_refl eq_refl)))
           two_steps {| label := "first"; duration := 10 |} timer_page
           [ClickBtn; Tick 0%nat; ClickBtn; ClickBtn; Tick 0%nat; Tick 1%nat]
           two_steps_positive eq_refl timer_page_fresh).
Defined.

(** X3.  In either revision, for any non-empty table: whatever is
    clicked and whichever interval callbacks run after [setupTimer] on a
    fresh page, no call throws and the display never lags behind the
    script variables.  If [#timer-display] exists it shows [timerSeconds]
    as [mm:ss] with the class of its band, and then [#timer-step-name],
    if it exists, shows the step that [timerStepIndex] names, or
    "Activity complete." once the index has left the table. *)
Theorem X3_timer_display_shows_the_variables :
  forall setupTimer timer_step timer_run,
    timer_revision setupTimer timer_step timer_run ->
    forall steps st s0 es,
      Js.index steps 0 = Some st -> timer_fresh s0 ->
      exists s1 s, setupTimer steps s0 = Ok s1
        /\ timer_run steps es s1 = Ok s
        /\ forall d, timer_display s = Some d ->
             d = shown_time (timerSeconds s)
             /\ forall nm, timer_step_name s = Some nm ->
                  nm = shown_step steps (timerStepIndex s).
Proof.
  intros setupTimer timer_step timer_run Hrev.
  destruct (timer_revision_deck _ _ _ Hrev) as (-> & -> & ->).
  intros steps st s0 es Hst Hf.
  destruct (timer_reachable steps st s0 es Hst Hf)
    as (s1 & s & E1 & E & _ & D & _).
  exists s1, s. split; [exact E1|]. split; [exact E|]. exact D.
Qed.

Lemma X3_witness :
  exists s1 s, Part001.setupTimer two_steps timer_page = Ok s1
    /\ Part001.timer_run two_steps [ClickBtn; Tick 0%nat; ClickReset] s1 = Ok s
    /\ forall d, timer_display s = Some d ->
         d = shown_time (timerSeconds s)
         /\ forall nm, timer_step_name s = Some nm ->
              nm = shown_step two_steps (timerStepIndex s).
Proof.
  exact (X3_timer_display_shows_the_variables
           Part001.setupTimer Part001.timer_step Part001.timer_run
           (or_intror (conj eq_refl (conj eq_refl eq_refl)))
           two_steps {| label := "first"; duration := 10 |} timer_page
           [ClickBtn; Tick 0%nat; ClickReset]
           eq_refl timer_page_fresh).
Defined.

(** X4.  In either revision, for any non-empty table: however often the
    controls are clicked after [setupTimer] on a fresh page, at most one
    interval is live.  While [timerRunning] holds it is the one whose
    handle [timerInterval] holds; while it does not hold, none is live,
    so no callback of an earlier start can run. *)
Theorem X4_timer_keeps_at_most_one_interval :
  forall setupTimer timer_step timer_run,
    timer_revision setupTimer timer_step timer_run ->
    forall steps st s0 es,
      Js.index steps 0 = Some st -> timer_fresh s0 ->
      exists s1 s, setupTimer steps s0 = Ok s1
        /\ timer_run steps es s1 = Ok s
        /\ (length (intervals s) <= 1)%nat
        /\ (timerRunning s = true ->
            exists h, timerInterval s = Some h /\ intervals s = [h])
        /\ (timerRunning s = false ->
            intervals s = []
            /\ forall h, timer_step steps (Tick h) s = Ok s).
Proof.
  intros setupTimer timer_step timer_run Hrev.
  destruct (timer_revision_deck _ _ _ Hrev) as (-> & -> & ->).
  intros steps st s0 es Hst Hf.
  destruct (timer_reachable steps st s0 es Hst Hf)
    as (s1 & s & E1 & E & (_ & _ & _ & I) & _ & _).
  exists s1, s. split; [exact E1|]. split; [exact E|].
  destruct (timerRunning s).
  - destruct I as (h & Hh & Hl). split; [rewrite Hl; simpl; lia|].
    split; [eauto|discriminate].
  - split; [rewrite I; simpl; lia|]. split; [discriminate|].
    intros _. split; [exact I|]. intros h.
    cbn [DeckJs.timer_step]. rewrite I.
    rewrite bool_decide_eq_false_2; [reflexivity|apply not_elem_of_nil].
Qed.

Lemma X4_witness :
  exists s1 s, DeckJs.setupTimer two_steps timer_page = Ok s1
    /\ DeckJs.timer_run two_steps [ClickBtn; ClickBtn; ClickBtn; ClickReset; ClickBtn] s1
       = Ok s
    /\ (length (intervals s) <= 1)%nat
    /\ (timerRunning s = true ->
        exists h, timerInterval s = Some h /\ intervals s = [h])
    /\ (timerRunning s = false ->
        intervals s = []
        /\ forall h, DeckJs.timer_step two_steps (Tick h) s = Ok s).
Proof.
  exact (X4_timer_keeps_at_most_one_interval
           DeckJs.setupTimer DeckJs.timer_step DeckJs.timer_run
           (or_introl (conj eq_refl (conj eq_refl eq_refl)))
           two_steps {| label := "first"; duration := 10 |} timer_page
           [ClickBtn; ClickBtn; ClickBtn; ClickReset; ClickBtn]
           eq_refl timer_page_fresh).
Defined.

(** X5.  In either revision: pausing a running timer and resuming it
    loses no time.  The first click on the enabled start control stops
    the interval and offers "Resume"; the second starts a new interval
    under a handle that was never used before and offers "Pause".  The
    seconds left, the step index and what the two display elements show
    are the same before, between and after the two clicks. *)
Theorem X5_pause_and_resume_keep_the_time :
  forall timer_step,
    timer_step = DeckJs.timer_step \/ timer_step = Part001.timer_step ->
    forall steps s,
      timer_inv s -> timerRunning s = true -> start_enabled s ->
      exists s' s'',
        timer_step steps ClickBtn s = Ok s'
        /\ timer_step steps ClickBtn s' = Ok s''
        /\ (timerRunning s' = false /\ intervals s' = []
            /\ exists b, timer_btn s' = Some b /\ btn_text b = "Resume"
                         /\ btn_disabled b = false)
        /\ (timerRunning s'' = true /\ intervals s'' = [next_handle s]
            /\ (next_handle s ∉ intervals s)
            /\ exists b, timer_btn s'' = Some b /\ btn_text b = "Pause"
                         /\ btn_disabled b = false)
        /\ (timerSeconds s' = timerSeconds s
            /\ timerStepIndex s' = timerStepIndex s
            /\ timer_display s' = timer_display s
            /\ timer_step_name s' = timer_step_name s)
        /\ (timerSeconds s'' = timerSeconds s
            /\ timerStepIndex s'' = timerStepIndex s
            /\ timer_display s'' = timer_display s
            /\ timer_step_name s'' = timer_step_name s).
Proof.
  intros timer_step Hrev.
  assert (timer_step = DeckJs.timer_step) as ->.
  { destruct Hrev as [->| ->]; [reflexivity|]. apply timer_step_agree. }
  intros steps s I Hr (b & Hb & Hen).
  pose proof (clearInterval_inv s I) as Hc.
  destruct (pauseTimer_inv s I) as (I' & Hn' & Hl' & Hs' & Hx' & Hr').
  destruct (startTimer_inv _ I' Hr') as (_ & _ & Hl'' & Hs'' & Hx'' & Hr'').
  assert (Hb' : timer_btn (DeckJs.pauseTimer s)
                = Some {| btn_text := "Resume";
                          btn_class := "timer-btn timer-btn--start";
                          btn_disabled := btn_disabled b |}).
  { unfold DeckJs.pauseTimer. timer_norm. rewrite Hb. reflexivity. }
  exists (DeckJs.pauseTimer s), (DeckJs.startTimer (DeckJs.pauseTimer s)).
  split; [cbn [DeckJs.timer_step]; rewrite Hb, Hen, Hr; reflexivity|].
  split; [cbn [DeckJs.timer_step]; rewrite Hb'; cbn [btn_disabled];
          rewrite Hen, Hr'; reflexivity|].
  split.
  { split; [exact Hr'|]. split; [exact Hl'|].
    eexists. split; [exact Hb'|]. split; [reflexivity|exact Hen]. }
  split.
  { split; [exact Hr''|]. split; [rewrite Hl'', Hn'; reflexivity|].
    split.
    - destruct I as (_ & _ & I3 & _). intros Hin. specialize (I3 _ Hin). lia.
    - unfold DeckJs.startTimer, setInterval. timer_norm. rewrite Hb'.
      cbn [fmap option_fmap option_map].
      eexists. split; [reflexivity|]. split; [reflexivity|exact Hen]. }
  split.
  { split; [exact Hs'|]. split; [exact Hx'|].
    unfold DeckJs.pauseTimer. timer_norm. auto. }
  split; [congruence|]. split; [congruence|].
  unfold DeckJs.startTimer, setInterval, DeckJs.pauseTimer. timer_norm. auto.
Qed.

Lemma X5_witness :
  exists s' s'',
    DeckJs.timer_step two_steps ClickBtn running_page = Ok s'
    /\ DeckJs.timer_step two_steps ClickBtn s' = Ok s''
    /\ (timerRunning s' = false /\ intervals s' = []
        /\ exists b, timer_btn s' = Some b /\ btn_text b = "Resume"
                     /\ btn_disabled b = false)
    /\ (timerRunning s'' = true /\ intervals s'' = [next_handle running_page]
        /\ (next_handle running_page ∉ intervals running_page)
        /\ exists b, timer_btn s'' = Some b /\ btn_text b = "Pause"
                     /\ btn_disabled b = false)
    /\ (timerSeconds s' = timerSeconds running_page
        /\ timerStepIndex s' = timerStepIndex running_page
        /\ timer_display s' = timer_display running_page
        /\ timer_step_name s' = timer_step_name running_page)
    /\ (timerSeconds s'' = timerSeconds running_page
        /\ timerStepIndex s'' = timerStepIndex running_page
        /\ timer_display s'' = timer_display running_page
        /\ timer_step_name s'' = timer_step_name running_page).
Proof.
  exact (X5_pause_and_resume_keep_the_time DeckJs.timer_step (or_introl eq_refl)
           two_steps running_page running_page_inv eq_refl
           (ex_intro _ _ (conj eq_refl eq_refl))).
Defined.

(** ** The navigator beyond its claims *)

Lemma index_lookup {A : Type} (l : list A) (i : Z) (x : A) :
  Js.index l i = Some x -> 0 <= i /\ l !! Z.to_nat i = Some x.
Proof.
  unfold Js.index. destruct (Z.ltb_spec i 0); [discriminate|]. auto.
Qed.

Lemma slide_notes_lookup (c c' : NavCore) (n : nat) :
  slide_notes c' = slide_notes c ->
  speaker_note <$> (slides c' !! n) = speaker_note <$> (slides c !! n).
Proof.
  unfold slide_notes. intros H. rewrite <- !list_lookup_fmap, H. reflexivity.
Qed.

Lemma slide_notes_len (c c' : NavCore) :
  slide_notes c' = slide_notes c -> Js.len (slides c') = Js.len (slides c).
Proof.
  unfold slide_notes, Js.len. intros H.
  rewrite <- (length_fmap speaker_note (slides c')), H, length_fmap. reflexivity.
Qed.

Lemma note_of_ext (c c' : NavCore) (i : Z) :
  slide_notes c' = slide_notes c -> note_of c' i = note_of c i.
Proof.
  intros H. unfold note_of, Js.index. destruct (i <? 0); [reflexivity|].
  pose proof (slide_notes_lookup c c' (Z.to_nat i) H) as Hl.
  destruct (slides c' !! Z.to_nat i), (slides c !! Z.to_nat i);
    cbn in Hl; congruence.
Qed.

Lemma swap_slides (i : Z) (c : NavCore) :
  nav_valid c -> 0 <= i < Js.len (slides c) ->
  exists c3,
    (c1 ← classList_active false (currentIndex c) c;
     classList_active true (currentIndex (with_currentIndex i c1))
       (with_currentIndex i c1)) = Ok c3
    /\ currentIndex c3 = i
    /\ notes_content c3 = notes_content c
    /\ slide_notes c3 = slide_notes c
    /\ (forall j sl sl', slides c !! j = Some sl -> slides c3 !! j = Some sl' ->
          slide_active sl'
          = if bool_decide (Z.of_nat j = i) then true
            else if bool_decide (Z.of_nat j = currentIndex c) then false
            else slide_active sl).
Proof.
  intros Hv Hi. unfold classList_active.
  destruct (index_Some (slides c) (currentIndex c) Hv) as [slc Hc]. rewrite Hc.
  cbn [mbind result_bind currentIndex with_currentIndex slides with_slides].
  set (l1 := <[Z.to_nat (currentIndex c) := _]> (slides c)).
  assert (Hlen1 : length l1 = length (slides c)) by (unfold l1; apply length_insert).
  destruct (index_Some l1 i) as [sli Hsli].
  { unfold Js.len. rewrite Hlen1. exact Hi. }
  rewrite Hsli. eexists. split; [reflexivity|].
  cbn [currentIndex with_currentIndex slides with_slides notes_content].
  split; [reflexivity|]. split; [reflexivity|].
  apply index_lookup in Hc as [_ Hc]. apply index_lookup in Hsli as [_ Hsli].
  unfold nav_valid, Js.len in *. split.
  - unfold slide_notes. cbn [slides with_slides with_currentIndex].
    rewrite list_fmap_insert. cbn [speaker_note].
    rewrite list_insert_id by (rewrite list_lookup_fmap, Hsli; reflexivity).
    unfold l1. rewrite list_fmap_insert. cbn [speaker_note].
    apply list_insert_id. rewrite list_lookup_fmap, Hc. reflexivity.
  - intros j sl sl' Hj Hj'.
    destruct (decide (Z.of_nat j = i)) as [Hji|Hji].
    + rewrite bool_decide_eq_true_2 by assumption.
      assert (j = Z.to_nat i) as -> by lia.
      rewrite list_lookup_insert_eq in Hj'
        by (unfold l1; rewrite ?length_insert; lia).
      injection Hj' as <-. reflexivity.
    + rewrite bool_decide_eq_false_2 by assumption.
      rewrite list_lookup_insert_ne in Hj' by lia. unfold l1 in Hj'.
      destruct (decide (Z.of_nat j = currentIndex c)) as [Hjc|Hjc].
      * rewrite bool_decide_eq_true_2 by assumption.
        assert (j = Z.to_nat (currentIndex c)) as -> by lia.
        rewrite list_lookup_insert_eq in Hj'
          by (rewrite ?length_insert; lia).
        injection Hj' as <-. reflexivity.
      * rewrite bool_decide_eq_false_2 by assumption.
        rewrite list_lookup_insert_ne in Hj' by lia. congruence.
Qed.

Lemma refresh_notes (c : NavCore) :
  let c' := DeckJs.updateNotes (DeckJs.updateCounter (DeckJs.updateProgress c)) in
  slides c' = slides c
  /\ currentIndex c' = currentIndex c
  /\ notes_content c' = placeholder (notes_content c) (note_of c (currentIndex c)).
Proof.
  set (c2 := DeckJs.updateCounter (DeckJs.updateProgress c)).
  assert (H : notes_content c2 = notes_content c /\ slides c2 = slides c
              /\ currentIndex c2 = currentIndex c).
  { unfold c2, DeckJs.updateCounter, DeckJs.updateProgress.
    destruct (progress_fill c); cbn; auto. }
  destruct H as (Hn & Hs & Hi). cbn zeta.
  unfold DeckJs.updateNotes, note_of. rewrite Hn, Hs, Hi.
  destruct (notes_content c); cbn; [|auto].
  split; [exact Hs|]. split; [exact Hi|].
  destruct (Js.index (slides c) (currentIndex c)) as [[a [n|]]|]; reflexivity.
Qed.

Lemma DeckJs_goToSlide_moved (i : Z) (s : DeckJs.State) :
  nav_valid (DeckJs.core s) -> 0 <= i < Js.len (slides (DeckJs.core s)) ->
  exists s', DeckJs.goToSlide i s = Ok s'
    /\ slide_moved i (DeckJs.core s) (DeckJs.core s').
Proof.
  intros Hv Hi. unfold DeckJs.goToSlide.
  rewrite (proj2 (range_test i _) Hi).
  destruct (swap_slides i (DeckJs.core s) Hv Hi) as (c3 & E & H1 & H2 & H3 & H4).
  cbn [mbind result_bind] in *.
  destruct (classList_active false _ _) as [c1|]; [|discriminate].
  cbn in E |- *. rewrite E. eexists. split; [reflexivity|].
  rewrite DeckJs_updateMusic_core. cbn [DeckJs.core DeckJs.with_core].
  destruct (refresh_notes c3) as (R1 & R2 & R3).
  unfold slide_moved, slide_notes in *. rewrite R1, R2, R3, H1, H2.
  split; [reflexivity|]. split; [exact H3|]. split; [exact H4|].
  f_equal. rewrite <- H1 at 1. rewrite <- H1. apply note_of_ext. exact H3.
Qed.

Lemma Part001_goToSlide_moved (i : Z) (s : Part001.State) :
  nav_valid (Part001.core s) -> 0 <= i < Js.len (slides (Part001.core s)) ->
  exists s', Part001.goToSlide i s = Ok s'
    /\ slide_moved i (Part001.core s) (Part001.core s').
Proof.
  intros Hv Hi.
  set (s1 := {| DeckJs.core := Part001.core s; DeckJs.musicActive := false;
                DeckJs.music_player := None; DeckJs.music_log := [] |}).
  destruct (DeckJs_goToSlide_moved i s1 Hv Hi) as (s1' & E1 & M).
  pose proof (goToSlide_core_agree i s1 s eq_refl) as Ha.
  rewrite E1 in Ha. destruct (Part001.goToSlide i s) as [s'|]; [|discriminate].
  cbn in Ha. injection Ha as Ha. exists s'. split; [reflexivity|].
  rewrite <- Ha. exact M.
Qed.

Lemma moved_valid (i : Z) (c c' : NavCore) :
  0 <= i < Js.len (slides c) -> slide_moved i c c' -> nav_valid c'.
Proof.
  intros Hi (H1 & H2 & _). unfold nav_valid.
  rewrite H1, (slide_notes_len c c' H2). exact Hi.
Qed.

Lemma moved_only_current (i : Z) (c c' : NavCore) :
  others_inactive c -> slide_moved i c c' -> only_current_active c'.
Proof.
  intros Ho (H1 & H2 & H3 & _) j sl' Hj'.
  pose proof (slide_notes_lookup c c' j H2) as Hl. rewrite Hj' in Hl.
  destruct (slides c !! j) as [sl|] eqn:Hj; [|discriminate].
  rewrite (H3 j sl sl' Hj Hj'), H1.
  destruct (decide (Z.of_nat j = i)) as [Hji|Hji].
  - rewrite bool_decide_eq_true_2 by assumption. tauto.
  - rewrite bool_decide_eq_false_2 by assumption.
    destruct (decide (Z.of_nat j = currentIndex c)) as [Hjc|Hjc].
    + rewrite bool_decide_eq_true_2 by assumption.
      split; [discriminate|contradiction].
    + rewrite bool_decide_eq_false_2 by assumption.
      split; [|contradiction]. intros Ha. elim Hjc. exact (Ho j sl Hj Ha).
Qed.

Lemma only_current_others (c : NavCore) :
  only_current_active c -> others_inactive c.
Proof. intros H j sl Hj Ha. apply (H j sl Hj), Ha. Qed.

Lemma moved_notes_synced (i : Z) (c c' : NavCore) :
  slide_moved i c c' -> notes_synced c'.
Proof.
  intros (H1 & H2 & _ & H4) t Ht. rewrite H4 in Ht.
  destruct (notes_content c); [|discriminate]. injection Ht as <-.
  rewrite H1. symmetry. apply note_of_ext, H2.
Qed.

(** Every event is ignored or is a move to the clamped target. *)
Lemma DeckJs_nav_step_moved (e : NavEvent) (s : DeckJs.State) :
  nav_valid (DeckJs.core s) ->
  exists s', DeckJs.nav_step e s = Ok s'
    /\ nav_valid (DeckJs.core s')
    /\ currentIndex (DeckJs.core s') = nav_target e (DeckJs.core s)
    /\ (s' = s \/ slide_moved (nav_target e (DeckJs.core s))
                    (DeckJs.core s) (DeckJs.core s')).
Proof.
  intros Hv. pose proof Hv as Hv'. unfold nav_valid in Hv'.
  assert (Hgo : forall i, 0 <= i < Js.len (slides (DeckJs.core s)) ->
            nav_target e (DeckJs.core s) = i ->
            DeckJs.nav_step e s = DeckJs.goToSlide i s ->
            exists s', DeckJs.nav_step e s = Ok s'
              /\ nav_valid (DeckJs.core s')
              /\ currentIndex (DeckJs.core s') = nav_target e (DeckJs.core s)
              /\ (s' = s \/ slide_moved (nav_target e (DeckJs.core s))
                              (DeckJs.core s) (DeckJs.core s'))).
  { intros i Hi Ht ->.
    destruct (DeckJs_goToSlide_moved i s Hv Hi) as (s' & E & M).
    exists s'. rewrite Ht. split; [exact E|].
    split; [exact (moved_valid i _ _ Hi M)|].
    split; [exact (proj1 M)|]. right. exact M. }
  destruct e as [i| |].
  - destruct (decide (0 <= i < Js.len (slides (DeckJs.core s)))) as [Hi|Hi].
    + apply (Hgo i Hi); [apply nav_target_GoTo_in; assumption | reflexivity].
    + exists s. cbn [DeckJs.nav_step]. rewrite DeckJs_goToSlide_out by assumption.
      rewrite nav_target_GoTo_out by assumption. auto.
  - apply (Hgo (Z.min (Js.len (slides (DeckJs.core s)) - 1)
                  (currentIndex (DeckJs.core s) + 1)));
      [lia | unfold nav_target, clamp; lia | reflexivity].
  - apply (Hgo (Z.max 0 (currentIndex (DeckJs.core s) - 1)));
      [lia | unfold nav_target, clamp; lia | reflexivity].
Qed.

Lemma Part001_nav_step_moved (e : NavEvent) (s : Part001.State) :
  nav_valid (Part001.core s) ->
  exists s', Part001.nav_step e s = Ok s'
    /\ nav_valid (Part001.core s')
    /\ currentIndex (Part001.core s') = nav_target e (Part001.core s)
    /\ (s' = s \/ slide_moved (nav_target e (Part001.core s))
                    (Part001.core s) (Part001.core s')).
Proof.
  intros Hv. pose proof Hv as Hv'. unfold nav_valid in Hv'.
  assert (Hgo : forall i, 0 <= i < Js.len (slides (Part001.core s)) ->
            nav_target e (Part001.core s) = i ->
            Part001.nav_step e s = Part001.goToSlide i s ->
            exists s', Part001.nav_step e s = Ok s'
              /\ nav_valid (Part001.core s')
              /\ currentIndex (Part001.core s') = nav_target e (Part001.core s)
              /\ (s' = s \/ slide_moved (nav_target e (Part001.core s))
                              (Part001.core s) (Part001.core s'))).
  { intros i Hi Ht ->.
    destruct (Part001_goToSlide_moved i s Hv Hi) as (s' & E & M).
    exists s'. rewrite Ht. split; [exact E|].
    split; [exact (moved_valid i _ _ Hi M)|].
    split; [exact (proj1 M)|]. right. exact M. }
  destruct e as [i| |].
  - destruct (decide (0 <= i < Js.len (slides (Part001.core s)))) as [Hi|Hi].
    + apply (Hgo i Hi); [apply nav_target_GoTo_in; assumption | reflexivity].
    + exists s. cbn [Part001.nav_step]. rewrite Part001_goToSlide_out by assumption.
      rewrite nav_target_GoTo_out by assumption. auto.
  - apply (Hgo (Z.min (Js.len (slides (Part001.core s)) - 1)
                  (currentIndex (Part001.core s) + 1)));
      [lia | unfold nav_target, clamp; lia | reflexivity].
  - apply (Hgo (Z.max 0 (currentIndex (Part001.core s) - 1)));
      [lia | unfold nav_target, clamp; lia | reflexivity].
Qed.

(** A property of the core that every move keeps is kept by every
    sequence of events, and no speaker note changes on the way. *)
Lemma DeckJs_nav_run_keeps (P : NavCore -> Prop) :
  (forall i c c', P c -> slide_moved i c c' -> P c') ->
  forall es s, nav_valid (DeckJs.core s) -> P (DeckJs.core s) ->
    exists s', DeckJs.nav_run es s = Ok s'
      /\ nav_valid (DeckJs.core s') /\ P (DeckJs.core s')
      /\ slide_notes (DeckJs.core s') = slide_notes (DeckJs.core s).
Proof.
  intros HP es. induction es as [|e es IH]; intros s Hv Hs.
  - exists s. cbn. auto.
  - cbn [DeckJs.nav_run].
    destruct (DeckJs_nav_step_moved e s Hv) as (s1 & E & Hv1 & _ & Hm).
    rewrite E. cbn [mbind result_bind].
    assert (P (DeckJs.core s1)
            /\ slide_notes (DeckJs.core s1) = slide_notes (DeckJs.core s))
      as [Hs1 Hn1].
    { destruct Hm as [->|M]; [auto|].
      split; [exact (HP _ _ _ Hs M)|exact (proj1 (proj2 M))]. }
    destruct (IH s1 Hv1 Hs1) as (s' & E' & Hv' & Hs' & Hn').
    exists s'. rewrite Hn', Hn1. auto.
Qed.

Lemma Part001_nav_run_keeps (P : NavCore -> Prop) :
  (forall i c c', P c -> slide_moved i c c' -> P c') ->
  forall es s, nav_valid (Part001.core s) -> P (Part001.core s) ->
    exists s', Part001.nav_run es s = Ok s'
      /\ nav_valid (Part001.core s') /\ P (Part001.core s')
      /\ slide_notes (Part001.core s') = slide_notes (Part001.core s).
Proof.
  intros HP es. induction es as [|e es IH]; intros s Hv Hs.
  - exists s. cbn. auto.
  - cbn [Part001.nav_run].
    destruct (Part001_nav_step_moved e s Hv) as (s1 & E & Hv1 & _ & Hm).
    rewrite E. cbn [mbind result_bind].
    assert (P (Part001.core s1)
            /\ slide_notes (Part001.core s1) = slide_notes (Part001.core s))
      as [Hs1 Hn1].
    { destruct Hm as [->|M]; [auto|].
      split; [exact (HP _ _ _ Hs M)|exact (proj1 (proj2 M))]. }
    destruct (IH s1 Hv1 Hs1) as (s' & E' & Hv' & Hs' & Hn').
    exists s'. rewrite Hn', Hn1. auto.
Qed.

Lemma moved_stale (i : Z) (c c' : NavCore) (j : nat) (sl : Slide) :
  slide_moved i c c' -> slides c !! j = Some sl ->
  Z.of_nat j <> i -> Z.of_nat j <> currentIndex c ->
  exists sl', slides c' !! j = Some sl' /\ slide_active sl' = slide_active sl
              /\ speaker_note sl' = speaker_note sl.
Proof.
  intros (_ & H2 & H3 & _) Hj Hji Hjc.
  pose proof (slide_notes_lookup c c' j H2) as Hl. rewrite Hj in Hl.
  destruct (slides c' !! j) as [sl'|] eqn:Hj'; [|discriminate].
  exists sl'. split; [reflexivity|]. split.
  - rewrite (H3 j sl sl' Hj Hj').
    rewrite !bool_decide_eq_false_2 by assumption. reflexivity.
  - cbn in Hl. congruence.
Qed.

(** X6.  In both revisions a move to a slide touches the class [active]
    of two slides only, the one left and the one entered.  So if no slide
    but the current one is marked active when [goToSlide] is called with
    an index in range, exactly the target slide is active afterwards, and
    every sequence of navigation events keeps it that way; but a slide
    that the markup marks active by mistake stays active until it has been
    entered and left. *)
Theorem X6_exactly_the_current_slide_is_active :
  (forall i s,
     nav_valid (DeckJs.core s) -> 0 <= i < Js.len (slides (DeckJs.core s)) ->
     others_inactive (DeckJs.core s) ->
     exists s', DeckJs.goToSlide i s = Ok s'
       /\ only_current_active (DeckJs.core s'))
  /\ (forall i s,
       nav_valid (Part001.core s) -> 0 <= i < Js.len (slides (Part001.core s)) ->
       others_inactive (Part001.core s) ->
       exists s', Part001.goToSlide i s = Ok s'
         /\ only_current_active (Part001.core s'))
  /\ (forall es s,
       nav_valid (DeckJs.core s) -> only_current_active (DeckJs.core s) ->
       exists s', DeckJs.nav_run es s = Ok s'
         /\ only_current_active (DeckJs.core s'))
  /\ (forall es s,
       nav_valid (Part001.core s) -> only_current_active (Part001.core s) ->
       exists s', Part001.nav_run es s = Ok s'
         /\ only_current_active (Part001.core s'))
  /\ (forall i s j sl,
       nav_valid (DeckJs.core s) -> 0 <= i < Js.len (slides (DeckJs.core s)) ->
       slides (DeckJs.core s) !! j = Some sl ->
       Z.of_nat j <> i -> Z.of_nat j <> currentIndex (DeckJs.core s) ->
       exists s' sl', DeckJs.goToSlide i s = Ok s'
         /\ slides (DeckJs.core s') !! j = Some sl'
         /\ slide_active sl' = slide_active sl)
  /\ (forall i s j sl,
       nav_valid (Part001.core s) -> 0 <= i < Js.len (slides (Part001.core s)) ->
       slides (Part001.core s) !! j = Some sl ->
       Z.of_nat j <> i -> Z.of_nat j <> currentIndex (Part001.core s) ->
       exists s' sl', Part001.goToSlide i s = Ok s'
         /\ slides (Part001.core s') !! j = Some sl'
         /\ slide_active sl' = slide_active sl).
Proof.
  assert (HP : forall (i : Z) c c',
             only_current_active c -> slide_moved i c c' -> only_current_active c').
  { intros i c c' H M. exact (moved_only_current i c c' (only_current_others c H) M). }
  split.
  { intros i s Hv Hi Ho.
    destruct (DeckJs_goToSlide_moved i s Hv Hi) as (s' & E & M).
    exists s'. split; [exact E|]. exact (moved_only_current i _ _ Ho M). }
  split.
  { intros i s Hv Hi Ho.
    destruct (Part001_goToSlide_moved i s Hv Hi) as (s' & E & M).
    exists s'. split; [exact E|]. exact (moved_only_current i _ _ Ho M). }
  split.
  { intros es s Hv Ho.
    destruct (DeckJs_nav_run_keeps only_current_active HP es s Hv Ho)
      as (s' & E & _ & H & _). eauto. }
  split.
  { intros es s Hv Ho.
    destruct (Part001_nav_run_keeps only_current_active HP es s Hv Ho)
      as (s' & E & _ & H & _). eauto. }
  split.
  - intros i s j sl Hv Hi Hj Hji Hjc.
    destruct (DeckJs_goToSlide_moved i s Hv Hi) as (s' & E & M).
    destruct (moved_stale i _ _ j sl M Hj Hji Hjc) as (sl' & H1 & H2 & _).
    exists s', sl'. auto.
  - intros i s j sl Hv Hi Hj Hji Hjc.
    destruct (Part001_goToSlide_moved i s Hv Hi) as (s' & E & M).
    destruct (moved_stale i _ _ j sl M Hj Hji Hjc) as (sl' & H1 & H2 & _).
    exists s', sl'. auto.
Qed.

Lemma page_core_inactive (n : nat) : others_inactive (page_core n).
Proof.
  intros j sl Hj Ha. cbn in Hj. apply lookup_replicate in Hj as [-> _].
  discriminate.
Qed.

Lemma page_core_valid (n : nat) : (0 < n)%nat -> nav_valid (page_core n).
Proof.
  intros H. unfold nav_valid, Js.len. cbn. rewrite length_replicate. lia.
Qed.

Lemma noted_core_valid : nav_valid noted_core.
Proof. unfold nav_valid, Js.len. cbn. lia. Qed.

(** Witness for X6: on a page of four inactive slides [goToSlide(2)]
    leaves exactly slide 2 active; and on the page whose third slide is
    marked active by mistake, [goToSlide(1)] leaves that slide active. *)
Lemma X6_witness :
  (exists s', DeckJs.goToSlide 2 (deck_page 4) = Ok s'
     /\ only_current_active (DeckJs.core s'))
  /\ (exists s' sl', Part001.goToSlide 1 noted_part = Ok s'
        /\ slides (Part001.core s') !! 2%nat = Some sl'
        /\ slide_active sl' = true).
Proof.
  destruct X6_exactly_the_current_slide_is_active
    as (H1 & _ & _ & _ & _ & H6).
  split.
  - apply (H1 2 (deck_page 4)).
    + apply page_core_valid. lia.
    + unfold Js.len. simpl. lia.
    + apply page_core_inactive.
  - apply (H6 1 noted_part 2%nat
             {| slide_active := true; speaker_note := Some "wrap up" |}).
    + exact noted_core_valid.
    + unfold Js.len. simpl. lia.
    + reflexivity.
    + lia.
    + simpl. lia.
Defined.

(** X7.  In both revisions a move to slide [i] puts the text of that
    slide's speaker note into [#notes-content], or the empty string when
    the slide has none, and creates no panel where there is none; no
    speaker note of any slide is ever changed.  So once the panel shows
    the current slide's note it does so after every sequence of
    navigation events. *)
Theorem X7_notes_panel_follows_the_slide :
  (forall i s,
     nav_valid (DeckJs.core s) -> 0 <= i < Js.len (slides (DeckJs.core s)) ->
     exists s', DeckJs.goToSlide i s = Ok s'
       /\ notes_content (DeckJs.core s')
          = placeholder (notes_content (DeckJs.core s)) (note_of (DeckJs.core s) i)
       /\ slide_notes (DeckJs.core s') = slide_notes (DeckJs.core s))
  /\ (forall i s,
       nav_valid (Part001.core s) -> 0 <= i < Js.len (slides (Part001.core s)) ->
       exists s', Part001.goToSlide i s = Ok s'
         /\ notes_content (Part001.core s')
            = placeholder (notes_content (Part001.core s))
                (note_of (Part001.core s) i)
         /\ slide_notes (Part001.core s') = slide_notes (Part001.core s))
  /\ (forall es s,
       nav_valid (DeckJs.core s) -> notes_synced (DeckJs.core s) ->
       exists s', DeckJs.nav_run es s = Ok s'
         /\ notes_synced (DeckJs.core s')
         /\ slide_notes (DeckJs.core s') = slide_notes (DeckJs.core s))
  /\ (forall es s,
       nav_valid (Part001.core s) -> notes_synced (Part001.core s) ->
       exists s', Part001.nav_run es s = Ok s'
         /\ notes_synced (Part001.core s')
         /\ slide_notes (Part001.core s') = slide_notes (Part001.core s)).
Proof.
  assert (HP : forall (i : Z) c c',
             notes_synced c -> slide_moved i c c' -> notes_synced c').
  { intros i c c' _ M. exact (moved_notes_synced i c c' M). }
  split.
  { intros i s Hv Hi.
    destruct (DeckJs_goToSlide_moved i s Hv Hi) as (s' & E & _ & M2 & _ & M4).
    eauto. }
  split.
  { intros i s Hv Hi.
    destruct (Part001_goToSlide_moved i s Hv Hi) as (s' & E & _ & M2 & _ & M4).
    eauto. }
  split.
  - intros es s Hv Hs.
    destruct (DeckJs_nav_run_keeps notes_synced HP es s Hv Hs)
      as (s' & E & _ & H & Hn). eauto.
  - intros es s Hv Hs.
    destruct (Part001_nav_run_keeps notes_synced HP es s Hv Hs)
      as (s' & E & _ & H & Hn). eauto.
Qed.

(** Witness for X7: on the page with notes, [goToSlide(1)] shows
    "say hello". *)
Lemma X7_witness :
  exists s', DeckJs.goToSlide 1 noted_deck = Ok s'
    /\ notes_content (DeckJs.core s') = Some "say hello"
    /\ slide_notes (DeckJs.core s') = [None; Some "say hello"; Some "wrap up"].
Proof.
  destruct X7_notes_panel_follows_the_slide as (H1 & _).
  apply (H1 1 noted_deck).
  - exact noted_core_valid.
  - unfold Js.len. simpl. lia.
Defined.

(** Repeating one of the two relative moves, for a navigator given by
    its step function. *)
Lemma run_replicate {S : Type} (core : S -> NavCore)
    (step : NavEvent -> S -> result S) (run : list NavEvent -> S -> result S) :
  (forall s, run [] s = Ok s) ->
  (forall e es s, run (e :: es) s = s' ← step e s; run es s') ->
  (forall e s, nav_valid (core s) ->
     exists s', step e s = Ok s'
       /\ nav_valid (core s')
       /\ currentIndex (core s') = nav_target e (core s)
       /\ Js.len (slides (core s')) = Js.len (slides (core s))) ->
  forall (k : nat) s, nav_valid (core s) ->
    (exists s', run (replicate k Next) s = Ok s'
       /\ Js.len (slides (core s')) = Js.len (slides (core s))
       /\ currentIndex (core s')
          = Z.min (Js.len (slides (core s)) - 1) (currentIndex (core s) + Z.of_nat k))
    /\ (exists s', run (replicate k Prev) s = Ok s'
          /\ Js.len (slides (core s')) = Js.len (slides (core s))
          /\ currentIndex (core s') = Z.max 0 (currentIndex (core s) - Z.of_nat k)).
Proof.
  intros Hnil Hcons Hstep k. induction k as [|k IH]; intros s Hv.
  - cbn [replicate]. rewrite Hnil. unfold nav_valid in Hv.
    split; exists s; (split; [reflexivity|]); (split; [reflexivity|]); lia.
  - cbn [replicate]. rewrite !Hcons. split.
    + destruct (Hstep Next s Hv) as (s1 & E & Hv1 & Hc & Hl). rewrite E.
      cbn [mbind result_bind].
      destruct (IH s1 Hv1) as [(s' & E' & Hl' & Hc') _].
      exists s'. split; [exact E'|]. split; [congruence|].
      rewrite Hc', Hc, Hl. unfold nav_valid in Hv. unfold nav_target, clamp. lia.
    + destruct (Hstep Prev s Hv) as (s1 & E & Hv1 & Hc & Hl). rewrite E.
      cbn [mbind result_bind].
      destruct (IH s1 Hv1) as [_ (s' & E' & Hl' & Hc')].
      exists s'. split; [exact E'|]. split; [congruence|].
      rewrite Hc', Hc. unfold nav_valid in Hv. unfold nav_target, clamp. lia.
Qed.

(** X8.  In both revisions, from a state whose index names a slide:
    [k] times [nextSlide] end on slide [min(last, current + k)], and [k]
    times [prevSlide] on slide [max(0, current - k)].  The navigator
    saturates at both ends and never wraps around. *)
Theorem X8_repeated_moves_saturate :
  (forall (k : nat) s, nav_valid (DeckJs.core s) ->
     (exists s', DeckJs.nav_run (replicate k Next) s = Ok s'
        /\ currentIndex (DeckJs.core s')
           = Z.min (Js.len (slides (DeckJs.core s)) - 1)
               (currentIndex (DeckJs.core s) + Z.of_nat k))
     /\ (exists s', DeckJs.nav_run (replicate k Prev) s = Ok s'
           /\ currentIndex (DeckJs.core s')
              = Z.max 0 (currentIndex (DeckJs.core s) - Z.of_nat k)))
  /\ (forall (k : nat) s, nav_valid (Part001.core s) ->
       (exists s', Part001.nav_run (replicate k Next) s = Ok s'
          /\ currentIndex (Part001.core s')
             = Z.min (Js.len (slides (Part001.core s)) - 1)
                 (currentIndex (Part001.core s) + Z.of_nat k))
       /\ (exists s', Part001.nav_run (replicate k Prev) s = Ok s'
             /\ currentIndex (Part001.core s')
                = Z.max 0 (currentIndex (Part001.core s) - Z.of_nat k))).
Proof.
  split; intros k s Hv.
  - assert (Hstep : forall e s0, nav_valid (DeckJs.core s0) ->
              exists s', DeckJs.nav_step e s0 = Ok s'
                /\ nav_valid (DeckJs.core s')
                /\ currentIndex (DeckJs.core s') = nav_target e (DeckJs.core s0)
                /\ Js.len (slides (DeckJs.core s')) = Js.len (slides (DeckJs.core s0))).
    { intros e s0 Hv0.
      destruct (DeckJs_nav_step_spec e s0 Hv0) as (s' & E & Hv' & Hc & Hl & _).
      eauto. }
    destruct (run_replicate DeckJs.core DeckJs.nav_step DeckJs.nav_run
                (fun _ => eq_refl) (fun _ _ _ => eq_refl) Hstep k s Hv)
      as [(s1 & E1 & _ & H1) (s2 & E2 & _ & H2)].
    split; [exists s1|exists s2]; auto.
  - assert (Hstep : forall e s0, nav_valid (Part001.core s0) ->
              exists s', Part001.nav_step e s0 = Ok s'
                /\ nav_valid (Part001.core s')
                /\ currentIndex (Part001.core s') = nav_target e (Part001.core s0)
                /\ Js.len (slides (Part001.core s'))
                   = Js.len (slides (Part001.core s0))).
    { intros e s0 Hv0.
      destruct (Part001_nav_step_spec e s0 Hv0) as (s' & E & Hv' & Hc & Hl & _).
      eauto. }
    destruct (run_replicate Part001.core Part001.nav_step Part001.nav_run
                (fun _ => eq_refl) (fun _ _ _ => eq_refl) Hstep k s Hv)
      as [(s1 & E1 & _ & H1) (s2 & E2 & _ & H2)].
    split; [exists s1|exists s2]; auto.
Qed.

(** Witness for X8: seven times "next" on a page of five slides end on
    the last slide, index 4. *)
Lemma X8_witness :
  exists s', DeckJs.nav_run (replicate 7 Next) (deck_page 5) = Ok s'
    /\ currentIndex (DeckJs.core s') = 4.
Proof.
  destruct X8_repeated_moves_saturate as [H _].
  destruct (H 7%nat (deck_page 5)) as [H1 _].
  - apply page_core_valid. lia.
  - exact H1.
Defined.


(** ** The keyboard *)

Lemma classic_field (e : KeyEvent) : in_form_field e \/ ~ in_form_field e.
Proof.
  unfold in_form_field.
  destruct (String.eqb_spec (target_tag e) "input");
    destruct (String.eqb_spec (target_tag e) "textarea"); tauto.
Qed.

Lemma classic_space_media (e : KeyEvent) :
  (key e = " " /\ on_media_or_button e) \/ ~ (key e = " " /\ on_media_or_button e).
Proof.
  unfold on_media_or_button.
  destruct (String.eqb_spec (key e) " ");
    destruct (String.eqb_spec (target_tag e) "video");
    destruct (String.eqb_spec (target_tag e) "button"); tauto.
Qed.

Lemma DeckJs_keydown_field (e : KeyEvent) (p : DeckJs.Page) :
  in_form_field e -> DeckJs.keydown e p = Ok (false, p).
Proof.
  unfold in_form_field, target_tag, DeckJs.keydown. intros [-> | ->]; reflexivity.
Qed.

Lemma DeckJs_keydown_open (e : KeyEvent) (p : DeckJs.Page) :
  ~ in_form_field e ->
  DeckJs.keydown e p
  = let moved (r : result DeckJs.State) : result (bool * DeckJs.Page) :=
      n ← r; Ok (true, {| DeckJs.nav := n; DeckJs.chrome := DeckJs.chrome p |}) in
    if String.eqb (key e) "ArrowRight" || String.eqb (key e) "PageDown" then
      moved (DeckJs.nextSlide (DeckJs.nav p))
    else if String.eqb (key e) " " then
      if negb (String.eqb (target_tag e) "video")
         && negb (String.eqb (target_tag e) "button")
      then moved (DeckJs.nextSlide (DeckJs.nav p))
      else Ok (false, p)
    else if String.eqb (key e) "ArrowLeft" || String.eqb (key e) "PageUp" then
      moved (DeckJs.prevSlide (DeckJs.nav p))
    else if String.eqb (key e) "Home" then
      moved (DeckJs.goToSlide 0 (DeckJs.nav p))
    else if String.eqb (key e) "End" then
      moved (DeckJs.goToSlide (Js.len (slides (DeckJs.core (DeckJs.nav p))) - 1) (DeckJs.nav p))
    else if String.eqb (key e) "s" || String.eqb (key e) "S" then
      Ok (false, {| DeckJs.nav := DeckJs.nav p; DeckJs.chrome := DeckJs.toggleNotes (DeckJs.chrome p) |})
    else if String.eqb (key e) "f" || String.eqb (key e) "F" then
      Ok (false, {| DeckJs.nav := DeckJs.nav p;
                    DeckJs.chrome := DeckJs.toggleFullscreen (DeckJs.chrome p) |})
    else Ok (false, p).
Proof.
  intros H. unfold in_form_field in H. unfold DeckJs.keydown. fold (target_tag e).
  destruct (String.eqb_spec (target_tag e) "input") as [?|_]; [tauto|].
  destruct (String.eqb_spec (target_tag e) "textarea") as [?|_]; [tauto|].
  reflexivity.
Qed.

(** What a key does: nothing, a toggle of the notes panel, a call of the
    Fullscreen API, or one of four moves, and only the moves are marked
    as handled. *)
Lemma DeckJs_keydown_cases (e : KeyEvent) (p : DeckJs.Page) :
  DeckJs.keydown e p = Ok (false, p)
  \/ DeckJs.keydown e p
     = Ok (false, {| DeckJs.nav := DeckJs.nav p; DeckJs.chrome := DeckJs.toggleNotes (DeckJs.chrome p) |})
  \/ DeckJs.keydown e p
     = Ok (false, {| DeckJs.nav := DeckJs.nav p;
                     DeckJs.chrome := DeckJs.toggleFullscreen (DeckJs.chrome p) |})
  \/ exists ev,
       ev ∈ [Next; Prev; GoTo 0; GoTo (Js.len (slides (DeckJs.core (DeckJs.nav p))) - 1)]
       /\ DeckJs.keydown e p
          = (n ← DeckJs.nav_step ev (DeckJs.nav p);
             Ok (true, {| DeckJs.nav := n; DeckJs.chrome := DeckJs.chrome p |})).
Proof.
  assert (Hmove : forall ev,
            ev ∈ [Next; Prev; GoTo 0; GoTo (Js.len (slides (DeckJs.core (DeckJs.nav p))) - 1)] ->
            forall r, r = (n ← DeckJs.nav_step ev (DeckJs.nav p);
                           Ok (true, {| DeckJs.nav := n; DeckJs.chrome := DeckJs.chrome p |})) ->
            r = Ok (false, p)
            \/ r = Ok (false, {| DeckJs.nav := DeckJs.nav p;
                                 DeckJs.chrome := DeckJs.toggleNotes (DeckJs.chrome p) |})
            \/ r = Ok (false, {| DeckJs.nav := DeckJs.nav p;
                                 DeckJs.chrome := DeckJs.toggleFullscreen (DeckJs.chrome p) |})
            \/ exists ev,
                 ev ∈ [Next; Prev; GoTo 0;
                       GoTo (Js.len (slides (DeckJs.core (DeckJs.nav p))) - 1)]
                 /\ r = (n ← DeckJs.nav_step ev (DeckJs.nav p);
                         Ok (true, {| DeckJs.nav := n; DeckJs.chrome := DeckJs.chrome p |}))).
  { intros ev Hev r ->. right; right; right. exists ev. auto. }
  unfold DeckJs.keydown. cbn zeta.
  repeat match goal with
         | |- context [if ?b then _ else _] => destruct b
         end;
    try (left; reflexivity);
    try (right; left; reflexivity);
    try (right; right; left; reflexivity).
  all: first
    [ apply (Hmove Next); [in_list|reflexivity]
    | apply (Hmove Prev); [in_list|reflexivity]
    | apply (Hmove (GoTo 0)); [in_list|reflexivity]
    | apply (Hmove (GoTo (Js.len (slides (DeckJs.core (DeckJs.nav p))) - 1)));
      [in_list|reflexivity] ].
Qed.

Lemma DeckJs_keydown_frame (e : KeyEvent) (p : DeckJs.Page) :
  nav_valid (DeckJs.core (DeckJs.nav p)) ->
  exists b p', DeckJs.keydown e p = Ok (b, p')
    /\ (b = true ->
        DeckJs.chrome p' = DeckJs.chrome p
        /\ exists ev,
             ev ∈ [Next; Prev; GoTo 0;
                   GoTo (Js.len (slides (DeckJs.core (DeckJs.nav p))) - 1)]
             /\ DeckJs.nav_step ev (DeckJs.nav p) = Ok (DeckJs.nav p'))
    /\ (b = false ->
        DeckJs.nav p' = DeckJs.nav p
        /\ (DeckJs.chrome p' = DeckJs.chrome p
            \/ DeckJs.chrome p' = DeckJs.toggleNotes (DeckJs.chrome p)
            \/ DeckJs.chrome p' = DeckJs.toggleFullscreen (DeckJs.chrome p)))
    /\ (in_form_field e -> b = false /\ p' = p)
    /\ (key e = " " -> on_media_or_button e -> b = false /\ p' = p).
Proof.
  intros Hv.
  assert (Hsame : DeckJs.keydown e p = Ok (false, p) ->
            exists b p', DeckJs.keydown e p = Ok (b, p')
              /\ (b = true ->
                  DeckJs.chrome p' = DeckJs.chrome p
                  /\ exists ev,
                       ev ∈ [Next; Prev; GoTo 0;
                             GoTo (Js.len (slides (DeckJs.core (DeckJs.nav p))) - 1)]
                       /\ DeckJs.nav_step ev (DeckJs.nav p) = Ok (DeckJs.nav p'))
              /\ (b = false ->
                  DeckJs.nav p' = DeckJs.nav p
                  /\ (DeckJs.chrome p' = DeckJs.chrome p
                      \/ DeckJs.chrome p' = DeckJs.toggleNotes (DeckJs.chrome p)
                      \/ DeckJs.chrome p' = DeckJs.toggleFullscreen (DeckJs.chrome p)))
              /\ (in_form_field e -> b = false /\ p' = p)
              /\ (key e = " " -> on_media_or_button e -> b = false /\ p' = p)).
  { intros E. exists false, p. split; [exact E|].
    split; [discriminate|]. auto 10. }
  destruct (classic_field e) as [Hf|Hf].
  { apply Hsame, DeckJs_keydown_field, Hf. }
  destruct (classic_space_media e) as [[Hk Hm]|Hsm].
  { apply Hsame. rewrite (DeckJs_keydown_open e p Hf). cbn zeta. rewrite Hk.
    change (String.eqb " " "ArrowRight" || String.eqb " " "PageDown") with false.
    change (String.eqb " " " ") with true. cbn match.
    destruct Hm as [-> | ->]; reflexivity. }
  destruct (DeckJs_keydown_cases e p) as [E|[E|[E|(ev & Hev & E)]]].
  - apply Hsame, E.
  - eexists false, _. split; [exact E|]. split; [discriminate|].
    split; [cbn; auto|]. split; [tauto|]. intros Hk Hm. elim Hsm. auto.
  - eexists false, _. split; [exact E|]. split; [discriminate|].
    split; [cbn; auto|]. split; [tauto|]. intros Hk Hm. elim Hsm. auto.
  - destruct (DeckJs_nav_step_spec ev (DeckJs.nav p) Hv) as (n & En & _).
    rewrite En in E. cbn [mbind result_bind] in E.
    eexists true, _. split; [exact E|].
    split; [intros _; split; [reflexivity|]; exists ev; auto|].
    split; [discriminate|]. split; [tauto|]. intros Hk Hm. elim Hsm. auto.
Qed.

Lemma Part001_keydown_field (e : KeyEvent) (p : Part001.Page) :
  in_form_field e -> Part001.keydown e p = Ok (false, p).
Proof.
  unfold in_form_field, target_tag, Part001.keydown. intros [-> | ->]; reflexivity.
Qed.

Lemma Part001_keydown_open (e : KeyEvent) (p : Part001.Page) :
  ~ in_form_field e ->
  Part001.keydown e p
  = let moved (r : result Part001.State) : result (bool * Part001.Page) :=
      n ← r; Ok (true, {| Part001.nav := n; Part001.chrome := Part001.chrome p |}) in
    if String.eqb (key e) "ArrowRight" || String.eqb (key e) "PageDown" then
      moved (Part001.nextSlide (Part001.nav p))
    else if String.eqb (key e) " " then
      if negb (String.eqb (target_tag e) "video")
         && negb (String.eqb (target_tag e) "button")
      then moved (Part001.nextSlide (Part001.nav p))
      else Ok (false, p)
    else if String.eqb (key e) "ArrowLeft" || String.eqb (key e) "PageUp" then
      moved (Part001.prevSlide (Part001.nav p))
    else if String.eqb (key e) "Home" then
      moved (Part001.goToSlide 0 (Part001.nav p))
    else if String.eqb (key e) "End" then
      moved (Part001.goToSlide (Js.len (slides (Part001.core (Part001.nav p))) - 1) (Part001.nav p))
    else if String.eqb (key e) "s" || String.eqb (key e) "S" then
      Ok (false, {| Part001.nav := Part001.nav p; Part001.chrome := Part001.toggleNotes (Part001.chrome p) |})
    else if String.eqb (key e) "f" || String.eqb (key e) "F" then
      Ok (false, {| Part001.nav := Part001.nav p;
                    Part001.chrome := Part001.toggleFullscreen (Part001.chrome p) |})
    else Ok (false, p).
Proof.
  intros H. unfold in_form_field in H. unfold Part001.keydown. fold (target_tag e).
  destruct (String.eqb_spec (target_tag e) "input") as [?|_]; [tauto|].
  destruct (String.eqb_spec (target_tag e) "textarea") as [?|_]; [tauto|].
  reflexivity.
Qed.

(** What a key does: nothing, a toggle of the notes panel, a call of the
    Fullscreen API, or one of four moves, and only the moves are marked
    as handled. *)
Lemma Part001_keydown_cases (e : KeyEvent) (p : Part001.Page) :
  Part001.keydown e p = Ok (false, p)
  \/ Part001.keydown e p
     = Ok (false, {| Part001.nav := Part001.nav p; Part001.chrome := Part001.toggleNotes (Part001.chrome p) |})
  \/ Part001.keydown e p
     = Ok (false, {| Part001.nav := Part001.nav p;
                     Part001.chrome := Part001.toggleFullscreen (Part001.chrome p) |})
  \/ exists ev,
       ev ∈ [Next; Prev; GoTo 0; GoTo (Js.len (slides (Part001.core (Part001.nav p))) - 1)]
       /\ Part001.keydown e p
          = (n ← Part001.nav_step ev (Part001.nav p);
             Ok (true, {| Part001.nav := n; Part001.chrome := Part001.chrome p |})).
Proof.
  assert (Hmove : forall ev,
            ev ∈ [Next; Prev; GoTo 0; GoTo (Js.len (slides (Part001.core (Part001.nav p))) - 1)] ->
            forall r, r = (n ← Part001.nav_step ev (Part001.nav p);
                           Ok (true, {| Part001.nav := n; Part001.chrome := Part001.chrome p |})) ->
            r = Ok (false, p)
            \/ r = Ok (false, {| Part001.nav := Part001.nav p;
                                 Part001.chrome := Part001.toggleNotes (Part001.chrome p) |})
            \/ r = Ok (false, {| Part001.nav := Part001.nav p;
                                 Part001.chrome := Part001.toggleFullscreen (Part001.chrome p) |})
            \/ exists ev,
                 ev ∈ [Next; Prev; GoTo 0;
                       GoTo (Js.len (slides (Part001.core (Part001.nav p))) - 1)]
                 /\ r = (n ← Part001.nav_step ev (Part001.nav p);
                         Ok (true, {| Part001.nav := n; Part001.chrome := Part001.chrome p |}))).
  { intros ev Hev r ->. right; right; right. exists ev. auto. }
  unfold Part001.keydown. cbn zeta.
  repeat match goal with
         | |- context [if ?b then _ else _] => destruct b
         end;
    try (left; reflexivity);
    try (right; left; reflexivity);
    try (right; right; left; reflexivity).
  all: first
    [ apply (Hmove Next); [in_list|reflexivity]
    | apply (Hmove Prev); [in_list|reflexivity]
    | apply (Hmove (GoTo 0)); [in_list|reflexivity]
    | apply (Hmove (GoTo (Js.len (slides (Part001.core (Part001.nav p))) - 1)));
      [in_list|reflexivity] ].
Qed.

Lemma Part001_keydown_frame (e : KeyEvent) (p : Part001.Page) :
  nav_valid (Part001.core (Part001.nav p)) ->
  exists b p', Part001.keydown e p = Ok (b, p')
    /\ (b = true ->
        Part001.chrome p' = Part001.chrome p
        /\ exists ev,
             ev ∈ [Next; Prev; GoTo 0;
                   GoTo (Js.len (slides (Part001.core (Part001.nav p))) - 1)]
             /\ Part001.nav_step ev (Part001.nav p) = Ok (Part001.nav p'))
    /\ (b = false ->
        Part001.nav p' = Part001.nav p
        /\ (Part001.chrome p' = Part001.chrome p
            \/ Part001.chrome p' = Part001.toggleNotes (Part001.chrome p)
            \/ Part001.chrome p' = Part001.toggleFullscreen (Part001.chrome p)))
    /\ (in_form_field e -> b = false /\ p' = p)
    /\ (key e = " " -> on_media_or_button e -> b = false /\ p' = p).
Proof.
  intros Hv.
  assert (Hsame : Part001.keydown e p = Ok (false, p) ->
            exists b p', Part001.keydown e p = Ok (b, p')
              /\ (b = true ->
                  Part001.chrome p' = Part001.chrome p
                  /\ exists ev,
                       ev ∈ [Next; Prev; GoTo 0;
                             GoTo (Js.len (slides (Part001.core (Part001.nav p))) - 1)]
                       /\ Part001.nav_step ev (Part001.nav p) = Ok (Part001.nav p'))
              /\ (b = false ->
                  Part001.nav p' = Part001.nav p
                  /\ (Part001.chrome p' = Part001.chrome p
                      \/ Part001.chrome p' = Part001.toggleNotes (Part001.chrome p)
                      \/ Part001.chrome p' = Part001.toggleFullscreen (Part001.chrome p)))
              /\ (in_form_field e -> b = false /\ p' = p)
              /\ (key e = " " -> on_media_or_button e -> b = false /\ p' = p)).
  { intros E. exists false, p. split; [exact E|].
    split; [discriminate|]. auto 10. }
  destruct (classic_field e) as [Hf|Hf].
  { apply Hsame, Part001_keydown_field, Hf. }
  destruct (classic_space_media e) as [[Hk Hm]|Hsm].
  { apply Hsame. rewrite (Part001_keydown_open e p Hf). cbn zeta. rewrite Hk.
    change (String.eqb " " "ArrowRight" || String.eqb " " "PageDown") with false.
    change (String.eqb " " " ") with true. cbn match.
    destruct Hm as [-> | ->]; reflexivity. }
  destruct (Part001_keydown_cases e p) as [E|[E|[E|(ev & Hev & E)]]].
  - apply Hsame, E.
  - eexists false, _. split; [exact E|]. split; [discriminate|].
    split; [cbn; auto|]. split; [tauto|]. intros Hk Hm. elim Hsm. auto.
  - eexists false, _. split; [exact E|]. split; [discriminate|].
    split; [cbn; auto|]. split; [tauto|]. intros Hk Hm. elim Hsm. auto.
  - destruct (Part001_nav_step_spec ev (Part001.nav p) Hv) as (n & En & _).
    rewrite En in E. cbn [mbind result_bind] in E.
    eexists true, _. split; [exact E|].
    split; [intros _; split; [reflexivity|]; exists ev; auto|].
    split; [discriminate|]. split; [tauto|]. intros Hk Hm. elim Hsm. auto.
Qed.


Lemma DeckJs_keydown_home (e : KeyEvent) (p : DeckJs.Page) :
  nav_valid (DeckJs.core (DeckJs.nav p)) -> ~ in_form_field e -> key e = "Home" ->
  exists n, DeckJs.keydown e p = Ok (true, {| DeckJs.nav := n; DeckJs.chrome := DeckJs.chrome p |})
    /\ currentIndex (DeckJs.core n) = 0
    /\ rendered (DeckJs.core n)
    /\ Js.len (slides (DeckJs.core n)) = Js.len (slides (DeckJs.core (DeckJs.nav p)))
    /\ nav_valid (DeckJs.core n).
Proof.
  intros Hv Hf Hk. rewrite (DeckJs_keydown_open e p Hf). cbn zeta. rewrite Hk.
  change (String.eqb "Home" "ArrowRight" || String.eqb "Home" "PageDown") with false.
  change (String.eqb "Home" " ") with false.
  change (String.eqb "Home" "ArrowLeft" || String.eqb "Home" "PageUp") with false.
  change (String.eqb "Home" "Home") with true. cbn match.
  destruct (DeckJs_goToSlide_spec 0 (DeckJs.nav p) Hv) as (n & E & Hc & Hl & Hr & _).
  { unfold nav_valid in Hv. lia. }
  rewrite E. exists n. unfold nav_valid in *.
  split; [reflexivity|]. split; [exact Hc|]. split; [exact Hr|].
  split; [exact Hl|]. lia.
Qed.

Lemma DeckJs_keydown_end (e : KeyEvent) (p : DeckJs.Page) :
  nav_valid (DeckJs.core (DeckJs.nav p)) -> ~ in_form_field e -> key e = "End" ->
  exists n, DeckJs.keydown e p = Ok (true, {| DeckJs.nav := n; DeckJs.chrome := DeckJs.chrome p |})
    /\ currentIndex (DeckJs.core n) = Js.len (slides (DeckJs.core (DeckJs.nav p))) - 1
    /\ rendered (DeckJs.core n)
    /\ Js.len (slides (DeckJs.core n)) = Js.len (slides (DeckJs.core (DeckJs.nav p)))
    /\ nav_valid (DeckJs.core n).
Proof.
  intros Hv Hf Hk. rewrite (DeckJs_keydown_open e p Hf). cbn zeta. rewrite Hk.
  change (String.eqb "End" "ArrowRight" || String.eqb "End" "PageDown") with false.
  change (String.eqb "End" " ") with false.
  change (String.eqb "End" "ArrowLeft" || String.eqb "End" "PageUp") with false.
  change (String.eqb "End" "Home") with false.
  change (String.eqb "End" "End") with true. cbn match.
  destruct (DeckJs_goToSlide_spec (Js.len (slides (DeckJs.core (DeckJs.nav p))) - 1) (DeckJs.nav p) Hv)
    as (n & E & Hc & Hl & Hr & _).
  { unfold nav_valid in Hv. lia. }
  rewrite E. exists n. unfold nav_valid in *.
  split; [reflexivity|]. split; [exact Hc|]. split; [exact Hr|].
  split; [exact Hl|]. lia.
Qed.

Lemma Part001_keydown_home (e : KeyEvent) (p : Part001.Page) :
  nav_valid (Part001.core (Part001.nav p)) -> ~ in_form_field e -> key e = "Home" ->
  exists n, Part001.keydown e p = Ok (true, {| Part001.nav := n; Part001.chrome := Part001.chrome p |})
    /\ currentIndex (Part001.core n) = 0
    /\ rendered (Part001.core n)
    /\ Js.len (slides (Part001.core n)) = Js.len (slides (Part001.core (Part001.nav p)))
    /\ nav_valid (Part001.core n).
Proof.
  intros Hv Hf Hk. rewrite (Part001_keydown_open e p Hf). cbn zeta. rewrite Hk.
  change (String.eqb "Home" "ArrowRight" || String.eqb "Home" "PageDown") with false.
  change (String.eqb "Home" " ") with false.
  change (String.eqb "Home" "ArrowLeft" || String.eqb "Home" "PageUp") with false.
  change (String.eqb "Home" "Home") with true. cbn match.
  destruct (Part001_goToSlide_spec 0 (Part001.nav p) Hv) as (n & E & Hc & Hl & Hr & _).
  { unfold nav_valid in Hv. lia. }
  rewrite E. exists n. unfold nav_valid in *.
  split; [reflexivity|]. split; [exact Hc|]. split; [exact Hr|].
  split; [exact Hl|]. lia.
Qed.

Lemma Part001_keydown_end (e : KeyEvent) (p : Part001.Page) :
  nav_valid (Part001.core (Part001.nav p)) -> ~ in_form_field e -> key e = "End" ->
  exists n, Part001.keydown e p = Ok (true, {| Part001.nav := n; Part001.chrome := Part001.chrome p |})
    /\ currentIndex (Part001.core n) = Js.len (slides (Part001.core (Part001.nav p))) - 1
    /\ rendered (Part001.core n)
    /\ Js.len (slides (Part001.core n)) = Js.len (slides (Part001.core (Part001.nav p)))
    /\ nav_valid (Part001.core n).
Proof.
  intros Hv Hf Hk. rewrite (Part001_keydown_open e p Hf). cbn zeta. rewrite Hk.
  change (String.eqb "End" "ArrowRight" || String.eqb "End" "PageDown") with false.
  change (String.eqb "End" " ") with false.
  change (String.eqb "End" "ArrowLeft" || String.eqb "End" "PageUp") with false.
  change (String.eqb "End" "Home") with false.
  change (String.eqb "End" "End") with true. cbn match.
  destruct (Part001_goToSlide_spec (Js.len (slides (Part001.core (Part001.nav p))) - 1) (Part001.nav p) Hv)
    as (n & E & Hc & Hl & Hr & _).
  { unfold nav_valid in Hv. lia. }
  rewrite E. exists n. unfold nav_valid in *.
  split; [reflexivity|]. split; [exact Hc|]. split; [exact Hr|].
  split; [exact Hl|]. lia.
Qed.

(** X9.  In both revisions, on a state whose index names a slide, the
    [keydown] handler returns normally for every key and target, and it
    calls [preventDefault] exactly when it navigates.  A handled key is
    one of the four moves [nextSlide], [prevSlide], [goToSlide(0)] and
    [goToSlide(last)] and leaves the notes panel and the full-screen
    state alone; a key that is not handled leaves the navigator alone,
    and either changes nothing else, or toggles the notes panel, or
    calls the Fullscreen API.
    A key typed into an [input] or a [textarea], whatever the case of
    the tag name, and a space pressed on a video or a button change
    nothing at all and are not handled. *)
Theorem X9_keydown_handles_exactly_the_moves :
  (forall e p, nav_valid (DeckJs.core (DeckJs.nav p)) ->
     exists b p', DeckJs.keydown e p = Ok (b, p')
       /\ (b = true ->
           DeckJs.chrome p' = DeckJs.chrome p
           /\ exists ev,
                ev ∈ [Next; Prev; GoTo 0;
                      GoTo (Js.len (slides (DeckJs.core (DeckJs.nav p))) - 1)]
                /\ DeckJs.nav_step ev (DeckJs.nav p) = Ok (DeckJs.nav p'))
       /\ (b = false ->
           DeckJs.nav p' = DeckJs.nav p
           /\ (DeckJs.chrome p' = DeckJs.chrome p
               \/ DeckJs.chrome p' = DeckJs.toggleNotes (DeckJs.chrome p)
               \/ DeckJs.chrome p' = DeckJs.toggleFullscreen (DeckJs.chrome p)))
       /\ (in_form_field e -> b = false /\ p' = p)
       /\ (key e = " " -> on_media_or_button e -> b = false /\ p' = p))
  /\ (forall e p, nav_valid (Part001.core (Part001.nav p)) ->
       exists b p', Part001.keydown e p = Ok (b, p')
         /\ (b = true ->
             Part001.chrome p' = Part001.chrome p
             /\ exists ev,
                  ev ∈ [Next; Prev; GoTo 0;
                        GoTo (Js.len (slides (Part001.core (Part001.nav p))) - 1)]
                  /\ Part001.nav_step ev (Part001.nav p) = Ok (Part001.nav p'))
         /\ (b = false ->
             Part001.nav p' = Part001.nav p
             /\ (Part001.chrome p' = Part001.chrome p
                 \/ Part001.chrome p' = Part001.toggleNotes (Part001.chrome p)
                 \/ Part001.chrome p' = Part001.toggleFullscreen (Part001.chrome p)))
         /\ (in_form_field e -> b = false /\ p' = p)
         /\ (key e = " " -> on_media_or_button e -> b = false /\ p' = p)).
Proof.
  split; [exact DeckJs_keydown_frame|exact Part001_keydown_frame].
Qed.

(** Witness for X9: the right arrow typed into a text area of a page of
    three slides is not handled and changes nothing. *)
Lemma X9_witness :
  exists b p', DeckJs.keydown (typed "ArrowRight") (deck_chrome 3) = Ok (b, p')
    /\ b = false /\ p' = deck_chrome 3.
Proof.
  destruct X9_keydown_handles_exactly_the_moves as [H _].
  destruct (H (typed "ArrowRight") (deck_chrome 3)) as (b & p' & E & _ & _ & Hf & _).
  - apply page_core_valid. lia.
  - exists b, p'. split; [exact E|]. apply Hf. right. reflexivity.
Defined.

(** X10.  In both revisions, on a state whose index names a slide and
    outside form fields: the Home key is handled and ends on the first
    slide, the End key is handled and ends on the last one, wherever the
    deck was; neither touches the notes panel or the full-screen state,
    and both leave the progress bar, the counter and the two buttons
    rendered for the slide they reach.  The deck keeps its length and
    the index names a slide, so that in a deck of at most [2^53] slides
    the width of the bar is exactly 100 after End, and exactly 0 after
    Home unless the deck has a single slide. *)
Theorem X10_home_and_end_reach_the_ends :
  (forall e p, nav_valid (DeckJs.core (DeckJs.nav p)) -> ~ in_form_field e ->
     (key e = "Home" ->
      exists n,
        DeckJs.keydown e p
        = Ok (true, {| DeckJs.nav := n; DeckJs.chrome := DeckJs.chrome p |})
        /\ currentIndex (DeckJs.core n) = 0
        /\ rendered (DeckJs.core n)
        /\ Js.len (slides (DeckJs.core n))
           = Js.len (slides (DeckJs.core (DeckJs.nav p)))
        /\ nav_valid (DeckJs.core n))
     /\ (key e = "End" ->
         exists n,
           DeckJs.keydown e p
           = Ok (true, {| DeckJs.nav := n; DeckJs.chrome := DeckJs.chrome p |})
           /\ currentIndex (DeckJs.core n)
              = Js.len (slides (DeckJs.core (DeckJs.nav p))) - 1
           /\ rendered (DeckJs.core n)
           /\ Js.len (slides (DeckJs.core n))
              = Js.len (slides (DeckJs.core (DeckJs.nav p)))
           /\ nav_valid (DeckJs.core n)))
  /\ (forall e p, nav_valid (Part001.core (Part001.nav p)) -> ~ in_form_field e ->
       (key e = "Home" ->
        exists n,
          Part001.keydown e p
          = Ok (true, {| Part001.nav := n; Part001.chrome := Part001.chrome p |})
          /\ currentIndex (Part001.core n) = 0
          /\ rendered (Part001.core n)
          /\ Js.len (slides (Part001.core n))
             = Js.len (slides (Part001.core (Part001.nav p)))
          /\ nav_valid (Part001.core n))
       /\ (key e = "End" ->
           exists n,
             Part001.keydown e p
             = Ok (true, {| Part001.nav := n; Part001.chrome := Part001.chrome p |})
             /\ currentIndex (Part001.core n)
                = Js.len (slides (Part001.core (Part001.nav p))) - 1
             /\ rendered (Part001.core n)
             /\ Js.len (slides (Part001.core n))
                = Js.len (slides (Part001.core (Part001.nav p)))
             /\ nav_valid (Part001.core n))).
Proof.
  split; intros e p Hv Hf; split; intros Hk.
  - exact (DeckJs_keydown_home e p Hv Hf Hk).
  - exact (DeckJs_keydown_end e p Hv Hf Hk).
  - exact (Part001_keydown_home e p Hv Hf Hk).
  - exact (Part001_keydown_end e p Hv Hf Hk).
Qed.

Lemma press_open (k : string) : ~ in_form_field (press k).
Proof. intros [H|H]; discriminate H. Qed.

(** Witness for X10: End on a page of four slides ends on slide 3. *)
Lemma X10_witness :
  exists n,
    Part001.keydown (press "End") (part_chrome 4)
    = Ok (true, {| Part001.nav := n;
                   Part001.chrome := Part001.chrome (part_chrome 4) |})
    /\ currentIndex (Part001.core n) = 3
    /\ rendered (Part001.core n).
Proof.
  destruct X10_home_and_end_reach_the_ends as [_ H].
  destruct (H (press "End") (part_chrome 4)) as [_ He].
  - apply page_core_valid. lia.
  - apply press_open.
  - destruct (He eq_refl) as (n & E & Hc & Hr & _).
    exists n. split; [exact E|]. split; [exact Hc|exact Hr].
Defined.


(** ** The notes panel *)

Lemma toggleNotes_iter (k : nat) (c : Chrome) :
  match notes_panel c with
  | Some v =>
      notesVisible (Nat.iter k DeckJs.toggleNotes c)
      = xorb (notesVisible c) (Nat.odd k)
      /\ notes_panel (Nat.iter k DeckJs.toggleNotes c)
         = Some (if (k =? 0)%nat then v else xorb (notesVisible c) (Nat.odd k))
      /\ fullscreenElement (Nat.iter k DeckJs.toggleNotes c) = fullscreenElement c
      /\ fullscreen_calls (Nat.iter k DeckJs.toggleNotes c) = fullscreen_calls c
  | None => Nat.iter k DeckJs.toggleNotes c = c
  end.
Proof.
  destruct (notes_panel c) as [v|] eqn:Hp.
  - induction k as [|k (IH1 & IH2 & IH3 & IH4)].
    + cbn. rewrite Hp. destruct (notesVisible c); auto.
    + rewrite Nat.iter_succ. set (c' := Nat.iter k DeckJs.toggleNotes c) in *.
      unfold DeckJs.toggleNotes. rewrite IH2. cbn.
      rewrite IH1, IH3, IH4, Nat.odd_succ, <- Nat.negb_odd.
      destruct (notesVisible c), (Nat.odd k); auto.
  - induction k as [|k IH]; [reflexivity|].
    rewrite Nat.iter_succ, IH. unfold DeckJs.toggleNotes. rewrite Hp.
    reflexivity.
Qed.

Lemma DeckJs_keydown_s (e : KeyEvent) (p : DeckJs.Page) :
  ~ in_form_field e -> key e = "s" \/ key e = "S" ->
  DeckJs.keydown e p
  = Ok (false, {| DeckJs.nav := DeckJs.nav p;
                  DeckJs.chrome := DeckJs.toggleNotes (DeckJs.chrome p) |}).
Proof.
  intros Hf Hk. rewrite (DeckJs_keydown_open e p Hf). cbn zeta.
  destruct Hk as [-> | ->]; reflexivity.
Qed.

Lemma Part001_keydown_s (e : KeyEvent) (p : Part001.Page) :
  ~ in_form_field e -> key e = "s" \/ key e = "S" ->
  Part001.keydown e p
  = Ok (false, {| Part001.nav := Part001.nav p;
                  Part001.chrome := DeckJs.toggleNotes (Part001.chrome p) |}).
Proof.
  intros Hf Hk. rewrite (Part001_keydown_open e p Hf). cbn zeta.
  destruct Hk as [-> | ->]; reflexivity.
Qed.

Lemma DeckJs_notes_presses (steps : list ActivityStep) (e : KeyEvent) (k : nat)
    (a : DeckJs.App) :
  ~ in_form_field e -> key e = "s" \/ key e = "S" ->
  DeckJs.app_run steps (replicate k (KeyDown e)) a
  = Ok {| DeckJs.page :=
            {| DeckJs.nav := DeckJs.nav (DeckJs.page a);
               DeckJs.chrome :=
                 Nat.iter k DeckJs.toggleNotes (DeckJs.chrome (DeckJs.page a)) |};
          DeckJs.timer := DeckJs.timer a; DeckJs.videos := DeckJs.videos a |}.
Proof.
  intros Hf Hk. revert a. induction k as [|k IH]; intros a.
  - cbn. destruct a as [[n c] t v]. reflexivity.
  - cbn [replicate DeckJs.app_run DeckJs.app_step].
    rewrite (DeckJs_keydown_s e _ Hf Hk). cbn [mbind result_bind snd].
    rewrite IH. cbn [DeckJs.page DeckJs.nav DeckJs.chrome DeckJs.timer DeckJs.videos].
    rewrite Nat.iter_succ_r. reflexivity.
Qed.

Lemma Part001_notes_presses (steps : list ActivityStep) (e : KeyEvent) (k : nat)
    (a : Part001.App) :
  ~ in_form_field e -> key e = "s" \/ key e = "S" ->
  Part001.app_run steps (replicate k (Part001.Common (KeyDown e))) a
  = Ok {| Part001.page :=
            {| Part001.nav := Part001.nav (Part001.page a);
               Part001.chrome :=
                 Nat.iter k DeckJs.toggleNotes (Part001.chrome (Part001.page a)) |};
          Part001.timer := Part001.timer a; Part001.videos := Part001.videos a;
          Part001.narration := Part001.narration a;
          Part001.imgs := Part001.imgs a |}.
Proof.
  intros Hf Hk. revert a. induction k as [|k IH]; intros a.
  - cbn. destruct a as [[n c] t v nr im]. reflexivity.
  - cbn [replicate Part001.app_run Part001.app_step].
    rewrite (Part001_keydown_s e _ Hf Hk). cbn [mbind result_bind snd].
    rewrite IH.
    cbn [Part001.page Part001.nav Part001.chrome Part001.timer Part001.videos
         Part001.narration Part001.imgs].
    rewrite Nat.iter_succ_r. reflexivity.
Qed.

(** X11.  In both revisions, the key "s" or "S" pressed [k] times
    outside form fields touches nothing but the notes panel and
    [notesVisible]: the navigator, the timer, the video slots, the
    full-screen state and the calls of the Fullscreen API, and in the
    narration revision the narration and the images, are as they were.
    If [#notes-panel] exists, [notesVisible] has flipped
    [k] times, and from the first press on the class [visible] is on the
    panel exactly when [notesVisible] holds, whatever the markup said; if
    the panel is missing, [notesVisible] never changes. *)
Theorem X11_notes_key_toggles_the_panel :
  (forall steps e (k : nat) a,
     ~ in_form_field e -> key e = "s" \/ key e = "S" ->
     exists a',
       DeckJs.app_run steps (replicate k (KeyDown e)) a = Ok a'
       /\ DeckJs.nav (DeckJs.page a') = DeckJs.nav (DeckJs.page a)
       /\ DeckJs.timer a' = DeckJs.timer a
       /\ DeckJs.videos a' = DeckJs.videos a
       /\ match notes_panel (DeckJs.chrome (DeckJs.page a)) with
          | Some v =>
              notesVisible (DeckJs.chrome (DeckJs.page a'))
              = xorb (notesVisible (DeckJs.chrome (DeckJs.page a))) (Nat.odd k)
              /\ notes_panel (DeckJs.chrome (DeckJs.page a'))
                 = Some (if (k =? 0)%nat then v
                         else notesVisible (DeckJs.chrome (DeckJs.page a')))
              /\ fullscreenElement (DeckJs.chrome (DeckJs.page a'))
                 = fullscreenElement (DeckJs.chrome (DeckJs.page a))
              /\ fullscreen_calls (DeckJs.chrome (DeckJs.page a'))
                 = fullscreen_calls (DeckJs.chrome (DeckJs.page a))
          | None => DeckJs.chrome (DeckJs.page a') = DeckJs.chrome (DeckJs.page a)
          end)
  /\ (forall steps e (k : nat) a,
       ~ in_form_field e -> key e = "s" \/ key e = "S" ->
       exists a',
         Part001.app_run steps (replicate k (Part001.Common (KeyDown e))) a = Ok a'
         /\ Part001.nav (Part001.page a') = Part001.nav (Part001.page a)
         /\ Part001.timer a' = Part001.timer a
         /\ Part001.videos a' = Part001.videos a
         /\ Part001.narration a' = Part001.narration a
         /\ Part001.imgs a' = Part001.imgs a
         /\ match notes_panel (Part001.chrome (Part001.page a)) with
            | Some v =>
                notesVisible (Part001.chrome (Part001.page a'))
                = xorb (notesVisible (Part001.chrome (Part001.page a))) (Nat.odd k)
                /\ notes_panel (Part001.chrome (Part001.page a'))
                   = Some (if (k =? 0)%nat then v
                           else notesVisible (Part001.chrome (Part001.page a')))
                /\ fullscreenElement (Part001.chrome (Part001.page a'))
                   = fullscreenElement (Part001.chrome (Part001.page a))
                /\ fullscreen_calls (Part001.chrome (Part001.page a'))
                   = fullscreen_calls (Part001.chrome (Part001.page a))
            | None =>
                Part001.chrome (Part001.page a') = Part001.chrome (Part001.page a)
            end).
Proof.
  split; intros steps e k a Hf Hk.
  - rewrite (DeckJs_notes_presses steps e k a Hf Hk). eexists. split; [reflexivity|].
    cbn [DeckJs.page DeckJs.nav DeckJs.chrome DeckJs.timer DeckJs.videos].
    split; [reflexivity|]. split; [reflexivity|]. split; [reflexivity|].
    pose proof (toggleNotes_iter k (DeckJs.chrome (DeckJs.page a))) as H.
    destruct (notes_panel (DeckJs.chrome (DeckJs.page a))); [|exact H].
    destruct H as (H1 & H2 & H3 & H4). rewrite H1, H2, H3, H4. auto.
  - rewrite (Part001_notes_presses steps e k a Hf Hk). eexists. split; [reflexivity|].
    cbn [Part001.page Part001.nav Part001.chrome Part001.timer Part001.videos
         Part001.narration Part001.imgs].
    split; [reflexivity|]. split; [reflexivity|]. split; [reflexivity|].
    split; [reflexivity|]. split; [reflexivity|].
    pose proof (toggleNotes_iter k (Part001.chrome (Part001.page a))) as H.
    destruct (notes_panel (Part001.chrome (Part001.page a))); [|exact H].
    destruct H as (H1 & H2 & H3 & H4). rewrite H1, H2, H3, H4. auto.
Qed.

(** Witness for X11: three presses of "s" leave the panel visible. *)
Lemma X11_witness :
  exists a',
    DeckJs.app_run DeckJs.ACTIVITY_STEPS (replicate 3 (KeyDown (press "s")))
      (deck_app 4 "full") = Ok a'
    /\ notesVisible (DeckJs.chrome (DeckJs.page a')) = true
    /\ notes_panel (DeckJs.chrome (DeckJs.page a')) = Some true.
Proof.
  destruct X11_notes_key_toggles_the_panel as [H _].
  destruct (H DeckJs.ACTIVITY_STEPS (press "s") 3%nat (deck_app 4 "full")
              (press_open "s") (or_introl eq_refl))
    as (a' & E & _ & _ & _ & H1 & H2 & _).
  exists a'. split; [exact E|]. split; [exact H1|].
  rewrite H2, H1. reflexivity.
Defined.


(** ** The metadata loader beyond its claim *)

(** One case split on the way of a computation that is known to return
    normally. *)
Ltac step_ok H :=
  match type of H with
  | context [result_bind _ _ _ ?x] =>
      lazymatch x with
      | context [result_bind _ _ _ _] => fail
      | Ok _ => fail
      | Throw _ => fail
      | _ => destruct x eqn:?
      end
  | context [if ?b then _ else _] =>
      lazymatch b with
      | context [result_bind _ _ _ _] => fail
      | _ => destruct b eqn:?
      end
  end; cbn [result_bind] in H; try discriminate H.

Lemma record_of_truthy (r : option Json) : truthy (record_of r) = true.
Proof. unfold record_of. destruct (truthy r) eqn:E; [exact E|reflexivity]. Qed.

Lemma metadata_cases (JSON_parse : string -> option Json) (d : VideoDoc) :
  no_metadata JSON_parse d \/ exists vs, payload_videos JSON_parse d vs.
Proof.
  unfold no_metadata, payload_videos.
  destruct (deck_data d) as [text|] eqn:Ht; [|auto].
  destruct (JSON_parse text) as [data|] eqn:Hp; [|auto].
  destruct (truthy (Some data)) eqn:Hd; [|auto].
  destruct (get_truthy (Some data) "videos" Hd) as [vs Hvs].
  destruct (truthy vs) eqn:Hv.
  - right. exists vs, text, data. auto.
  - left. right. eauto.
Qed.

Lemma hydrateVideos_none (JSON_parse : string -> option Json) (d : VideoDoc) :
  no_metadata JSON_parse d -> DeckJs.hydrateVideos JSON_parse d = Ok d.
Proof.
  unfold no_metadata, DeckJs.hydrateVideos.
  destruct (deck_data d) as [text|]; [|reflexivity].
  destruct (JSON_parse text) as [data|]; [|reflexivity].
  intros [H|(vs & Hg & Hv)].
  - rewrite H. reflexivity.
  - destruct (truthy (Some data)); [|reflexivity]. cbn [negb].
    rewrite Hg. cbn [mbind result_bind]. rewrite Hv. reflexivity.
Qed.

(** Whenever the round for one key returns normally, it has replaced the
    slot of that key and nothing else. *)
Lemma hydrate_key_inv (vs : option Json) (k : string) (d d' : VideoDoc) :
  DeckJs.hydrate_key vs k d = Ok d' ->
  exists r slot',
    get vs k = Ok r
    /\ d' = set_video k slot' d
    /\ hydrated (record_of r) (video d k) slot'.
Proof.
  intros H. unfold DeckJs.hydrate_key in H. unfold mbind in H.
  destruct (get vs k) as [r|] eqn:Hr; cbn [result_bind] in H; [|discriminate].
  fold (record_of r) in H.
  pose proof (record_of_truthy r) as Hrec.
  destruct (get_truthy _ "filename" Hrec) as [f Hf].
  destruct (get_truthy _ "remote" Hrec) as [rm Hrm].
  destruct (get_truthy _ "duration" Hrec) as [du Hdu].
  rewrite ?Hf, ?Hrm, ?Hdu in H. cbn [result_bind] in H.
  exists r. unfold hydrated, or_text in *.
  destruct (video d k) as [fe de pl]. cbn [fileEl durEl player] in *.
  destruct fe as [x|], de as [y|], pl as [p|]; cbn [result_bind] in H;
    repeat step_ok H;
    injection H as <-;
    repeat match goal with
           | E : Ok _ = Ok _ |- _ => injection E as E; try subst
           end;
    eexists; (split; [reflexivity|]); (split; [reflexivity|]);
    cbn [fileEl durEl player placeholder];
    (split; [split; intros [? ?]; try discriminate; eauto|]);
    (split; [split; intros [? ?]; try discriminate; eauto|]);
    (split; [intros; try discriminate; reflexivity|]);
    intros p0 Hp0; try discriminate Hp0; injection Hp0 as <-;
    exists f; (split; [exact Hf|]);
    repeat match goal with
           | E : truthy ?v = _ |- context [truthy ?v] => rewrite E
           end;
    first
      [ eexists; split; [eassumption|]; split; reflexivity
      | exists rm; split; [exact Hrm|];
        repeat match goal with
               | E : truthy ?v = _ |- context [truthy ?v] => rewrite E
               end;
        first [ eexists; split; [eassumption|]; split; reflexivity
              | split; reflexivity ] ].
Qed.

(** Whenever the loader returns normally on a usable payload, it has
    replaced the slots of the three keys, each by a round on the slot
    the page came with. *)
Lemma hydrateVideos_inv (JSON_parse : string -> option Json) (d d' : VideoDoc)
    (vs : option Json) :
  payload_videos JSON_parse d vs ->
  DeckJs.hydrateVideos JSON_parse d = Ok d' ->
  exists r1 r2 r3 s1 s2 s3,
    get vs "v1" = Ok r1 /\ get vs "v2" = Ok r2 /\ get vs "v3" = Ok r3
    /\ d' = set_video "v3" s3 (set_video "v2" s2 (set_video "v1" s1 d))
    /\ hydrated (record_of r1) (video d "v1") s1
    /\ hydrated (record_of r2) (video d "v2") s2
    /\ hydrated (record_of r3) (video d "v3") s3.
Proof.
  intros Hp H. rewrite (hydrateVideos_payload _ _ _ Hp) in H.
  cbn [forEach] in H. unfold mbind in H.
  destruct (DeckJs.hydrate_key vs "v1" d) as [d1|] eqn:E1;
    cbn [result_bind] in H; [|discriminate].
  destruct (DeckJs.hydrate_key vs "v2" d1) as [d2|] eqn:E2;
    cbn [result_bind] in H; [|discriminate].
  destruct (DeckJs.hydrate_key vs "v3" d2) as [d3|] eqn:E3;
    cbn [result_bind] in H; [|discriminate].
  injection H as <-.
  destruct (hydrate_key_inv _ _ _ _ E1) as (r1 & s1 & G1 & -> & H1).
  destruct (hydrate_key_inv _ _ _ _ E2) as (r2 & s2 & G2 & -> & H2).
  destruct (hydrate_key_inv _ _ _ _ E3) as (r3 & s3 & G3 & -> & H3).
  exists r1, r2, r3, s1, s2, s3. auto 10.
Qed.

Lemma hydrated_player_some (rec : option Json) (old new : VideoSlot) :
  hydrated rec old new -> (is_Some (player new) <-> is_Some (player old)).
Proof.
  intros (_ & _ & Hn & Hs). destruct (player old) as [p|] eqn:Hp.
  - destruct (Hs p eq_refl) as (f & _ & H).
    destruct (truthy f).
    + destruct H as (t & _ & -> & _). split; eauto.
    + destruct H as (rm & _ & H). destruct (truthy rm).
      * destruct H as (t & _ & -> & _). split; eauto.
      * destruct H as [-> _]. split; eauto.
  - rewrite (Hn eq_refl). tauto.
Qed.

Lemma hydrated_handler (rec : option Json) (old new : VideoSlot) :
  (forall rm, get rec "remote" = Ok rm -> printable rm) ->
  hydrated rec old new ->
  (forall p, player old = Some p -> handler_ok (onerror p)) ->
  forall p, player new = Some p -> handler_ok (onerror p).
Proof.
  intros Hpr (_ & _ & Hn & Hs) Hold p' Hp'.
  destruct (player old) as [p|] eqn:Hp.
  - destruct (Hs p eq_refl) as (f & Hf & H).
    destruct (truthy f).
    + destruct H as (t & _ & Hnew & _). rewrite Hnew in Hp'. injection Hp' as <-.
      cbn. assert (Hrm : exists rm, get rec "remote" = Ok rm).
      { destruct rec as [[| | | | |]|]; cbn in Hf |- *; try discriminate; eauto. }
      destruct Hrm as [rm Hrm]. eauto.
    + destruct H as (rm & _ & H). destruct (truthy rm).
      * destruct H as (t & _ & Hnew & _). rewrite Hnew in Hp'.
        injection Hp' as <-. cbn. apply (Hold p eq_refl).
      * destruct H as [Hnew _]. rewrite Hnew in Hp'. injection Hp' as <-.
        apply (Hold p eq_refl).
  - rewrite (Hn eq_refl) in Hp'. discriminate.
Qed.

Lemma record_of_printable (vs : option Json) (k : string) (r : option Json) :
  k ∈ ["v1"; "v2"; "v3"] ->
  videos_printable vs -> get vs k = Ok r ->
  forall rm, get (record_of r) "remote" = Ok rm -> printable rm.
Proof.
  intros Hk Hv Hr rm Hrm. apply (Hv k r Hk Hr "remote"); [in_list|exact Hrm].
Qed.

(** On a page whose payload is unusable, or usable with string
    conversions for all that is shown, the loader returns normally and
    every fallback handler it leaves behind can run. *)
Lemma hydrateVideos_handlers (JSON_parse : string -> option Json) (d : VideoDoc) :
  metadata_ok JSON_parse d -> handlers_ok d ->
  exists d', DeckJs.hydrateVideos JSON_parse d = Ok d' /\ handlers_ok d'.
Proof.
  intros [Hn|(vs & Hp & Hpr)] Hd.
  - exists d. split; [apply hydrateVideos_none, Hn|exact Hd].
  - assert (Hv : truthy vs = true) by (destruct Hp as (? & ? & ? & ? & ? & ? & ?); assumption).
    destruct (hydrate_three vs d Hv Hpr) as (s1 & s2 & s3 & E & _).
    rewrite <- (hydrateVideos_payload _ _ _ Hp) in E.
    destruct (hydrateVideos_inv _ _ _ _ Hp E)
      as (r1 & r2 & r3 & t1 & t2 & t3 & G1 & G2 & G3 & Ed & H1 & H2 & H3).
    eexists. split; [exact E|]. rewrite Ed.
    intros k p. rewrite !video_set_video.
    destruct (String.eqb k "v3"); [|destruct (String.eqb k "v2");
                                     [|destruct (String.eqb k "v1")]].
    + apply (hydrated_handler _ _ _ (record_of_printable vs "v3" r3 ltac:(in_list) Hpr G3) H3), Hd.
    + apply (hydrated_handler _ _ _ (record_of_printable vs "v2" r2 ltac:(in_list) Hpr G2) H2), Hd.
    + apply (hydrated_handler _ _ _ (record_of_printable vs "v1" r1 ltac:(in_list) Hpr G1) H1), Hd.
    + apply Hd.
Qed.

(** A failing player whose handler can run: the handler returns
    normally and every handler can still run. *)
Lemma player_error_handlers (k : string) (d : VideoDoc) :
  handlers_ok d ->
  exists d', DeckJs.player_error k d = Ok d' /\ handlers_ok d'.
Proof.
  intros Hd. unfold DeckJs.player_error.
  destruct (player (video d k)) as [p|] eqn:Hp; [|eauto].
  pose proof (Hd k p Hp) as Hh.
  destruct (onerror p) as [|rec] eqn:Ho; [eauto|].
  destruct Hh as (rm & Hrm & [t Ht]). rewrite Hrm. cbn [mbind result_bind].
  destruct (truthy rm); [|eauto]. rewrite Ht. cbn [mbind result_bind].
  eexists. split; [reflexivity|].
  intros k' p'. rewrite video_set_video.
  destruct (String.eqb k' k); [|apply Hd].
  cbn [player]. intros E. injection E as <-. cbn [onerror].
  cbn. exists rm. split; [exact Hrm|]. exists t. exact Ht.
Qed.


Lemma player_error_agree : Part001.player_error = DeckJs.player_error.
Proof. reflexivity. Qed.

Lemma placeholder_twice (slot : option string) (a b : string) :
  placeholder (placeholder slot a) b = placeholder slot b.
Proof. destruct slot; reflexivity. Qed.

(** The slot of one of the three keys after the loader, in terms of the
    slot before it. *)
Lemma hydrateVideos_slot (JSON_parse : string -> option Json) (d d' : VideoDoc)
    (vs : option Json) (k : string) (r : option Json) :
  payload_videos JSON_parse d vs ->
  DeckJs.hydrateVideos JSON_parse d = Ok d' ->
  k ∈ ["v1"; "v2"; "v3"] -> get vs k = Ok r ->
  hydrated (record_of r) (video d k) (video d' k).
Proof.
  intros Hp H Hk Hr.
  destruct (hydrateVideos_inv _ _ _ _ Hp H)
    as (r1 & r2 & r3 & s1 & s2 & s3 & G1 & G2 & G3 & -> & H1 & H2 & H3).
  rewrite !elem_of_cons in Hk.
  destruct Hk as [->|[->|[->|Hk]]]; [| | |apply elem_of_nil in Hk; destruct Hk].
  - assert (r = r1) as -> by congruence. exact H1.
  - assert (r = r2) as -> by congruence. exact H2.
  - assert (r = r3) as -> by congruence. exact H3.
Qed.

Lemma hydrateVideos_rest (JSON_parse : string -> option Json) (d d' : VideoDoc) :
  DeckJs.hydrateVideos JSON_parse d = Ok d' ->
  deck_data d' = deck_data d
  /\ forall k, k ∉ ["v1"; "v2"; "v3"] -> video d' k = video d k.
Proof.
  intros H. destruct (metadata_cases JSON_parse d) as [Hn|[vs Hp]].
  - rewrite (hydrateVideos_none _ _ Hn) in H. injection H as <-. auto.
  - destruct (hydrateVideos_inv _ _ _ _ Hp H)
      as (r1 & r2 & r3 & s1 & s2 & s3 & _ & _ & _ & -> & _).
    split; [reflexivity|]. intros k Hk. rewrite !video_set_video.
    rewrite !elem_of_cons in Hk.
    destruct (String.eqb_spec k "v3"); [tauto|].
    destruct (String.eqb_spec k "v2"); [tauto|].
    destruct (String.eqb_spec k "v1"); [tauto|]. reflexivity.
Qed.

(** X12.  In both revisions, for a payload that the loader has taken in
    without an exception, a key of the three and a player that exists:
    a record with a file name makes the local file the source, shows the
    name, and installs a handler for a failing load.  When that handler
    runs, a record without a remote address makes it do nothing; with a
    remote address the source becomes that address and the file label
    reads "Streaming from GitHub", nothing else on the page changing;
    and with a remote address that has no string conversion the handler
    throws.  A record without a file name but with a remote address
    streams from the start and gets no handler; a record with neither
    leaves the player as it is. *)
Theorem X12_local_file_first_then_remote :
  forall hydrateVideos player_error,
    loader_revision hydrateVideos player_error ->
    forall JSON_parse d d' vs k r p,
      payload_videos JSON_parse d vs ->
      hydrateVideos JSON_parse d = Ok d' ->
      k ∈ ["v1"; "v2"; "v3"] ->
      get vs k = Ok r ->
      player (video d k) = Some p ->
      exists f rm,
        get (record_of r) "filename" = Ok f
        /\ get (record_of r) "remote" = Ok rm
        /\ (truthy f = true ->
            exists t, text_of f = Ok t
              /\ player (video d' k)
                 = Some {| src := t; onerror := FallbackOf (record_of r) |}
              /\ fileEl (video d' k) = placeholder (fileEl (video d k)) t
              /\ (truthy rm = false -> player_error k d' = Ok d')
              /\ (truthy rm = true -> forall m, text_of rm = Throw m ->
                  player_error k d' = Throw m)
              /\ (truthy rm = true -> forall u, text_of rm = Ok u ->
                  exists d'', player_error k d' = Ok d''
                    /\ player (video d'' k)
                       = Some {| src := u; onerror := FallbackOf (record_of r) |}
                    /\ fileEl (video d'' k)
                       = placeholder (fileEl (video d k)) "Streaming from GitHub"
                    /\ durEl (video d'' k) = durEl (video d' k)
                    /\ deck_data d'' = deck_data d'
                    /\ (forall k', k' <> k -> video d'' k' = video d' k')))
        /\ (truthy f = false -> truthy rm = true ->
            exists u, text_of rm = Ok u
              /\ player (video d' k) = Some {| src := u; onerror := onerror p |}
              /\ fileEl (video d' k)
                 = placeholder (fileEl (video d k)) "Streaming from GitHub")
        /\ (truthy f = false -> truthy rm = false ->
            player (video d' k) = Some p).
Proof.
  intros hydrateVideos player_error Hrev.
  assert (hydrateVideos = DeckJs.hydrateVideos
          /\ player_error = DeckJs.player_error) as [-> ->].
  { destruct Hrev as [H|[-> ->]]; [exact H|].
    rewrite hydrateVideos_agree, player_error_agree. auto. }
  intros JSON_parse d d' vs k r p Hp H Hk Hr Hpl.
  destruct (hydrateVideos_slot _ _ _ _ _ _ Hp H Hk Hr) as (_ & _ & _ & Hs).
  destruct (Hs p Hpl) as (f & Hf & Hcase).
  destruct (get_truthy _ "remote" (record_of_truthy r)) as [rm Hrm].
  exists f, rm. split; [exact Hf|]. split; [exact Hrm|].
  destruct (truthy f) eqn:Tf.
  - destruct Hcase as (t & Ht & Hnew & Hfile).
    split; [|split; discriminate]. intros _. exists t.
    split; [exact Ht|]. split; [exact Hnew|]. split; [exact Hfile|].
    unfold DeckJs.player_error. rewrite Hnew. cbn [onerror].
    rewrite Hrm. cbn [mbind result_bind].
    split; [intros ->; reflexivity|].
    split.
    + intros -> m Hm. rewrite Hm. reflexivity.
    + intros -> u Hu. rewrite Hu. cbn [mbind result_bind].
      eexists. split; [reflexivity|]. rewrite !video_set_video, String.eqb_refl.
      cbn [player fileEl durEl deck_data set_video].
      split; [reflexivity|]. split; [rewrite Hfile; apply placeholder_twice|].
      split; [reflexivity|]. split; [reflexivity|].
      intros k' Hk'. rewrite video_set_video.
      destruct (String.eqb_spec k' k); [contradiction|reflexivity].
  - destruct Hcase as (rm' & Hrm' & Hcase).
    assert (rm' = rm) as -> by congruence.
    split; [discriminate|]. split.
    + intros _ Trm. rewrite Trm in Hcase.
      destruct Hcase as (u & Hu & Hnew & Hfile). eauto.
    + intros _ Trm. rewrite Trm in Hcase. apply Hcase.
Qed.

Lemma remote_payload :
  payload_videos remote_parse (video_page "remote")
    (Some (JObj [("v1", JObj [("filename", JStr "../a.mp4");
                              ("remote", JStr "https://example.org/a.mp4")]);
                 ("v2", JObj [("remote", JStr "https://example.org/b.mp4")])])).
Proof. eexists _, _. repeat split; reflexivity. Qed.

(** Witness for X12: the player of [v1] first gets the local file and,
    when it fails, the remote address. *)
Lemma X12_witness :
  exists d' d'',
    DeckJs.hydrateVideos remote_parse (video_page "remote") = Ok d'
    /\ player (video d' "v1")
       = Some {| src := "../a.mp4";
                 onerror :=
                   FallbackOf
                     (Some (JObj [("filename", JStr "../a.mp4");
                                  ("remote", JStr "https://example.org/a.mp4")])) |}
    /\ DeckJs.player_error "v1" d' = Ok d''
    /\ player (video d'' "v1")
       = Some {| src := "https://example.org/a.mp4";
                 onerror :=
                   FallbackOf
                     (Some (JObj [("filename", JStr "../a.mp4");
                                  ("remote", JStr "https://example.org/a.mp4")])) |}
    /\ fileEl (video d'' "v1") = Some "Streaming from GitHub".
Proof.
  destruct (DeckJs.hydrateVideos remote_parse (video_page "remote"))
    as [d'|] eqn:E; [|discriminate E].
  destruct (X12_local_file_first_then_remote
              DeckJs.hydrateVideos DeckJs.player_error
              (or_introl (conj eq_refl eq_refl))
              remote_parse (video_page "remote") d' _ "v1" _
              {| src := ""; onerror := NoHandler |}
              remote_payload E ltac:(in_list) eq_refl eq_refl)
    as (f & rm & Hf & Hrm & H1 & _).
  injection Hf as <-. injection Hrm as <-.
  destruct (H1 eq_refl) as (t & Ht & Hnew & _ & _ & _ & H3).
  injection Ht as <-.
  destruct (H3 eq_refl _ eq_refl) as (d'' & E2 & P2 & F2 & _).
  exists d', d''. auto.
Defined.

(** X13.  In both revisions, whenever the loader returns normally, for
    every parser and page: [#deck-data] is as it was, no element has
    appeared or disappeared in any slot, and the slots of all keys but
    [v1], [v2] and [v3] are exactly as they were. *)
Theorem X13_loader_keeps_the_page_in_shape :
  forall hydrateVideos,
    hydrateVideos = DeckJs.hydrateVideos \/ hydrateVideos = Part001.hydrateVideos ->
    forall JSON_parse d d',
      hydrateVideos JSON_parse d = Ok d' ->
      deck_data d' = deck_data d
      /\ (forall k,
            (is_Some (fileEl (video d' k)) <-> is_Some (fileEl (video d k)))
            /\ (is_Some (durEl (video d' k)) <-> is_Some (durEl (video d k)))
            /\ (is_Some (player (video d' k)) <-> is_Some (player (video d k))))
      /\ (forall k, k ∉ ["v1"; "v2"; "v3"] -> video d' k = video d k).
Proof.
  intros hydrateVideos Hrev.
  assert (hydrateVideos = DeckJs.hydrateVideos) as ->.
  { destruct Hrev as [->| ->]; [reflexivity|apply hydrateVideos_agree]. }
  intros JSON_parse d d' H.
  destruct (hydrateVideos_rest _ _ _ H) as [Hd Hrest].
  split; [exact Hd|]. split; [|exact Hrest].
  intros k. destruct (decide (k ∈ ["v1"; "v2"; "v3"])) as [Hk|Hk].
  - destruct (metadata_cases JSON_parse d) as [Hn|[vs Hp]].
    { rewrite (hydrateVideos_none _ _ Hn) in H. injection H as <-. tauto. }
    assert (Hr : exists r, get vs k = Ok r).
    { apply get_truthy. destruct Hp as (? & ? & ? & ? & ? & ? & ?). assumption. }
    destruct Hr as [r Hr].
    pose proof (hydrateVideos_slot _ _ _ _ _ _ Hp H Hk Hr) as Hh.
    pose proof (hydrated_player_some _ _ _ Hh) as Hpl.
    destruct Hh as (H1 & H2 & _). auto.
  - rewrite (Hrest k Hk). tauto.
Qed.

(** Witness for X13 on the sample page with the full payload. *)
Lemma X13_witness :
  exists d', DeckJs.hydrateVideos sample_parse (video_page "full") = Ok d'
    /\ deck_data d' = Some "full"
    /\ video d' "v4" = video (video_page "full") "v4".
Proof.
  destruct (DeckJs.hydrateVideos sample_parse (video_page "full"))
    as [d'|] eqn:E; [|discriminate E].
  destruct (X13_loader_keeps_the_page_in_shape DeckJs.hydrateVideos
              (or_introl eq_refl) sample_parse (video_page "full") d' E)
    as (H1 & _ & H3).
  exists d'. split; [reflexivity|]. split; [exact H1|].
  apply H3. rewrite !elem_of_cons. intros [H|[H|[H|H]]]; try discriminate H.
  apply elem_of_nil in H. exact H.
Defined.


(** ** The whole page *)

Lemma DeckJs_goToSlide_ok (i : Z) (s : DeckJs.State) :
  nav_valid (DeckJs.core s) -> 0 <= i < Js.len (slides (DeckJs.core s)) ->
  DeckJs.music_player s = None
  \/ DeckJs.music_player s = Some (DeckJs.musicActive s) ->
  exists s', DeckJs.goToSlide i s = Ok s'
    /\ deck_nav_ok s'
    /\ slide_moved i (DeckJs.core s) (DeckJs.core s').
Proof.
  intros Hv Hi Hm.
  destruct (DeckJs_goToSlide_spec i s Hv Hi) as (s' & E & _ & _ & Hr & _).
  destruct (DeckJs_goToSlide_moved i s Hv Hi) as (s2 & E2 & M).
  assert (s2 = s') as -> by congruence.
  exists s'. split; [exact E|]. split; [|exact M].
  split.
  { split; [exact (moved_valid i _ _ Hi M)|].
    split; [exact Hr|exact (moved_notes_synced i _ _ M)]. }
  destruct Hm as [Hn|Hs].
  - left. destruct (DeckJs_goToSlide_in i s Hv Hi) as (c3 & E3 & _).
    rewrite E3 in E. injection E as <-.
    unfold DeckJs.updateMusic. cbn [DeckJs.music_player DeckJs.with_core].
    rewrite Hn. cbn [DeckJs.music_player DeckJs.with_core]. exact Hn.
  - right. destruct (DeckJs_reveal_goTo i s Hv Hs Hi) as (s3 & E3 & _ & Hr3 & _).
    assert (s3 = s') as -> by congruence. exact Hr3.
Qed.

Lemma Part001_goToSlide_ok (i : Z) (s : Part001.State) :
  nav_valid (Part001.core s) -> 0 <= i < Js.len (slides (Part001.core s)) ->
  exists s', Part001.goToSlide i s = Ok s'
    /\ part_nav_ok s'
    /\ slide_moved i (Part001.core s) (Part001.core s').
Proof.
  intros Hv Hi.
  destruct (Part001_goToSlide_spec i s Hv Hi) as (s' & E & Hc & Hl & Hr & _).
  destruct (Part001_goToSlide_moved i s Hv Hi) as (s2 & E2 & M).
  assert (s2 = s') as -> by congruence.
  exists s'. split; [exact E|]. split; [|exact M].
  split.
  { split; [exact (moved_valid i _ _ Hi M)|].
    split; [exact Hr|exact (moved_notes_synced i _ _ M)]. }
  intros v Hv'. destruct (Part001.spotify_box s) as [v0|] eqn:Hb.
  - destruct (Part001_reveal_goTo i s v0 Hv Hb Hi) as (s3 & E3 & _ & Hb3 & _).
    assert (s3 = s') as -> by congruence.
    rewrite Hb3 in Hv'. injection Hv' as <-. rewrite Hc, Hl. reflexivity.
  - destruct (Part001_goToSlide_in i s Hv Hi) as (c3 & E3 & _).
    rewrite E3 in E. injection E as <-.
    unfold Part001.updateMusic in Hv'.
    cbn [Part001.spotify_box Part001.with_core] in Hv'.
    rewrite Hb in Hv'. cbn [Part001.spotify_box Part001.with_core] in Hv'.
    congruence.
Qed.

Lemma DeckJs_nav_step_goTo (ev : NavEvent) (s : DeckJs.State) :
  nav_valid (DeckJs.core s) ->
  DeckJs.nav_step ev s = Ok s
  \/ exists i, 0 <= i < Js.len (slides (DeckJs.core s))
       /\ DeckJs.nav_step ev s = DeckJs.goToSlide i s.
Proof.
  intros Hv. unfold nav_valid in Hv. destruct ev as [i| |]; cbn [DeckJs.nav_step].
  - destruct (decide (0 <= i < Js.len (slides (DeckJs.core s)))) as [Hi|Hi].
    + right. eauto.
    + left. apply DeckJs_goToSlide_out, Hi.
  - right. eexists. split; [|reflexivity]. lia.
  - right. eexists. split; [|reflexivity]. lia.
Qed.

Lemma DeckJs_nav_step_ok (ev : NavEvent) (s : DeckJs.State) :
  deck_nav_ok s ->
  exists s', DeckJs.nav_step ev s = Ok s'
    /\ deck_nav_ok s'
    /\ (only_current_active (DeckJs.core s) -> only_current_active (DeckJs.core s')).
Proof.
  intros Hok. pose proof Hok as [[Hv _] Hm].
  destruct (DeckJs_nav_step_goTo ev s Hv) as [E|(i & Hi & E)].
  - exists s. auto.
  - rewrite E. destruct (DeckJs_goToSlide_ok i s Hv Hi ltac:(destruct Hm as [Hn|[Hp _]]; auto)) as (s' & E' & Hok' & M).
    exists s'. split; [exact E'|]. split; [exact Hok'|].
    intros Ho. exact (moved_only_current i _ _ (only_current_others _ Ho) M).
Qed.

Lemma DeckJs_click_ok (s : DeckJs.State) :
  deck_nav_ok s ->
  (exists s', DeckJs.click_prev s = Ok s'
     /\ deck_nav_ok s'
     /\ (only_current_active (DeckJs.core s) -> only_current_active (DeckJs.core s')))
  /\ (exists s', DeckJs.click_next s = Ok s'
        /\ deck_nav_ok s'
        /\ (only_current_active (DeckJs.core s) -> only_current_active (DeckJs.core s'))).
Proof.
  intros Hok. unfold DeckJs.click_prev, DeckJs.click_next. split.
  - destruct (prev_btn (DeckJs.core s)) as [[|]|]; try (exists s; (split; [reflexivity|]); auto).
    exact (DeckJs_nav_step_ok Prev s Hok).
  - destruct (next_btn (DeckJs.core s)) as [[|]|]; try (exists s; (split; [reflexivity|]); auto).
    exact (DeckJs_nav_step_ok Next s Hok).
Qed.

Lemma DeckJs_keydown_ok (e : KeyEvent) (p : DeckJs.Page) :
  deck_nav_ok (DeckJs.nav p) ->
  exists b p', DeckJs.keydown e p = Ok (b, p')
    /\ deck_nav_ok (DeckJs.nav p')
    /\ (only_current_active (DeckJs.core (DeckJs.nav p))
        -> only_current_active (DeckJs.core (DeckJs.nav p'))).
Proof.
  intros Hok.
  destruct (DeckJs_keydown_cases e p) as [E|[E|[E|(ev & _ & E)]]];
    try (rewrite E; eexists _, _; split; [reflexivity|]; cbn [DeckJs.nav]; auto).
  destruct (DeckJs_nav_step_ok ev (DeckJs.nav p) Hok) as (n & En & Hn & Ho).
  rewrite En in E. cbn [mbind result_bind] in E. rewrite E.
  eexists _, _. split; [reflexivity|]. cbn [DeckJs.nav]. auto.
Qed.

Lemma Part001_nav_step_goTo (ev : NavEvent) (s : Part001.State) :
  nav_valid (Part001.core s) ->
  Part001.nav_step ev s = Ok s
  \/ exists i, 0 <= i < Js.len (slides (Part001.core s))
       /\ Part001.nav_step ev s = Part001.goToSlide i s.
Proof.
  intros Hv. unfold nav_valid in Hv. destruct ev as [i| |]; cbn [Part001.nav_step].
  - destruct (decide (0 <= i < Js.len (slides (Part001.core s)))) as [Hi|Hi].
    + right. eauto.
    + left. apply Part001_goToSlide_out, Hi.
  - right. eexists. split; [|reflexivity]. lia.
  - right. eexists. split; [|reflexivity]. lia.
Qed.

Lemma Part001_nav_step_ok (ev : NavEvent) (s : Part001.State) :
  part_nav_ok s ->
  exists s', Part001.nav_step ev s = Ok s'
    /\ part_nav_ok s'
    /\ (only_current_active (Part001.core s) -> only_current_active (Part001.core s')).
Proof.
  intros Hok. pose proof Hok as [[Hv _] Hm].
  destruct (Part001_nav_step_goTo ev s Hv) as [E|(i & Hi & E)].
  - exists s. auto.
  - rewrite E. destruct (Part001_goToSlide_ok i s Hv Hi ) as (s' & E' & Hok' & M).
    exists s'. split; [exact E'|]. split; [exact Hok'|].
    intros Ho. exact (moved_only_current i _ _ (only_current_others _ Ho) M).
Qed.

Lemma Part001_click_ok (s : Part001.State) :
  part_nav_ok s ->
  (exists s', Part001.click_prev s = Ok s'
     /\ part_nav_ok s'
     /\ (only_current_active (Part001.core s) -> only_current_active (Part001.core s')))
  /\ (exists s', Part001.click_next s = Ok s'
        /\ part_nav_ok s'
        /\ (only_current_active (Part001.core s) -> only_current_active (Part001.core s'))).
Proof.
  intros Hok. unfold Part001.click_prev, Part001.click_next. split.
  - destruct (prev_btn (Part001.core s)) as [[|]|]; try (exists s; (split; [reflexivity|]); auto).
    exact (Part001_nav_step_ok Prev s Hok).
  - destruct (next_btn (Part001.core s)) as [[|]|]; try (exists s; (split; [reflexivity|]); auto).
    exact (Part001_nav_step_ok Next s Hok).
Qed.

Lemma Part001_keydown_ok (e : KeyEvent) (p : Part001.Page) :
  part_nav_ok (Part001.nav p) ->
  exists b p', Part001.keydown e p = Ok (b, p')
    /\ part_nav_ok (Part001.nav p')
    /\ (only_current_active (Part001.core (Part001.nav p))
        -> only_current_active (Part001.core (Part001.nav p'))).
Proof.
  intros Hok.
  destruct (Part001_keydown_cases e p) as [E|[E|[E|(ev & _ & E)]]];
    try (rewrite E; eexists _, _; split; [reflexivity|]; cbn [Part001.nav]; auto).
  destruct (Part001_nav_step_ok ev (Part001.nav p) Hok) as (n & En & Hn & Ho).
  rewrite En in E. cbn [mbind result_bind] in E. rewrite E.
  eexists _, _. split; [reflexivity|]. cbn [Part001.nav]. auto.
Qed.

Lemma timer_ok_step (steps : list ActivityStep) (st : ActivityStep)
    (e : TimerEvent) (t : Timer) :
  Js.index steps 0 = Some st -> timer_ok steps t ->
  exists t', DeckJs.timer_step steps e t = Ok t' /\ timer_ok steps t'.
Proof.
  intros Hst [[Hb Hl]|[I D]].
  - exists t. split; [|left; auto].
    destruct e as [| |h]; cbn [DeckJs.timer_step]; rewrite ?Hb, ?Hl; auto.
  - destruct (timer_step_inv steps st e t Hst I) as (t' & E & I' & _).
    exists t'. split; [exact E|]. right. split; [exact I'|].
    destruct I as (_ & I2 & _).
    exact (timer_step_synced steps e t t' I2 D E).
Qed.

Lemma timer_ok_setup (steps : list ActivityStep) (st : ActivityStep) (t : Timer) :
  Js.index steps 0 = Some st -> timerRunning t = false -> intervals t = [] ->
  exists t', DeckJs.setupTimer steps t = Ok t' /\ timer_ok steps t'
    /\ (is_Some (timer_btn t) ->
        timerStepIndex t' = 0 /\ timerSeconds t' = duration st
        /\ timerRunning t' = false /\ timer_btn t' = timer_btn t).
Proof.
  intros Hst Hr Hl. destruct (timer_btn t) as [b|] eqn:Hb.
  - destruct (setupTimer_fresh steps st t Hst) as (t' & E & I & D & H1 & H2 & H3 & H4 & _).
    { split; [rewrite Hb; eauto|auto]. }
    exists t'. split; [exact E|]. split; [right; auto|].
    intros _. rewrite H4, Hb. auto.
  - exists t. unfold DeckJs.setupTimer. rewrite Hb.
    split; [reflexivity|]. split; [left; auto|]. intros [? ?]. discriminate.
Qed.


Lemma fresh_handlers (t : Timer) (v : VideoDoc) :
  widgets_fresh t v -> handlers_ok v.
Proof. intros (_ & _ & H) k p Hp. rewrite (H k p Hp). exact I. Qed.

Lemma setupNarration_quiet (s : Part001.Narr) :
  Part001.activeNarrate s = None -> Part001.timeouts s = [] ->
  quiet (Part001.setupNarration s).
Proof.
  intros Ha Ht. unfold quiet, Part001.setupNarration. narr_simpl.
  split; [exact Ha|]. split; [|exact Ht].
  intros i. unfold Part001.audio_paused. narr_simpl.
  rewrite list_lookup_fmap. destruct (Part001.controls s !! i); reflexivity.
Qed.

Lemma protectPhotos_spec (l : list Part001.Img) :
  length (Part001.protectPhotos l) = length l
  /\ forall im, im ∈ Part001.protectPhotos l ->
       Part001.draggable im = Some "false".
Proof.
  unfold Part001.protectPhotos. split; [apply length_fmap|].
  intros im Him. apply list_elem_of_fmap in Him as (x & -> & _). reflexivity.
Qed.

(** [init] of [deck.js] once the loader has returned normally. *)
Lemma DeckJs_init_from (JSON_parse : string -> option Json)
    (steps : list ActivityStep) (st : ActivityStep) (a : DeckJs.App) (v : VideoDoc) :
  Js.index steps 0 = Some st -> deck_fresh a ->
  DeckJs.hydrateVideos JSON_parse (DeckJs.videos a) = Ok v ->
  exists n t,
    DeckJs.init JSON_parse steps a
    = Ok {| DeckJs.page :=
              {| DeckJs.nav := n; DeckJs.chrome := DeckJs.chrome (DeckJs.page a) |};
            DeckJs.timer := t; DeckJs.videos := v |}
    /\ deck_nav_ok n
    /\ timer_ok steps t
    /\ currentIndex (DeckJs.core n) = 0
    /\ (others_inactive (DeckJs.core (DeckJs.nav (DeckJs.page a))) ->
        only_current_active (DeckJs.core n))
    /\ (is_Some (timer_btn (DeckJs.timer a)) ->
        timerStepIndex t = 0 /\ timerSeconds t = duration st
        /\ timerRunning t = false /\ timer_btn t = timer_btn (DeckJs.timer a)).
Proof.
  intros Hst (Hlen & Hc & Hmp & Hr & Hl & _) Hv.
  destruct (timer_ok_setup steps st (DeckJs.timer a) Hst Hr Hl) as (t & Et & Ht & Hbtn).
  assert (Hvalid : nav_valid (DeckJs.core (DeckJs.nav (DeckJs.page a)))).
  { unfold nav_valid. lia. }
  destruct (DeckJs_goToSlide_ok 0 (DeckJs.nav (DeckJs.page a)) Hvalid)
    as (n & En & Hn & M); [lia|exact Hmp|].
  exists n, t. unfold DeckJs.init.
  destruct (Z.eqb_spec (Js.len (slides (DeckJs.core (DeckJs.nav (DeckJs.page a))))) 0);
    [lia|].
  rewrite Hv, Et, En. cbn [mbind result_bind].
  split; [reflexivity|]. split; [exact Hn|]. split; [exact Ht|].
  split; [exact (proj1 M)|]. split; [|exact Hbtn].
  intros Ho. exact (moved_only_current 0 _ _ Ho M).
Qed.

(** [init] of the narration revision once the loader has returned
    normally. *)
Lemma Part001_init_from (JSON_parse : string -> option Json)
    (steps : list ActivityStep) (st : ActivityStep) (a : Part001.App) (v : VideoDoc) :
  Js.index steps 0 = Some st -> part_fresh a ->
  Part001.hydrateVideos JSON_parse (Part001.videos a) = Ok v ->
  exists n t,
    Part001.init JSON_parse steps a
    = Ok {| Part001.page :=
              {| Part001.nav := n;
                 Part001.chrome := Part001.chrome (Part001.page a) |};
            Part001.timer := t; Part001.videos := v;
            Part001.narration := Part001.setupNarration (Part001.narration a);
            Part001.imgs := Part001.protectPhotos (Part001.imgs a) |}
    /\ part_nav_ok n
    /\ timer_ok steps t
    /\ currentIndex (Part001.core n) = 0
    /\ (others_inactive (Part001.core (Part001.nav (Part001.page a))) ->
        only_current_active (Part001.core n))
    /\ (is_Some (timer_btn (Part001.timer a)) ->
        timerStepIndex t = 0 /\ timerSeconds t = duration st
        /\ timerRunning t = false /\ timer_btn t = timer_btn (Part001.timer a)).
Proof.
  intros Hst (Hlen & Hc & (Hr & Hl & _) & _) Hv.
  destruct (timer_ok_setup steps st (Part001.timer a) Hst Hr Hl) as (t & Et & Ht & Hbtn).
  assert (Hvalid : nav_valid (Part001.core (Part001.nav (Part001.page a)))).
  { unfold nav_valid. lia. }
  destruct (Part001_goToSlide_ok 0 (Part001.nav (Part001.page a)) Hvalid)
    as (n & En & Hn & M); [lia|].
  exists n, t. unfold Part001.init.
  destruct (Z.eqb_spec (Js.len (slides (Part001.core (Part001.nav (Part001.page a))))) 0);
    [lia|].
  rewrite Hv. cbn [mbind result_bind].
  change (Part001.setupTimer steps (Part001.timer a))
    with (DeckJs.setupTimer steps (Part001.timer a)).
  rewrite Et. cbn [mbind result_bind]. cbn zeta. rewrite En. cbn [mbind result_bind].
  split; [reflexivity|]. split; [exact Hn|]. split; [exact Ht|].
  split; [exact (proj1 M)|]. split; [|exact Hbtn].
  intros Ho. exact (moved_only_current 0 _ _ Ho M).
Qed.

Ltac page_ok :=
  unfold deck_ok, part_ok;
  cbn [DeckJs.page DeckJs.nav DeckJs.chrome DeckJs.timer DeckJs.videos
       Part001.page Part001.nav Part001.chrome Part001.timer Part001.videos
       Part001.narration Part001.imgs];
  auto 10.

Lemma DeckJs_app_step_ok (steps : list ActivityStep) (st : ActivityStep)
    (e : AppEvent) (a : DeckJs.App) :
  Js.index steps 0 = Some st -> deck_ok steps a ->
  exists a', DeckJs.app_step steps e a = Ok a'
    /\ deck_ok steps a'
    /\ (only_current_active (DeckJs.core (DeckJs.nav (DeckJs.page a))) ->
        only_current_active (DeckJs.core (DeckJs.nav (DeckJs.page a')))).
Proof.
  intros Hst (Hc & Hm & Ht & Hh).
  assert (Hnav : deck_nav_ok (DeckJs.nav (DeckJs.page a))) by (split; assumption).
  destruct e as [| |k|on|te|k]; cbn [DeckJs.app_step].
  - destruct (proj1 (DeckJs_click_ok _ Hnav)) as (n & E & [Hc' Hm'] & Ho).
    rewrite E. cbn [mbind result_bind]. eexists. split; [reflexivity|].
    split; [|exact Ho]. page_ok.
  - destruct (proj2 (DeckJs_click_ok _ Hnav)) as (n & E & [Hc' Hm'] & Ho).
    rewrite E. cbn [mbind result_bind]. eexists. split; [reflexivity|].
    split; [|exact Ho]. page_ok.
  - destruct (DeckJs_keydown_ok k _ Hnav) as (b & p' & E & [Hc' Hm'] & Ho).
    rewrite E. cbn [mbind result_bind snd]. eexists. split; [reflexivity|].
    split; [|exact Ho]. page_ok.
  - eexists. split; [reflexivity|]. split; [|auto]. page_ok.
  - destruct (timer_ok_step steps st te _ Hst Ht) as (t' & E & Ht').
    rewrite E. cbn [mbind result_bind]. eexists. split; [reflexivity|].
    split; [|auto]. page_ok.
  - destruct (player_error_handlers k _ Hh) as (v' & E & Hh').
    rewrite E. cbn [mbind result_bind]. eexists. split; [reflexivity|].
    split; [|auto]. page_ok.
Qed.

Lemma DeckJs_app_run_ok (steps : list ActivityStep) (st : ActivityStep)
    (es : list AppEvent) (a : DeckJs.App) :
  Js.index steps 0 = Some st -> deck_ok steps a ->
  exists a', DeckJs.app_run steps es a = Ok a'
    /\ deck_ok steps a'
    /\ (only_current_active (DeckJs.core (DeckJs.nav (DeckJs.page a))) ->
        only_current_active (DeckJs.core (DeckJs.nav (DeckJs.page a')))).
Proof.
  intros Hst. revert a. induction es as [|e es IH]; intros a Hok.
  - exists a. cbn. auto.
  - destruct (DeckJs_app_step_ok steps st e a Hst Hok) as (a1 & E & Hok1 & Ho1).
    destruct (IH a1 Hok1) as (a' & E' & Hok' & Ho').
    exists a'. cbn [DeckJs.app_run]. rewrite E. cbn [mbind result_bind]. auto.
Qed.

Lemma Part001_app_step_ok (steps : list ActivityStep) (st : ActivityStep)
    (e : Part001.Event) (a : Part001.App) :
  Js.index steps 0 = Some st -> part_ok steps a ->
  exists a', Part001.app_step steps e a = Ok a'
    /\ part_ok steps a'
    /\ (only_current_active (Part001.core (Part001.nav (Part001.page a))) ->
        only_current_active (Part001.core (Part001.nav (Part001.page a')))).
Proof.
  intros Hst (Hc & Hm & Ht & Hh & Hn & Hi).
  assert (Hnav : part_nav_ok (Part001.nav (Part001.page a))) by (split; assumption).
  destruct e as [[| |k|on|te|k]|ne]; cbn [Part001.app_step].
  - destruct (proj1 (Part001_click_ok _ Hnav)) as (n & E & [Hc' Hm'] & Ho).
    rewrite E. cbn [mbind result_bind]. eexists. split; [reflexivity|].
    split; [|exact Ho]. page_ok.
  - destruct (proj2 (Part001_click_ok _ Hnav)) as (n & E & [Hc' Hm'] & Ho).
    rewrite E. cbn [mbind result_bind]. eexists. split; [reflexivity|].
    split; [|exact Ho]. page_ok.
  - destruct (Part001_keydown_ok k _ Hnav) as (b & p' & E & [Hc' Hm'] & Ho).
    rewrite E. cbn [mbind result_bind snd]. eexists. split; [reflexivity|].
    split; [|exact Ho]. page_ok.
  - eexists. split; [reflexivity|]. split; [|auto]. page_ok.
  - destruct (timer_ok_step steps st te _ Hst Ht) as (t' & E & Ht').
    change (Part001.timer_step steps te (Part001.timer a))
      with (DeckJs.timer_step steps te (Part001.timer a)).
    rewrite E. cbn [mbind result_bind]. eexists. split; [reflexivity|].
    split; [|auto]. page_ok.
  - destruct (player_error_handlers k _ Hh) as (v' & E & Hh').
    change (Part001.player_error k (Part001.videos a))
      with (DeckJs.player_error k (Part001.videos a)).
    rewrite E. cbn [mbind result_bind]. eexists. split; [reflexivity|].
    split; [|auto]. page_ok.
  - eexists. split; [reflexivity|]. split; [|auto].
    cbn [Part001.page Part001.timer Part001.videos Part001.narration Part001.imgs].
    pose proof (narr_step_inv ne _ Hn). page_ok.
Qed.

Lemma Part001_app_run_ok (steps : list ActivityStep) (st : ActivityStep)
    (es : list Part001.Event) (a : Part001.App) :
  Js.index steps 0 = Some st -> part_ok steps a ->
  exists a', Part001.app_run steps es a = Ok a'
    /\ part_ok steps a'
    /\ (only_current_active (Part001.core (Part001.nav (Part001.page a))) ->
        only_current_active (Part001.core (Part001.nav (Part001.page a')))).
Proof.
  intros Hst. revert a. induction es as [|e es IH]; intros a Hok.
  - exists a. cbn. auto.
  - destruct (Part001_app_step_ok steps st e a Hst Hok) as (a1 & E & Hok1 & Ho1).
    destruct (IH a1 Hok1) as (a' & E' & Hok' & Ho').
    exists a'. cbn [Part001.app_run]. rewrite E. cbn [mbind result_bind]. auto.
Qed.

Lemma full_metadata_ok : metadata_ok sample_parse (video_page "full").
Proof.
  right. eexists. split.
  - do 2 eexists. repeat (split; [reflexivity|]). reflexivity.
  - apply videos_printable_obj.
    repeat (apply Forall_cons; split; [apply record_printable_sample|]).
    apply Forall_nil. exact I.
Qed.

Lemma video_page_fresh (t : Timer) (text : string) :
  timerRunning t = false -> intervals t = [] -> widgets_fresh t (video_page text).
Proof.
  intros Hr Hl. split; [exact Hr|]. split; [exact Hl|].
  intros k p Hp. cbn in Hp. injection Hp as <-. reflexivity.
Qed.

Lemma deck_app_fresh (n : nat) (text : string) :
  (0 < n)%nat -> deck_fresh (deck_app n text).
Proof.
  intros Hn. unfold deck_fresh, deck_app, Js.len. cbn.
  rewrite length_replicate.
  split; [lia|]. split; [reflexivity|]. split; [right; reflexivity|].
  apply video_page_fresh; reflexivity.
Qed.

Lemma part_app_fresh (n : nat) (text : string) :
  (0 < n)%nat -> part_fresh (part_app n text).
Proof.
  intros Hn. unfold part_fresh, part_app, Js.len. cbn.
  rewrite length_replicate.
  split; [lia|]. split; [reflexivity|].
  split; [apply video_page_fresh; reflexivity|]. auto.
Qed.

Lemma setupTimer_returns (steps : list ActivityStep) (st : ActivityStep)
    (t : Timer) :
  Js.index steps 0 = Some st -> exists t', DeckJs.setupTimer steps t = Ok t'.
Proof.
  intros Hst. unfold DeckJs.setupTimer.
  destruct (timer_btn t); [|eauto]. rewrite Hst.
  destruct (renderTimer_ok steps
              (set_timerSeconds (duration st) (set_timerStepIndex 0 t)))
    as (t' & E & _); [cbn; lia|eauto].
Qed.

(** [init] returns once the loader has: the timer is set up from a step
    table that is not empty, and [goToSlide(0)] finds its slides. *)
Lemma DeckJs_init_returns (JSON_parse : string -> option Json)
    (steps : list ActivityStep) (st : ActivityStep) (a : DeckJs.App) (v : VideoDoc) :
  Js.index steps 0 = Some st ->
  nav_valid (DeckJs.core (DeckJs.nav (DeckJs.page a))) ->
  DeckJs.hydrateVideos JSON_parse (DeckJs.videos a) = Ok v ->
  exists a', DeckJs.init JSON_parse steps a = Ok a'.
Proof.
  intros Hst Hv Ev. unfold DeckJs.init.
  destruct (Z.eqb_spec (Js.len (slides (DeckJs.core (DeckJs.nav (DeckJs.page a))))) 0)
    as [H0|_]; [eauto|].
  destruct (setupTimer_returns steps st (DeckJs.timer a) Hst) as [t Et].
  destruct (DeckJs_goToSlide_spec 0 (DeckJs.nav (DeckJs.page a)) Hv) as (n & En & _).
  { unfold nav_valid in Hv. lia. }
  rewrite Ev, Et, En. cbn [mbind result_bind]. eauto.
Qed.

Lemma Part001_init_returns (JSON_parse : string -> option Json)
    (steps : list ActivityStep) (st : ActivityStep) (a : Part001.App) (v : VideoDoc) :
  Js.index steps 0 = Some st ->
  nav_valid (Part001.core (Part001.nav (Part001.page a))) ->
  Part001.hydrateVideos JSON_parse (Part001.videos a) = Ok v ->
  exists a', Part001.init JSON_parse steps a = Ok a'.
Proof.
  intros Hst Hv Ev. unfold Part001.init.
  destruct (Z.eqb_spec
              (Js.len (slides (Part001.core (Part001.nav (Part001.page a))))) 0)
    as [H0|_]; [eauto|].
  destruct (setupTimer_returns steps st (Part001.timer a) Hst) as [t Et].
  destruct (Part001_goToSlide_spec 0 (Part001.nav (Part001.page a)) Hv)
    as (n & En & _).
  { unfold nav_valid in Hv. lia. }
  rewrite Ev. cbn [mbind result_bind].
  change (Part001.setupTimer steps (Part001.timer a))
    with (DeckJs.setupTimer steps (Part001.timer a)).
  rewrite Et. cbn [mbind result_bind]. rewrite En. cbn [mbind result_bind]. eauto.
Qed.

(** X14.  [init] of either revision at page load, for a step table
    that is not empty.  The page has at least one slide and
    [currentIndex] is 0; the timer does not run, no interval is live and
    no video player has an error handler; in [deck.js], [#music-player]
    is missing or carries the class [visible] exactly when [musicActive]
    is set; in the narration revision no narration is active and no cue
    callback is pending; the payload is unusable, or every [filename],
    [duration] and [remote] of its records [v1], [v2], [v3] has a string
    conversion.  Then [init] returns normally and leaves the page in
    order.  The deck shows slide 0 with its derived elements
    rendered and its note in the notes panel, the reveal widget follows
    its rule, the videos are as the loader leaves them, the notes panel
    and the full-screen state are untouched, and a timer with a
    [#timer-btn] stands at the first step with its full duration, not
    running.  If the markup marks no slide but the first as active,
    exactly slide 0 is active.  In the narration revision, moreover,
    the narration is as [setupNarration] leaves it, with nothing active
    or pending, and every image has [draggable] set to "false". *)
Theorem X14_init_sets_the_page_up :
  (forall JSON_parse steps st a,
     Js.index steps 0 = Some st -> deck_fresh a ->
     metadata_ok JSON_parse (DeckJs.videos a) ->
     exists a', DeckJs.init JSON_parse steps a = Ok a'
       /\ deck_ok steps a'
       /\ currentIndex (DeckJs.core (DeckJs.nav (DeckJs.page a'))) = 0
       /\ DeckJs.chrome (DeckJs.page a') = DeckJs.chrome (DeckJs.page a)
       /\ DeckJs.hydrateVideos JSON_parse (DeckJs.videos a) = Ok (DeckJs.videos a')
       /\ (others_inactive (DeckJs.core (DeckJs.nav (DeckJs.page a))) ->
           only_current_active (DeckJs.core (DeckJs.nav (DeckJs.page a'))))
       /\ (is_Some (timer_btn (DeckJs.timer a)) ->
           timerStepIndex (DeckJs.timer a') = 0
           /\ timerSeconds (DeckJs.timer a') = duration st
           /\ timerRunning (DeckJs.timer a') = false))
  /\ (forall JSON_parse steps st a,
       Js.index steps 0 = Some st -> part_fresh a ->
       metadata_ok JSON_parse (Part001.videos a) ->
       exists a', Part001.init JSON_parse steps a = Ok a'
         /\ part_ok steps a'
         /\ currentIndex (Part001.core (Part001.nav (Part001.page a'))) = 0
         /\ Part001.chrome (Part001.page a') = Part001.chrome (Part001.page a)
         /\ Part001.hydrateVideos JSON_parse (Part001.videos a)
            = Ok (Part001.videos a')
         /\ (others_inactive (Part001.core (Part001.nav (Part001.page a))) ->
             only_current_active (Part001.core (Part001.nav (Part001.page a'))))
         /\ (is_Some (timer_btn (Part001.timer a)) ->
             timerStepIndex (Part001.timer a') = 0
             /\ timerSeconds (Part001.timer a') = duration st
             /\ timerRunning (Part001.timer a') = false)
         /\ Part001.narration a' = Part001.setupNarration (Part001.narration a)
         /\ quiet (Part001.narration a')
         /\ length (Part001.imgs a') = length (Part001.imgs a)).
Proof.
  split; intros JSON_parse steps st a Hst Hf Hm.
  - pose proof Hf as (_ & _ & _ & Hw).
    destruct (hydrateVideos_handlers JSON_parse _ Hm (fresh_handlers _ _ Hw))
      as (v & Ev & Hh).
    destruct (DeckJs_init_from JSON_parse steps st a v Hst Hf Ev)
      as (n & t & E & [Hc Hmu] & Ht & Hi & Ho & Hb).
    eexists. split; [exact E|].
    cbn [DeckJs.page DeckJs.nav DeckJs.chrome DeckJs.timer DeckJs.videos].
    split; [page_ok|]. split; [exact Hi|]. split; [reflexivity|].
    split; [exact Ev|]. split; [exact Ho|].
    intros H. destruct (Hb H) as (H1 & H2 & H3 & _). auto.
  - pose proof Hf as (_ & _ & Hw & Ha & Hto).
    destruct (hydrateVideos_handlers JSON_parse _ Hm (fresh_handlers _ _ Hw))
      as (v & Ev & Hh).
    destruct (Part001_init_from JSON_parse steps st a v Hst Hf Ev)
      as (n & t & E & [Hc Hmu] & Ht & Hi & Ho & Hb).
    pose proof (setupNarration_quiet _ Ha Hto) as Hq.
    pose proof (quiet_inv _ Hq) as Hinv.
    destruct (protectPhotos_spec (Part001.imgs a)) as [Hlen Hdr].
    eexists. split; [exact E|].
    cbn [Part001.page Part001.nav Part001.chrome Part001.timer Part001.videos
         Part001.narration Part001.imgs].
    split; [page_ok|]. split; [exact Hi|]. split; [reflexivity|].
    split; [exact Ev|]. split; [exact Ho|].
    split; [intros H; destruct (Hb H) as (H1 & H2 & H3 & _); auto|].
    auto.
Qed.

(** Witness for X14: the sample page of four slides with the full
    payload and the step table of [deck.js]. *)
Lemma X14_witness :
  exists a', DeckJs.init sample_parse DeckJs.ACTIVITY_STEPS (deck_app 4 "full") = Ok a'
    /\ deck_ok DeckJs.ACTIVITY_STEPS a'
    /\ currentIndex (DeckJs.core (DeckJs.nav (DeckJs.page a'))) = 0
    /\ only_current_active (DeckJs.core (DeckJs.nav (DeckJs.page a')))
    /\ timerSeconds (DeckJs.timer a') = 180.
Proof.
  destruct X14_init_sets_the_page_up as [H _].
  destruct (H sample_parse DeckJs.ACTIVITY_STEPS _ (deck_app 4 "full") eq_refl
              (deck_app_fresh 4 "full" ltac:(lia)) full_metadata_ok)
    as (a' & E & Hok & Hi & _ & _ & Ho & Ht).
  exists a'. split; [exact E|]. split; [exact Hok|]. split; [exact Hi|].
  split; [apply Ho, page_core_inactive|].
  destruct Ht as (_ & Hs & _); [eexists; reflexivity|exact Hs].
Defined.

(** X15.  [init] of either revision fails only through the loader.  On
    a page without slides it returns at once and leaves the page as it
    was, whatever the payload.  On a page whose current index names a
    slide (at page load the index is 0), for a step table that is not
    empty, it returns normally exactly when [hydrateVideos] does, and an
    exception of the loader is the exception of [init]. *)
Theorem X15_init_fails_only_through_the_loader :
  (forall JSON_parse steps a,
     Js.len (slides (DeckJs.core (DeckJs.nav (DeckJs.page a)))) = 0 ->
     DeckJs.init JSON_parse steps a = Ok a)
  /\ (forall JSON_parse steps a,
       Js.len (slides (Part001.core (Part001.nav (Part001.page a)))) = 0 ->
       Part001.init JSON_parse steps a = Ok a)
  /\ (forall JSON_parse steps st a,
       Js.index steps 0 = Some st ->
       nav_valid (DeckJs.core (DeckJs.nav (DeckJs.page a))) ->
       ((exists a', DeckJs.init JSON_parse steps a = Ok a')
        <-> (exists v, DeckJs.hydrateVideos JSON_parse (DeckJs.videos a) = Ok v))
       /\ (forall m, DeckJs.hydrateVideos JSON_parse (DeckJs.videos a) = Throw m ->
           DeckJs.init JSON_parse steps a = Throw m))
  /\ (forall JSON_parse steps st a,
       Js.index steps 0 = Some st ->
       nav_valid (Part001.core (Part001.nav (Part001.page a))) ->
       ((exists a', Part001.init JSON_parse steps a = Ok a')
        <-> (exists v, Part001.hydrateVideos JSON_parse (Part001.videos a) = Ok v))
       /\ (forall m, Part001.hydrateVideos JSON_parse (Part001.videos a) = Throw m ->
           Part001.init JSON_parse steps a = Throw m)).
Proof.
  split; [intros JSON_parse steps a H; unfold DeckJs.init; rewrite H; reflexivity|].
  split; [intros JSON_parse steps a H; unfold Part001.init; rewrite H; reflexivity|].
  split; intros JSON_parse steps st a Hst Hf.
  - assert (Hthrow : forall m,
              DeckJs.hydrateVideos JSON_parse (DeckJs.videos a) = Throw m ->
              DeckJs.init JSON_parse steps a = Throw m).
    { intros m Hm. unfold DeckJs.init. unfold nav_valid in Hf.
      destruct (Z.eqb_spec
                  (Js.len (slides (DeckJs.core (DeckJs.nav (DeckJs.page a))))) 0);
        [lia|].
      rewrite Hm. reflexivity. }
    split; [|exact Hthrow]. split.
    + intros [a' E].
      destruct (DeckJs.hydrateVideos JSON_parse (DeckJs.videos a)) as [v|m] eqn:Ev;
        [eauto|].
      rewrite (Hthrow m eq_refl) in E. discriminate.
    + intros [v Ev]. exact (DeckJs_init_returns JSON_parse steps st a v Hst Hf Ev).
  - assert (Hthrow : forall m,
              Part001.hydrateVideos JSON_parse (Part001.videos a) = Throw m ->
              Part001.init JSON_parse steps a = Throw m).
    { intros m Hm. unfold Part001.init. unfold nav_valid in Hf.
      destruct (Z.eqb_spec
                  (Js.len (slides (Part001.core (Part001.nav (Part001.page a))))) 0);
        [lia|].
      rewrite Hm. reflexivity. }
    split; [|exact Hthrow]. split.
    + intros [a' E].
      destruct (Part001.hydrateVideos JSON_parse (Part001.videos a)) as [v|m] eqn:Ev;
        [eauto|].
      rewrite (Hthrow m eq_refl) in E. discriminate.
    + intros [v Ev]. exact (Part001_init_returns JSON_parse steps st a v Hst Hf Ev).
Qed.

(** Witness for X15: on the sample page whose payload has an object with
    a [toString] of its own as a file name, [init] throws. *)
Lemma X15_witness :
  exists m,
    Part001.init (fun _ => Some unprintable_payload) Part001.ACTIVITY_STEPS
      (part_app 3 "any") = Throw m.
Proof.
  destruct X15_init_fails_only_through_the_loader as (_ & _ & _ & H4).
  destruct (H4 (fun _ => Some unprintable_payload) Part001.ACTIVITY_STEPS _
              (part_app 3 "any") eq_refl)
    as [_ Ht].
  - unfold nav_valid, Js.len. cbn. lia.
  - eexists. apply Ht. reflexivity.
Defined.

(** X16.  From page load on, nothing throws and the page stays in
    order.  In either revision, on a page as at page load (at least one
    slide, [currentIndex] 0, the timer not running, no interval live, no
    video player with an error handler; in [deck.js], [#music-player]
    missing or with the class [visible] exactly when [musicActive] is
    set; in the narration revision no narration active and no cue
    callback pending), with a payload that is unusable or has a string
    conversion for every [filename], [duration] and [remote] of its
    records [v1], [v2], [v3], and a step table that is not empty: after
    [init],
    every sequence of clicks on the two buttons, keys, full-screen
    changes, timer clicks and ticks, and failing video loads (and, in the
    narration revision, narration events) is handled without an
    exception, and afterwards the index names a slide, the derived
    elements, the notes panel and the reveal widget show it, the timer
    and its display are consistent, and every fallback handler can run.
    If the markup marks no slide but the first as active, exactly the
    current slide is active. *)
Theorem X16_nothing_throws_after_init :
  (forall JSON_parse steps st a es,
     Js.index steps 0 = Some st -> deck_fresh a ->
     metadata_ok JSON_parse (DeckJs.videos a) ->
     exists a0 a', DeckJs.init JSON_parse steps a = Ok a0
       /\ DeckJs.app_run steps es a0 = Ok a'
       /\ deck_ok steps a'
       /\ (others_inactive (DeckJs.core (DeckJs.nav (DeckJs.page a))) ->
           only_current_active (DeckJs.core (DeckJs.nav (DeckJs.page a')))))
  /\ (forall JSON_parse steps st a es,
       Js.index steps 0 = Some st -> part_fresh a ->
       metadata_ok JSON_parse (Part001.videos a) ->
       exists a0 a', Part001.init JSON_parse steps a = Ok a0
         /\ Part001.app_run steps es a0 = Ok a'
         /\ part_ok steps a'
         /\ (others_inactive (Part001.core (Part001.nav (Part001.page a))) ->
             only_current_active (Part001.core (Part001.nav (Part001.page a'))))).
Proof.
  split; intros JSON_parse steps st a es Hst Hf Hm.
  - pose proof Hf as (_ & _ & _ & Hw).
    destruct (hydrateVideos_handlers JSON_parse _ Hm (fresh_handlers _ _ Hw))
      as (v & Ev & Hh).
    destruct (DeckJs_init_from JSON_parse steps st a v Hst Hf Ev)
      as (n & t & E & [Hc Hmu] & Ht & Hi & Ho & Hb).
    match type of E with _ = Ok ?x => set (a0 := x) in * end.
    assert (Hok : deck_ok steps a0) by (unfold a0; page_ok).
    destruct (DeckJs_app_run_ok steps st es a0 Hst Hok) as (a' & E' & Hok' & Ho').
    exists a0, a'. split; [exact E|]. split; [exact E'|]. split; [exact Hok'|].
    intros H. apply Ho'. unfold a0. cbn [DeckJs.page DeckJs.nav]. exact (Ho H).
  - pose proof Hf as (_ & _ & Hw & Ha & Hto).
    destruct (hydrateVideos_handlers JSON_parse _ Hm (fresh_handlers _ _ Hw))
      as (v & Ev & Hh).
    destruct (Part001_init_from JSON_parse steps st a v Hst Hf Ev)
      as (n & t & E & [Hc Hmu] & Ht & Hi & Ho & Hb).
    pose proof (quiet_inv _ (setupNarration_quiet _ Ha Hto)) as Hinv.
    destruct (protectPhotos_spec (Part001.imgs a)) as [Hlen Hdr].
    match type of E with _ = Ok ?x => set (a0 := x) in * end.
    assert (Hok : part_ok steps a0) by (unfold a0; page_ok).
    destruct (Part001_app_run_ok steps st es a0 Hst Hok) as (a' & E' & Hok' & Ho').
    exists a0, a'. split; [exact E|]. split; [exact E'|]. split; [exact Hok'|].
    intros H. apply Ho'. unfold a0. cbn [Part001.page Part001.nav]. exact (Ho H).
Qed.

(** Witness for X16: the narration revision on the sample page, with the
    keys End and "s", a click on "previous", a started timer with one
    tick, a narration click and a failing video. *)
Lemma X16_witness :
  exists a0 a',
    Part001.init sample_parse Part001.ACTIVITY_STEPS (part_app 4 "full") = Ok a0
    /\ Part001.app_run Part001.ACTIVITY_STEPS
         [ Part001.Common (KeyDown (press "End"));
           Part001.Common (KeyDown (press "s"));
           Part001.Common ClickPrev;
           Part001.Common (TimerEvt ClickBtn);
           Part001.Common (TimerEvt (Tick 0%nat));
           Part001.Narration (Part001.Click 0%nat);
           Part001.Common (VideoError "v1") ] a0 = Ok a'
    /\ part_ok Part001.ACTIVITY_STEPS a'
    /\ only_current_active (Part001.core (Part001.nav (Part001.page a'))).
Proof.
  destruct X16_nothing_throws_after_init as [_ H].
  destruct (H sample_parse Part001.ACTIVITY_STEPS _ (part_app 4 "full")
              [ Part001.Common (KeyDown (press "End"));
                Part001.Common (KeyDown (press "s"));
                Part001.Common ClickPrev;
                Part001.Common (TimerEvt ClickBtn);
                Part001.Common (TimerEvt (Tick 0%nat));
                Part001.Narration (Part001.Click 0%nat);
                Part001.Common (VideoError "v1") ]
              eq_refl (part_app_fresh 4 "full" ltac:(lia)) full_metadata_ok)
    as (a0 & a' & E & E' & Hok & Ho).
  exists a0, a'. split; [exact E|]. split; [exact E'|]. split; [exact Hok|].
  apply Ho, page_core_inactive.
Defined.


(** ** The narration beyond its claims *)

(** [highlight] changes at most one element, keeps every id and kind,
    and removes no highlight. *)
Lemma highlight_one (id : string) (l : list Part001.Card) :
  exists k, forall i, i <> k -> Part001.highlight id l !! i = l !! i.
Proof.
  induction l as [|c l [k IH]]; cbn [Part001.highlight].
  - exists 0%nat. auto.
  - destruct (String.eqb (Part001.card_id c) id).
    + exists 0%nat. intros [|i] Hi; [contradiction|reflexivity].
    + exists (S k). intros [|i] Hi; [reflexivity|]. cbn. apply IH. lia.
Qed.

Lemma highlight_keeps (id : string) (l : list Part001.Card) (i : nat)
    (c : Part001.Card) :
  l !! i = Some c ->
  exists c', Part001.highlight id l !! i = Some c'
    /\ Part001.card_id c' = Part001.card_id c
    /\ Part001.sowhat_card c' = Part001.sowhat_card c
    /\ (Part001.speaking c = true -> Part001.speaking c' = true).
Proof.
  revert i. induction l as [|x l IH]; intros i Hi; [discriminate|].
  cbn [Part001.highlight].
  destruct (String.eqb (Part001.card_id x) id).
  - destruct i as [|i]; cbn in Hi |- *.
    + injection Hi as <-. eexists. split; [reflexivity|]. auto.
    + exists c. auto.
  - destruct i as [|i]; cbn in Hi |- *.
    + injection Hi as <-. exists x. auto.
    + apply IH, Hi.
Qed.

Lemma highlight_hits (id : string) (l : list Part001.Card) (c : Part001.Card) :
  c ∈ l -> Part001.card_id c = id ->
  exists i c', Part001.highlight id l !! i = Some c'
    /\ Part001.card_id c' = id /\ Part001.speaking c' = true.
Proof.
  intros Hin Hid. induction l as [|x l IH]; [apply elem_of_nil in Hin; destruct Hin|].
  cbn [Part001.highlight].
  destruct (String.eqb_spec (Part001.card_id x) id) as [Hx|Hx].
  - exists 0%nat. eexists. split; [reflexivity|]. auto.
  - apply elem_of_cons in Hin as [->|Hin]; [contradiction|].
    destruct (IH Hin) as (i & c' & H1 & H2). exists (S i), c'. auto.
Qed.

(** What an event does to the elements a cue can name: nothing, the
    clearing of the highlights, or, for a cue callback, the clearing
    followed by one highlight. *)
Lemma narr_step_cards_plain (e : Part001.NarrEvent) (s : Part001.Narr) :
  (forall h, e <> Part001.Fire h) ->
  Part001.cards (Part001.narr_step e s) = Part001.cards s
  \/ Part001.cards (Part001.narr_step e s)
     = Part001.cards (Part001.clearHighlights s).
Proof.
  intros Hne. destruct e as [i|i dt|i|h]; cbn [Part001.narr_step].
  - unfold Part001.click. destruct (Part001.controls s !! i) as [c|]; [|auto].
    destruct (Part001.activeNarrate s) as [a|] eqn:Ha.
    + destruct (stopNarrate_spec s a Ha) as (_ & _ & Hc & _).
      destruct (bool_decide (Part001.btn a = i) && _); [auto|].
      right.
      destruct (playNarrate_spec i i (Part001.cues c) (Part001.stopNarrate s))
        as (_ & _ & Hp & _).
      rewrite Hp. exact Hc.
    + left.
      destruct (playNarrate_spec i i (Part001.cues c) s) as (_ & _ & Hp & _).
      exact Hp.
  - destruct (Part001.audio_paused i s); auto.
  - destruct (Part001.audio_paused i s); [auto|]. right. reflexivity.
  - elim (Hne h). reflexivity.
Qed.

Lemma narr_step_cards (e : Part001.NarrEvent) (s : Part001.Narr) :
  Part001.cards (Part001.narr_step e s) = Part001.cards s
  \/ Part001.cards (Part001.narr_step e s)
     = Part001.cards (Part001.clearHighlights s)
  \/ exists id,
       Part001.cards (Part001.narr_step e s)
       = Part001.highlight id (Part001.cards (Part001.clearHighlights s)).
Proof.
  destruct e as [i|i dt|i|h].
  1: destruct (narr_step_cards_plain (Part001.Click i) s) as [E|E];
       [discriminate|auto|auto].
  1: destruct (narr_step_cards_plain (Part001.Advance i dt) s) as [E|E];
       [discriminate|auto|auto].
  1: destruct (narr_step_cards_plain (Part001.Ended i) s) as [E|E];
       [discriminate|auto|auto].
  cbn [Part001.narr_step].
  destruct (Part001.pending h (Part001.timeouts s)) as [cue|]; [|auto].
  unfold Part001.cue_callback.
  destruct (String.eqb (Part001.cue_id cue) ""); [right; left; reflexivity|].
  right. right. exists (Part001.cue_id cue). reflexivity.
Qed.

Lemma clear_quiet_cards (s : Part001.Narr) (i : nat) (c : Part001.Card) :
  Part001.cards (Part001.clearHighlights s) !! i = Some c ->
  Part001.sowhat_card c = true -> Part001.speaking c = false.
Proof.
  rewrite clear_lookup. destruct (Part001.cards s !! i) as [x|]; [|discriminate].
  cbn. destruct (Part001.sowhat_card x) eqn:Hx; intros E; injection E as <-.
  - reflexivity.
  - congruence.
Qed.

(** X17.  In the narration revision no event changes which elements a
    cue can name, their ids or which of them are [.sowhat-card]s; and
    if at most one [.sowhat-card] is highlighted, then after every
    sequence of clicks, cue callbacks, playback progress and
    end-of-audio events at most one is.  Every event but a cue callback
    either leaves all elements as they were or leaves no [.sowhat-card]
    highlighted. *)
Theorem X17_at_most_one_card_is_highlighted :
  (forall es s, card_shape (Part001.narr_run es s) = card_shape s)
  /\ (forall es s, one_speaker s -> one_speaker (Part001.narr_run es s))
  /\ (forall e s, (forall h, e <> Part001.Fire h) ->
        Part001.cards (Part001.narr_step e s) = Part001.cards s
        \/ no_highlight (Part001.narr_step e s)).
Proof.
  assert (Hshape : forall e s, card_shape (Part001.narr_step e s) = card_shape s).
  { intros e s. unfold card_shape. apply list_eq. intros i.
    rewrite !list_lookup_fmap.
    assert (Hc : (fun c => (Part001.card_id c, Part001.sowhat_card c))
                 <$> Part001.cards (Part001.clearHighlights s) !! i
                 = (fun c => (Part001.card_id c, Part001.sowhat_card c))
                   <$> Part001.cards s !! i).
    { rewrite clear_lookup. destruct (Part001.cards s !! i) as [x|]; [|reflexivity].
      cbn. destruct (Part001.sowhat_card x) eqn:Hx; cbn; congruence. }
    destruct (narr_step_cards e s) as [->|[->|[id ->]]]; [reflexivity|exact Hc|].
    rewrite <- Hc.
    destruct (Part001.cards (Part001.clearHighlights s) !! i) as [x|] eqn:Hx.
    - destruct (highlight_keeps id _ i x Hx) as (c' & -> & H1 & H2 & _).
      cbn. congruence.
    - destruct (Part001.highlight id _ !! i) as [y|] eqn:Hy; [|reflexivity].
      apply lookup_lt_Some in Hy. apply lookup_ge_None in Hx.
      assert (Hlen : forall l, length (Part001.highlight id l) = length l).
      { induction l as [|z l IHl]; [reflexivity|]. cbn [Part001.highlight].
        destruct (String.eqb _ _); cbn; [reflexivity|]. rewrite IHl. reflexivity. }
      rewrite Hlen in Hy. lia. }
  assert (Hone : forall e s, one_speaker s -> one_speaker (Part001.narr_step e s)).
  { intros e s H1.
    destruct (narr_step_cards e s) as [E|[E|[id E]]]; unfold one_speaker; rewrite E.
    - exact H1.
    - intros i j ci cj Hi Hj Hsi Hpi _ _.
      rewrite (clear_quiet_cards s i ci Hi Hsi) in Hpi. discriminate.
    - destruct (highlight_one id (Part001.cards (Part001.clearHighlights s)))
        as [k Hk].
      assert (Hat : forall i c,
                Part001.highlight id (Part001.cards (Part001.clearHighlights s)) !! i
                = Some c ->
                Part001.sowhat_card c = true -> Part001.speaking c = true -> i = k).
      { intros i c Hi Hs Hp. destruct (decide (i = k)) as [|Hne]; [assumption|].
        rewrite (Hk i Hne) in Hi.
        rewrite (clear_quiet_cards s i c Hi Hs) in Hp. discriminate. }
      intros i j ci cj Hi Hj Hsi Hpi Hsj Hpj.
      rewrite (Hat i ci Hi Hsi Hpi), (Hat j cj Hj Hsj Hpj). reflexivity. }
  split.
  { intros es. induction es as [|e es IH]; intros s; [reflexivity|].
    cbn [Part001.narr_run foldl]. fold (Part001.narr_run es (Part001.narr_step e s)).
    rewrite IH. apply Hshape. }
  split.
  { intros es. induction es as [|e es IH]; intros s H1; [exact H1|].
    cbn [Part001.narr_run foldl]. fold (Part001.narr_run es (Part001.narr_step e s)).
    apply IH, Hone, H1. }
  intros e s Hne.
  destruct (narr_step_cards_plain e s Hne) as [E|E]; [auto|].
  right. intros c Hc Hs. rewrite E in Hc.
  apply list_elem_of_lookup in Hc as [k Hk].
  exact (clear_quiet_cards s k c Hk Hs).
Qed.

Lemma narr_page_one_speaker : one_speaker narr_page.
Proof.
  intros i j ci cj Hi _ _ Hp _ _. exfalso.
  destruct i as [|[|[|i]]]; cbn in Hi; try discriminate Hi;
    injection Hi as <-; discriminate Hp.
Qed.

(** Witness for X17: on the sample page, after button A was clicked, its
    two cues fired and button B was clicked, at most one card is
    highlighted. *)
Lemma X17_witness :
  one_speaker
    (Part001.narr_run
       [Part001.Click 0; Part001.Fire 0; Part001.Fire 1; Part001.Click 1]
       narr_page).
Proof.
  destruct X17_at_most_one_card_is_highlighted as (_ & H & _).
  apply H. exact narr_page_one_speaker.
Defined.

(** X18.  In the narration revision an element that is not a
    [.sowhat-card] and carries the class [speaking] keeps it through
    every event: [clearHighlights] only visits [.sowhat-card]s, so the
    highlight that a cue puts on any other element is never removed. *)
Theorem X18_highlight_outside_the_cards_stays :
  forall es s i c,
    Part001.cards s !! i = Some c ->
    Part001.sowhat_card c = false -> Part001.speaking c = true ->
    exists c', Part001.cards (Part001.narr_run es s) !! i = Some c'
      /\ Part001.card_id c' = Part001.card_id c
      /\ Part001.sowhat_card c' = false
      /\ Part001.speaking c' = true.
Proof.
  assert (Hclear : forall s i c,
            Part001.cards s !! i = Some c -> Part001.sowhat_card c = false ->
            Part001.cards (Part001.clearHighlights s) !! i = Some c).
  { intros s i c Hi Hs. rewrite clear_lookup, Hi. cbn. rewrite Hs. reflexivity. }
  assert (Hstep : forall e s i c,
            Part001.cards s !! i = Some c ->
            Part001.sowhat_card c = false -> Part001.speaking c = true ->
            exists c', Part001.cards (Part001.narr_step e s) !! i = Some c'
              /\ Part001.card_id c' = Part001.card_id c
              /\ Part001.sowhat_card c' = false
              /\ Part001.speaking c' = true).
  { intros e s i c Hi Hs Hp.
    destruct (narr_step_cards e s) as [->|[->|[id ->]]].
    - exists c. auto.
    - exists c. split; [exact (Hclear s i c Hi Hs)|auto].
    - destruct (highlight_keeps id _ i c (Hclear s i c Hi Hs))
        as (c' & H1 & H2 & H3 & H4).
      exists c'. split; [exact H1|]. split; [exact H2|].
      split; [congruence|auto]. }
  intros es. induction es as [|e es IH]; intros s i c Hi Hs Hp.
  - exists c. auto.
  - cbn [Part001.narr_run foldl]. fold (Part001.narr_run es (Part001.narr_step e s)).
    destruct (Hstep e s i c Hi Hs Hp) as (c1 & H1 & H2 & H3 & H4).
    destruct (IH _ i c1 H1 H3 H4) as (c' & G1 & G2 & G3 & G4).
    exists c'. split; [exact G1|]. split; [congruence|auto].
Qed.

(** Witness for X18: on the page whose cue names a plain element, the
    highlight of that element outlives the end of the narration and a
    second click. *)
Lemma X18_witness :
  exists c',
    Part001.cards
      (Part001.narr_run [Part001.Ended 0; Part001.Click 0; Part001.Click 0]
         (Part001.narr_run [Part001.Click 0; Part001.Fire 0] narr_plain_page))
    !! 0%nat = Some c'
    /\ Part001.card_id c' = "intro"
    /\ Part001.sowhat_card c' = false
    /\ Part001.speaking c' = true.
Proof.
  exact (X18_highlight_outside_the_cards_stays
           [Part001.Ended 0; Part001.Click 0; Part001.Click 0]
           (Part001.narr_run [Part001.Click 0; Part001.Fire 0] narr_plain_page)
           0%nat
           {| Part001.card_id := "intro"; Part001.sowhat_card := false;
              Part001.speaking := true |}
           eq_refl eq_refl eq_refl).
Defined.

(** X19.  In the narration revision, when the audio of the active button
    plays to its end, the [ended] listener puts the button back into its
    "Listen" state and leaves no [.sowhat-card] highlighted, and no audio
    plays; but it neither empties [activeNarrate] nor cancels the cue
    callbacks that are still pending.  So a cue that is scheduled later than the audio
    lasts still fires and highlights its element while nothing plays;
    and the next click on the same button finds the stale record with a
    paused audio, which makes it [stopNarrate] followed by [playNarrate]:
    the narration starts again from the beginning, and only then are the
    old callbacks cancelled. *)
Theorem X19_end_of_audio_leaves_the_record :
  forall s a c,
    narr_inv s -> Part001.activeNarrate s = Some a ->
    audio_playing (Part001.audio a) s ->
    Part001.controls s !! Part001.btn a = Some c ->
    let s' := Part001.narr_step (Part001.Ended (Part001.btn a)) s in
    (exists c', Part001.controls s' !! Part001.btn a = Some c'
       /\ Part001.paused c' = true
       /\ Part001.playing c' = false
       /\ Part001.innerHTML c' = Part001.LISTEN_ICON
       /\ Part001.currentTime c' = Part001.currentTime c)
    /\ no_highlight s'
    /\ (forall j, Part001.audio_paused j s' = true)
    /\ Part001.activeNarrate s' = Some a
    /\ Part001.timeouts s' = Part001.timeouts s
    /\ (forall h cue, Part001.pending h (Part001.timeouts s) = Some cue ->
          Part001.narr_step (Part001.Fire h) s'
          = Part001.cue_callback cue (Part001.clearTimeout h s')
          /\ (forall j,
                Part001.audio_paused j (Part001.narr_step (Part001.Fire h) s') = true)
          /\ (forall x, x ∈ Part001.cards s ->
                Part001.card_id x = Part001.cue_id cue ->
                Part001.cue_id cue <> "" ->
                highlighted (Part001.cue_id cue)
                  (Part001.narr_step (Part001.Fire h) s')))
    /\ Part001.click (Part001.btn a) s'
       = Part001.playNarrate (Part001.btn a) (Part001.btn a) (Part001.cues c)
           (Part001.stopNarrate s')
    /\ started (Part001.btn a) (Part001.click (Part001.btn a) s')
    /\ (forall h, h ∈ Part001.timers a ->
          Part001.pending h (Part001.timeouts (Part001.click (Part001.btn a) s'))
          = None).
Proof.
  intros s a c I Ha Hplay Hc s'.
  pose proof I as (I1 & I2 & I3 & I4).
  pose proof (I2 a Ha) as Hab. rewrite Hab in Hplay.
  set (i := Part001.btn a) in *.
  unfold audio_playing in Hplay.
  assert (Es' : s' = Part001.ended i
                       (Part001.set_controls
                          (alter Part001.browser_pause i (Part001.controls s)) s)).
  { unfold s'. cbn [Part001.narr_step]. rewrite Hplay. reflexivity. }
  assert (Hctl : Part001.controls s'
                 = alter (Part001.set_button false Part001.LISTEN_ICON) i
                     (alter Part001.browser_pause i (Part001.controls s))).
  { rewrite Es'. reflexivity. }
  assert (Hcards : Part001.cards s' = Part001.cards (Part001.clearHighlights s)).
  { rewrite Es'. reflexivity. }
  assert (Hact : Part001.activeNarrate s' = Some a) by (rewrite Es'; exact Ha).
  assert (Hto : Part001.timeouts s' = Part001.timeouts s) by (rewrite Es'; reflexivity).
  assert (Hnext : Part001.next_timeout s' = Part001.next_timeout s)
    by (rewrite Es'; reflexivity).
  assert (Hc' : Part001.controls s' !! i
                = Some (Part001.set_button false Part001.LISTEN_ICON
                          (Part001.browser_pause c))).
  { rewrite Hctl, !list_lookup_alter_eq, Hc. reflexivity. }
  assert (Hpaused : forall j, Part001.audio_paused j s' = true).
  { intros j. unfold Part001.audio_paused. rewrite Hctl.
    destruct (decide (j = i)) as [->|Hne].
    - rewrite !list_lookup_alter_eq, Hc. reflexivity.
    - rewrite !list_lookup_alter_ne by congruence.
      destruct (Part001.audio_paused j s) eqn:Hj.
      + unfold Part001.audio_paused in Hj. exact Hj.
      + destruct (I1 j Hj) as (a' & Ha' & Haj). rewrite Ha in Ha'.
        injection Ha' as <-. congruence. }
  assert (I' : narr_inv s') by (apply narr_step_inv, I).
  split.
  { eexists. split; [exact Hc'|]. cbn. auto. }
  split.
  { intros x Hx Hs. rewrite Hcards in Hx. apply list_elem_of_lookup in Hx as [k Hk].
    exact (clear_quiet_cards s k x Hk Hs). }
  split; [exact Hpaused|]. split; [exact Hact|]. split; [exact Hto|].
  split.
  { intros h cue Hp.
    assert (Efire : Part001.narr_step (Part001.Fire h) s'
                    = Part001.cue_callback cue (Part001.clearTimeout h s')).
    { cbn [Part001.narr_step]. rewrite Hto, Hp. reflexivity. }
    split; [exact Efire|]. rewrite Efire. split.
    - intros j. unfold Part001.cue_callback, Part001.audio_paused.
      destruct (String.eqb (Part001.cue_id cue) ""); narr_simpl; apply Hpaused.
    - intros x Hx Hid Hne. unfold highlighted, Part001.cue_callback.
      destruct (String.eqb_spec (Part001.cue_id cue) "") as [|_]; [contradiction|].
      narr_simpl. rewrite Hcards. narr_simpl.
      set (f := fun c0 : Part001.Card =>
                  if Part001.sowhat_card c0
                  then {| Part001.card_id := Part001.card_id c0;
                          Part001.sowhat_card := true;
                          Part001.speaking := false |}
                  else c0).
      apply (highlight_hits (Part001.cue_id cue) _ (f (f x))).
      + apply list_elem_of_fmap. exists (f x). split; [reflexivity|].
        apply list_elem_of_fmap. exists x. auto.
      + rewrite <- Hid. unfold f. destruct (Part001.sowhat_card x) eqn:Hx'; cbn;
          rewrite ?Hx'; reflexivity. }
  assert (Hclick : Part001.click i s'
            = Part001.playNarrate i i (Part001.cues c) (Part001.stopNarrate s')).
  { unfold Part001.click. rewrite Hc', Hact. fold i.
    rewrite bool_decide_eq_true_2 by reflexivity.
    rewrite Hab. fold i. rewrite (Hpaused i). reflexivity. }
  split; [exact Hclick|].
  destruct (stopNarrate_quiet s' a I' Hact) as (Q & Hn & Hlen & _ & _ & _).
  destruct (lookup_lt_is_Some_2 (Part001.controls (Part001.stopNarrate s')) i)
    as [c2 Hc2].
  { rewrite Hlen. apply lookup_lt_Some in Hc'. exact Hc'. }
  destruct (playNarrate_from_quiet i (Part001.cues c) _ c2 Q Hc2)
    as (_ & Hstart & _ & _ & Hto2 & _).
  rewrite Hclick. split; [exact Hstart|].
  intros h Hh.
  destruct (Part001.pending h _) as [cue|] eqn:E; [|reflexivity].
  apply pending_elem in E. rewrite Hto2, elem_of_reverse in E.
  apply elem_of_zip_l, elem_of_seq in E.
  specialize (I4 a Ha h Hh). lia.
Qed.

(** Witness for X19: on the sample page, button A plays to its end after
    its first cue; its record stays, its second cue then highlights
    [card2] while nothing plays, and a click on A starts it again. *)
Lemma X19_witness :
  Part001.activeNarrate (Part001.narr_step (Part001.Ended 0) narr_A_playing)
  = Some narr_A_record
  /\ highlighted "card2"
       (Part001.narr_step (Part001.Fire 1)
          (Part001.narr_step (Part001.Ended 0) narr_A_playing))
  /\ (forall j,
        Part001.audio_paused j
          (Part001.narr_step (Part001.Fire 1)
             (Part001.narr_step (Part001.Ended 0) narr_A_playing)) = true)
  /\ started 0
       (Part001.click 0 (Part001.narr_step (Part001.Ended 0) narr_A_playing)).
Proof.
  destruct (X19_end_of_audio_leaves_the_record narr_A_playing narr_A_record _
              narr_A_playing_inv eq_refl eq_refl eq_refl)
    as (_ & _ & _ & Hact & _ & Hfire & _ & Hstart & _).
  destruct (Hfire 1%nat _ eq_refl) as (_ & Hp & Hh).
  split; [exact Hact|]. split; [|split; [exact Hp|exact Hstart]].
  apply (Hh {| Part001.card_id := "card2"; Part001.sowhat_card := true;
               Part001.speaking := false |}).
  - change (Part001.cards narr_A_playing)
      with [ {| Part001.card_id := "card1"; Part001.sowhat_card := true;
                Part001.speaking := true |};
             {| Part001.card_id := "card2"; Part001.sowhat_card := true;
                Part001.speaking := false |};
             {| Part001.card_id := "card3"; Part001.sowhat_card := true;
                Part001.speaking := false |} ].
    rewrite !elem_of_cons. auto.
  - reflexivity.
  - discriminate.
Defined.


(** ** The cue attribute beyond its claim *)

(** X20.  [parseCues] reads back what was written: for every list of
    ids and offsets that contain neither a comma nor a colon, the
    attribute that joins the pairs [id:offset] by commas parses into one
    cue per pair, in order, with that id and with [parseFloat] of that
    offset as its start. *)
Theorem X20_parseCues_reads_back_the_pairs :
  forall l,
    Forall (fun p => plain_text p.1 /\ plain_text p.2) l ->
    Part001.parseCues (Some (format_cues l))
    = (fun p => {| Part001.cue_id := p.1;
                   Part001.cue_start := JsString.parseFloat (Some p.2) |}) <$> l.
Proof.
  intros [|p l] H; [reflexivity|].
  unfold format_cues.
  set (piece := fun q : string * string => q.1 +:+ ":" +:+ q.2) in *.
  change (piece <$> p :: l) with (piece p :: (piece <$> l)).
  assert (Hpieces : Forall (fun s => count_char "," s = 0%nat)
                      (piece p :: (piece <$> l))).
  { change (piece p :: (piece <$> l)) with (piece <$> (p :: l)).
    apply Forall_fmap. eapply Forall_impl; [exact H|].
    intros q [[H1 _] [H2 _]]. cbn. unfold piece.
    rewrite !count_char_app, H1, H2. reflexivity. }
  pose proof (split_concat _ _ Hpieces) as Hs.
  assert (Hne : String.concat "," (piece p :: (piece <$> l)) <> EmptyString).
  { intros E. rewrite E in Hs. cbn in Hs. injection Hs as Hp _.
    inversion H as [|? ? [[_ Hid] _] _]; subst.
    pose proof (count_char_app ":" p.1 (":" +:+ p.2)) as Hc.
    unfold piece in Hp. rewrite <- Hp in Hc.
    change (":" +:+ p.2) with (String ":" p.2) in Hc. cbn in Hc. lia. }
  rewrite (parseCues_segments _ Hne), Hs. cbn [fst snd].
  change (piece p :: (piece <$> l)) with (piece <$> (p :: l)).
  assert (Hmap : forall l0,
            Forall (fun p => plain_text p.1 /\ plain_text p.2) l0 ->
            List.map cue_of_segment (piece <$> l0)
            = (fun p => {| Part001.cue_id := p.1;
                           Part001.cue_start := JsString.parseFloat (Some p.2) |})
              <$> l0).
  { intros l0 H0. induction H0 as [|q l0 [Hq1 Hq2] _ IH]; [reflexivity|].
    cbn [fmap list_fmap List.map] in *.
    f_equal; [exact (cue_of_pair _ _ Hq1 Hq2)|exact IH]. }
  exact (Hmap _ H).
Qed.

(** Witness for X20: the attribute of button A of the sample page. *)
Lemma X20_witness :
  Part001.parseCues (Some (format_cues [("card1", "0"); ("card2", "2.5")]))
  = [ {| Part001.cue_id := "card1";
         Part001.cue_start := JsString.parseFloat (Some "0") |};
      {| Part001.cue_id := "card2";
         Part001.cue_start := JsString.parseFloat (Some "2.5") |} ].
Proof.
  apply (X20_parseCues_reads_back_the_pairs [("card1", "0"); ("card2", "2.5")]).
  repeat (apply Forall_cons; split; [split; split; reflexivity|]).
  apply Forall_nil. exact I.
Defined.
